(** * Error-monitor: the error-to-fix decision engine

    A shallow embedding of the TypeScript services
    - [StackTraceParserService]  (src/services/StackTraceParserService.ts),
    - [RepositoryFinderService]  (src/services/RepositoryFinderService.ts),
    - [BugFixOrchestratorService] and the models it uses,
    - the in-memory adapters ([MockDevOpsAdapter], [MockDynamoDBAdapter],
      [MockGitHubAdapter], [MockOzAdapter]) and [OzAdapter],
    together with the properties of the specification that concern them
    and further properties of the code.

    Conventions of the embedding.
    - A JavaScript string is a list of code units.  Code units are
      restricted to the Latin-1 range and represented by [ascii]; the
      character classes of the regular expressions ([\s], [\w], [\d], [.])
      are the ECMAScript ones cut down to that range.
    - A JavaScript number that holds a line number, a ticket id or a
      percentage is a natural number ([N]); the embedding does not model
      the rounding of integers above 2^53.
    - [undefined]/[null] are [None].
    - An [async] method is a state-passing function over the state of the
      external systems; [await] is sequencing; a rejected promise or a
      [throw] is the [Throw] result. *)

From Stdlib Require Import Ascii String.
From Stdlib Require Import List Bool Arith NArith Lia.
From Stdlib Require Import DecimalString.
From Stdlib Require DecimalN DecimalFacts.
Import ListNotations.

Set Implicit Arguments.

Local Open Scope list_scope.
Local Open Scope bool_scope.

(** ** JavaScript strings *)

Definition str := list ascii.

Definition lit (s : string) : str := list_ascii_of_string s.

Arguments lit : simpl never.

Module JsString.

Definition eqb (a b : str) : bool :=
  if list_eq_dec ascii_dec a b then true else false.

(** Truthiness of a string value: the empty string is falsy. *)
Definition truthy (s : str) : bool :=
  match s with [] => false | _ => true end.

(** Truthiness of [string | undefined]. *)
Definition truthy_opt (o : option str) : bool :=
  match o with Some s => truthy s | None => false end.

Fixpoint starts_with (p s : str) : bool :=
  match p, s with
  | [], _ => true
  | a :: p', b :: s' => Ascii.eqb a b && starts_with p' s'
  | _ :: _, [] => false
  end.

(** [s.includes(p)] *)
Fixpoint includes (p s : str) : bool :=
  starts_with p s ||
  match s with
  | [] => false
  | _ :: s' => includes p s'
  end.

(** [s.split(c)] for a one-character separator: never empty. *)
Fixpoint split (c : ascii) (s : str) : list str :=
  match s with
  | [] => [[]]
  | a :: s' =>
      if Ascii.eqb a c then [] :: split c s'
      else match split c s' with
           | [] => [[a]]
           | w :: ws => (a :: w) :: ws
           end
  end.

(** [parts.join(sep)] *)
Fixpoint join (sep : str) (parts : list str) : str :=
  match parts with
  | [] => []
  | [p] => p
  | p :: ps => p ++ sep ++ join sep ps
  end.

(** White space and line terminators below U+0100: TAB, LF, VT, FF, CR,
    SPACE and NO-BREAK SPACE. *)
Definition is_space (a : ascii) : bool :=
  let n := nat_of_ascii a in
  ((9 <=? n) && (n <=? 13)) || (n =? 32) || (n =? 160).

Fixpoint trim_start (s : str) : str :=
  match s with
  | a :: s' => if is_space a then trim_start s' else s
  | [] => []
  end.

Definition trim_end (s : str) : str := rev (trim_start (rev s)).

(** [s.trim()] *)
Definition trim (s : str) : str := trim_end (trim_start s).

Definition is_digit (a : ascii) : bool :=
  let n := nat_of_ascii a in (48 <=? n) && (n <=? 57).

Definition is_word (a : ascii) : bool :=
  let n := nat_of_ascii a in
  ((48 <=? n) && (n <=? 57)) || ((65 <=? n) && (n <=? 90))
  || ((97 <=? n) && (n <=? 122)) || (n =? 95).

Definition digit_val (a : ascii) : N := N.of_nat (nat_of_ascii a - 48).

Fixpoint digits_from (acc : N) (s : str) : N :=
  match s with
  | a :: s' => if is_digit a then digits_from (10 * acc + digit_val a) s' else acc
  | [] => acc
  end.

(** [parseInt(s, 10)] on text without a sign: leading white space is
    skipped, the longest prefix of decimal digits is read, and the
    result is NaN ([None]) when there is no digit. *)
Definition parseInt (s : str) : option N :=
  match trim_start s with
  | (a :: _) as t => if is_digit a then Some (digits_from 0 t) else None
  | [] => None
  end.

(** [s.toLowerCase()] on Latin-1: A-Z and the accented capitals
    U+00C0..U+00DE (U+00D7 excepted) move up by 32. *)
Definition lower_char (a : ascii) : ascii :=
  let n := nat_of_ascii a in
  if ((65 <=? n) && (n <=? 90))
     || ((192 <=? n) && (n <=? 222) && negb (n =? 215))
  then ascii_of_nat (n + 32) else a.

Definition toLowerCase (s : str) : str := map lower_char s.

(** [String(n)] for a non-negative integer. *)
Definition of_N (n : N) : str := lit (NilZero.string_of_uint (N.to_uint n)).

(** [s.slice(0, n)] *)
Definition slice0 (n : nat) (s : str) : str := firstn n s.

End JsString.

(** ** Regular expressions

    The backtracking matcher of ECMAScript, for the operators the source
    uses.  Alternatives are tried left to right, quantifiers are greedy,
    an iteration of [*] that consumes nothing is rejected, and capture
    groups are recorded along the successful path. *)

Module Regex.

Inductive re : Type :=
| Eps
| Chr (p : ascii -> bool)
| Seq (a b : re)
| Alt (a b : re)
| Star (a : re)
| Group (i : nat) (a : re)
| Eos.

Definition Plus (a : re) : re := Seq a (Star a).
Definition Opt (a : re) : re := Alt a Eps.

Definition char (c : ascii) : re := Chr (Ascii.eqb c).

Fixpoint lits (s : str) : re :=
  match s with
  | [] => Eps
  | [c] => char c
  | c :: s' => Seq (char c) (lits s')
  end.

Definition text (s : string) : re := lits (lit s).

Fixpoint seqs (rs : list re) : re :=
  match rs with
  | [] => Eps
  | [r] => r
  | r :: rs' => Seq r (seqs rs')
  end.

Fixpoint alts (rs : list re) : re :=
  match rs with
  | [] => Eps
  | [r] => r
  | r :: rs' => Alt r (alts rs')
  end.

(** Character classes. *)
Definition cls_s : ascii -> bool := JsString.is_space.
Definition cls_w : ascii -> bool := JsString.is_word.
Definition cls_d : ascii -> bool := JsString.is_digit.
(** [.] excludes the line terminators LF and CR. *)
Definition cls_dot (a : ascii) : bool :=
  negb (Ascii.eqb a "010"%char) && negb (Ascii.eqb a "013"%char).
Definition one_of (s : string) (a : ascii) : bool :=
  existsb (Ascii.eqb a) (lit s).
Definition none_of (s : string) (a : ascii) : bool := negb (one_of s a).
Definition cls_or (p q : ascii -> bool) (a : ascii) : bool := p a || q a.
Definition cls_not (p : ascii -> bool) (a : ascii) : bool := negb (p a).

(** Captures: group number and captured text, most recent first. *)
Definition caps := list (nat * str).

Fixpoint cap (i : nat) (c : caps) : option str :=
  match c with
  | [] => None
  | (j, s) :: c' => if Nat.eqb i j then Some s else cap i c'
  end.

Section Matcher.
Variable R : Type.

(** The loop of a greedy [*]: [step] matches the body once.  An
    iteration must consume something; [n] bounds the iterations and is
    the length of the input, which is never exceeded. *)
Fixpoint star_loop (step : str -> caps -> (str -> caps -> option R) -> option R)
         (k : str -> caps -> option R) (n : nat) (s : str) (c : caps)
  : option R :=
  match n with
  | O => k s c
  | S n' =>
      match step s c (fun s1 c1 =>
                        if length s1 <? length s
                        then star_loop step k n' s1 c1 else None) with
      | Some x => Some x
      | None => k s c
      end
  end.

(** [m r s c k]: match [r] at the head of [s] with the captures [c], then
    continue with [k] on what is left; [None] makes the matcher
    backtrack. *)
Fixpoint m (r : re) (s : str) (c : caps)
         (k : str -> caps -> option R) {struct r} : option R :=
  match r with
  | Eps => k s c
  | Chr p =>
      match s with
      | a :: s' => if p a then k s' c else None
      | [] => None
      end
  | Seq a b => m a s c (fun s1 c1 => m b s1 c1 k)
  | Alt a b =>
      match m a s c k with
      | Some x => Some x
      | None => m b s c k
      end
  | Star a => star_loop (m a) k (length s) s c
  | Group i a =>
      m a s c (fun s1 c1 =>
                 k s1 ((i, firstn (length s - length s1) s) :: c1))
  | Eos =>
      match s with
      | [] => k s c
      | _ :: _ => None
      end
  end.
End Matcher.

(** A regular expression object: [anchored] stands for a leading [^]
    (no [m] flag), [body] for what follows it. *)
Record RegExp : Type := { anchored : bool; body : re }.

Definition rx (r : re) : RegExp := {| anchored := false; body := r |}.
Definition rx_bos (r : re) : RegExp := {| anchored := true; body := r |}.

(** A match: the text before it, the matched text, the text after it and
    the capture groups. *)
Record Match : Type :=
  { before : str; matched : str; after : str; groups : caps }.

Definition match_here (r : re) (pre s : str) : option Match :=
  m r s [] (fun s1 c1 =>
    Some {| before := rev pre;
            matched := firstn (length s - length s1) s;
            after := s1; groups := c1 |}).

(** Leftmost match at or after the current position; [pre] is the text
    already skipped, in reverse. *)
Fixpoint search_from (r : re) (pre s : str) : option Match :=
  match match_here r pre s with
  | Some x => Some x
  | None =>
      match s with
      | [] => None
      | a :: s' => search_from r (a :: pre) s'
      end
  end.

(** [s.match(re)] / [re.exec(s)] for a regular expression without the
    [g] flag. *)
Definition exec (r : RegExp) (s : str) : option Match :=
  if anchored r then match_here (body r) [] s
  else search_from (body r) [] s.

(** [re.test(s)] *)
Definition test (r : RegExp) (s : str) : bool :=
  match exec r s with Some _ => true | None => false end.

Definition group (i : nat) (x : Match) : option str := cap i (groups x).

(** Successive matches of a [g]-flagged expression over one string, as
    the loop [while ((match = re.exec(line)) !== null)] sees them.  The
    expression of the source cannot match the empty string, so the
    search resumes strictly after the previous match. *)
Fixpoint exec_all (fuel : nat) (r : re) (s : str) : list Match :=
  match fuel with
  | O => []
  | S fuel' =>
      match search_from r [] s with
      | None => []
      | Some x =>
          x :: (if length (after x) <? length s
                then exec_all fuel' r (after x) else [])
      end
  end.

(** [s.replace(re, '')] for an expression without the [g] flag. *)
Definition remove_first (r : RegExp) (s : str) : str :=
  match exec r s with
  | Some x => before x ++ after x
  | None => s
  end.

End Regex.

(** ** Models: the parsed stack trace (models/StackTrace.ts) *)

Inductive ProgrammingLanguage : Type :=
| typescript | javascript | python | go | java | csharp | ruby | rust
| unknown.

Definition language_name (l : ProgrammingLanguage) : str :=
  match l with
  | typescript => lit "typescript"
  | javascript => lit "javascript"
  | python => lit "python"
  | go => lit "go"
  | java => lit "java"
  | csharp => lit "csharp"
  | ruby => lit "ruby"
  | rust => lit "rust"
  | unknown => lit "unknown"
  end.

Record StackFrame : Type :=
  { filePath : str;
    lineNumber : option N;
    columnNumber : option N;
    functionName : option str;
    className : option str;
    isUserCode : bool;
    frame_repository : option str }.

Record StackTrace : Type :=
  { raw : str;
    frames : list StackFrame;
    language : ProgrammingLanguage;
    st_errorMessage : str;
    errorType : option str }.

(** ** StackTraceParserService *)

Module StackTraceParserService.
Import Regex.

Definition dquote : ascii := "034"%char.
Definition newline : ascii := "010"%char.

Definition ws1 : re := Plus (Chr cls_s).
Definition word1 : re := Plus (Chr cls_w).
Definition digits1 : re := Plus (Chr cls_d).
Definition any0 : re := Star (Chr cls_dot).

(** [/at\s+.*\s+\(.*\.(?:ts|js|tsx|jsx):\d+:\d+\)/] *)
Definition re_ecma : RegExp :=
  rx (seqs [text "at"; ws1; any0; ws1; char "("; any0; char ".";
            alts [text "ts"; text "js"; text "tsx"; text "jsx"];
            char ":"; digits1; char ":"; digits1; char ")"]).

(** [/File Q.*\.pyQ, line \d+/], where Q stands for the double quote *)
Definition re_python : RegExp :=
  rx (seqs [text "File "; char dquote; any0; text ".py"; char dquote;
            text ", line "; digits1]).

(** [/\.go:\d+/] and [/goroutine/] *)
Definition re_go_file : RegExp := rx (seqs [text ".go:"; digits1]).
Definition re_goroutine : RegExp := rx (text "goroutine").

(** [/at\s+[\w.]+\([\w.]+\.java:\d+\)/] *)
Definition re_java : RegExp :=
  rx (seqs [text "at"; ws1; Plus (Chr (cls_or cls_w (one_of ".")));
            char "("; Plus (Chr (cls_or cls_w (one_of ".")));
            text ".java:"; digits1; char ")"]).

(** [/at\s+[\w.]+\s+in\s+.*\.cs:line\s+\d+/] *)
Definition re_csharp : RegExp :=
  rx (seqs [text "at"; ws1; Plus (Chr (cls_or cls_w (one_of ".")));
            ws1; text "in"; ws1; any0; text ".cs:line"; ws1; digits1]).

(** [/\.rb:\d+:in `/] *)
Definition re_ruby : RegExp :=
  rx (seqs [text ".rb:"; digits1; text ":in `"]).

(** [/\.rs:\d+:\d+/] and [/thread '.*' panicked/] *)
Definition re_rust_file : RegExp :=
  rx (seqs [text ".rs:"; digits1; char ":"; digits1]).
Definition re_rust_panic : RegExp :=
  rx (seqs [text "thread '"; any0; text "' panicked"]).

(** [detectLanguage] *)
Definition detectLanguage (stackTrace : str) : ProgrammingLanguage :=
  if test re_ecma stackTrace then
    if JsString.includes (lit ".ts") stackTrace then typescript else javascript
  else if test re_python stackTrace then python
  else if test re_go_file stackTrace && test re_goroutine stackTrace then go
  else if test re_java stackTrace then java
  else if test re_csharp stackTrace then csharp
  else if test re_ruby stackTrace then ruby
  else if test re_rust_file stackTrace && test re_rust_panic stackTrace then rust
  else unknown.

(** [isUserCode]: none of the library patterns occurs in the path. *)
Definition libraryPatterns : list RegExp :=
  map (fun s => rx (text s))
      ["node_modules"; "site-packages"; "vendor"; ".gem"; "dist-packages";
       "internal/"; "<anonymous>"; "native"]%string.

Definition isUserCodePath (path : str) : bool :=
  negb (existsb (fun pattern => test pattern path) libraryPatterns).

(** [x ? parseInt(x, 10) : undefined] for a capture [x]. *)
Definition parse_num (x : option str) : option N :=
  match x with
  | Some s => if JsString.truthy s then JsString.parseInt s else None
  | None => None
  end.

(** [x ?? ''] *)
Definition or_empty (x : option str) : str :=
  match x with Some s => s | None => [] end.

(** [/at\s+(?:(?:(\w+(?:\.\w+)* )\.)?(\w+)\s+)?\(?([^():]+\.(?:ts|js|tsx|jsx|mjs|cjs)):(\d+):(\d+)\)?/]
    (a blank follows the inner star here, not in the source) *)
Definition re_ecma_frame : RegExp :=
  rx (seqs
        [text "at"; ws1;
         Opt (seqs [Opt (Seq (Group 1 (Seq word1
                                           (Star (Seq (char ".") word1))))
                             (char "."));
                    Group 2 word1; ws1]);
         Opt (char "(");
         Group 3 (seqs [Plus (Chr (none_of "():")); char ".";
                        alts [text "ts"; text "js"; text "tsx"; text "jsx";
                              text "mjs"; text "cjs"]]);
         char ":"; Group 4 digits1; char ":"; Group 5 digits1;
         Opt (char ")")]).

(** One iteration of the loop of [parseJavaScriptFrames]. *)
Definition ecma_frame_of_line (line : str) : option StackFrame :=
  match exec re_ecma_frame line with
  | Some mt =>
      Some {| filePath := or_empty (group 3 mt);
              lineNumber := parse_num (group 4 mt);
              columnNumber := parse_num (group 5 mt);
              functionName := group 2 mt;
              className := group 1 mt;
              isUserCode := isUserCodePath (or_empty (group 3 mt));
              frame_repository := None |}
  | None => None
  end.

(** Collects the frames of the lines that produce one, in order. *)
Fixpoint collect (f : str -> option StackFrame) (lines : list str)
  : list StackFrame :=
  match lines with
  | [] => []
  | line :: rest =>
      match f line with
      | Some fr => fr :: collect f rest
      | None => collect f rest
      end
  end.

Definition parseJavaScriptFrames (stackTrace : str) : list StackFrame :=
  collect ecma_frame_of_line (JsString.split newline stackTrace).

(** [/File Q([^Q]+\.py)Q, line (\d+)(?:, in (\w+))?/], where Q stands for
    the double quote *)
Definition re_python_frame : RegExp :=
  rx (seqs [text "File "; char dquote;
            Group 1 (seqs [Plus (Chr (cls_not (Ascii.eqb dquote)));
                           text ".py"]);
            char dquote; text ", line "; Group 2 digits1;
            Opt (seqs [text ", in "; Group 3 word1])]).

Definition python_frame_of_line (line : str) : option StackFrame :=
  match exec re_python_frame line with
  | Some mt =>
      Some {| filePath := or_empty (group 1 mt);
              lineNumber := parse_num (group 2 mt);
              columnNumber := None;
              functionName := group 3 mt;
              className := None;
              isUserCode := isUserCodePath (or_empty (group 1 mt));
              frame_repository := None |}
  | None => None
  end.

Definition parsePythonFrames (stackTrace : str) : list StackFrame :=
  collect python_frame_of_line (JsString.split newline stackTrace).

(** [/([^\s]+\.go):(\d+)/] and [/^(\w+(?:\.\w+)* )\(.*\)$/]
    (a blank follows the first star here, not in the source) *)
Definition re_go_frame : RegExp :=
  rx (seqs [Group 1 (seqs [Plus (Chr (cls_not cls_s)); text ".go"]);
            char ":"; Group 2 digits1]).
Definition re_go_func : RegExp :=
  rx_bos (seqs [Group 1 (Seq word1 (Star (Seq (char ".") word1)));
                char "("; any0; char ")"; Eos]).

(** [parts.pop()] and the array left behind. *)
Definition pop (parts : list str) : option str * list str :=
  match rev parts with
  | [] => (None, [])
  | x :: r => (Some x, rev r)
  end.

(** The loop of [parseGoFrames]: the state is the frames pushed so far
    (most recent first) and [currentFunction]. *)
Definition go_step (st : list StackFrame * option str) (line : str)
  : list StackFrame * option str :=
  let '(acc, currentFunction) := st in
  match exec re_go_func (JsString.trim line) with
  | Some fm => (acc, group 1 fm)
  | None =>
      match exec re_go_frame line with
      | Some mt =>
          let parts := match currentFunction with
                       | Some f => JsString.split "." f
                       | None => []
                       end in
          let '(last, parts') := pop parts in
          ({| filePath := or_empty (group 1 mt);
              lineNumber := parse_num (group 2 mt);
              columnNumber := None;
              functionName := last;
              className := Some (JsString.join (lit ".") parts');
              isUserCode := isUserCodePath (or_empty (group 1 mt));
              frame_repository := None |} :: acc, None)
      | None => (acc, currentFunction)
      end
  end.

Definition parseGoFrames (stackTrace : str) : list StackFrame :=
  rev (fst (fold_left go_step (JsString.split newline stackTrace) ([], None))).

(** [/at\s+([\w.$]+)\.([\w$<>]+)\(([\w.]+):(\d+)\)/] *)
Definition re_java_frame : RegExp :=
  rx (seqs [text "at"; ws1;
            Group 1 (Plus (Chr (cls_or cls_w (one_of ".$"))));
            char ".";
            Group 2 (Plus (Chr (cls_or cls_w (one_of "$<>"))));
            char "(";
            Group 3 (Plus (Chr (cls_or cls_w (one_of "."))));
            char ":"; Group 4 digits1; char ")"]).

Definition java_frame_of_line (line : str) : option StackFrame :=
  match exec re_java_frame line with
  | Some mt =>
      Some {| filePath := or_empty (group 3 mt);
              lineNumber := parse_num (group 4 mt);
              columnNumber := None;
              functionName := group 2 mt;
              className := group 1 mt;
              isUserCode := isUserCodePath (or_empty (group 1 mt));
              frame_repository := None |}
  | None => None
  end.

Definition parseJavaFrames (stackTrace : str) : list StackFrame :=
  collect java_frame_of_line (JsString.split newline stackTrace).

(** [/([^\s:()]+\.\w+):(\d+)/g] *)
Definition re_generic_frame : re :=
  seqs [Group 1 (seqs [Plus (Chr (fun a => negb (cls_s a || one_of ":()" a)));
                       char "."; word1]);
        char ":"; Group 2 digits1].

(** The body of the inner [while] loop of [parseGenericFrames]. *)
Definition generic_push (acc : list StackFrame) (mt : Match)
  : list StackFrame :=
  match group 1 mt with
  | Some fp =>
      if JsString.truthy fp
         && negb (existsb (fun f => JsString.eqb (filePath f) fp) acc)
      then acc ++ [{| filePath := fp;
                      lineNumber := parse_num (group 2 mt);
                      columnNumber := None;
                      functionName := None;
                      className := None;
                      isUserCode := isUserCodePath fp;
                      frame_repository := None |}]
      else acc
  | None => acc
  end.

Definition generic_line (acc : list StackFrame) (line : str)
  : list StackFrame :=
  fold_left generic_push (exec_all (S (length line)) re_generic_frame line) acc.

Definition parseGenericFrames (stackTrace : str) : list StackFrame :=
  fold_left generic_line (JsString.split newline stackTrace) [].

(** [parseFrames] *)
Definition parseFrames (stackTrace : str) (l : ProgrammingLanguage)
  : list StackFrame :=
  match l with
  | typescript | javascript => parseJavaScriptFrames stackTrace
  | python => parsePythonFrames stackTrace
  | go => parseGoFrames stackTrace
  | java => parseJavaFrames stackTrace
  | _ => parseGenericFrames stackTrace
  end.

(** [/^(\w+Error):\s*(.+)$/] *)
Definition re_js_error : RegExp :=
  rx_bos (seqs [Group 1 (seqs [word1; text "Error"]); char ":";
                Star (Chr cls_s); Group 2 (Plus (Chr cls_dot)); Eos]).

(** [/^([\w.]+Error|[\w.]+Exception):\s*(.+)$/] *)
Definition re_py_error : RegExp :=
  rx_bos (seqs [Group 1 (Alt (seqs [Plus (Chr (cls_or cls_w (one_of ".")));
                                    text "Error"])
                             (seqs [Plus (Chr (cls_or cls_w (one_of ".")));
                                    text "Exception"]));
                char ":"; Star (Chr cls_s); Group 2 (Plus (Chr cls_dot)); Eos]).

(** [stackTrace.split('\n')[0]?.trim() ?? ''] *)
Definition firstLine (stackTrace : str) : str :=
  match JsString.split newline stackTrace with
  | l :: _ => JsString.trim l
  | [] => []
  end.

(** [a ?? b ?? ''] *)
Definition first_defined (a b : option str) : str :=
  match a with
  | Some x => x
  | None => or_empty b
  end.

(** [extractErrorInfo]: the message and the type. *)
Definition extractErrorInfo (stackTrace : str) (providedMessage : option str)
  : str * option str :=
  let fl := firstLine stackTrace in
  match exec re_js_error fl with
  | Some jsMatch =>
      (first_defined (group 2 jsMatch) providedMessage, group 1 jsMatch)
  | None =>
      match exec re_py_error fl with
      | Some pyMatch =>
          (first_defined (group 2 pyMatch) providedMessage, group 1 pyMatch)
      | None =>
          (match providedMessage with Some p => p | None => fl end, None)
      end
  end.

(** [parse] *)
Definition parse (rawStackTrace : str) (errorMessage : option str)
  : StackTrace :=
  let language := detectLanguage rawStackTrace in
  let frames := parseFrames rawStackTrace language in
  let '(message, type) := extractErrorInfo rawStackTrace errorMessage in
  {| raw := rawStackTrace;
     frames := frames;
     language := language;
     st_errorMessage := message;
     errorType := type |}.

End StackTraceParserService.

(** ** Models: error records, tickets, results *)

(** [AuditLogError].  [severity] holds the value read from the audit
    store: the store adapter casts the stored string to [ErrorSeverity]
    without checking it, so the field is a string here. *)
Record AuditLogError : Type :=
  { id : str;
    timestamp : str;
    message : str;
    stackTrace : str;
    severity : str;
    source : str;
    environment : str;
    commitSha : option str;
    repository : option str;
    processed : bool;
    metadata : option (list (str * str)) }.

Record AuditLogErrorFilter : Type :=
  { f_processed : option bool;
    f_severity : option (list str);
    f_source : option str;
    f_since : option str;
    f_limit : option N }.

(** [mapErrorSeverityToBugPriority] (models/BugWorkItem.ts) *)
Definition mapErrorSeverityToBugPriority (severity : str) : N :=
  if JsString.eqb severity (lit "critical") then 1
  else if JsString.eqb severity (lit "error") then 2
  else if JsString.eqb severity (lit "warning") then 3
  else if JsString.eqb severity (lit "info") then 4
  else 2.

(** [mapErrorSeverityToBugSeverity] (models/BugWorkItem.ts) *)
Definition mapErrorSeverityToBugSeverity (severity : str) : str :=
  if JsString.eqb severity (lit "critical") then lit "1 - Critical"
  else if JsString.eqb severity (lit "error") then lit "2 - High"
  else if JsString.eqb severity (lit "warning") then lit "3 - Medium"
  else if JsString.eqb severity (lit "info") then lit "4 - Low"
  else lit "2 - High".

Record CreateBugInput : Type :=
  { cb_title : str;
    cb_description : str;
    cb_reproSteps : option str;
    cb_systemInfo : option str;
    cb_priority : option N;
    cb_severity : option str;
    cb_tags : option (list str);
    cb_assignedTo : option str;
    cb_areaPath : option str;
    cb_iterationPath : option str;
    cb_relatedErrorId : str }.

Record BugWorkItem : Type :=
  { wi_id : option N;
    wi_title : str;
    wi_description : str;
    wi_reproSteps : option str;
    wi_systemInfo : option str;
    wi_priority : N;
    wi_severity : str;
    wi_tags : option (list str);
    wi_assignedTo : option str;
    wi_areaPath : option str;
    wi_iterationPath : option str;
    wi_relatedErrorId : str;
    wi_bugBranch : option str;
    wi_pullRequestUrl : option str }.

Inductive ChangeType : Type := added | modified | deleted.

Record ModifiedFile : Type :=
  { mf_path : str;
    changeType : ChangeType;
    linesAdded : N;
    linesRemoved : N }.

(** [FixResult] (models/FixResult.ts) *)
Record FixResult : Type :=
  { success : bool;
    errorId : str;
    fr_repository : str;
    branch : str;
    modifiedFiles : list ModifiedFile;
    pullRequestUrl : option str;
    pullRequestNumber : option N;
    workItemId : option N;
    fixSummary : str;
    ozRunId : option str;
    errorMessage : option str;
    fr_timestamp : str }.

Inductive FixWorkflowStage : Type :=
| initializing
| parsing_error
| finding_repository
| creating_work_item
| creating_branch
| running_oz_agent
| creating_pull_request
| notifying_team
| completed
| failed.

Definition stage_name (s : FixWorkflowStage) : str :=
  match s with
  | initializing => lit "initializing"
  | parsing_error => lit "parsing_error"
  | finding_repository => lit "finding_repository"
  | creating_work_item => lit "creating_work_item"
  | creating_branch => lit "creating_branch"
  | running_oz_agent => lit "running_oz_agent"
  | creating_pull_request => lit "creating_pull_request"
  | notifying_team => lit "notifying_team"
  | completed => lit "completed"
  | failed => lit "failed"
  end.

Record FixWorkflowStatus : Type :=
  { stage : FixWorkflowStage;
    progress : N;
    ws_message : str;
    startTime : str;
    endTime : option str;
    ws_error : option str }.

(** [RepositoryInfo] (services/RepositoryFinderService.ts) *)
Record RepositoryInfo : Type :=
  { owner : str;
    name : str;
    fullName : str;
    url : str;
    defaultBranch : str }.

(** ** What the collaborators exchange with the core *)

(** The record returned by [IGitHubAdapter.getRepository]. *)
Record RepoData : Type :=
  { rd_defaultBranch : str; rd_fullName : str; rd_url : str }.

(** An element of the array returned by [IGitHubAdapter.searchRepositories]. *)
Record SearchHit : Type :=
  { sh_owner : str; sh_name : str; sh_fullName : str; sh_url : str }.

Record PullRequestParams : Type :=
  { pr_owner : str; pr_repo : str; pr_title : str; pr_body : str;
    pr_head : str; pr_base : str; pr_draft : option bool }.

Record PullRequest : Type := { pr_url : str; pr_number : N }.

Record FixBugParams : Type :=
  { fb_errorMessage : str;
    fb_stackTrace : StackTrace;
    fb_repository : str;
    fb_branch : str;
    fb_context : option str;
    fb_environmentId : option str }.

Record OzFixResult : Type :=
  { runId : str;
    oz_success : bool;
    summary : str;
    filesModified : list str;
    oz_commitSha : option str;
    oz_error : option str;
    durationMs : N }.

Record PRNotification : Type :=
  { pn_teamId : str; pn_channelId : str; pn_prUrl : str; pn_prTitle : str;
    pn_repository : str; pn_bugTitle : str; pn_workItemId : option N;
    pn_fixSummary : str }.

Record ErrorNotification : Type :=
  { en_teamId : str; en_channelId : str; en_errorMessage : str;
    en_errorId : str; en_stage : str }.

Record ProcessedMetadata : Type :=
  { pm_workItemId : option N; pm_pullRequestUrl : str; pm_branch : str;
    pm_ozRunId : str }.

Record FixInfo : Type :=
  { fi_workItemId : option N; fi_pullRequestUrl : option str;
    fi_branch : option str; fi_fixedAt : option str }.

(** ** Effects *)

(** A thrown [Error]: what the core reads of it is [message]. *)
Record JsError : Type := { err_message : str }.

Inductive result (A : Type) : Type :=
| Ok (a : A)
| Throw (e : JsError).

Arguments Ok {A} a.
Arguments Throw {A} e.

Inductive LogLevel : Type := LogDebug | LogInfo | LogError.

(** The calls the core makes, in the order it makes them.  [EvThrown]
    follows a call that threw and holds the call and what it threw;
    [EvStatus] records an assignment to the local variable [status] of
    [processError]. *)
Inductive Event : Type :=
| EvGetUnprocessedErrors (filter : AuditLogErrorFilter)
| EvMarkAsProcessed (errorId : str) (md : ProcessedMetadata)
| EvUpdateErrorWithFixInfo (errorId : str) (info : FixInfo)
| EvCreateBug (input : CreateBugInput)
| EvAddComment (workItem : option N) (comment : str)
| EvLinkPullRequest (workItem : option N) (prUrl : str)
| EvCreateBranch (owner repo branchName : str) (fromBranch : option str)
| EvCreatePullRequest (params : PullRequestParams)
| EvGetRepository (owner repo : str)
| EvSearchRepositories (query : str)
| EvSendPRNotification (params : PRNotification)
| EvSendErrorNotification (params : ErrorNotification)
| EvFixBug (params : FixBugParams)
| EvNow
| EvLog (level : LogLevel) (text : str) (meta : list (str * str))
| EvStatus (status : FixWorkflowStatus)
| EvThrown (call : Event) (e : JsError).

(** Computations over a state [S] that return or throw. *)
Definition M (S A : Type) : Type := S -> result A * S.

Definition ret {S A} (a : A) : M S A := fun s => (Ok a, s).

Definition throw {S A} (e : JsError) : M S A := fun s => (Throw e, s).

Definition bind {S A B} (c : M S A) (k : A -> M S B) : M S B :=
  fun s =>
    match c s with
    | (Ok a, s') => k a s'
    | (Throw e, s') => (Throw e, s')
    end.

(** [try { c } catch (err) { h err }] *)
Definition try_catch {S A} (c : M S A) (h : JsError -> M S A) : M S A :=
  fun s =>
    match c s with
    | (Ok a, s') => (Ok a, s')
    | (Throw e, s') => h e s'
    end.

Declare Scope monad_scope.
Delimit Scope monad_scope with monad.
Notation "x <- c ;; k" := (bind c (fun x => k))
  (at level 61, c at next level, right associativity) : monad_scope.
Notation "c ;;; k" := (bind c (fun _ => k))
  (at level 61, right associativity) : monad_scope.
Local Open Scope monad_scope.

(** ** The collaborators *)

Section Services.

(** The state of the external systems (audit store, issue tracker,
    source-control host, chat, fix agent, clock, log). *)
Variable W : Type.

(** The state the core runs on: the external systems and the calls made
    so far, oldest first. *)
Record World : Type := { ext : W; trace : list Event }.

(** An operation of a collaborator: it may change the external state and
    it returns or throws. *)
Definition op (A : Type) : Type := W -> result A * W.

(** The methods of [IDynamoDBAdapter] the core calls. *)
Record IDynamoDBAdapter : Type :=
  { getUnprocessedErrors : AuditLogErrorFilter -> op (list AuditLogError);
    markAsProcessed : str -> ProcessedMetadata -> op unit;
    updateErrorWithFixInfo : str -> FixInfo -> op unit }.

(** The methods of [IDevOpsAdapter] the core calls. *)
Record IDevOpsAdapter : Type :=
  { createBug : CreateBugInput -> op BugWorkItem;
    addComment : option N -> str -> op unit;
    linkPullRequest : option N -> str -> op unit }.

(** The methods of [IGitHubAdapter] the core calls. *)
Record IGitHubAdapter : Type :=
  { createBranch : str -> str -> str -> option str -> op unit;
    createPullRequest : PullRequestParams -> op PullRequest;
    getRepository : str -> str -> op (option RepoData);
    searchRepositories : str -> op (list SearchHit) }.

(** The methods of [ITeamsAdapter] the core calls. *)
Record ITeamsAdapter : Type :=
  { sendPRNotification : PRNotification -> op unit;
    sendErrorNotification : ErrorNotification -> op unit }.

(** The method of [IOzAdapter] the core calls. *)
Record IOzAdapter : Type :=
  { fixBug : FixBugParams -> op OzFixResult }.

(** The ambient runtime: the clock behind [new Date().toISOString()] and
    the logger of [utils/logger.js].  The logger module is not among the
    sources at hand; it is a parameter here, an effect on the external
    state that always returns. *)
Record Runtime : Type :=
  { now : W -> str * W;
    log : LogLevel -> str -> list (str * str) -> W -> W }.

(** A call to a collaborator: the call is made and recorded, with what
    it threw if it did. *)
Definition call {A} (ev : Event) (o : op A) : M World A :=
  fun w =>
    match o (ext w) with
    | (Ok a, x) => (Ok a, {| ext := x; trace := trace w ++ [ev] |})
    | (Throw e, x) =>
        (Throw e, {| ext := x; trace := trace w ++ [ev; EvThrown ev e] |})
    end.

Definition call_total {A} (ev : Event) (o : W -> A * W) : M World A :=
  fun w =>
    let '(a, x) := o (ext w) in
    (Ok a, {| ext := x; trace := trace w ++ [ev] |}).

(** Records a ghost event. *)
Definition note (ev : Event) : M World unit :=
  fun w => (Ok tt, {| ext := ext w; trace := trace w ++ [ev] |}).

Variable rt : Runtime.

(** [logger.debug], [logger.info], [logger.error]: the text and the
    metadata object, as pairs of a key and the text of its value. *)
Definition logger (level : LogLevel) (text : str) (meta : list (str * str))
  : M World unit :=
  call_total (EvLog level text meta) (fun x => (tt, log rt level text meta x)).

Definition date_now : M World str := call_total EvNow (now rt).

(** ** RepositoryFinderService *)

Section RepositoryFinderService.

Variable githubAdapter : IGitHubAdapter.
(** [repositoryMappings?: Map<string, string>], in insertion order. *)
Variable repositoryMappings : option (list (str * str)).

(** [Map.prototype.get] *)
Fixpoint map_get (k : str) (mp : list (str * str)) : option str :=
  match mp with
  | [] => None
  | (k', v) :: mp' => if JsString.eqb k k' then Some v else map_get k mp'
  end.

(** [getRepositoryInfo] *)
Definition getRepositoryInfo (fullName : str) : M World (option RepositoryInfo) :=
  let parts := JsString.split "/" fullName in
  let owner := nth_error parts 0 in
  let repo := nth_error parts 1 in
  match owner, repo with
  | Some owner, Some repo =>
      if negb (JsString.truthy owner) || negb (JsString.truthy repo)
      then ret None
      else
        repoData <- call (EvGetRepository owner repo)
                         (getRepository githubAdapter owner repo) ;;
        match repoData with
        | None => ret None
        | Some repoData =>
            ret (Some {| owner := owner;
                         name := repo;
                         fullName := rd_fullName repoData;
                         url := rd_url repoData;
                         defaultBranch := rd_defaultBranch repoData |})
        end
  | _, _ => ret None
  end.

(** [/github\.com\/([^/]+)\/([^/]+)/] *)
Definition re_github : Regex.RegExp :=
  Regex.rx (Regex.seqs
              [Regex.text "github.com/";
               Regex.Group 1 (Regex.Plus (Regex.Chr (Regex.none_of "/")));
               Regex.char "/";
               Regex.Group 2 (Regex.Plus (Regex.Chr (Regex.none_of "/")))]).

(** The first half of the loop body of [findRepositoryFromStackTrace]:
    the repository named in the file path. *)
Definition frame_path_repo (frame : StackFrame) : M World (option RepositoryInfo) :=
  match Regex.exec re_github (filePath frame) with
  | Some githubMatch =>
      match Regex.group 1 githubMatch, Regex.group 2 githubMatch with
      | Some owner, Some repo =>
          if JsString.truthy owner && JsString.truthy repo
          then getRepositoryInfo (owner ++ lit "/" ++ repo)
          else ret None
      | _, _ => ret None
      end
  | None => ret None
  end.

(** The second half: the repository stored in the frame. *)
Definition frame_meta_repo (frame : StackFrame) : M World (option RepositoryInfo) :=
  match frame_repository frame with
  | Some r => if JsString.truthy r then getRepositoryInfo r else ret None
  | None => ret None
  end.

(** The loop of [findRepositoryFromStackTrace]. *)
Fixpoint scan_frames (userCodeFrames : list StackFrame)
  : M World (option RepositoryInfo) :=
  match userCodeFrames with
  | [] => ret None
  | frame :: rest =>
      repoInfo <- frame_path_repo frame ;;
      match repoInfo with
      | Some info => ret (Some info)
      | None =>
          repoInfo <- frame_meta_repo frame ;;
          match repoInfo with
          | Some info => ret (Some info)
          | None => scan_frames rest
          end
      end
  end.

(** [findRepositoryFromStackTrace] *)
Definition findRepositoryFromStackTrace (st : StackTrace)
  : M World (option RepositoryInfo) :=
  scan_frames (filter isUserCode (frames st)).

(** [/\.[^.]+$/] *)
Definition re_extension : Regex.RegExp :=
  Regex.rx (Regex.seqs [Regex.char ".";
                        Regex.Plus (Regex.Chr (Regex.none_of "."));
                        Regex.Eos]).

(** [frame.filePath.split('/').pop()?.replace(/\.[^.]+$/, '')] *)
Definition base_name (path : str) : option str :=
  match rev (JsString.split "/" path) with
  | [] => None
  | last :: _ => Some (Regex.remove_first re_extension last)
  end.

(** The loop that adds the file names to [searchTerms]. *)
Definition add_file_name (searchTerms : list str) (frame : StackFrame)
  : list str :=
  match base_name (filePath frame) with
  | Some fileName =>
      if JsString.truthy fileName
         && negb (existsb (JsString.eqb fileName) searchTerms)
      then searchTerms ++ [fileName] else searchTerms
  | None => searchTerms
  end.

Definition searchTerms_of (error : AuditLogError) (st : StackTrace) : list str :=
  fold_left add_file_name
            (firstn 3 (filter isUserCode (frames st)))
            (if JsString.truthy (source error) then [source error] else []).

(** [searchForRepository] *)
Definition searchForRepository (error : AuditLogError) (st : StackTrace)
  : M World (option RepositoryInfo) :=
  let searchTerms := searchTerms_of error st in
  match searchTerms with
  | [] => ret None
  | _ :: _ =>
      let query := JsString.join (lit " ") searchTerms in
      try_catch
        (results <- call (EvSearchRepositories query)
                         (searchRepositories githubAdapter query) ;;
         match results with
         | firstResult :: _ =>
             ret (Some {| owner := sh_owner firstResult;
                          name := sh_name firstResult;
                          fullName := sh_fullName firstResult;
                          url := sh_url firstResult;
                          defaultBranch := lit "main" |})
         | [] => ret None
         end)
        (fun _ => ret None)
  end.

(** Step 1 of [findRepository]: the repository of the error record. *)
Definition from_hint (error : AuditLogError) : M World (option RepositoryInfo) :=
  match repository error with
  | Some r => if JsString.truthy r then getRepositoryInfo r else ret None
  | None => ret None
  end.

(** Step 2 of [findRepository]: the source mapping. *)
Definition from_mapping (error : AuditLogError) : M World (option RepositoryInfo) :=
  match repositoryMappings with
  | Some mp =>
      match map_get (source error) mp with
      | Some mappedRepo => getRepositoryInfo mappedRepo
      | None => ret None
      end
  | None => ret None
  end.

(** [findRepository] *)
Definition findRepository (error : AuditLogError) (st : StackTrace)
  : M World (option RepositoryInfo) :=
  repoInfo <- from_hint error ;;
  match repoInfo with
  | Some info => ret (Some info)
  | None =>
      repoInfo <- from_mapping error ;;
      match repoInfo with
      | Some info => ret (Some info)
      | None =>
          repoFromStack <- findRepositoryFromStackTrace st ;;
          match repoFromStack with
          | Some info => ret (Some info)
          | None =>
              searchResults <- searchForRepository error st ;;
              match searchResults with
              | Some info => ret (Some info)
              | None => ret None
              end
          end
      end
  end.



End RepositoryFinderService.

(** ** BugFixOrchestratorService *)

Record OrchestratorConfig : Type :=
  { teamsTeamId : str;
    teamsChannelId : str;
    devOpsProject : option str;
    ozEnvironmentId : option str }.

Section BugFixOrchestratorService.

Variable dynamoAdapter : IDynamoDBAdapter.
Variable devOpsAdapter : IDevOpsAdapter.
Variable githubAdapter : IGitHubAdapter.
Variable teamsAdapter : ITeamsAdapter.
Variable ozAdapter : IOzAdapter.
Variable config : OrchestratorConfig.

(** [this.repositoryFinder = new RepositoryFinderService(githubAdapter)]:
    the orchestrator passes no mapping table. *)
Definition repositoryFinder_findRepository
  : AuditLogError -> StackTrace -> M World (option RepositoryInfo) :=
  findRepository githubAdapter None.

Definition nl : str := [StackTraceParserService.newline].

(** [String(x)] for [number | undefined]. *)
Definition show_opt_N (x : option N) : str :=
  match x with Some n => JsString.of_N n | None => lit "undefined" end.

(** [String(x)] for [string | undefined]. *)
Definition show_opt_str (x : option str) : str :=
  match x with Some s => s | None => lit "undefined" end.

(** [{ ...current, stage, progress, message }] *)
Definition with_stage (current : FixWorkflowStatus) (stage : FixWorkflowStage)
           (progress : N) (message : str) : FixWorkflowStatus :=
  {| stage := stage;
     progress := progress;
     ws_message := message;
     startTime := startTime current;
     endTime := endTime current;
     ws_error := ws_error current |}.

(** The line [updateStatus] hands to [logger.debug]. *)
Definition stage_line (stage : FixWorkflowStage) (progress : N) (message : str)
  : str :=
  lit "Workflow stage: " ++ stage_name stage ++ lit " ("
      ++ JsString.of_N progress ++ lit "%): " ++ message.

(** [updateStatus] *)
Definition updateStatus (current : FixWorkflowStatus) (stage : FixWorkflowStage)
           (progress : N) (message : str) : M World FixWorkflowStatus :=
  logger LogDebug (stage_line stage progress message) [] ;;;
  ret (with_stage current stage progress message).

(** [stackTrace.frames.find((f) => f.isUserCode)] *)
Definition primaryFrame (st : StackTrace) : option StackFrame :=
  find isUserCode (frames st).

Definition unknown_text : str := lit "Unknown".

(** [formatBugDescription] *)
Definition formatBugDescription (error : AuditLogError) (st : StackTrace)
           (repoInfo : RepositoryInfo) : str :=
  let pf := primaryFrame st in
  JsString.trim
    (JsString.join nl
       [ [];
         lit "## Error Details";
         lit "**Message:** " ++ message error;
         lit "**Severity:** " ++ severity error;
         lit "**Source:** " ++ source error;
         lit "**Environment:** " ++ environment error;
         lit "**Timestamp:** " ++ timestamp error;
         [];
         lit "## Location";
         lit "**Repository:** " ++ fullName repoInfo;
         lit "**File:** "
             ++ match pf with Some f => filePath f | None => unknown_text end;
         lit "**Line:** "
             ++ match pf with
                | Some f => match lineNumber f with
                            | Some n => JsString.of_N n
                            | None => unknown_text
                            end
                | None => unknown_text
                end;
         lit "**Function:** "
             ++ match pf with
                | Some f => match functionName f with
                            | Some n => n
                            | None => unknown_text
                            end
                | None => unknown_text
                end;
         [];
         lit "## Stack Trace";
         lit "```";
         stackTrace error;
         lit "```";
         [];
         lit "---";
         lit "_This bug was automatically detected and reported by the error monitoring system._";
         lit "    " ]).

(** [formatPRDescription] *)
Definition formatPRDescription (error : AuditLogError) (st : StackTrace)
           (workItemId : option N) (fixSummary : str) : str :=
  let pf := primaryFrame st in
  JsString.trim
    (JsString.join nl
       [ [];
         lit "## Bug Fix";
         [];
         lit "### Error";
         message error;
         [];
         lit "### Location";
         lit "- **File:** "
             ++ match pf with Some f => filePath f | None => unknown_text end;
         lit "- **Line:** "
             ++ match pf with
                | Some f => match lineNumber f with
                            | Some n => JsString.of_N n
                            | None => unknown_text
                            end
                | None => unknown_text
                end;
         lit "- **Function:** "
             ++ match pf with
                | Some f => match functionName f with
                            | Some n => n
                            | None => unknown_text
                            end
                | None => unknown_text
                end;
         [];
         lit "### Fix Summary";
         fixSummary;
         [];
         lit "### Related";
         match workItemId with
         | Some n => if N.eqb n 0 then []
                     else lit "- Work Item: #" ++ JsString.of_N n
         | None => []
         end;
         lit "- Error ID: " ++ id error;
         [];
         lit "---";
         lit "_This PR was automatically generated by Warp Oz agent._";
         [];
         lit "Co-Authored-By: Warp <agent@warp.dev>";
         lit "    " ]).

(** [handleWorkflowError]: the notification is best effort. *)
Definition handleWorkflowError (error : AuditLogError) (stage : str)
           (err : JsError) : M World unit :=
  try_catch
    (call (EvSendErrorNotification
             {| en_teamId := teamsTeamId config;
                en_channelId := teamsChannelId config;
                en_errorMessage := err_message err;
                en_errorId := id error;
                en_stage := stage |})
          (sendErrorNotification teamsAdapter
             {| en_teamId := teamsTeamId config;
                en_channelId := teamsChannelId config;
                en_errorMessage := err_message err;
                en_errorId := id error;
                en_stage := stage |}))
    (fun notifyErr =>
       logger LogError (lit "Failed to send error notification")
              [(lit "error", err_message notifyErr)]).

(** The table of [determineAreaPath], in the order [Object.entries]
    enumerates it. *)
Definition sourceToArea : list (str * str) :=
  map (fun '(k, v) => (lit k, lit v))
      [("user-service", "User Management");
       ("auth-service", "Authentication");
       ("api-gateway", "API");
       ("report-service", "Reporting");
       ("notification-service", "Notifications");
       ("payment-service", "Payments");
       ("order-service", "Orders");
       ("inventory-service", "Inventory");
       ("frontend", "Frontend");
       ("web", "Frontend");
       ("mobile", "Mobile");
       ("backend", "Backend");
       ("infrastructure", "Infrastructure");
       ("devops", "DevOps")]%string.

(** The loop [for (const [pattern, area] of Object.entries(sourceToArea))]
    with its early return. *)
Fixpoint first_area (table : list (str * str)) (lower : str) : option str :=
  match table with
  | [] => None
  | (pattern, area) :: rest =>
      if JsString.includes pattern lower then Some area
      else first_area rest lower
  end.

Definition backslash : str := lit "\".

(** [determineAreaPath] *)
Definition determineAreaPath (error : AuditLogError) (repoInfo : RepositoryInfo)
  : option str :=
  match devOpsProject config with
  | None => None
  | Some project =>
      if negb (JsString.truthy project) then None
      else
        let sourceLower := JsString.toLowerCase (source error) in
        match first_area sourceToArea sourceLower with
        | Some area => Some (project ++ backslash ++ area)
        | None =>
            let repoLower := JsString.toLowerCase (name repoInfo) in
            match first_area sourceToArea repoLower with
            | Some area => Some (project ++ backslash ++ area)
            | None => Some project
            end
        end
  end.

(** [[...].filter((tag): tag is string => Boolean(tag))] *)
Fixpoint filter_tags (tags : list (option str)) : list str :=
  match tags with
  | [] => []
  | Some t :: rest =>
      if JsString.truthy t then t :: filter_tags rest else filter_tags rest
  | None :: rest => filter_tags rest
  end.

(** The argument of [createBug] in step 3. *)
Definition bug_input (error : AuditLogError) (st : StackTrace)
           (repoInfo : RepositoryInfo) : CreateBugInput :=
  let areaPath := determineAreaPath error repoInfo in
  let iterationPath :=
    match devOpsProject config with
    | Some p => if JsString.truthy p then Some (p ++ backslash ++ lit "Backlog")
                else None
    | None => None
    end in
  {| cb_title := lit "[Auto-Fix] " ++ JsString.slice0 100 (message error);
     cb_description := formatBugDescription error st repoInfo;
     cb_reproSteps :=
       Some (lit "Stack trace:" ++ nl ++ lit "```" ++ nl ++ stackTrace error
                 ++ nl ++ lit "```");
     cb_systemInfo :=
       Some (lit "Environment: " ++ environment error ++ nl
                 ++ lit "Source: " ++ source error ++ nl
                 ++ lit "Repository: " ++ fullName repoInfo);
     cb_priority := Some (mapErrorSeverityToBugPriority (severity error));
     cb_severity := Some (mapErrorSeverityToBugSeverity (severity error));
     cb_tags :=
       Some (filter_tags
               [Some (lit "auto-fix");
                Some (lit "oz-agent");
                Some (source error);
                Some (environment error);
                Some (name repoInfo);
                match language st with
                | unknown => None
                | l => Some (language_name l)
                end]);
     cb_assignedTo := None;
     cb_areaPath := areaPath;
     cb_iterationPath := iterationPath;
     cb_relatedErrorId := id error |}.

(** The [try] block of [processError] runs on the local variable [status]
    and the world. *)
Definition Local : Type := (FixWorkflowStatus * World)%type.

Definition lift {A} (c : M World A) : M Local A :=
  fun s =>
    let '(r, w) := c (snd s) in (r, (fst s, w)).

(** [status = this.updateStatus(status, stage, progress, message)] *)
Definition advance (stage : FixWorkflowStage) (progress : N) (message : str)
  : M Local unit :=
  fun s =>
    match updateStatus (fst s) stage progress message (snd s) with
    | (Ok status', w) =>
        (Ok tt, (status', {| ext := ext w;
                             trace := trace w ++ [EvStatus status'] |}))
    | (Throw e, w) => (Throw e, (fst s, w))
    end.

Definition branch_name (error : AuditLogError) : str :=
  lit "bug/auto-fix-" ++ id error.

(** The [try] block of [processError]. *)
Definition processError_try (error : AuditLogError) : M Local FixResult :=
  (* Step 1: parse the stack trace *)
  advance parsing_error 10 (lit "Parsing stack trace") ;;;
  let st := StackTraceParserService.parse (stackTrace error)
                                          (Some (message error)) in
  (* Step 2: find the repository *)
  repoInfo <- lift (repositoryFinder_findRepository error st) ;;
  match repoInfo with
  | None =>
      throw {| err_message :=
                 lit "Could not identify repository for error " ++ id error |}
  | Some repoInfo =>
      (* Step 3: create the work item *)
      advance creating_work_item 20 (lit "Creating bug work item") ;;;
      bugWorkItem <- lift (call (EvCreateBug (bug_input error st repoInfo))
                                (createBug devOpsAdapter
                                           (bug_input error st repoInfo))) ;;
      (* Step 4: create the branch *)
      advance creating_branch 40 (lit "Creating bug branch") ;;;
      let branchName := branch_name error in
      lift (call (EvCreateBranch (owner repoInfo) (name repoInfo) branchName
                                 (Some (defaultBranch repoInfo)))
                 (createBranch githubAdapter (owner repoInfo) (name repoInfo)
                               branchName (Some (defaultBranch repoInfo)))) ;;;
      (* Step 5: run the agent *)
      advance running_oz_agent 50 (lit "Running Oz agent to fix bug") ;;;
      let fixParams :=
        {| fb_errorMessage := message error;
           fb_stackTrace := st;
           fb_repository := fullName repoInfo;
           fb_branch := branchName;
           fb_context :=
             Some (lit "DevOps Work Item: " ++ show_opt_N (wi_id bugWorkItem));
           fb_environmentId := ozEnvironmentId config |} in
      ozResult <- lift (call (EvFixBug fixParams)
                             (fixBug ozAdapter fixParams)) ;;
      if negb (oz_success ozResult)
      then throw {| err_message :=
                      lit "Oz agent failed to fix bug: "
                          ++ show_opt_str (oz_error ozResult) |}
      else
        (* Step 6: create the draft pull request *)
        advance creating_pull_request 80 (lit "Creating draft pull request") ;;;
        let prParams :=
          {| pr_owner := owner repoInfo;
             pr_repo := name repoInfo;
             pr_title := lit "[Auto-Fix] " ++ JsString.slice0 80 (message error);
             pr_body := formatPRDescription error st (wi_id bugWorkItem)
                                            (summary ozResult);
             pr_head := branchName;
             pr_base := defaultBranch repoInfo;
             pr_draft := Some true |} in
        pr <- lift (call (EvCreatePullRequest prParams)
                         (createPullRequest githubAdapter prParams)) ;;
        lift (call (EvLinkPullRequest (wi_id bugWorkItem) (pr_url pr))
                   (linkPullRequest devOpsAdapter (wi_id bugWorkItem)
                                    (pr_url pr))) ;;;
        let comment := lit "Automated fix PR created: " ++ pr_url pr ++ nl ++ nl
                           ++ lit "Fix summary: " ++ summary ozResult in
        lift (call (EvAddComment (wi_id bugWorkItem) comment)
                   (addComment devOpsAdapter (wi_id bugWorkItem) comment)) ;;;
        (* Step 7: notify the team *)
        advance notifying_team 90 (lit "Notifying team") ;;;
        let notification :=
          {| pn_teamId := teamsTeamId config;
             pn_channelId := teamsChannelId config;
             pn_prUrl := pr_url pr;
             pn_prTitle := pr_url pr;
             pn_repository := fullName repoInfo;
             pn_bugTitle := message error;
             pn_workItemId := wi_id bugWorkItem;
             pn_fixSummary := summary ozResult |} in
        lift (call (EvSendPRNotification notification)
                   (sendPRNotification teamsAdapter notification)) ;;;
        (* Step 8: mark the error as processed *)
        advance completed 100 (lit "Completed") ;;;
        let md := {| pm_workItemId := wi_id bugWorkItem;
                     pm_pullRequestUrl := pr_url pr;
                     pm_branch := branchName;
                     pm_ozRunId := runId ozResult |} in
        lift (call (EvMarkAsProcessed (id error) md)
                   (markAsProcessed dynamoAdapter (id error) md)) ;;;
        fixedAt <- lift date_now ;;
        let info := {| fi_workItemId := wi_id bugWorkItem;
                       fi_pullRequestUrl := Some (pr_url pr);
                       fi_branch := Some branchName;
                       fi_fixedAt := Some fixedAt |} in
        lift (call (EvUpdateErrorWithFixInfo (id error) info)
                   (updateErrorWithFixInfo dynamoAdapter (id error) info)) ;;;
        ts <- lift date_now ;;
        ret {| success := true;
               errorId := id error;
               fr_repository := fullName repoInfo;
               branch := branchName;
               modifiedFiles :=
                 map (fun f => {| mf_path := f; changeType := modified;
                                  linesAdded := 0; linesRemoved := 0 |})
                     (filesModified ozResult);
               pullRequestUrl := Some (pr_url pr);
               pullRequestNumber := Some (pr_number pr);
               workItemId := wi_id bugWorkItem;
               fixSummary := summary ozResult;
               ozRunId := Some (runId ozResult);
               errorMessage := None;
               fr_timestamp := ts |}
  end.

(** The [catch] block of [processError]; [status] is the value of the
    local variable when the exception was thrown. *)
Definition processError_catch (error : AuditLogError)
           (status : FixWorkflowStatus) (err : JsError) : M World FixResult :=
  logger LogError (lit "Workflow failed for error " ++ id error)
         [(lit "error", err_message err);
          (lit "stage", stage_name (stage status))] ;;;
  handleWorkflowError error (stage_name (stage status)) err ;;;
  ts <- date_now ;;
  ret {| success := false;
         errorId := id error;
         fr_repository := [];
         branch := [];
         modifiedFiles := [];
         pullRequestUrl := None;
         pullRequestNumber := None;
         workItemId := None;
         fixSummary := [];
         ozRunId := None;
         errorMessage := Some (err_message err);
         fr_timestamp := ts |}.

(** The initial value of [status]. *)
Definition initial_status (startTime : str) : FixWorkflowStatus :=
  {| stage := initializing;
     progress := 0;
     ws_message := lit "Starting error processing";
     startTime := startTime;
     endTime := None;
     ws_error := None |}.

(** [processError] *)
Definition processError (error : AuditLogError) : M World FixResult :=
  startTime <- date_now ;;
  let status := initial_status startTime in
  note (EvStatus status) ;;;
  fun w =>
    match processError_try error (status, w) with
    | (Ok r, (_, w')) => (Ok r, w')
    | (Throw err, (status', w')) => processError_catch error status' err w'
    end.

(** The state in which [processError] calls [findRepository]: the start
    time has been read and step 1 has been entered. *)
Definition before_resolution (w : World) : Local :=
  let '(startTime, x) := now rt (ext w) in
  let status := initial_status startTime in
  snd (advance parsing_error 10 (lit "Parsing stack trace")
               (status, {| ext := x;
                           trace := (trace w ++ [EvNow]) ++ [EvStatus status] |})).

(** The loop of [processUnprocessedErrors]; [results] is the array
    filled so far. *)
Fixpoint process_all (errors : list AuditLogError) (results : list FixResult)
  : M World (list FixResult) :=
  match errors with
  | [] => ret results
  | error :: rest =>
      results' <-
        try_catch
          (r <- processError error ;; ret (results ++ [r]))
          (fun err =>
             logger LogError (lit "Failed to process error " ++ id error)
                    [(lit "error", err_message err)] ;;;
             handleWorkflowError error (lit "processing") err ;;;
             ret results) ;;
      process_all rest results'
  end.

(** The batch as the specification words it: every error of the batch
    goes through [processError], in order, and yields its own result. *)
Inductive runs : list AuditLogError -> World -> list FixResult -> World -> Prop :=
| runs_nil (w : World) : runs [] w [] w
| runs_cons (error : AuditLogError) (rest : list AuditLogError)
            (r : FixResult) (rs : list FixResult) (w w1 w2 : World) :
    processError error w = (Ok r, w1) ->
    runs rest w1 rs w2 ->
    runs (error :: rest) w (r :: rs) w2.

Definition batch_filter : AuditLogErrorFilter :=
  {| f_processed := None;
     f_severity := Some [lit "critical"; lit "error"];
     f_source := None;
     f_since := None;
     f_limit := Some 10%N |}.

(** [processUnprocessedErrors] *)
Definition processUnprocessedErrors : M World (list FixResult) :=
  logger LogInfo (lit "Starting error processing cycle") [] ;;;
  errors <- call (EvGetUnprocessedErrors batch_filter)
                 (getUnprocessedErrors dynamoAdapter batch_filter) ;;
  logger LogInfo (lit "Found " ++ JsString.of_N (N.of_nat (length errors))
                      ++ lit " unprocessed errors") [] ;;;
  results <- process_all errors [] ;;
  logger LogInfo (lit "Completed processing "
                      ++ JsString.of_N (N.of_nat (length results))
                      ++ lit " errors") [] ;;;
  ret results.

End BugFixOrchestratorService.

End Services.

Arguments ext {W} w.
Arguments trace {W} w.

(** ** In-memory collaborators

    A small instance of the collaborators, in the manner of the mock
    adapters of the repository: the external state is a counter that
    numbers the tickets and the pull requests. *)

Module Mock.

Definition repo_known (known : list (str * str)) (o r : str) : bool :=
  existsb (fun '(o', r') => JsString.eqb o o' && JsString.eqb r r') known.

(** The source-control host knows the repositories [known]; a lookup of
    an owner called [down] fails; a search whose query mentions
    [outage] fails, one that mentions [report] finds a repository. *)
Definition github (known : list (str * str)) : IGitHubAdapter nat :=
  {| createBranch := fun _ _ _ _ x => (Ok tt, x);
     createPullRequest := fun p x =>
       (Ok {| pr_url := lit "https://github.com/" ++ pr_owner p ++ lit "/"
                            ++ pr_repo p ++ lit "/pull/"
                            ++ JsString.of_N (N.of_nat x);
              pr_number := N.of_nat x |}, S x);
     getRepository := fun o r x =>
       if JsString.eqb o (lit "down")
       then (Throw {| err_message := lit "lookup failed" |}, x)
       else if repo_known known o r
       then (Ok (Some {| rd_defaultBranch := lit "main";
                         rd_fullName := o ++ lit "/" ++ r;
                         rd_url := lit "https://github.com/" ++ o ++ lit "/" ++ r |}),
             x)
       else (Ok None, x);
     searchRepositories := fun q x =>
       if JsString.includes (lit "outage") q
       then (Throw {| err_message := lit "search failed" |}, x)
       else if JsString.includes (lit "report") q
       then (Ok [{| sh_owner := lit "myorg"; sh_name := lit "report-service";
                    sh_fullName := lit "myorg/report-service";
                    sh_url := lit "https://github.com/myorg/report-service" |}],
             x)
       else (Ok [], x) |}.

Definition devops : IDevOpsAdapter nat :=
  {| createBug := fun i x =>
       (Ok {| wi_id := Some (N.of_nat x);
              wi_title := cb_title i;
              wi_description := cb_description i;
              wi_reproSteps := cb_reproSteps i;
              wi_systemInfo := cb_systemInfo i;
              wi_priority := match cb_priority i with Some p => p | None => 2%N end;
              wi_severity := match cb_severity i with
                             | Some s => s | None => lit "2 - High" end;
              wi_tags := cb_tags i;
              wi_assignedTo := cb_assignedTo i;
              wi_areaPath := cb_areaPath i;
              wi_iterationPath := cb_iterationPath i;
              wi_relatedErrorId := cb_relatedErrorId i;
              wi_bugBranch := None;
              wi_pullRequestUrl := None |}, S x);
     addComment := fun _ _ x => (Ok tt, x);
     linkPullRequest := fun _ _ x => (Ok tt, x) |}.

(** The fix agent reports failure for a message that mentions
    [unfixable]. *)
Definition oz : IOzAdapter nat :=
  {| fixBug := fun p x =>
       if JsString.includes (lit "unfixable") (fb_errorMessage p)
       then (Ok {| runId := lit "run-1"; oz_success := false; summary := [];
                   filesModified := []; oz_commitSha := None;
                   oz_error := Some (lit "no patch found"); durationMs := 1%N |}, x)
       else (Ok {| runId := lit "run-1"; oz_success := true;
                   summary := lit "Added a null check";
                   filesModified := [lit "src/services/UserService.ts"];
                   oz_commitSha := None; oz_error := None; durationMs := 1%N |}, x) |}.

Definition teams : ITeamsAdapter nat :=
  {| sendPRNotification := fun _ x => (Ok tt, x);
     sendErrorNotification := fun _ x => (Ok tt, x) |}.

Definition dynamo (batch : list AuditLogError) : IDynamoDBAdapter nat :=
  {| getUnprocessedErrors := fun _ x => (Ok batch, x);
     markAsProcessed := fun _ _ x => (Ok tt, x);
     updateErrorWithFixInfo := fun _ _ x => (Ok tt, x) |}.

Definition runtime : Runtime nat :=
  {| now := fun x => (lit "2024-01-01T00:00:00.000Z", x);
     log := fun _ _ _ x => x |}.

Definition config : OrchestratorConfig :=
  {| teamsTeamId := lit "team"; teamsChannelId := lit "channel";
     devOpsProject := Some (lit "Shop"); ozEnvironmentId := None |}.

Definition world0 : World nat := {| ext := 1; trace := [] |}.

Definition known : list (str * str) :=
  [(lit "myorg", lit "user-service"); (lit "myorg", lit "report-service")].

Definition mk_error (i st sev src : string) (hint : option string) : AuditLogError :=
  {| id := lit i; timestamp := lit "2024-01-01T00:00:00.000Z";
     message := lit "TypeError: Cannot read property 'map' of undefined";
     stackTrace := lit st; severity := lit sev; source := lit src;
     environment := lit "production"; commitSha := None;
     repository := option_map lit hint; processed := false;
     metadata := None |}.

Definition lf : string := String "010" EmptyString.

Definition trace1 : string :=
  ("TypeError: Cannot read property 'map' of undefined" ++ lf ++
   "    at UserService.getUsers (/src/services/UserService.ts:45:23)" ++ lf ++
   "    at async /src/routes/users.ts:8:5")%string.

Definition err1 : AuditLogError :=
  mk_error "err-001" trace1 "error" "user-service" (Some "myorg/user-service"%string).
(** No hint, no repository in the frames, nothing found by the search. *)
Definition err2 : AuditLogError :=
  mk_error "err-002" "plain text" "critical" "billing" None.
(** The repository is found and the branch is created, then the agent
    gives up. *)
Definition err4 : AuditLogError :=
  {| id := lit "err-004"; timestamp := lit "2024-01-01T00:00:00.000Z";
     message := lit "unfixable race";
     stackTrace := lit trace1; severity := lit "error";
     source := lit "user-service"; environment := lit "production";
     commitSha := None; repository := Some (lit "myorg/user-service");
     processed := false; metadata := None |}.

Definition run_error (e : AuditLogError) : result FixResult * World nat :=
  processError runtime (dynamo []) devops (github known) teams oz config e world0.


End Mock.

(** ** Notions used by the properties *)

(** *** Regular expressions, declaratively *)

(** [Matches r u rest]: [r] matches the text [u] when [rest] follows. *)
Inductive Matches : Regex.re -> str -> str -> Prop :=
| M_Eps (rest : str) : Matches Regex.Eps [] rest
| M_Chr (p : ascii -> bool) (a : ascii) (rest : str) :
    p a = true -> Matches (Regex.Chr p) [a] rest
| M_Seq (a b : Regex.re) (u1 u2 rest : str) :
    Matches a u1 (u2 ++ rest) -> Matches b u2 rest ->
    Matches (Regex.Seq a b) (u1 ++ u2) rest
| M_AltL (a b : Regex.re) (u rest : str) :
    Matches a u rest -> Matches (Regex.Alt a b) u rest
| M_AltR (a b : Regex.re) (u rest : str) :
    Matches b u rest -> Matches (Regex.Alt a b) u rest
| M_StarNil (a : Regex.re) (rest : str) : Matches (Regex.Star a) [] rest
| M_StarCons (a : Regex.re) (u1 u2 rest : str) :
    u1 <> [] ->
    Matches a u1 (u2 ++ rest) -> Matches (Regex.Star a) u2 rest ->
    Matches (Regex.Star a) (u1 ++ u2) rest
| M_Group (i : nat) (a : Regex.re) (u rest : str) :
    Matches a u rest -> Matches (Regex.Group i a) u rest
| M_Eos : Matches Regex.Eos [] [].

(** All the code units of the model. *)
Definition all_ascii : list ascii := map ascii_of_nat (seq 0 256).

(** Inclusion of character classes. *)
Definition cls_sub (q p : ascii -> bool) : bool :=
  forallb (fun a => implb (q a) (p a)) all_ascii.

(** [must P r]: every text matched by [r] holds a character of [P]. *)
Fixpoint must (P : ascii -> bool) (r : Regex.re) : bool :=
  match r with
  | Regex.Chr q => cls_sub q P
  | Regex.Seq a b => must P a || must P b
  | Regex.Alt a b => must P a && must P b
  | Regex.Group _ a => must P a
  | Regex.Eps | Regex.Star _ | Regex.Eos => false
  end.

(** [within Q r]: every text matched by [r] is made of characters of [Q]. *)
Fixpoint within (Q : ascii -> bool) (r : Regex.re) : bool :=
  match r with
  | Regex.Chr q => cls_sub q Q
  | Regex.Seq a b | Regex.Alt a b => within Q a && within Q b
  | Regex.Star a | Regex.Group _ a => within Q a
  | Regex.Eps | Regex.Eos => true
  end.

(** What a successful match of [r] may have consumed. *)
Record consumed_ok (r : Regex.re) (u : str) : Prop :=
  { ok_must : forall P, must P r = true -> existsb P u = true;
    ok_within : forall Q, within Q r = true -> forallb Q u = true }.

(** The text [s] does not begin with a character of [P]. *)
Definition stops (P : ascii -> bool) (s : str) : Prop :=
  match s with
  | [] => True
  | a :: _ => P a = false
  end.

(** The value of a string of decimal digits. *)
Definition decimal_value (digits : str) : N :=
  fold_left (fun acc d => (10 * acc + JsString.digit_val d)%N) digits 0%N.

(** *** The parser *)

(** A character of a file path in a call-stack line: no parenthesis, no
    colon, no line terminator. *)
Definition path_char (a : ascii) : bool :=
  Regex.none_of "():" a && Regex.cls_dot a.

(** White space other than the line feed. *)
Definition blank (a : ascii) : bool :=
  JsString.is_space a && negb (Ascii.eqb a StackTraceParserService.newline).

(** The call-stack line [at fn (path.ts:L:C)]. *)
Definition ecma_line (fn path L C : str) : str :=
  lit "at " ++ fn ++ lit " (" ++ path ++ lit ".ts:" ++ L ++ lit ":" ++ C
      ++ lit ")".

(** A name: letters, digits and underscores, at least one. *)
Definition is_name (w : str) : Prop :=
  w <> [] /\ Forall (fun a => JsString.is_word a = true) w.

(** [a.b.name]: the qualified name made of the segments [cls] and [name]. *)
Definition dotted (cls : list str) (name : str) : str :=
  fold_right (fun seg acc => seg ++ lit "." ++ acc) name cls.

(** The class of the qualified name [a.b.name]: [a.b], when there is one. *)
Definition class_of (cls : list str) : option str :=
  match cls with
  | [] => None
  | _ :: _ => Some (JsString.join (lit ".") cls)
  end.

Definition class_caps (cls : list str) : Regex.caps :=
  match cls with
  | [] => []
  | _ :: _ => [(1, JsString.join (lit ".") cls)]
  end.

(** [pre] ends a line and [post] begins one: what stands between
    them in [pre ++ line ++ post] is made of whole lines. *)
Definition line_bounds (pre post : str) : Prop :=
  (pre = [] \/ exists p, pre = p ++ [StackTraceParserService.newline])
  /\ (post = [] \/ exists q, post = StackTraceParserService.newline :: q).




(** *** The workflow *)

(** The stages assigned to [status], in order. *)
Fixpoint statuses (evs : list Event) : list FixWorkflowStage :=
  match evs with
  | [] => []
  | EvStatus s :: rest => stage s :: statuses rest
  | _ :: rest => statuses rest
  end.

(** The stages of a run that completes. *)
Definition stage_order : list FixWorkflowStage :=
  [initializing; parsing_error; creating_work_item; creating_branch;
   running_oz_agent; creating_pull_request; notifying_team; completed].

(** The [stage] fields of the error notifications sent. *)
Fixpoint notified_stages (evs : list Event) : list str :=
  match evs with
  | [] => []
  | EvSendErrorNotification p :: rest => en_stage p :: notified_stages rest
  | _ :: rest => notified_stages rest
  end.

(** The [stage] entries of the metadata of the error log lines. *)
Fixpoint logged_stages (evs : list Event) : list str :=
  match evs with
  | [] => []
  | EvLog LogError _ meta :: rest =>
      match map_get (lit "stage") meta with
      | Some s => s :: logged_stages rest
      | None => logged_stages rest
      end
  | _ :: rest => logged_stages rest
  end.

(** The tickets requested from the issue tracker. *)
Fixpoint created_bugs (evs : list Event) : list CreateBugInput :=
  match evs with
  | [] => []
  | EvCreateBug i :: rest => i :: created_bugs rest
  | _ :: rest => created_bugs rest
  end.

(** The branches requested from the source-control host. *)
Fixpoint created_branches (evs : list Event) : list str :=
  match evs with
  | [] => []
  | EvCreateBranch _ _ b _ :: rest => b :: created_branches rest
  | _ :: rest => created_branches rest
  end.

(** A call to the lookup or to the search of the source-control host,
    or the failure of one. *)
Definition is_lookup (ev : Event) : bool :=
  match ev with
  | EvGetRepository _ _ | EvSearchRepositories _ | EvThrown _ _ => true
  | _ => false
  end.

(** The computation [c] only appends events that satisfy [P]. *)
Definition appends {W A : Type} (P : Event -> bool) (c : M (World W) A) : Prop :=
  forall w r w',
    c w = (r, w') ->
    exists evs, trace w' = trace w ++ evs /\ forallb P evs = true.

(** What the lookups that threw have thrown. *)
Fixpoint lookup_failures (evs : list Event) : list JsError :=
  match evs with
  | [] => []
  | EvThrown (EvGetRepository _ _) e :: rest => e :: lookup_failures rest
  | _ :: rest => lookup_failures rest
  end.

(** What the searches that threw have thrown. *)
Fixpoint search_failures (evs : list Event) : list JsError :=
  match evs with
  | [] => []
  | EvThrown (EvSearchRepositories _) e :: rest => e :: search_failures rest
  | _ :: rest => search_failures rest
  end.

(** The lookups made: owner and repository. *)
Fixpoint lookups (evs : list Event) : list (str * str) :=
  match evs with
  | [] => []
  | EvGetRepository o r :: rest => (o, r) :: lookups rest
  | _ :: rest => lookups rest
  end.

(** The queries of the searches made. *)
Fixpoint searches (evs : list Event) : list str :=
  match evs with
  | [] => []
  | EvSearchRepositories q :: rest => q :: searches rest
  | _ :: rest => searches rest
  end.

(** The computation [c] makes lookups only, and throws exactly when a
    lookup throws, passing on what the lookup threw. *)
Definition lookup_only {W A : Type} (c : M (World W) A) : Prop :=
  forall w r w',
    c w = (r, w') ->
    exists evs,
      trace w' = trace w ++ evs
      /\ searches evs = []
      /\ search_failures evs = []
      /\ match r with
         | Throw err => lookup_failures evs = [err]
         | Ok _ => lookup_failures evs = []
         end.

(** The computation [c] throws exactly what a lookup threw, never
    swallows the failure of a lookup, and answers not-found when a search
    threw. *)
Definition propagates {W A : Type} (c : M (World W) (option A)) : Prop :=
  forall w r w',
    c w = (r, w') ->
    exists evs,
      trace w' = trace w ++ evs
      /\ match r with
         | Throw err => lookup_failures evs = [err] /\ search_failures evs = []
         | Ok x =>
             lookup_failures evs = []
             /\ (search_failures evs <> [] -> x = None)
         end.



(** A keyword of the table occurs in the text. *)
Definition keyword_hit (lower : str) : bool :=
  existsb (fun '(pattern, _) => JsString.includes pattern lower) sourceToArea.

(** The first row of the table whose keyword occurs in [lower] is
    [(pattern, area)]. *)
Definition first_row (lower pattern area : str) : Prop :=
  exists before rest,
    sourceToArea = before ++ (pattern, area) :: rest
    /\ JsString.includes pattern lower = true
    /\ Forall (fun row => JsString.includes (fst row) lower = false) before.

(** The stages of [stage_order] that follow the resolution of the
    repository. *)
Definition later_stages : list FixWorkflowStage := skipn 2 stage_order.


(** *** The parser: library code *)

(** The markers of library code of [isUserCode], as plain texts. *)
Definition library_markers : list str :=
  map lit ["node_modules"; "site-packages"; "vendor"; ".gem"; "dist-packages";
           "internal/"; "<anonymous>"; "native"]%string.

(** What the generic parser keeps of a frame list. *)
Definition generic_inv (acc : list StackFrame) : Prop :=
  NoDup (map filePath acc)
  /\ Forall (fun f => filePath f <> []
                      /\ columnNumber f = None
                      /\ functionName f = None
                      /\ className f = None
                      /\ frame_repository f = None
                      /\ isUserCode f = StackTraceParserService.isUserCodePath (filePath f)) acc.

(** The text [isUserCode] is applied to when a frame is built: the class
    name for a Java frame, the file path for the others. *)
Definition user_code_subject (l : ProgrammingLanguage) (f : StackFrame) : str :=
  match l with
  | java => StackTraceParserService.or_empty (className f)
  | _ => filePath f
  end.

(** A character of a file path in a Python traceback line: no double
    quote, no line terminator. *)
Definition py_path_char (a : ascii) : bool :=
  negb (Ascii.eqb StackTraceParserService.dquote a) && Regex.cls_dot a.

(** The traceback line [File Qpath.pyQ, line L, in fn], Q being the double
    quote. *)
Definition python_line (path L fn : str) : str :=
  lit "File " ++ [StackTraceParserService.dquote] ++ path ++ lit ".py"
      ++ [StackTraceParserService.dquote] ++ lit ", line " ++ L
      ++ lit ", in " ++ fn.

(** The characters of a qualified class name, of a method name and of a
    file name in a Java stack line. *)
Definition java_class_char : ascii -> bool :=
  Regex.cls_or Regex.cls_w (Regex.one_of ".$").
Definition java_method_char : ascii -> bool :=
  Regex.cls_or Regex.cls_w (Regex.one_of "$").
Definition java_file_char : ascii -> bool :=
  Regex.cls_or Regex.cls_w (Regex.one_of ".").

(** The stack line [at cls.meth(file:L)]. *)
Definition java_line (cls meth file L : str) : str :=
  lit "at " ++ cls ++ lit "." ++ meth ++ lit "(" ++ file ++ lit ":" ++ L
      ++ lit ")".

(** *** The resolver *)

(** A path up to and including a directory separator, or no path. *)
Definition ends_dir (p : str) : Prop :=
  p = [] \/ exists d, p = d ++ lit "/".

(** [Map.prototype.set]: the value of an existing key is replaced where
    the key stands, a new key is added at the end. *)
Fixpoint map_set (k v : str) (mp : list (str * str)) : list (str * str) :=
  match mp with
  | [] => [(k, v)]
  | (k', v') :: mp' =>
      if JsString.eqb k' k then (k, v) :: mp' else (k', v') :: map_set k v mp'
  end.

(** [RepositoryFinderService.addMapping]: the new value of the field
    [repositoryMappings]. *)
Definition addMapping (repositoryMappings : option (list (str * str)))
           (source repository : str) : option (list (str * str)) :=
  match repositoryMappings with
  | None => None
  | Some mp => Some (map_set source repository mp)
  end.

(** *** The steps of a run *)

(** The calls of a run that change something outside: tickets,
    branches, the fix agent, pull requests, notifications, the audit
    store. *)
Inductive Step : Type :=
| StepCreateBug
| StepCreateBranch
| StepFixBug
| StepCreatePullRequest
| StepLinkPullRequest
| StepAddComment
| StepSendPRNotification
| StepMarkAsProcessed
| StepUpdateErrorWithFixInfo
| StepSendErrorNotification.

(** The steps among the calls made, in order; a call that threw counts
    as made. *)
Fixpoint steps (evs : list Event) : list Step :=
  match evs with
  | [] => []
  | EvCreateBug _ :: rest => StepCreateBug :: steps rest
  | EvCreateBranch _ _ _ _ :: rest => StepCreateBranch :: steps rest
  | EvFixBug _ :: rest => StepFixBug :: steps rest
  | EvCreatePullRequest _ :: rest => StepCreatePullRequest :: steps rest
  | EvLinkPullRequest _ _ :: rest => StepLinkPullRequest :: steps rest
  | EvAddComment _ _ :: rest => StepAddComment :: steps rest
  | EvSendPRNotification _ :: rest => StepSendPRNotification :: steps rest
  | EvMarkAsProcessed _ _ :: rest => StepMarkAsProcessed :: steps rest
  | EvUpdateErrorWithFixInfo _ _ :: rest =>
      StepUpdateErrorWithFixInfo :: steps rest
  | EvSendErrorNotification _ :: rest => StepSendErrorNotification :: steps rest
  | _ :: rest => steps rest
  end.

(** The steps of a run that completes. *)
Definition pipeline : list Step :=
  [StepCreateBug; StepCreateBranch; StepFixBug; StepCreatePullRequest;
   StepLinkPullRequest; StepAddComment; StepSendPRNotification;
   StepMarkAsProcessed; StepUpdateErrorWithFixInfo].

(** The stage during which a step is made. *)
Definition stage_of_step (s : Step) : FixWorkflowStage :=
  match s with
  | StepCreateBug => creating_work_item
  | StepCreateBranch => creating_branch
  | StepFixBug => running_oz_agent
  | StepCreatePullRequest | StepLinkPullRequest | StepAddComment =>
      creating_pull_request
  | StepSendPRNotification => notifying_team
  | StepMarkAsProcessed | StepUpdateErrorWithFixInfo => completed
  | StepSendErrorNotification => failed
  end.

(** The calls that threw, with what they threw. *)
Fixpoint thrown (evs : list Event) : list (Event * JsError) :=
  match evs with
  | [] => []
  | EvThrown c e :: rest => (c, e) :: thrown rest
  | _ :: rest => thrown rest
  end.

(** The values assigned to [status], in order. *)
Fixpoint status_log (evs : list Event) : list FixWorkflowStatus :=
  match evs with
  | [] => []
  | EvStatus s :: rest => s :: status_log rest
  | _ :: rest => status_log rest
  end.

(** The stages of a run with the progress [updateStatus] is given for
    each. *)
Definition progress_table : list (FixWorkflowStage * N) :=
  [(initializing, 0%N); (parsing_error, 10%N); (creating_work_item, 20%N);
   (creating_branch, 40%N); (running_oz_agent, 50%N);
   (creating_pull_request, 80%N); (notifying_team, 90%N);
   (completed, 100%N)].

(** The error notifications sent. *)
Fixpoint error_notifications (evs : list Event) : list ErrorNotification :=
  match evs with
  | [] => []
  | EvSendErrorNotification p :: rest => p :: error_notifications rest
  | _ :: rest => error_notifications rest
  end.

(** The branches requested, with the repository and the branch they
    start from. *)
Fixpoint branch_calls (evs : list Event) : list (str * str * str * option str) :=
  match evs with
  | [] => []
  | EvCreateBranch o r b from :: rest => (o, r, b, from) :: branch_calls rest
  | _ :: rest => branch_calls rest
  end.

(** The stage a failure is reported with, given the steps made before
    it. *)
Definition failure_stage (done : list Step) : FixWorkflowStage :=
  match done with
  | [] => parsing_error
  | _ :: _ => stage_of_step (last done StepCreateBug)
  end.

(** What the [try] block of a run has done once the repository [info] is
    known: [r] is its outcome, [status] the value of [status] at the end,
    [evs] the calls it made after the resolution. *)
Definition after_resolution (config : OrchestratorConfig)
           (error : AuditLogError) (st : StackTrace)
           (info : RepositoryInfo) (status0 : FixWorkflowStatus)
           (r : result FixResult) (status : FixWorkflowStatus)
           (evs : list Event) : Prop :=
  (* the steps *)
  (exists done rest,
      pipeline = done ++ rest
      /\ done <> []
      /\ steps evs = done
      /\ stage status = stage_of_step (last done StepCreateBug)
      /\ match r with Ok _ => rest = [] | Throw _ => True end)
  (* the statuses *)
  /\ (exists rest,
         map (fun s => (stage s, progress s)) (status_log evs) ++ rest
         = skipn 2 progress_table)
  /\ Forall (fun s => startTime s = startTime status0
                      /\ endTime s = endTime status0
                      /\ ws_error s = ws_error status0) (status_log evs)
  (* the failures *)
  /\ match r with
     | Ok res => thrown evs = []
     | Throw e =>
         (exists c, thrown evs = [(c, e)])
         \/ (thrown evs = []
             /\ steps evs = [StepCreateBug; StepCreateBranch; StepFixBug]
             /\ exists detail,
                 err_message e = lit "Oz agent failed to fix bug: " ++ detail)
     end
  (* the ticket and the branch *)
  /\ created_bugs evs = [bug_input config error st info]
  /\ branch_calls evs
     = match steps evs with
       | _ :: _ :: _ => [(owner info, name info, lit "bug/auto-fix-" ++ id error,
                          Some (defaultBranch info))]
       | _ => []
       end
  /\ error_notifications evs = []
  (* the result *)
  /\ match r with
     | Ok res =>
         success res = true
         /\ errorId res = id error
         /\ fr_repository res = fullName info
         /\ branch res = lit "bug/auto-fix-" ++ id error
         /\ errorMessage res = None
         /\ Forall (fun f => changeType f = modified
                             /\ linesAdded f = 0%N /\ linesRemoved f = 0%N)
                   (modifiedFiles res)
         /\ exists url wi run,
             pullRequestUrl res = Some url
             /\ workItemId res = wi
             /\ ozRunId res = Some run
             /\ In (EvLinkPullRequest wi url) evs
             /\ In (EvMarkAsProcessed
                      (id error)
                      {| pm_workItemId := wi; pm_pullRequestUrl := url;
                         pm_branch := lit "bug/auto-fix-" ++ id error;
                         pm_ozRunId := run |}) evs
     | Throw _ => True
     end.

(** What the [catch] block of a run has done: [status] is the value of
    [status] when [err] was thrown, [r] the result, [evs] the calls. *)
Definition after_failure (config : OrchestratorConfig) (error : AuditLogError)
           (status : FixWorkflowStatus) (err : JsError)
           (r : FixResult) (evs : list Event) : Prop :=
  success r = false
  /\ errorId r = id error
  /\ errorMessage r = Some (err_message err)
  /\ fr_repository r = [] /\ branch r = []
  /\ pullRequestUrl r = None /\ workItemId r = None
  /\ steps evs = [StepSendErrorNotification]
  /\ error_notifications evs
     = [{| en_teamId := teamsTeamId config;
           en_channelId := teamsChannelId config;
           en_errorMessage := err_message err;
           en_errorId := id error;
           en_stage := stage_name (stage status) |}]
  /\ status_log evs = []
  /\ created_bugs evs = []
  /\ branch_calls evs = []
  /\ (thrown evs = []
      \/ exists n ne, thrown evs = [(EvSendErrorNotification n, ne)]).

(** An audit store that cannot be reached. *)
Definition dynamo_down : IDynamoDBAdapter nat :=
  {| getUnprocessedErrors := fun _ x =>
       (Throw {| err_message := lit "store unavailable" |}, x);
     markAsProcessed := fun _ _ x => (Ok tt, x);
     updateErrorWithFixInfo := fun _ _ x => (Ok tt, x) |}.

(** ** The in-memory adapters

    The adapters the application wires together when it runs without
    its external systems ([createAdapters] in index.ts).  The fields of
    a class are a record, a method is an operation on it.  The counters
    stay far below 2^53, where the arithmetic of numbers is exact. *)

(** [Map]: the entries, in insertion order. *)
Module JsMap.

Section Map.

Variables K V : Type.
Variable eqb : K -> K -> bool.

(** [Map.prototype.get] *)
Fixpoint get (k : K) (m : list (K * V)) : option V :=
  match m with
  | [] => None
  | (k', v) :: m' => if eqb k k' then Some v else get k m'
  end.

(** [Map.prototype.set]: the value of a key the map holds is replaced
    where the key stands, a new key goes to the end. *)
Fixpoint set (k : K) (v : V) (m : list (K * V)) : list (K * V) :=
  match m with
  | [] => [(k, v)]
  | (k', v') :: m' =>
      if eqb k k' then (k', v) :: m' else (k', v') :: set k v m'
  end.

(** [Array.from(m.values())] *)
Definition values (m : list (K * V)) : list V := map snd m.

Definition keys (m : list (K * V)) : list K := map fst m.

End Map.

End JsMap.

(** Equality of keys of type [number] (or [undefined]). *)
Definition number_eqb (a b : option N) : bool :=
  match a, b with
  | Some x, Some y => N.eqb x y
  | None, None => true
  | _, _ => false
  end.

(** [a < b] on strings: code unit by code unit, a proper prefix first. *)
Fixpoint str_ltb (a b : str) : bool :=
  match a, b with
  | _, [] => false
  | [], _ :: _ => true
  | x :: a', y :: b' =>
      if (nat_of_ascii x <? nat_of_ascii y)%nat then true
      else if (nat_of_ascii y <? nat_of_ascii x)%nat then false
      else str_ltb a' b'
  end.

(** [{ ...a, ...b }] on objects given by their entries; [a] may be
    [undefined].  The result is read through [map_get]. *)
Definition spread (a : option (list (str * str))) (b : list (str * str))
  : list (str * str) :=
  fold_left (fun o kv => map_set (fst kv) (snd kv) o) b
            (match a with Some o => o | None => [] end).

(** What the in-memory adapters use of the platform: [Date.now()],
    [new Date(ms).toISOString()], a timer that elapses
    ([await new Promise((resolve) => setTimeout(resolve, ms))]) and
    [Math.random().toString(36)]. *)
Record Ambient (E : Type) : Type :=
  { date_now_ms : E -> N * E;
    toISOString : N -> str;
    sleep : N -> E -> E;
    math_random36 : E -> str * E }.

(** [new Date().toISOString()] *)
Definition iso_now {E} (amb : Ambient E) (e : E) : str * E :=
  let '(t, e') := date_now_ms amb e in (toISOString amb t, e').

(** *** MockDevOpsAdapter *)

(** The argument [updates] of [updateBug]: a key is absent ([None]) or
    present; a present key of an optional field may hold [undefined]. *)
Record BugUpdates : Type :=
  { up_title : option str;
    up_description : option str;
    up_reproSteps : option (option str);
    up_systemInfo : option (option str);
    up_priority : option N;
    up_severity : option str;
    up_tags : option (option (list str));
    up_assignedTo : option (option str);
    up_areaPath : option (option str);
    up_iterationPath : option (option str);
    up_bugBranch : option (option str);
    up_pullRequestUrl : option (option str) }.

Module MockDevOpsAdapter.

Record State : Type :=
  { workItems : list (option N * BugWorkItem);
    comments : list (option N * list str);
    idCounter : N }.

(** The fields of a new instance. *)
Definition initial : State :=
  {| workItems := []; comments := []; idCounter := 1000 |}.

Definition createBug (input : CreateBugInput) : op State BugWorkItem :=
  fun s =>
    let id := idCounter s in
    let workItem :=
      {| wi_id := Some id;
         wi_title := cb_title input;
         wi_description := cb_description input;
         wi_reproSteps := cb_reproSteps input;
         wi_systemInfo := cb_systemInfo input;
         wi_priority := match cb_priority input with
                        | Some p => p | None => 2%N end;
         wi_severity := match cb_severity input with
                        | Some v => v | None => lit "2 - High" end;
         wi_tags := Some (match cb_tags input with
                          | Some t => t | None => [lit "auto-fix"] end);
         wi_assignedTo := cb_assignedTo input;
         wi_areaPath := cb_areaPath input;
         wi_iterationPath := cb_iterationPath input;
         wi_relatedErrorId := cb_relatedErrorId input;
         wi_bugBranch := None;
         wi_pullRequestUrl := None |} in
    (Ok workItem,
     {| workItems := JsMap.set number_eqb (Some id) workItem (workItems s);
        comments := JsMap.set number_eqb (Some id) [] (comments s);
        idCounter := (id + 1)%N |}).

(** The value of a key after [{ ...workItem, ...updates }]. *)
Definition over {A} (old : A) (new : option A) : A :=
  match new with Some v => v | None => old end.

Definition updateBug (id : option N) (updates : BugUpdates)
  : op State BugWorkItem :=
  fun s =>
    match JsMap.get number_eqb id (workItems s) with
    | None =>
        (Throw {| err_message :=
                    lit "Work item " ++ show_opt_N id ++ lit " not found" |},
         s)
    | Some workItem =>
        let updated :=
          {| wi_id := wi_id workItem;
             wi_title := over (wi_title workItem) (up_title updates);
             wi_description :=
               over (wi_description workItem) (up_description updates);
             wi_reproSteps :=
               over (wi_reproSteps workItem) (up_reproSteps updates);
             wi_systemInfo :=
               over (wi_systemInfo workItem) (up_systemInfo updates);
             wi_priority := over (wi_priority workItem) (up_priority updates);
             wi_severity := over (wi_severity workItem) (up_severity updates);
             wi_tags := over (wi_tags workItem) (up_tags updates);
             wi_assignedTo :=
               over (wi_assignedTo workItem) (up_assignedTo updates);
             wi_areaPath := over (wi_areaPath workItem) (up_areaPath updates);
             wi_iterationPath :=
               over (wi_iterationPath workItem) (up_iterationPath updates);
             wi_relatedErrorId := wi_relatedErrorId workItem;
             wi_bugBranch :=
               over (wi_bugBranch workItem) (up_bugBranch updates);
             wi_pullRequestUrl :=
               over (wi_pullRequestUrl workItem) (up_pullRequestUrl updates) |}
        in
        (Ok updated,
         {| workItems := JsMap.set number_eqb id updated (workItems s);
            comments := comments s;
            idCounter := idCounter s |})
    end.

Definition addComment (id : option N) (comment : str) : op State unit :=
  fun s =>
    let comments0 :=
      match JsMap.get number_eqb id (comments s) with
      | Some c => c
      | None => []
      end in
    (Ok tt,
     {| workItems := workItems s;
        comments := JsMap.set number_eqb id (comments0 ++ [comment])
                              (comments s);
        idCounter := idCounter s |}).

(** [workItem.pullRequestUrl = prUrl] on the stored object. *)
Definition linkPullRequest (workItemId : option N) (prUrl : str)
  : op State unit :=
  fun s =>
    match JsMap.get number_eqb workItemId (workItems s) with
    | Some workItem =>
        (Ok tt,
         {| workItems :=
              JsMap.set number_eqb workItemId
                {| wi_id := wi_id workItem;
                   wi_title := wi_title workItem;
                   wi_description := wi_description workItem;
                   wi_reproSteps := wi_reproSteps workItem;
                   wi_systemInfo := wi_systemInfo workItem;
                   wi_priority := wi_priority workItem;
                   wi_severity := wi_severity workItem;
                   wi_tags := wi_tags workItem;
                   wi_assignedTo := wi_assignedTo workItem;
                   wi_areaPath := wi_areaPath workItem;
                   wi_iterationPath := wi_iterationPath workItem;
                   wi_relatedErrorId := wi_relatedErrorId workItem;
                   wi_bugBranch := wi_bugBranch workItem;
                   wi_pullRequestUrl := Some prUrl |}
                (workItems s);
            comments := comments s;
            idCounter := idCounter s |})
    | None => (Ok tt, s)
    end.

Definition getWorkItem (id : option N) : op State (option BugWorkItem) :=
  fun s => (Ok (JsMap.get number_eqb id (workItems s)), s).

(** The call of [addComment] is not awaited; it has no [await] of its
    own, so it has run when [closeWorkItem] returns. *)
Definition closeWorkItem (id : option N) (reason : str) : op State unit :=
  fun s =>
    match JsMap.get number_eqb id (workItems s) with
    | Some _ => addComment id (lit "Closed: " ++ reason) s
    | None => (Ok tt, s)
    end.

Definition getComments (id : option N) (s : State) : list str :=
  match JsMap.get number_eqb id (comments s) with
  | Some c => c
  | None => []
  end.

Definition getAllWorkItems (s : State) : list BugWorkItem :=
  JsMap.values (workItems s).

Definition clear (s : State) : State :=
  {| workItems := []; comments := []; idCounter := 1000 |}.

(** A call of a method from outside. *)
Inductive Call : Type :=
| CreateBug (input : CreateBugInput)
| UpdateBug (id : option N) (updates : BugUpdates)
| AddComment (id : option N) (comment : str)
| LinkPullRequest (workItemId : option N) (prUrl : str)
| GetWorkItem (id : option N)
| CloseWorkItem (id : option N) (reason : str)
| Clear.

(** The state after a call, whether it returned or threw. *)
Definition after (c : Call) (s : State) : State :=
  match c with
  | CreateBug input => snd (createBug input s)
  | UpdateBug id updates => snd (updateBug id updates s)
  | AddComment id comment => snd (addComment id comment s)
  | LinkPullRequest workItemId prUrl => snd (linkPullRequest workItemId prUrl s)
  | GetWorkItem id => snd (getWorkItem id s)
  | CloseWorkItem id reason => snd (closeWorkItem id reason s)
  | Clear => clear s
  end.

(** The state of an instance after a history of calls. *)
Definition history (cs : list Call) : State := fold_left (fun s c => after c s) cs initial.

End MockDevOpsAdapter.

(** *** MockDynamoDBAdapter *)

Module MockDynamoDBAdapter.

Record State : Type := { errors : list (str * AuditLogError) }.

(** [this.errors.set(error.id, error)] *)
Definition addError (error : AuditLogError) (s : State) : State :=
  {| errors := JsMap.set JsString.eqb (id error) error (errors s) |}.

(** The two records of [seedSampleData]; [now] and [hourAgo] are the
    texts of [new Date()] and of [new Date(Date.now() - 3600000)]. *)
Definition sampleErrors (now hourAgo : str) : list AuditLogError :=
  [ {| id := lit "err-001";
       timestamp := now;
       message := lit "TypeError: Cannot read property 'map' of undefined";
       stackTrace :=
         lit "TypeError: Cannot read property 'map' of undefined" ++ nl
           ++ lit "    at UserService.getUsers (/src/services/UserService.ts:45:23)" ++ nl
           ++ lit "    at async UserController.list (/src/controllers/UserController.ts:12:18)" ++ nl
           ++ lit "    at async /src/routes/users.ts:8:5";
       severity := lit "error";
       source := lit "user-service";
       environment := lit "production";
       commitSha := Some (lit "abc123def");
       repository := Some (lit "myorg/user-service");
       processed := false;
       metadata := None |};
    {| id := lit "err-002";
       timestamp := hourAgo;
       message := lit "Database connection timeout";
       stackTrace :=
         lit "Error: Database connection timeout" ++ nl
           ++ lit "    at PostgresPool.connect (/src/db/connection.ts:78:11)" ++ nl
           ++ lit "    at async DataRepository.query (/src/repositories/DataRepository.ts:23:5)" ++ nl
           ++ lit "    at async ReportService.generate (/src/services/ReportService.ts:156:12)";
       severity := lit "critical";
       source := lit "report-service";
       environment := lit "production";
       commitSha := Some (lit "def456ghi");
       repository := Some (lit "myorg/report-service");
       processed := false;
       metadata := None |} ].

(** The constructor, given [initialErrors]. *)
Definition of_errors (initialErrors : list AuditLogError) : State :=
  fold_left (fun s error => addError error s) initialErrors {| errors := [] |}.

(** [new MockDynamoDBAdapter(initialErrors)]: without the argument the
    store is seeded, and the clock is read twice. *)
Definition construct {E} (amb : Ambient E)
           (initialErrors : option (list AuditLogError)) (e : E) : State * E :=
  match initialErrors with
  | Some l => (of_errors l, e)
  | None =>
      let '(now, e1) := iso_now amb e in
      let '(t, e2) := date_now_ms amb e1 in
      (of_errors (sampleErrors now (toISOString amb (t - 3600000)%N)), e2)
  end.

(** [if (filter?.severity && filter.severity.length > 0)] *)
Definition by_severity (filter : option AuditLogErrorFilter)
           (results : list AuditLogError) : list AuditLogError :=
  match filter with
  | Some f =>
      match f_severity f with
      | Some sev =>
          if (0 <? length sev)%nat
          then List.filter (fun e => existsb (JsString.eqb (severity e)) sev)
                           results
          else results
      | None => results
      end
  | None => results
  end.

(** [if (filter?.source)] *)
Definition by_source (filter : option AuditLogErrorFilter)
           (results : list AuditLogError) : list AuditLogError :=
  match filter with
  | Some f =>
      match f_source f with
      | Some src =>
          if JsString.truthy src
          then List.filter (fun e => JsString.eqb (source e) src) results
          else results
      | None => results
      end
  | None => results
  end.

(** [if (filter?.since)]: [e.timestamp >= filter.since] on strings. *)
Definition by_since (filter : option AuditLogErrorFilter)
           (results : list AuditLogError) : list AuditLogError :=
  match filter with
  | Some f =>
      match f_since f with
      | Some since =>
          if JsString.truthy since
          then List.filter (fun e => negb (str_ltb (timestamp e) since)) results
          else results
      | None => results
      end
  | None => results
  end.

(** [if (filter?.limit)]: [results.slice(0, filter.limit)] *)
Definition by_limit (filter : option AuditLogErrorFilter)
           (results : list AuditLogError) : list AuditLogError :=
  match filter with
  | Some f =>
      match f_limit f with
      | Some limit =>
          if negb (N.eqb limit 0) then firstn (N.to_nat limit) results
          else results
      | None => results
      end
  | None => results
  end.

(** The records it returns are the stored objects themselves. *)
Definition getUnprocessedErrors (filter : option AuditLogErrorFilter)
  : op State (list AuditLogError) :=
  fun s =>
    let results :=
      List.filter (fun e => negb (processed e)) (JsMap.values (errors s)) in
    let results := by_severity filter results in
    let results := by_source filter results in
    let results := by_since filter results in
    let results := by_limit filter results in
    (Ok results, s).

Definition getErrorById (id : str) : op State (option AuditLogError) :=
  fun s => (Ok (JsMap.get JsString.eqb id (errors s)), s).

(** [error.processed = true] and the merge of [metadata], on the stored
    object. *)
Definition markAsProcessed (errorId : str) (md : option (list (str * str)))
  : op State unit :=
  fun s =>
    match JsMap.get JsString.eqb errorId (errors s) with
    | Some error =>
        (Ok tt,
         {| errors :=
              JsMap.set JsString.eqb errorId
                {| id := id error;
                   timestamp := timestamp error;
                   message := message error;
                   stackTrace := stackTrace error;
                   severity := severity error;
                   source := source error;
                   environment := environment error;
                   commitSha := commitSha error;
                   repository := repository error;
                   processed := true;
                   metadata := match md with
                               | Some m => Some (spread (metadata error) m)
                               | None => metadata error
                               end |}
                (errors s) |})
    | None => (Ok tt, s)
    end.

Definition updateErrorWithFixInfo (errorId : str) (fixInfo : list (str * str))
  : op State unit :=
  fun s =>
    match JsMap.get JsString.eqb errorId (errors s) with
    | Some error =>
        (Ok tt,
         {| errors :=
              JsMap.set JsString.eqb errorId
                {| id := id error;
                   timestamp := timestamp error;
                   message := message error;
                   stackTrace := stackTrace error;
                   severity := severity error;
                   source := source error;
                   environment := environment error;
                   commitSha := commitSha error;
                   repository := repository error;
                   processed := processed error;
                   metadata := Some (spread (metadata error) fixInfo) |}
                (errors s) |})
    | None => (Ok tt, s)
    end.

Definition clear (s : State) : State := {| errors := [] |}.

Inductive Call : Type :=
| GetUnprocessedErrors (filter : option AuditLogErrorFilter)
| GetErrorById (id : str)
| MarkAsProcessed (errorId : str) (md : option (list (str * str)))
| UpdateErrorWithFixInfo (errorId : str) (fixInfo : list (str * str))
| AddError (error : AuditLogError)
| Clear.

Definition after (c : Call) (s : State) : State :=
  match c with
  | GetUnprocessedErrors filter => snd (getUnprocessedErrors filter s)
  | GetErrorById id => snd (getErrorById id s)
  | MarkAsProcessed errorId md => snd (markAsProcessed errorId md s)
  | UpdateErrorWithFixInfo errorId fixInfo =>
      snd (updateErrorWithFixInfo errorId fixInfo s)
  | AddError error => addError error s
  | Clear => clear s
  end.

(** The state of an instance built from [initialErrors] after a history
    of calls. *)
Definition history (initialErrors : list AuditLogError) (cs : list Call)
  : State :=
  fold_left (fun s c => after c s) cs (of_errors initialErrors).

End MockDynamoDBAdapter.
(** *** MockGitHubAdapter *)

Record PullRequestRecord : Type :=
  { prr_number : N;
    prr_url : str;
    prr_title : str;
    prr_head : str;
    prr_base : str }.

Record FileContents : Type := { fc_content : str; fc_sha : str }.

Record Commit : Type := { c_sha : str; c_message : str; c_author : str }.

Module MockGitHubAdapter.

Record State : Type :=
  { branches : list (str * str);
    files : list (str * FileContents);
    pullRequests : list PullRequestRecord;
    prCounter : N }.

(** The fields after the constructor has run. *)
Definition initial : State :=
  {| branches := [(lit "myorg/test-repo:main", lit "initial-sha-123")];
     files := [];
     pullRequests := [];
     prCounter := 1 |}.

Definition branch_key (owner repo branch : str) : str :=
  owner ++ lit "/" ++ repo ++ lit ":" ++ branch.

Definition file_key (owner repo branch path : str) : str :=
  owner ++ lit "/" ++ repo ++ lit ":" ++ branch ++ lit ":" ++ path.

Definition createBranch (owner repo branchName : str) (fromBranch : option str)
  : op State unit :=
  fun s =>
    let key := branch_key owner repo branchName in
    let sourceKey :=
      branch_key owner repo
                 (match fromBranch with Some b => b | None => lit "main" end) in
    let sourceSha :=
      match JsMap.get JsString.eqb sourceKey (branches s) with
      | Some sha => sha
      | None => lit "default-sha"
      end in
    (Ok tt,
     {| branches := JsMap.set JsString.eqb key sourceSha (branches s);
        files := files s;
        pullRequests := pullRequests s;
        prCounter := prCounter s |}).

(** The loop of [pushFiles]. *)
Definition put_files (owner repo branch newSha : str)
           (fs : list (str * str)) (m : list (str * FileContents))
  : list (str * FileContents) :=
  fold_left
    (fun m file =>
       JsMap.set JsString.eqb (file_key owner repo branch (fst file))
                 {| fc_content := snd file; fc_sha := newSha |} m)
    fs m.

(** [pushFiles]; a file is a pair of its path and its content. *)
Definition pushFiles {E} (amb : Ambient E) (owner repo branch : str)
           (fs : list (str * str)) (commitMessage : str)
  : op (State * E) str :=
  fun se =>
    let s := fst se in
    let '(t, e1) := date_now_ms amb (snd se) in
    let '(r, e2) := math_random36 amb e1 in
    let newSha :=
      lit "sha-" ++ JsString.of_N t ++ lit "-" ++ firstn 5 (skipn 2 r) in
    (Ok newSha,
     ({| branches := JsMap.set JsString.eqb (branch_key owner repo branch)
                               newSha (branches s);
         files := put_files owner repo branch newSha fs (files s);
         pullRequests := pullRequests s;
         prCounter := prCounter s |}, e2)).

Definition createPullRequest (params : PullRequestParams)
  : op State PullRequest :=
  fun s =>
    let number := prCounter s in
    let url := lit "https://github.com/" ++ pr_owner params ++ lit "/"
                   ++ pr_repo params ++ lit "/pull/" ++ JsString.of_N number in
    (Ok {| pr_url := url; pr_number := number |},
     {| branches := branches s;
        files := files s;
        pullRequests :=
          pullRequests s
            ++ [{| prr_number := number;
                   prr_url := url;
                   prr_title := pr_title params;
                   prr_head := pr_head params;
                   prr_base := pr_base params |}];
        prCounter := (number + 1)%N |}).

Definition getFileContents (owner repo path : str) (ref : option str)
  : op State (option FileContents) :=
  fun s =>
    let branch := match ref with Some b => b | None => lit "main" end in
    (Ok (JsMap.get JsString.eqb (file_key owner repo branch path) (files s)),
     s).

Definition getRepository (owner repo : str) : op State (option RepoData) :=
  fun s =>
    (Ok (Some {| rd_defaultBranch := lit "main";
                 rd_fullName := owner ++ lit "/" ++ repo;
                 rd_url := lit "https://github.com/" ++ owner ++ lit "/"
                               ++ repo |}),
     s).

Definition searchRepositories (query : str) : op State (list SearchHit) :=
  fun s =>
    let name := if JsString.includes (lit "user") query
                then lit "user-service" else lit "test-repo" in
    (Ok [{| sh_owner := lit "myorg";
            sh_name := name;
            sh_fullName := lit "myorg/" ++ name;
            sh_url := lit "https://github.com/myorg/" ++ name |}],
     s).

(** [if (!sha) return null]: an empty sha counts as none. *)
Definition getLatestCommit (owner repo branch : str) : op State (option Commit) :=
  fun s =>
    match JsMap.get JsString.eqb (branch_key owner repo branch) (branches s) with
    | Some sha =>
        if JsString.truthy sha
        then (Ok (Some {| c_sha := sha;
                          c_message := lit "Latest commit message";
                          c_author := lit "Test Author" |}), s)
        else (Ok None, s)
    | None => (Ok None, s)
    end.

Definition getPullRequests (s : State) : list PullRequestRecord :=
  pullRequests s.

Definition setBranchSha (owner repo branch sha : str) (s : State) : State :=
  {| branches := JsMap.set JsString.eqb (branch_key owner repo branch) sha
                           (branches s);
     files := files s;
     pullRequests := pullRequests s;
     prCounter := prCounter s |}.

Definition setFileContent {E} (amb : Ambient E)
           (owner repo branch path content : str) (se : State * E)
  : State * E :=
  let s := fst se in
  let '(t, e1) := date_now_ms amb (snd se) in
  ({| branches := branches s;
      files := JsMap.set JsString.eqb (file_key owner repo branch path)
                         {| fc_content := content;
                            fc_sha := lit "sha-" ++ JsString.of_N t |}
                         (files s);
      pullRequests := pullRequests s;
      prCounter := prCounter s |}, e1).

Inductive Call : Type :=
| CreateBranch (owner repo branchName : str) (fromBranch : option str)
| PushFiles (owner repo branch : str) (fs : list (str * str))
            (commitMessage : str)
| CreatePullRequest (params : PullRequestParams)
| GetFileContents (owner repo path : str) (ref : option str)
| GetRepository (owner repo : str)
| SearchRepositories (query : str)
| GetLatestCommit (owner repo branch : str)
| SetBranchSha (owner repo branch sha : str)
| SetFileContent (owner repo branch path content : str).

Definition after {E} (amb : Ambient E) (c : Call) (se : State * E)
  : State * E :=
  match c with
  | CreateBranch owner repo branchName fromBranch =>
      (snd (createBranch owner repo branchName fromBranch (fst se)), snd se)
  | PushFiles owner repo branch fs commitMessage =>
      snd (pushFiles amb owner repo branch fs commitMessage se)
  | CreatePullRequest params =>
      (snd (createPullRequest params (fst se)), snd se)
  | GetFileContents owner repo path ref =>
      (snd (getFileContents owner repo path ref (fst se)), snd se)
  | GetRepository owner repo => (snd (getRepository owner repo (fst se)), snd se)
  | SearchRepositories query =>
      (snd (searchRepositories query (fst se)), snd se)
  | GetLatestCommit owner repo branch =>
      (snd (getLatestCommit owner repo branch (fst se)), snd se)
  | SetBranchSha owner repo branch sha =>
      (setBranchSha owner repo branch sha (fst se), snd se)
  | SetFileContent owner repo branch path content =>
      setFileContent amb owner repo branch path content se
  end.

Definition history {E} (amb : Ambient E) (cs : list Call) (e : E) : State * E :=
  fold_left (fun se c => after amb c se) cs (initial, e).

End MockGitHubAdapter.

(** *** MockOzAdapter *)

(** [OzRunStatus['status']] *)
Inductive RunState : Type :=
| run_pending | run_running | run_completed | run_failed | run_cancelled.

Definition RunState_eqb (a b : RunState) : bool :=
  match a, b with
  | run_pending, run_pending | run_running, run_running
  | run_completed, run_completed | run_failed, run_failed
  | run_cancelled, run_cancelled => true
  | _, _ => false
  end.

Record OzRunStatus : Type :=
  { rs_runId : str;
    rs_status : RunState;
    rs_message : option str;
    rs_startedAt : str;
    rs_completedAt : option str }.

(** The digit of [n.toString(36)] for a value below 36. *)
Definition digit36 (d : N) : ascii :=
  if (d <? 10)%N then ascii_of_N (48 + d) else ascii_of_N (87 + d).

Fixpoint base36_from (fuel : nat) (n : N) (acc : str) : str :=
  match fuel with
  | O => acc
  | S fuel' =>
      let acc' := digit36 (n mod 36) :: acc in
      if (n / 36 =? 0)%N then acc' else base36_from fuel' (n / 36) acc'
  end.

(** [n.toString(36)] for a non-negative integer. *)
Definition toString36 (n : N) : str :=
  base36_from (S (N.to_nat (N.log2 n))) n [].

Module MockOzAdapter.

Record MockRun : Type :=
  { mr_runId : str;
    mr_status : RunState;
    mr_errorMessage : str;
    mr_repository : str;
    mr_branch : str;
    mr_startTime : N }.

Record State : Type :=
  { runs : list (str * MockRun);
    runCounter : N;
    simulateFailure : bool;
    simulatedDelay : N }.

Definition initial : State :=
  {| runs := []; runCounter := 1; simulateFailure := false;
     simulatedDelay := 1000 |}.

Definition with_runs (s : State) (r : list (str * MockRun)) : State :=
  {| runs := r;
     runCounter := runCounter s;
     simulateFailure := simulateFailure s;
     simulatedDelay := simulatedDelay s |}.

(** [run.status = status] on the stored object. *)
Definition set_status (runId : str) (status : RunState) (s : State) : State :=
  match JsMap.get JsString.eqb runId (runs s) with
  | Some run =>
      with_runs s
        (JsMap.set JsString.eqb runId
           {| mr_runId := mr_runId run;
              mr_status := status;
              mr_errorMessage := mr_errorMessage run;
              mr_repository := mr_repository run;
              mr_branch := mr_branch run;
              mr_startTime := mr_startTime run |}
           (runs s))
  | None => s
  end.

Section Methods.

Variable E : Type.
Variable amb : Ambient E.

(** [fixBug], with nothing else running while it sleeps.  The
    difference of two readings of the clock is a natural number: the
    clock is taken not to run backwards. *)
Definition fixBug (params : FixBugParams) : op (State * E) OzFixResult :=
  fun se =>
    let s := fst se in
    let runId := lit "mock-run-" ++ JsString.of_N (runCounter s) in
    let '(startTime, e1) := date_now_ms amb (snd se) in
    let s1 :=
      {| runs := JsMap.set JsString.eqb runId
                   {| mr_runId := runId;
                      mr_status := run_running;
                      mr_errorMessage := fb_errorMessage params;
                      mr_repository := fb_repository params;
                      mr_branch := fb_branch params;
                      mr_startTime := startTime |}
                   (runs s);
         runCounter := (runCounter s + 1)%N;
         simulateFailure := simulateFailure s;
         simulatedDelay := simulatedDelay s |} in
    let e2 := sleep amb (simulatedDelay s1) e1 in
    let s2 := set_status runId
                         (if simulateFailure s1 then run_failed
                          else run_completed) s1 in
    let '(t2, e3) := date_now_ms amb e2 in
    let durationMs := (t2 - startTime)%N in
    if simulateFailure s2
    then (Ok {| runId := runId;
                oz_success := false;
                summary := lit "Mock fix failed";
                filesModified := [];
                oz_commitSha := None;
                oz_error := Some (lit "Simulated failure for testing");
                durationMs := durationMs |},
          (s2, e3))
    else
      let primaryFrame := find isUserCode (frames (fb_stackTrace params)) in
      let fixedFile :=
        match primaryFrame with
        | Some f => filePath f
        | None => lit "src/unknown.ts"
        end in
      let '(t3, e4) := date_now_ms amb e3 in
      (Ok {| runId := runId;
             oz_success := true;
             summary := lit "Fixed " ++ fb_errorMessage params ++ lit " in "
                            ++ fixedFile
                            ++ lit " by adding null check and proper error handling";
             filesModified := [fixedFile];
             oz_commitSha := Some (lit "mock-sha-" ++ toString36 t3);
             oz_error := None;
             durationMs := durationMs |},
       (s2, e4)).

Definition getRunStatus (runId : str) : op (State * E) OzRunStatus :=
  fun se =>
    match JsMap.get JsString.eqb runId (runs (fst se)) with
    | None =>
        let '(now, e1) := iso_now amb (snd se) in
        (Ok {| rs_runId := runId;
               rs_status := run_failed;
               rs_message := Some (lit "Run not found");
               rs_startedAt := now;
               rs_completedAt := None |},
         (fst se, e1))
    | Some run =>
        let message :=
          match mr_status run with
          | run_completed => lit "Fix completed successfully"
          | run_failed => lit "Fix failed"
          | _ => lit "Working on fix..."
          end in
        let startedAt := toISOString amb (mr_startTime run) in
        if RunState_eqb (mr_status run) run_running
        then (Ok {| rs_runId := mr_runId run;
                    rs_status := mr_status run;
                    rs_message := Some message;
                    rs_startedAt := startedAt;
                    rs_completedAt := None |},
              se)
        else
          let '(now, e1) := iso_now amb (snd se) in
          (Ok {| rs_runId := mr_runId run;
                 rs_status := mr_status run;
                 rs_message := Some message;
                 rs_startedAt := startedAt;
                 rs_completedAt := Some now |},
           (fst se, e1))
    end.

Definition waitForCompletion (runId : str) (timeoutMs : option N)
  : op (State * E) OzFixResult :=
  fun se =>
    match JsMap.get JsString.eqb runId (runs (fst se)) with
    | None =>
        (Ok {| runId := runId;
               oz_success := false;
               summary := lit "Run not found";
               filesModified := [];
               oz_commitSha := None;
               oz_error := Some (lit "Run not found");
               durationMs := 0 |},
         se)
    | Some run =>
        let '(t, e1) := date_now_ms amb (snd se) in
        let durationMs := (t - mr_startTime run)%N in
        let e2 := sleep amb 100 e1 in
        match mr_status run with
        | run_completed =>
            let '(t', e3) := date_now_ms amb e2 in
            (Ok {| runId := runId;
                   oz_success := true;
                   summary := lit "Fixed " ++ mr_errorMessage run;
                   filesModified := [lit "src/fixed-file.ts"];
                   oz_commitSha := Some (lit "mock-sha-" ++ JsString.of_N t');
                   oz_error := None;
                   durationMs := durationMs |},
             (fst se, e3))
        | status =>
            (Ok {| runId := runId;
                   oz_success := false;
                   summary := lit "Fix failed";
                   filesModified := [];
                   oz_commitSha := None;
                   oz_error := match status with
                               | run_failed => Some (lit "Simulated failure")
                               | _ => None
                               end;
                   durationMs := durationMs |},
             (fst se, e2))
        end
    end.

Definition cancelRun (runId : str) : op (State * E) unit :=
  fun se => (Ok tt, (set_status runId run_cancelled (fst se), snd se)).

End Methods.

Definition setSimulateFailure (value : bool) (s : State) : State :=
  {| runs := runs s;
     runCounter := runCounter s;
     simulateFailure := value;
     simulatedDelay := simulatedDelay s |}.

Definition setSimulatedDelay (ms : N) (s : State) : State :=
  {| runs := runs s;
     runCounter := runCounter s;
     simulateFailure := simulateFailure s;
     simulatedDelay := ms |}.

Definition getRuns (s : State) : list MockRun := JsMap.values (runs s).

Definition clear (s : State) : State :=
  {| runs := [];
     runCounter := 1;
     simulateFailure := false;
     simulatedDelay := simulatedDelay s |}.

Inductive Call : Type :=
| FixBug (params : FixBugParams)
| GetRunStatus (runId : str)
| WaitForCompletion (runId : str) (timeoutMs : option N)
| CancelRun (runId : str)
| SetSimulateFailure (value : bool)
| SetSimulatedDelay (ms : N)
| Clear.

Definition after {E} (amb : Ambient E) (c : Call) (se : State * E)
  : State * E :=
  match c with
  | FixBug params => snd (fixBug amb params se)
  | GetRunStatus runId => snd (getRunStatus amb runId se)
  | WaitForCompletion runId timeoutMs =>
      snd (waitForCompletion amb runId timeoutMs se)
  | CancelRun runId => snd (cancelRun runId se)
  | SetSimulateFailure value => (setSimulateFailure value (fst se), snd se)
  | SetSimulatedDelay ms => (setSimulatedDelay ms (fst se), snd se)
  | Clear => (clear (fst se), snd se)
  end.

Definition history {E} (amb : Ambient E) (cs : list Call) (e : E)
  : State * E :=
  fold_left (fun se c => after amb c se) cs (initial, e).

End MockOzAdapter.
(** *** OzAdapter

    The adapter of the fix agent used outside the in-memory mode.  The
    SDK call [this.client.agent.run] is a parameter.  The loop of
    [waitForCompletion] runs for as long as the clock allows: the
    functions that go through it take a bound on the number of rounds
    and return [None] when it is used up.  The difference of two
    readings of the clock is a natural number: the clock is taken not to
    run backwards. *)

(** The argument of [agent.run]; the key [mcp_servers] is left out, the
    core passes none. *)
Record AgentRunRequest : Type :=
  { arq_prompt : str;
    arq_environment_id : option str;
    arq_name : str }.

Record AgentRunResponse : Type :=
  { run_id : option str; task_id : option str }.

(** [s.replace(c, by)] for a one-character pattern: the first occurrence. *)
Fixpoint replace_first_char (c : ascii) (by_ : str) (s : str) : str :=
  match s with
  | [] => []
  | a :: s' =>
      if Ascii.eqb a c then by_ ++ s' else a :: replace_first_char c by_ s'
  end.

(** [now - startTime < timeoutMs], on integers. *)
Definition elapsed_ltb (now startTime timeoutMs : N) : bool :=
  (now <? startTime + timeoutMs)%N.

Module OzAdapter.

Section Methods.

Variable E : Type.
Variable amb : Ambient E.
Variable agent_run : AgentRunRequest -> op E AgentRunResponse.
Variable defaultEnvironmentId : option str.

Definition buildFixPrompt (params : FixBugParams) : str :=
  let primaryFrame := find isUserCode (frames (fb_stackTrace params)) in
  let fileInfo :=
    match primaryFrame with
    | Some f =>
        lit "File: " ++ filePath f
            ++ match lineNumber f with
               | Some n => if N.eqb n 0 then []
                           else lit ":" ++ JsString.of_N n
               | None => []
               end
    | None => []
    end in
  let functionInfo :=
    match primaryFrame with
    | Some f =>
        match functionName f with
        | Some n => if JsString.truthy n then lit "Function: " ++ n else []
        | None => []
        end
    | None => []
    end in
  JsString.trim
    (JsString.join nl
       [ [];
         lit "Fix the following bug in the " ++ fb_repository params
             ++ lit " repository on the " ++ fb_branch params ++ lit " branch:";
         [];
         lit "## Error";
         fb_errorMessage params;
         [];
         lit "## Location";
         fileInfo;
         functionInfo;
         [];
         lit "## Stack Trace";
         lit "```";
         raw (fb_stackTrace params);
         lit "```";
         [];
         match fb_context params with
         | Some c => if JsString.truthy c
                     then lit "## Additional Context" ++ nl ++ c else []
         | None => []
         end;
         [];
         lit "## Instructions";
         lit "1. Clone the repository if not already present";
         lit "2. Checkout the " ++ fb_branch params ++ lit " branch";
         lit "3. Analyze the error and stack trace";
         lit "4. Implement a fix for the bug";
         lit "5. Ensure the fix doesn't break existing functionality";
         lit "6. Commit the changes with a descriptive message";
         [];
         lit "Please fix this bug and provide a summary of your changes.";
         lit "    " ]).

Definition getRunStatus (runId : str) : op E OzRunStatus :=
  fun e =>
    let '(now, e1) := iso_now amb e in
    (Ok {| rs_runId := runId;
           rs_status := run_running;
           rs_message := Some (lit "Agent is working on the fix");
           rs_startedAt := now;
           rs_completedAt := None |},
     e1).

(** The loop of [waitForCompletion] and the [return] that follows it. *)
Fixpoint poll (rounds : nat) (runId : str) (startTime timeoutMs : N) (e : E)
  : option (result OzFixResult * E) :=
  match rounds with
  | O => None
  | S rounds' =>
      let '(t, e1) := date_now_ms amb e in
      if elapsed_ltb t startTime timeoutMs
      then
        match getRunStatus runId e1 with
        | (Throw err, e2) => Some (Throw err, e2)
        | (Ok status, e2) =>
            match rs_status status with
            | run_completed =>
                let '(t', e3) := date_now_ms amb e2 in
                Some (Ok {| runId := runId;
                            oz_success := true;
                            summary :=
                              match rs_message status with
                              | Some m => m
                              | None => lit "Fix completed successfully"
                              end;
                            filesModified := [];
                            oz_commitSha := None;
                            oz_error := None;
                            durationMs := (t' - startTime)%N |}, e3)
            | run_failed =>
                let '(t', e3) := date_now_ms amb e2 in
                Some (Ok {| runId := runId;
                            oz_success := false;
                            summary := lit "Fix failed";
                            filesModified := [];
                            oz_commitSha := None;
                            oz_error := rs_message status;
                            durationMs := (t' - startTime)%N |}, e3)
            | run_cancelled =>
                let '(t', e3) := date_now_ms amb e2 in
                Some (Ok {| runId := runId;
                            oz_success := false;
                            summary := lit "Fix was cancelled";
                            filesModified := [];
                            oz_commitSha := None;
                            oz_error := Some (lit "Run cancelled");
                            durationMs := (t' - startTime)%N |}, e3)
            | _ => poll rounds' runId startTime timeoutMs (sleep amb 5000 e2)
            end
        end
      else
        let '(t', e2) := date_now_ms amb e1 in
        Some (Ok {| runId := runId;
                    oz_success := false;
                    summary := lit "Fix timed out";
                    filesModified := [];
                    oz_commitSha := None;
                    oz_error := Some (lit "Timeout after "
                                          ++ JsString.of_N timeoutMs
                                          ++ lit "ms");
                    durationMs := (t' - startTime)%N |}, e2)
  end.

Definition waitForCompletion (rounds : nat) (runId : str)
           (timeoutMs : option N) (e : E) : option (result OzFixResult * E) :=
  let timeoutMs := match timeoutMs with Some t => t | None => 300000%N end in
  let '(startTime, e1) := date_now_ms amb e in
  poll rounds runId startTime timeoutMs e1.

(** The argument of [this.client.agent.run]. *)
Definition request (params : FixBugParams) : AgentRunRequest :=
  {| arq_prompt := buildFixPrompt params;
     arq_environment_id :=
       match fb_environmentId params with
       | Some i => Some i
       | None => defaultEnvironmentId
       end;
     arq_name := lit "auto-fix-"
                     ++ replace_first_char "/" (lit "-") (fb_repository params) |}.

Definition fixBug (rounds : nat) (params : FixBugParams) (e : E)
  : option (result OzFixResult * E) :=
  match agent_run (request params) e with
  | (Throw err, e1) => Some (Throw err, e1)
  | (Ok response, e1) =>
      let runId :=
        match run_id response with
        | Some r => r
        | None => match task_id response with
                  | Some t => t
                  | None => lit "unknown"
                  end
        end in
      waitForCompletion rounds runId (Some 300000%N) e1
  end.

End Methods.

End OzAdapter.

(** *** The application on the in-memory adapters

    The adapters [createAdapters] returns when [useMockAdapters] is set,
    side by side in one state.  The chat adapter stays a parameter. *)

Module MockMode.

Section MockMode.

Variables T E : Type.
Variable amb : Ambient E.
(** What [utils/logger.js] does with a line. *)
Variable write_log : LogLevel -> str -> list (str * str) -> E -> E.
Variable teams : ITeamsAdapter T.

Record Systems : Type :=
  { dynamo : MockDynamoDBAdapter.State;
    devops : MockDevOpsAdapter.State;
    github : MockGitHubAdapter.State;
    oz : MockOzAdapter.State;
    chat : T;
    env : E }.

Definition on_dynamo {A} (o : op MockDynamoDBAdapter.State A) : op Systems A :=
  fun w =>
    let '(r, s) := o (dynamo w) in
    (r, {| dynamo := s; devops := devops w; github := github w; oz := oz w;
           chat := chat w; env := env w |}).

Definition on_devops {A} (o : op MockDevOpsAdapter.State A) : op Systems A :=
  fun w =>
    let '(r, s) := o (devops w) in
    (r, {| dynamo := dynamo w; devops := s; github := github w; oz := oz w;
           chat := chat w; env := env w |}).

Definition on_github {A} (o : op MockGitHubAdapter.State A) : op Systems A :=
  fun w =>
    let '(r, s) := o (github w) in
    (r, {| dynamo := dynamo w; devops := devops w; github := s; oz := oz w;
           chat := chat w; env := env w |}).

Definition on_oz {A} (o : op (MockOzAdapter.State * E) A) : op Systems A :=
  fun w =>
    let '(r, se) := o (oz w, env w) in
    (r, {| dynamo := dynamo w; devops := devops w; github := github w;
           oz := fst se; chat := chat w; env := snd se |}).

Definition on_chat {A} (o : op T A) : op Systems A :=
  fun w =>
    let '(r, t) := o (chat w) in
    (r, {| dynamo := dynamo w; devops := devops w; github := github w;
           oz := oz w; chat := t; env := env w |}).

Definition on_env {A} (o : E -> A * E) (w : Systems) : A * Systems :=
  let '(a, e) := o (env w) in
  (a, {| dynamo := dynamo w; devops := devops w; github := github w;
         oz := oz w; chat := chat w; env := e |}).

(** The object [processError] hands to [markAsProcessed]. *)
Definition processed_object (md : ProcessedMetadata) : list (str * str) :=
  [(lit "workItemId", show_opt_N (pm_workItemId md));
   (lit "pullRequestUrl", pm_pullRequestUrl md);
   (lit "branch", pm_branch md);
   (lit "ozRunId", pm_ozRunId md)].

(** The object [processError] hands to [updateErrorWithFixInfo]. *)
Definition fix_info_object (info : FixInfo) : list (str * str) :=
  [(lit "workItemId", show_opt_N (fi_workItemId info));
   (lit "pullRequestUrl", show_opt_str (fi_pullRequestUrl info));
   (lit "branch", show_opt_str (fi_branch info));
   (lit "fixedAt", show_opt_str (fi_fixedAt info))].

Definition dynamoAdapter : IDynamoDBAdapter Systems :=
  {| getUnprocessedErrors := fun f =>
       on_dynamo (MockDynamoDBAdapter.getUnprocessedErrors (Some f));
     markAsProcessed := fun i md =>
       on_dynamo (MockDynamoDBAdapter.markAsProcessed
                    i (Some (processed_object md)));
     updateErrorWithFixInfo := fun i info =>
       on_dynamo (MockDynamoDBAdapter.updateErrorWithFixInfo
                    i (fix_info_object info)) |}.

Definition devOpsAdapter : IDevOpsAdapter Systems :=
  {| createBug := fun input => on_devops (MockDevOpsAdapter.createBug input);
     addComment := fun i c => on_devops (MockDevOpsAdapter.addComment i c);
     linkPullRequest := fun i u =>
       on_devops (MockDevOpsAdapter.linkPullRequest i u) |}.

Definition githubAdapter : IGitHubAdapter Systems :=
  {| createBranch := fun o r b f =>
       on_github (MockGitHubAdapter.createBranch o r b f);
     createPullRequest := fun p =>
       on_github (MockGitHubAdapter.createPullRequest p);
     getRepository := fun o r => on_github (MockGitHubAdapter.getRepository o r);
     searchRepositories := fun q =>
       on_github (MockGitHubAdapter.searchRepositories q) |}.

Definition ozAdapter : IOzAdapter Systems :=
  {| fixBug := fun p => on_oz (MockOzAdapter.fixBug amb p) |}.

Definition teamsAdapter : ITeamsAdapter Systems :=
  {| sendPRNotification := fun p => on_chat (sendPRNotification teams p);
     sendErrorNotification := fun p => on_chat (sendErrorNotification teams p) |}.

Definition runtime : Runtime Systems :=
  {| now := on_env (iso_now amb);
     log := fun level text meta w =>
       {| dynamo := dynamo w; devops := devops w; github := github w;
          oz := oz w; chat := chat w;
          env := write_log level text meta (env w) |} |}.

(** [orchestrator.processError(error)] *)
Definition processError (config : OrchestratorConfig) (error : AuditLogError)
  : M (World Systems) FixResult :=
  processError runtime dynamoAdapter devOpsAdapter githubAdapter teamsAdapter
               ozAdapter config error.

(** [orchestrator.processUnprocessedErrors()] *)
Definition processUnprocessedErrors (config : OrchestratorConfig)
  : M (World Systems) (list FixResult) :=
  processUnprocessedErrors runtime dynamoAdapter devOpsAdapter githubAdapter
                           teamsAdapter ozAdapter config.

End MockMode.

End MockMode.

(** *** Notions used by the properties of the adapters *)

Module TrackerNotions.
Import MockDevOpsAdapter.

(** What every history of the tracker keeps: the keys are the ids of
    the tickets they hold, and they are below the counter, which starts
    at 1000. *)
Definition inv (s : State) : Prop :=
  (1000 <= idCounter s)%N
  /\ forall k wi, In (k, wi) (workItems s) ->
                  wi_id wi = k /\ exists i, k = Some i /\ (i < idCounter s)%N.

End TrackerNotions.

Module StoreNotions.
Import MockDynamoDBAdapter.

(** What every history of the audit store keeps: a key is the id of the
    record it holds, and no key stands twice. *)
Definition inv (s : State) : Prop :=
  NoDup (JsMap.keys (errors s))
  /\ forall k e, In (k, e) (errors s) -> id e = k.

End StoreNotions.

Module HostNotions.
Import MockGitHubAdapter.

(** The pull requests are numbered from 1 in the order of their
    creation, and the counter is the next number. *)
Definition numbered (s : State) : Prop :=
  prCounter s = N.of_nat (S (length (pullRequests s)))
  /\ map prr_number (pullRequests s)
     = map (fun i => N.of_nat (S i)) (seq 0 (length (pullRequests s))).

End HostNotions.

Module AgentNotions.
Import MockOzAdapter.

Definition run_key (i : N) : str := lit "mock-run-" ++ JsString.of_N i.

(** What every history of the agent keeps: the keys are the run ids
    handed out, and their numbers are below the counter. *)
Definition inv (s : State) : Prop :=
  forall k run, In (k, run) (runs s) ->
                exists i, k = run_key i /\ (i < runCounter s)%N.

(** The state in which [fixBug] sleeps. *)
Definition started (params : FixBugParams) (startTime : N) (s : State) : State :=
  {| runs := JsMap.set JsString.eqb (run_key (runCounter s))
               {| mr_runId := run_key (runCounter s);
                  mr_status := run_running;
                  mr_errorMessage := fb_errorMessage params;
                  mr_repository := fb_repository params;
                  mr_branch := fb_branch params;
                  mr_startTime := startTime |}
               (runs s);
     runCounter := (runCounter s + 1)%N;
     simulateFailure := simulateFailure s;
     simulatedDelay := simulatedDelay s |}.

(** The state [fixBug] leaves. *)
Definition finished (params : FixBugParams) (startTime : N) (s : State) : State :=
  set_status (run_key (runCounter s))
             (if simulateFailure s then run_failed else run_completed)
             (started params startTime s).

End AgentNotions.

(** The reading of the clock in a state of the platform. *)
Definition reading {E} (amb : Ambient E) (e : E) : N := fst (date_now_ms amb e).

(** The clock does not go back when it is read, and a timer moves it on
    by its length at least. *)
Definition clock_advances {E} (amb : Ambient E) : Prop :=
  (forall e, (reading amb e <= reading amb (snd (date_now_ms amb e)))%N)
  /\ (forall ms e, (reading amb e + ms <= reading amb (sleep amb ms e))%N).

(** The failure [waitForCompletion] of [OzAdapter] returns after its
    loop. *)
Definition timed_out (i : str) (timeoutMs : N) (r : OzFixResult) : Prop :=
  runId r = i
  /\ oz_success r = false
  /\ summary r = lit "Fix timed out"
  /\ filesModified r = []
  /\ oz_commitSha r = None
  /\ oz_error r = Some (lit "Timeout after " ++ JsString.of_N timeoutMs
                            ++ lit "ms").

(** *** A simulated platform

    Time is a number of milliseconds; reading the clock leaves it where
    it is and a timer moves it on by its length. *)
Definition simulated : Ambient N :=
  {| date_now_ms := fun t => (t, t);
     toISOString := fun t => lit "T+" ++ JsString.of_N t ++ lit "ms";
     sleep := fun ms t => (t + ms)%N;
     math_random36 := fun t => (lit "0.4fzyo82mvyr", t) |}.

(** An SDK that accepts every request. *)
Definition accepting (req : AgentRunRequest) : op N AgentRunResponse :=
  fun e => (Ok {| run_id := Some (lit "run-7"); task_id := None |}, e).

(** A chat adapter that delivers every message. *)
Definition delivering : ITeamsAdapter unit :=
  {| sendPRNotification := fun _ t => (Ok tt, t);
     sendErrorNotification := fun _ t => (Ok tt, t) |}.

(** The systems as [createAdapters] builds them, two hours into the
    simulated time. *)
Definition fresh_systems : MockMode.Systems unit N :=
  let '(store, t) := MockDynamoDBAdapter.construct simulated None 7200000%N in
  {| MockMode.dynamo := store;
     MockMode.devops := MockDevOpsAdapter.initial;
     MockMode.github := MockGitHubAdapter.initial;
     MockMode.oz := MockOzAdapter.initial;
     MockMode.chat := tt;
     MockMode.env := t |}.

(** The same, after [setSimulateFailure(true)] on the agent. *)
Definition failing_systems : MockMode.Systems unit N :=
  {| MockMode.dynamo := MockMode.dynamo fresh_systems;
     MockMode.devops := MockMode.devops fresh_systems;
     MockMode.github := MockMode.github fresh_systems;
     MockMode.oz := MockOzAdapter.setSimulateFailure true MockOzAdapter.initial;
     MockMode.chat := tt;
     MockMode.env := MockMode.env fresh_systems |}.

(** The first record of the seed. *)
Definition seeded_error : AuditLogError :=
  hd Mock.err1
     (MockDynamoDBAdapter.sampleErrors (lit "T+7200000ms") (lit "T+3600000ms")).

(** * Properties *)

Arguments StackTraceParserService.parse : simpl never.
Arguments bug_input : simpl never.
Arguments formatPRDescription : simpl never.
Arguments JsString.of_N : simpl never.
Arguments JsString.slice0 : simpl never.
Arguments stage_name : simpl never.
Arguments stage_line : simpl never.
Arguments with_stage : simpl never.
Arguments branch_name : simpl never.
Arguments show_opt_N : simpl never.
Arguments show_opt_str : simpl never.

(** ** Severity mapping *)

Lemma eqb_false_of_neq (a b : str) : a <> b -> JsString.eqb a b = false.
Proof.
  intros H. unfold JsString.eqb.
  destruct (list_eq_dec ascii_dec a b); [contradiction | reflexivity].
Qed.

Lemma eqb_true_iff (a b : str) : JsString.eqb a b = true <-> a = b.
Proof.
  unfold JsString.eqb.
  destruct (list_eq_dec ascii_dec a b); split; congruence.
Qed.




(** ** Area path *)

Section AreaPath.

Lemma first_area_none (table : list (str * str)) (lower : str) :
  first_area table lower = None <->
  existsb (fun '(pattern, _) => JsString.includes pattern lower) table = false.
Proof.
  induction table as [| [p a] t IH]; simpl; [tauto |].
  destruct (JsString.includes p lower); simpl; [split; discriminate | exact IH].
Qed.

(** First match wins: the area returned belongs to the first row of the
    table whose keyword occurs in the text. *)
Lemma first_area_first_match (table : list (str * str)) (lower area : str) :
  first_area table lower = Some area <->
  exists before pattern rest,
    table = before ++ (pattern, area) :: rest
    /\ JsString.includes pattern lower = true
    /\ Forall (fun row => JsString.includes (fst row) lower = false) before.
Proof.
  induction table as [| [p a] t IH]; simpl.
  - split; [discriminate |].
    intros (b & ? & ? & E & _). destruct b; discriminate E.
  - destruct (JsString.includes p lower) eqn:Hp.
    + split.
      * intros E. injection E as <-. exists [], p, t. simpl. auto.
      * intros (b & p' & r & E & Hin & Hb).
        destruct b as [| [p0 a0] b]; simpl in E.
        -- injection E as _ <- _. reflexivity.
        -- injection E as <- <- _. inversion Hb; subst. simpl in *. congruence.
    + rewrite IH. split.
      * intros (b & p' & r & E & Hin & Hb). exists ((p, a) :: b), p', r.
        subst t. simpl. repeat split; auto.
      * intros (b & p' & r & E & Hin & Hb).
        destruct b as [| [p0 a0] b]; simpl in E.
        -- injection E as -> _ _. congruence.
        -- injection E as _ _ ->. inversion Hb; subst. exists b, p', r. auto.
Qed.

End AreaPath.

(** C8, as stated, fails: with a project configured and no keyword in
    the source or in the repository name, the area path is the project,
    not undefined. *)
Lemma area_path_defaults_to_project :
  let e := Mock.mk_error "e" "" "error" "billing" None in
  let r := {| owner := lit "myorg"; name := lit "ledger";
              fullName := lit "myorg/ledger"; url := []; defaultBranch := lit "main" |} in
  keyword_hit (JsString.toLowerCase (source e)) = false
  /\ keyword_hit (JsString.toLowerCase (name r)) = false
  /\ determineAreaPath Mock.config e r = Some (lit "Shop")
  /\ determineAreaPath Mock.config e r <> None.
Proof.
  simpl. repeat split; try reflexivity. discriminate.
Qed.

(** C8 (amended): without a project the area path is undefined; with a
    project, the source is tested against the keyword table first and the
    repository short name second, the first matching row of the table
    giving the area, and when neither contains a keyword the area path is
    the project itself. *)
Theorem area_path_derivation (config : OrchestratorConfig)
        (error : AuditLogError) (repoInfo : RepositoryInfo) :
  let src := JsString.toLowerCase (source error) in
  let rep := JsString.toLowerCase (name repoInfo) in
  (JsString.truthy_opt (devOpsProject config) = false ->
   determineAreaPath config error repoInfo = None)
  /\ (forall project,
         devOpsProject config = Some project -> project <> [] ->
         (forall pattern area,
             first_row src pattern area ->
             determineAreaPath config error repoInfo
             = Some (project ++ backslash ++ area))
         /\ (forall pattern area,
                keyword_hit src = false ->
                first_row rep pattern area ->
                determineAreaPath config error repoInfo
                = Some (project ++ backslash ++ area))
         /\ (keyword_hit src = false -> keyword_hit rep = false ->
             determineAreaPath config error repoInfo = Some project)).
Proof.
  intros src rep. unfold determineAreaPath. split.
  - destruct (devOpsProject config) as [p |]; simpl; [| reflexivity].
    intros ->. reflexivity.
  - intros project -> Hne.
    assert (Ht : JsString.truthy project = true)
      by (destruct project; [congruence | reflexivity]).
    rewrite Ht. cbn [negb]. cbv zeta. fold src rep. repeat split.
    + intros pattern area (b & r & E & Hin & Hb).
      assert (Hf : first_area sourceToArea src = Some area)
        by (apply first_area_first_match; exists b, pattern, r; auto).
      rewrite Hf. reflexivity.
    + intros pattern area Hs (b & r & E & Hin & Hb).
      assert (Hf : first_area sourceToArea rep = Some area)
        by (apply first_area_first_match; exists b, pattern, r; auto).
      apply first_area_none in Hs. rewrite Hs, Hf. reflexivity.
    + intros Hs Hr. apply first_area_none in Hs. apply first_area_none in Hr.
      rewrite Hs, Hr. reflexivity.
Qed.

Lemma area_path_derivation_witness :
  determineAreaPath Mock.config Mock.err2
    {| owner := lit "myorg"; name := lit "web-shop";
       fullName := lit "myorg/web-shop"; url := []; defaultBranch := lit "main" |}
  = Some (lit "Shop" ++ backslash ++ lit "Frontend").
Proof.
  refine (proj1 (proj2 (proj2 (area_path_derivation Mock.config Mock.err2 _)
                              (lit "Shop") eq_refl _))
                (lit "web") (lit "Frontend") _ _).
  - discriminate.
  - reflexivity.
  - exists (firstn 9 sourceToArea), (skipn 10 sourceToArea).
    split; [reflexivity |]. split; [reflexivity |].
    repeat constructor.
Defined.

(** ** The workflow *)

Section WorkflowFacts.

Variable W : Type.
Variable rt : Runtime W.
Variable dynamoAdapter : IDynamoDBAdapter W.
Variable devOpsAdapter : IDevOpsAdapter W.
Variable githubAdapter : IGitHubAdapter W.
Variable teamsAdapter : ITeamsAdapter W.
Variable ozAdapter : IOzAdapter W.
Variable config : OrchestratorConfig.

(** Unfolding the three parts of [processError]. *)
Ltac open_catch := unfold processError_catch, handleWorkflowError.
Ltac open_try := unfold processError_try.
Ltac open_processError := unfold processError.

#[local] Abbreviation processError :=
  (processError rt dynamoAdapter devOpsAdapter githubAdapter teamsAdapter
                ozAdapter config).
#[local] Abbreviation processError_try :=
  (processError_try rt dynamoAdapter devOpsAdapter githubAdapter teamsAdapter
                    ozAdapter config).
#[local] Abbreviation processError_catch := (processError_catch rt teamsAdapter config).
#[local] Abbreviation handleWorkflowError := (handleWorkflowError rt teamsAdapter config).
#[local] Abbreviation finder := (repositoryFinder_findRepository githubAdapter).

Lemma processError_catch_spec (error : AuditLogError) (status : FixWorkflowStatus)
      (err : JsError) (w : World W) :
  exists r w' evs,
    processError_catch error status err w = (Ok r, w')
    /\ success r = false
    /\ errorId r = id error
    /\ fr_repository r = []
    /\ branch r = []
    /\ errorMessage r = Some (err_message err)
    /\ trace w' = trace w ++ evs
    /\ statuses evs = []
    /\ created_bugs evs = []
    /\ notified_stages evs = [stage_name (stage status)]
    /\ logged_stages evs = [stage_name (stage status)].
Proof.
  open_catch.
  unfold bind, try_catch, logger, date_now, call, call_total, ret.
  simpl.
  destruct (sendErrorNotification teamsAdapter _ _) as [[u | ne] x1] eqn:Hn;
    simpl; destruct (now rt _) as [ts x2] eqn:Hts; simpl;
    do 3 eexists; (split; [reflexivity |]); simpl;
    repeat (split; [reflexivity |]);
    (split; [rewrite <- !app_assoc; reflexivity |]);
    repeat split; reflexivity.
Qed.

(** Composition of computations that only append events of one kind. *)

Lemma appends_ret {A} (P : Event -> bool) (a : A) : appends P (@ret (World W) A a).
Proof.
  intros w r w' E. injection E as <- <-. exists []. rewrite app_nil_r. auto.
Qed.

Lemma appends_bind {A B} (P : Event -> bool) (c : M (World W) A)
      (k : A -> M (World W) B) :
  appends P c -> (forall a, appends P (k a)) -> appends P (bind c k).
Proof.
  intros Hc Hk w r w' E. unfold bind in E.
  destruct (c w) as [[a | e] w1] eqn:Ec.
  - destruct (Hc _ _ _ Ec) as (ev1 & T1 & F1).
    destruct (Hk a _ _ _ E) as (ev2 & T2 & F2).
    exists (ev1 ++ ev2). rewrite T2, T1, app_assoc, forallb_app, F1, F2. auto.
  - injection E as <- <-. eauto.
Qed.

Lemma appends_try_catch {A} (P : Event -> bool) (c : M (World W) A)
      (h : JsError -> M (World W) A) :
  appends P c -> (forall e, appends P (h e)) -> appends P (try_catch c h).
Proof.
  intros Hc Hh w r w' E. unfold try_catch in E.
  destruct (c w) as [[a | e] w1] eqn:Ec.
  - injection E as <- <-. eauto.
  - destruct (Hc _ _ _ Ec) as (ev1 & T1 & F1).
    destruct (Hh e _ _ _ E) as (ev2 & T2 & F2).
    exists (ev1 ++ ev2). rewrite T2, T1, app_assoc, forallb_app, F1, F2. auto.
Qed.

Lemma appends_call {A} (P : Event -> bool) (ev : Event) (o : op W A) :
  P ev = true -> (forall e, P (EvThrown ev e) = true) -> appends P (call ev o).
Proof.
  intros HP HT w r w' E. unfold call in E.
  destruct (o (ext w)) as [[a | e] x]; injection E as <- <-.
  - exists [ev]. simpl. rewrite HP. auto.
  - exists [ev; EvThrown ev e]. simpl. rewrite HP, HT. auto.
Qed.

Lemma appends_getRepositoryInfo (fullName : str) :
  appends is_lookup (getRepositoryInfo githubAdapter fullName).
Proof.
  unfold getRepositoryInfo.
  destruct (nth_error _ 0) as [o |]; [| apply appends_ret].
  destruct (nth_error _ 1) as [r |]; [| apply appends_ret].
  destruct (negb _ || negb _); [apply appends_ret |].
  apply appends_bind; [apply appends_call; [reflexivity | reflexivity] |].
  intros [d |]; apply appends_ret.
Qed.

Lemma appends_scan_frames (fs : list StackFrame) :
  appends is_lookup (scan_frames githubAdapter fs).
Proof.
  induction fs as [| f fs IH]; simpl; [apply appends_ret |].
  apply appends_bind.
  - unfold frame_path_repo.
    destruct (Regex.exec _ _) as [mt |]; [| apply appends_ret].
    destruct (Regex.group 1 mt); [| apply appends_ret].
    destruct (Regex.group 2 mt); [| apply appends_ret].
    destruct (_ && _); [apply appends_getRepositoryInfo | apply appends_ret].
  - intros [info |]; [apply appends_ret |].
    apply appends_bind.
    + unfold frame_meta_repo.
      destruct (frame_repository f) as [r |]; [| apply appends_ret].
      destruct (JsString.truthy r);
        [apply appends_getRepositoryInfo | apply appends_ret].
    + intros [info |]; [apply appends_ret | exact IH].
Qed.

Lemma appends_searchForRepository (error : AuditLogError) (st : StackTrace) :
  appends is_lookup (searchForRepository githubAdapter error st).
Proof.
  unfold searchForRepository.
  destruct (searchTerms_of error st); [apply appends_ret |].
  apply appends_try_catch; [| intros; apply appends_ret].
  apply appends_bind; [apply appends_call; [reflexivity | reflexivity] |].
  intros [| h t]; apply appends_ret.
Qed.

Lemma appends_findRepository (mp : option (list (str * str)))
      (error : AuditLogError) (st : StackTrace) :
  appends is_lookup (findRepository githubAdapter mp error st).
Proof.
  unfold findRepository.
  apply appends_bind.
  { unfold from_hint. destruct (repository error) as [r |]; [| apply appends_ret].
    destruct (JsString.truthy r);
      [apply appends_getRepositoryInfo | apply appends_ret]. }
  intros [info |]; [apply appends_ret |].
  apply appends_bind.
  { unfold from_mapping. destruct mp as [mp |]; [| apply appends_ret].
    destruct (map_get _ mp);
      [apply appends_getRepositoryInfo | apply appends_ret]. }
  intros [info |]; [apply appends_ret |].
  apply appends_bind; [apply appends_scan_frames |].
  intros [info |]; [apply appends_ret |].
  apply appends_bind; [apply appends_searchForRepository |].
  intros [info |]; apply appends_ret.
Qed.

(** Projections of a trace distribute over concatenation. *)

Lemma statuses_app (a b : list Event) : statuses (a ++ b) = statuses a ++ statuses b.
Proof.
  induction a as [| ev a IH]; simpl; [reflexivity |].
  destruct ev; simpl; rewrite ?IH; reflexivity.
Qed.

Lemma created_bugs_app (a b : list Event) :
  created_bugs (a ++ b) = created_bugs a ++ created_bugs b.
Proof.
  induction a as [| ev a IH]; simpl; [reflexivity |].
  destruct ev; simpl; rewrite ?IH; reflexivity.
Qed.

Lemma notified_stages_app (a b : list Event) :
  notified_stages (a ++ b) = notified_stages a ++ notified_stages b.
Proof.
  induction a as [| ev a IH]; simpl; [reflexivity |].
  destruct ev; simpl; rewrite ?IH; reflexivity.
Qed.

Lemma logged_stages_app (a b : list Event) :
  logged_stages (a ++ b) = logged_stages a ++ logged_stages b.
Proof.
  induction a as [| ev a IH]; simpl; [reflexivity |].
  destruct ev as [| | | | | | | | | | | | | | lv tx meta | |]; simpl;
    rewrite ?IH; try reflexivity.
  destruct lv; simpl; rewrite ?IH; try reflexivity.
  destruct (map_get _ meta); simpl; rewrite ?IH; reflexivity.
Qed.

Lemma lookups_are_silent (evs : list Event) :
  forallb is_lookup evs = true ->
  statuses evs = [] /\ created_bugs evs = [] /\ notified_stages evs = []
  /\ logged_stages evs = [].
Proof.
  induction evs as [| ev evs IH]; simpl; [auto |].
  intros H. apply andb_true_iff in H as [H1 H2].
  destruct ev; simpl in *; try discriminate; auto.
Qed.

(** Stepping through the [try] block. *)

Lemma bind_advance {B} (stage : FixWorkflowStage) (p : N) (m : str)
      (k : unit -> M (Local W) B) (s : Local W) :
  bind (advance rt stage p m) k s
  = k tt (with_stage (fst s) stage p m,
          {| ext := log rt LogDebug (stage_line stage p m) [] (ext (snd s));
             trace := trace (snd s)
                        ++ [EvLog LogDebug (stage_line stage p m) [];
                            EvStatus (with_stage (fst s) stage p m)] |}).
Proof.
  unfold bind, advance, updateStatus, logger, call_total, ret. simpl.
  rewrite <- app_assoc. reflexivity.
Qed.

Lemma advance_snd (stage : FixWorkflowStage) (p : N) (m : str) (s : Local W) :
  snd (advance rt stage p m s)
  = (with_stage (fst s) stage p m,
     {| ext := log rt LogDebug (stage_line stage p m) [] (ext (snd s));
        trace := trace (snd s)
                   ++ [EvLog LogDebug (stage_line stage p m) [];
                       EvStatus (with_stage (fst s) stage p m)] |}).
Proof.
  unfold advance, updateStatus, bind, logger, call_total, ret. simpl.
  rewrite <- app_assoc. reflexivity.
Qed.

Lemma bind_lift_call {A B} (ev : Event) (o : op W A)
      (k : A -> M (Local W) B) (s : Local W) :
  bind (lift (call ev o)) k s
  = match o (ext (snd s)) with
    | (Ok a, x) => k a (fst s, {| ext := x; trace := trace (snd s) ++ [ev] |})
    | (Throw e, x) =>
        (Throw e, (fst s, {| ext := x;
                             trace := trace (snd s) ++ [ev; EvThrown ev e] |}))
    end.
Proof.
  unfold bind, lift, call. destruct (o (ext (snd s))) as [[a | e] x]; reflexivity.
Qed.

Lemma bind_lift_now {B} (k : str -> M (Local W) B) (s : Local W) :
  bind (lift (date_now rt)) k s
  = k (fst (now rt (ext (snd s))))
      (fst s, {| ext := snd (now rt (ext (snd s)));
                 trace := trace (snd s) ++ [EvNow] |}).
Proof.
  unfold bind, lift, date_now, call_total.
  destruct (now rt (ext (snd s))) as [t x]; reflexivity.
Qed.

Ltac wf_step :=
  first
    [ rewrite bind_advance; cbn [fst snd ext trace]
    | rewrite bind_lift_now; cbn [fst snd ext trace]
    | rewrite bind_lift_call; cbn [fst snd ext trace];
      match goal with
      | |- context [match ?c with pair _ _ => _ end] =>
          destruct c as [[? | ?] ?] eqn:?
      end
    | match goal with
      | |- context [if negb (oz_success ?r) then _ else _] =>
          destruct (oz_success r) eqn:?; cbn [negb]
      end ].

(** The [try] block, given the outcome of the resolution. *)
Lemma processError_try_spec (error : AuditLogError) (s0 : Local W) :
  let s1 := snd (advance rt parsing_error 10 (lit "Parsing stack trace") s0) in
  let st := StackTraceParserService.parse (stackTrace error)
                                          (Some (message error)) in
  forall out w2,
    finder error st (snd s1) = (out, w2) ->
    exists r status' w' evs,
      processError_try error s0 = (r, (status', w'))
      /\ trace w' = trace w2 ++ evs
      /\ match out with
         | Throw err => r = Throw err /\ status' = fst s1 /\ evs = []
         | Ok None =>
             r = Throw {| err_message :=
                            lit "Could not identify repository for error "
                                ++ id error |}
             /\ status' = fst s1 /\ evs = []
         | Ok (Some info) =>
             (exists rest, statuses evs ++ rest = later_stages)
             /\ statuses evs <> []
             /\ notified_stages evs = []
             /\ logged_stages evs = []
             /\ forall res, r = Ok res ->
                  success res = true /\ errorId res = id error
         end.
Proof.
  intros s1 st out w2 Hf.
  open_try.
  rewrite bind_advance, <- advance_snd. fold s1 st.
  unfold bind at 1. unfold lift at 1. rewrite Hf.
  destruct out as [[info |] | err].
  - cbn [fst snd]. repeat wf_step.
    all: unfold throw, ret.
    all: do 4 eexists; (split; [reflexivity |]).
    all: cbn [fst snd ext trace].
    all: split; [rewrite <- ?(@app_assoc Event); reflexivity |].
    all: split; [eexists; cbn; reflexivity |].
    all: split; [cbn; discriminate |].
    all: split; [reflexivity |].
    all: split; [reflexivity |].
    all: intros res E; try discriminate E.
    all: injection E as <-; split; reflexivity.
  - do 4 eexists. split; [reflexivity |]. cbn [fst snd].
    split; [symmetry; apply app_nil_r |]. auto.
  - do 4 eexists. split; [reflexivity |]. cbn [fst snd].
    split; [symmetry; apply app_nil_r |]. auto.
Qed.

Lemma is_Some_length_2 (l rest : list FixWorkflowStage) :
  l ++ rest = later_stages ->
  (initializing :: parsing_error :: l) ++ rest = stage_order.
Proof. intros H. simpl. rewrite H. reflexivity. Qed.

(** One run of [processError], given the outcome of the resolution. *)
Lemma processError_spec (error : AuditLogError) (w : World W) :
  let s1 := before_resolution rt w in
  let st := StackTraceParserService.parse (stackTrace error)
                                          (Some (message error)) in
  forall out w2,
    finder error st (snd s1) = (out, w2) ->
    exists r w' evs,
      processError error w = (Ok r, w')
      /\ errorId r = id error
      /\ trace w' = trace w ++ evs
      /\ (exists rest, statuses evs ++ rest = stage_order)
      /\ 2 <= length (statuses evs)
      /\ (success r = false ->
          fr_repository r = [] /\ branch r = [] /\ errorMessage r <> None)
      /\ match out with
         | Ok (Some _) => True
         | Ok None =>
             success r = false
             /\ errorMessage r
                = Some (lit "Could not identify repository for error "
                            ++ id error)
             /\ created_bugs evs = []
             /\ notified_stages evs = [lit "parsing_error"]
             /\ logged_stages evs = [lit "parsing_error"]
         | Throw err =>
             success r = false
             /\ errorMessage r = Some (err_message err)
             /\ created_bugs evs = []
             /\ notified_stages evs = [lit "parsing_error"]
             /\ logged_stages evs = [lit "parsing_error"]
         end.
Proof.
  intros s1 st out w2 Hf.
  open_processError. unfold bind, date_now, call_total, note.
  subst s1. unfold before_resolution in Hf.
  destruct (now rt (ext w)) as [t x] eqn:Hnow. cbn [ext trace].
  set (s0 := (initial_status t,
              {| ext := x;
                 trace := (trace w ++ [EvNow]) ++ [EvStatus (initial_status t)] |}))
    in *.
  destruct (appends_findRepository _ _ _ _ Hf) as (fevs & Tf & Lf).
  apply lookups_are_silent in Lf as (Ls & Lb & Ln & Ll).
  destruct (processError_try_spec error s0 Hf)
    as (r & status' & w' & evs & Etry & Ttry & Hout).
  rewrite Etry. fold st in Etry.
  assert (T1 : trace (snd (snd (advance rt parsing_error 10
                                        (lit "Parsing stack trace") s0)))
               = trace w ++ [EvNow; EvStatus (initial_status t);
                             EvLog LogDebug
                                   (stage_line parsing_error 10
                                               (lit "Parsing stack trace")) [];
                             EvStatus (with_stage (initial_status t)
                                                  parsing_error 10
                                                  (lit "Parsing stack trace"))]).
  { rewrite advance_snd. subst s0. cbn [fst snd ext trace].
    rewrite <- !(@app_assoc Event). reflexivity. }
  rewrite T1 in Tf. rewrite Tf in Ttry.
  destruct out as [[info |] | err].
  - destruct Hout as ((rest & Hrest) & Hne & Hn0 & Hl0 & Hres).
    destruct r as [res | e].
    + destruct (Hres res eq_refl) as (Hs & Hid).
      exists res, w'. eexists. split; [reflexivity |].
      split; [exact Hid |].
      split; [rewrite Ttry, <- !(@app_assoc Event); reflexivity |].
      rewrite !statuses_app, Ls. cbn [statuses app stage initial_status with_stage].
      split; [exists rest; apply is_Some_length_2; exact Hrest |].
      split; [simpl; lia |].
      split; [congruence | exact I].
    + destruct (processError_catch_spec error status' e w')
        as (res & w3 & cevs & Ec & Hs & Hid & Hr & Hb & Hm & Tc & Cs & Cb & Cn & Cl).
      rewrite Ec. exists res, w3. eexists. split; [reflexivity |].
      split; [exact Hid |].
      split; [rewrite Tc, Ttry, <- !(@app_assoc Event); reflexivity |].
      rewrite !statuses_app, Ls, Cs, app_nil_r.
      cbn [statuses app stage initial_status with_stage].
      split; [exists rest; apply is_Some_length_2; exact Hrest |].
      split; [simpl; lia |].
      split; [| exact I]. intros _. rewrite Hm. repeat split; auto. discriminate.
  - destruct Hout as (-> & -> & ->).
    destruct (processError_catch_spec error
                (fst (snd (advance rt parsing_error 10
                                   (lit "Parsing stack trace") s0)))
                {| err_message := lit "Could not identify repository for error "
                                      ++ id error |} w')
      as (res & w3 & cevs & Ec & Hs & Hid & Hr & Hb & Hm & Tc & Cs & Cb & Cn & Cl).
    rewrite Ec. exists res, w3. eexists. split; [reflexivity |].
    split; [exact Hid |].
    split; [rewrite Tc, Ttry, app_nil_r, <- !(@app_assoc Event); reflexivity |].
    rewrite !statuses_app, !created_bugs_app, !notified_stages_app,
      !logged_stages_app, Ls, Lb, Ln, Ll, Cs, Cb, Cn, Cl.
    split; [exists later_stages; reflexivity |].
    split; [simpl; lia |].
    split; [intros _; rewrite Hm; repeat split; auto; discriminate |].
    rewrite Hm. repeat split; auto.
  - destruct Hout as (-> & -> & ->).
    destruct (processError_catch_spec error
                (fst (snd (advance rt parsing_error 10
                                   (lit "Parsing stack trace") s0)))
                err w')
      as (res & w3 & cevs & Ec & Hs & Hid & Hr & Hb & Hm & Tc & Cs & Cb & Cn & Cl).
    rewrite Ec. exists res, w3. eexists. split; [reflexivity |].
    split; [exact Hid |].
    split; [rewrite Tc, Ttry, app_nil_r, <- !(@app_assoc Event); reflexivity |].
    rewrite !statuses_app, !created_bugs_app, !notified_stages_app,
      !logged_stages_app, Ls, Lb, Ln, Ll, Cs, Cb, Cn, Cl.
    split; [exists later_stages; reflexivity |].
    split; [simpl; lia |].
    split; [intros _; rewrite Hm; repeat split; auto; discriminate |].
    rewrite Hm. repeat split; auto.
Qed.

Lemma processError_total (error : AuditLogError) (w : World W) :
  exists r w',
    processError error w = (Ok r, w')
    /\ errorId r = id error
    /\ (success r = false ->
        fr_repository r = [] /\ branch r = [] /\ errorMessage r <> None).
Proof.
  destruct (finder error
                   (StackTraceParserService.parse (stackTrace error)
                                                  (Some (message error)))
                   (snd (before_resolution rt w))) as [out w2] eqn:Hf.
  destruct (processError_spec error w Hf)
    as (r & w' & evs & E & Hid & _ & _ & _ & Hfail & _).
  exists r, w'. auto.
Qed.



(** C7: when the resolution yields no repository, the run ends with the
    failure "Could not identify repository for error <id>": it returns a
    result with success = false that carries this message, and the
    ticket-creation call is not among the calls of the run. *)
Theorem no_repository_no_ticket (error : AuditLogError) (w w2 : World W) :
  finder error
         (StackTraceParserService.parse (stackTrace error) (Some (message error)))
         (snd (before_resolution rt w))
  = (Ok None, w2) ->
  exists r w' evs,
    processError error w = (Ok r, w')
    /\ success r = false
    /\ errorMessage r
       = Some (lit "Could not identify repository for error " ++ id error)
    /\ trace w' = trace w ++ evs
    /\ created_bugs evs = [].
Proof.
  intros Hf.
  destruct (processError_spec error w Hf)
    as (r & w' & evs & E & _ & T & _ & _ & _ & Hs & Hm & Hb & _).
  exists r, w', evs. auto.
Qed.

(** C9: [processError] always returns a result, and a result with
    success = false has an empty repository and an empty branch, whatever
    stage the run had reached. *)
Theorem failed_result_has_no_repository (error : AuditLogError)
        (w w' : World W) (out : result FixResult) :
  processError error w = (out, w') ->
  exists r,
    out = Ok r
    /\ (success r = false -> fr_repository r = [] /\ branch r = []).
Proof.
  intros E.
  destruct (processError_total error w) as (r & w1 & E1 & _ & Hfail).
  rewrite E1 in E. injection E as <- <-.
  exists r. split; [reflexivity |].
  intros Hs. destruct (Hfail Hs) as (Hr & Hb & _). auto.
Qed.

(** C10: the stages assigned to [status] during a run are initializing,
    parsing_error and then, if the run goes on, creating_work_item and
    its successors in order; finding_repository is never assigned; and
    when the resolution throws or finds nothing, the stage sent with the
    error notification and written to the error log is parsing_error. *)
Theorem stage_never_finding_repository (error : AuditLogError) (w : World W) :
  exists r w' evs,
    processError error w = (r, w')
    /\ trace w' = trace w ++ evs
    /\ ~ In finding_repository (statuses evs)
    /\ (exists l rest,
          statuses evs = initializing :: parsing_error :: l
          /\ l ++ rest = [creating_work_item; creating_branch; running_oz_agent;
                           creating_pull_request; notifying_team; completed])
    /\ (forall out w2,
          finder error
                 (StackTraceParserService.parse (stackTrace error)
                                                (Some (message error)))
                 (snd (before_resolution rt w))
          = (out, w2) ->
          (forall info, out <> Ok (Some info)) ->
          notified_stages evs = [lit "parsing_error"]
          /\ logged_stages evs = [lit "parsing_error"]).
Proof.
  destruct (finder error
                   (StackTraceParserService.parse (stackTrace error)
                                                  (Some (message error)))
                   (snd (before_resolution rt w))) as [out w2] eqn:Hf.
  destruct (processError_spec error w Hf)
    as (r & w' & evs & E & _ & T & (rest & Hrest) & Hlen & _ & Hout).
  exists (Ok r), w', evs.
  split; [exact E |]. split; [exact T |].
  split.
  { intros Hin.
    assert (Hin' : In finding_repository stage_order)
      by (rewrite <- Hrest; apply in_or_app; auto).
    simpl in Hin'. intuition discriminate. }
  split.
  { destruct (statuses evs) as [| a [| b l]]; simpl in Hlen; try lia.
    simpl in Hrest. injection Hrest as -> -> Hl. exists l, rest. auto. }
  intros out' w2' Eo Hno. injection Eo as <- <-.
  destruct out as [[info |] | err].
  - exfalso. exact (Hno info eq_refl).
  - destruct Hout as (_ & _ & _ & Hn & Hl). auto.
  - destruct Hout as (_ & _ & _ & Hn & Hl). auto.
Qed.

End WorkflowFacts.


Lemma no_repository_no_ticket_witness :
  exists r w' evs,
    Mock.run_error Mock.err2 = (Ok r, w')
    /\ success r = false
    /\ errorMessage r
       = Some (lit "Could not identify repository for error err-002")
    /\ trace w' = trace Mock.world0 ++ evs
    /\ created_bugs evs = [].
Proof.
  refine (@no_repository_no_ticket
            nat Mock.runtime (Mock.dynamo []) Mock.devops
            (Mock.github Mock.known) Mock.teams Mock.oz Mock.config
            Mock.err2 Mock.world0 _ _).
  vm_compute. reflexivity.
Defined.

(** A run that resolves the repository, creates the ticket and the
    branch, and fails in the fix agent: the result names neither the
    repository nor the branch. *)
Lemma failed_result_has_no_repository_witness :
  created_branches (trace (snd (Mock.run_error Mock.err4)))
  = [lit "bug/auto-fix-err-004"]
  /\ exists r,
      fst (Mock.run_error Mock.err4) = Ok r
      /\ success r = false /\ fr_repository r = [] /\ branch r = [].
Proof.
  split; [vm_compute; reflexivity |].
  destruct (@failed_result_has_no_repository
              nat Mock.runtime (Mock.dynamo []) Mock.devops
              (Mock.github Mock.known) Mock.teams Mock.oz Mock.config
              Mock.err4 Mock.world0 (snd (Mock.run_error Mock.err4))
              (fst (Mock.run_error Mock.err4))
              (surjective_pairing _))
    as (r & E & H).
  exists r. split; [exact E |].
  assert (Hs : success r = false).
  { vm_compute in E. injection E as <-. reflexivity. }
  split; [exact Hs |]. exact (H Hs).
Defined.

Lemma stage_never_finding_repository_witness :
  exists r w' evs,
    Mock.run_error Mock.err2 = (r, w')
    /\ trace w' = trace Mock.world0 ++ evs
    /\ statuses evs = [initializing; parsing_error]
    /\ notified_stages evs = [lit "parsing_error"]
    /\ logged_stages evs = [lit "parsing_error"].
Proof.
  destruct (@stage_never_finding_repository
              nat Mock.runtime (Mock.dynamo []) Mock.devops
              (Mock.github Mock.known) Mock.teams Mock.oz Mock.config
              Mock.err2 Mock.world0)
    as (r & w' & evs & E & T & Hno & (l & rest & Hl & Hrest) & Hattr).
  exists r, w', evs. split; [exact E |]. split; [exact T |].
  edestruct (Hattr (Ok None)) as (Hn & Hlg).
  - vm_compute. reflexivity.
  - discriminate.
  - split; [| split; [exact Hn | exact Hlg]].
    vm_compute in E. injection E as _ <-. simpl in T.
    rewrite <- T. reflexivity.
Defined.

(** ** The resolver *)

Section ResolverFacts.

Variable W : Type.
Variable githubAdapter : IGitHubAdapter W.

Lemma lookup_failures_app (a b : list Event) :
  lookup_failures (a ++ b) = lookup_failures a ++ lookup_failures b.
Proof.
  induction a as [| ev a IH]; simpl; [reflexivity |].
  destruct ev as [| | | | | | | | | | | | | | | | c e]; simpl; rewrite ?IH;
    try reflexivity.
  destruct c; simpl; rewrite ?IH; reflexivity.
Qed.

Lemma search_failures_app (a b : list Event) :
  search_failures (a ++ b) = search_failures a ++ search_failures b.
Proof.
  induction a as [| ev a IH]; simpl; [reflexivity |].
  destruct ev as [| | | | | | | | | | | | | | | | c e]; simpl; rewrite ?IH;
    try reflexivity.
  destruct c; simpl; rewrite ?IH; reflexivity.
Qed.

Lemma searches_app (a b : list Event) : searches (a ++ b) = searches a ++ searches b.
Proof.
  induction a as [| ev a IH]; simpl; [reflexivity |].
  destruct ev; simpl; rewrite ?IH; reflexivity.
Qed.

Lemma lookup_only_ret {A} (a : A) : lookup_only (@ret (World W) A a).
Proof.
  intros w r w' E. injection E as <- <-. exists []. rewrite app_nil_r. auto.
Qed.

Lemma lookup_only_bind {A B} (c : M (World W) A) (k : A -> M (World W) B) :
  lookup_only c -> (forall a, lookup_only (k a)) -> lookup_only (bind c k).
Proof.
  intros Hc Hk w r w' E. unfold bind in E.
  destruct (c w) as [[a | e] w1] eqn:Ec.
  - destruct (Hc _ _ _ Ec) as (ev1 & T1 & S1 & F1 & L1).
    destruct (Hk a _ _ _ E) as (ev2 & T2 & S2 & F2 & L2).
    exists (ev1 ++ ev2).
    rewrite T2, T1, app_assoc, searches_app, search_failures_app,
      lookup_failures_app, S1, S2, F1, F2, L1. simpl. auto.
  - injection E as <- <-. exact (Hc _ _ _ Ec).
Qed.

Lemma lookup_only_getRepositoryInfo (fullName : str) :
  lookup_only (getRepositoryInfo githubAdapter fullName).
Proof.
  unfold getRepositoryInfo.
  destruct (nth_error _ 0) as [o |]; [| apply lookup_only_ret].
  destruct (nth_error _ 1) as [r |]; [| apply lookup_only_ret].
  destruct (negb _ || negb _); [apply lookup_only_ret |].
  apply lookup_only_bind; [| intros [d |]; apply lookup_only_ret].
  intros w res w' E. unfold call in E.
  destruct (getRepository githubAdapter o r (ext w)) as [[a | e] x];
    injection E as <- <-; eexists; (split; [reflexivity |]); simpl; auto.
Qed.

Lemma lookup_only_from_hint (error : AuditLogError) :
  lookup_only (from_hint githubAdapter error).
Proof.
  unfold from_hint. destruct (repository error) as [r |]; [| apply lookup_only_ret].
  destruct (JsString.truthy r);
    [apply lookup_only_getRepositoryInfo | apply lookup_only_ret].
Qed.

Lemma lookup_only_from_mapping (mp : option (list (str * str)))
      (error : AuditLogError) :
  lookup_only (from_mapping githubAdapter mp error).
Proof.
  unfold from_mapping. destruct mp as [mp |]; [| apply lookup_only_ret].
  destruct (map_get _ mp);
    [apply lookup_only_getRepositoryInfo | apply lookup_only_ret].
Qed.

Lemma lookup_only_scan_frames (fs : list StackFrame) :
  lookup_only (scan_frames githubAdapter fs).
Proof.
  induction fs as [| f fs IH]; simpl; [apply lookup_only_ret |].
  apply lookup_only_bind.
  - unfold frame_path_repo.
    destruct (Regex.exec _ _) as [mt |]; [| apply lookup_only_ret].
    destruct (Regex.group 1 mt); [| apply lookup_only_ret].
    destruct (Regex.group 2 mt); [| apply lookup_only_ret].
    destruct (_ && _);
      [apply lookup_only_getRepositoryInfo | apply lookup_only_ret].
  - intros [info |]; [apply lookup_only_ret |].
    apply lookup_only_bind.
    + unfold frame_meta_repo.
      destruct (frame_repository f) as [r |]; [| apply lookup_only_ret].
      destruct (JsString.truthy r);
        [apply lookup_only_getRepositoryInfo | apply lookup_only_ret].
    + intros [info |]; [apply lookup_only_ret | exact IH].
Qed.

(** The search step never throws: a failure of the search call ends in
    the not-found answer. *)
Lemma searchForRepository_swallows (error : AuditLogError) (st : StackTrace)
      (w : World W) :
  exists x w' evs,
    searchForRepository githubAdapter error st w = (Ok x, w')
    /\ trace w' = trace w ++ evs
    /\ lookup_failures evs = []
    /\ (search_failures evs <> [] -> x = None).
Proof.
  unfold searchForRepository.
  destruct (searchTerms_of error st) as [| t ts].
  { exists None, w, []. rewrite app_nil_r. unfold ret. auto. }
  unfold try_catch, bind, call, ret.
  destruct (searchRepositories githubAdapter _ (ext w)) as [[[| h hs] | e] x].
  - do 3 eexists. split; [reflexivity |]. simpl. repeat split; auto.
  - do 3 eexists. split; [reflexivity |]. simpl. repeat split; auto.
    intros H. contradiction H. reflexivity.
  - do 3 eexists. split; [reflexivity |]. simpl. repeat split; auto.
Qed.

Lemma propagates_ret {A} (x : option A) : propagates (@ret (World W) _ x).
Proof.
  intros w r w' E. injection E as <- <-. exists []. rewrite app_nil_r.
  simpl. split; [reflexivity |]. split; [reflexivity |].
  intros H. contradiction H. reflexivity.
Qed.

Lemma propagates_bind {A B} (c : M (World W) A) (k : A -> M (World W) (option B)) :
  lookup_only c -> (forall a, propagates (k a)) -> propagates (bind c k).
Proof.
  intros Hc Hk w r w' E. unfold bind in E.
  destruct (c w) as [[a | e] w1] eqn:Ec.
  - destruct (Hc _ _ _ Ec) as (ev1 & T1 & S1 & F1 & L1).
    destruct (Hk a _ _ _ E) as (ev2 & T2 & H2).
    exists (ev1 ++ ev2).
    rewrite T2, T1, app_assoc, search_failures_app, lookup_failures_app, F1, L1.
    simpl. auto.
  - injection E as <- <-.
    destruct (Hc _ _ _ Ec) as (ev1 & T1 & S1 & F1 & L1).
    exists ev1. auto.
Qed.



(** C6, as stated, fails: the search call throws and the resolver
    returns not-found instead of passing the failure on. *)
Lemma search_failure_is_swallowed :
  let e := Mock.mk_error "err-9" "plain text" "error" "outage" None in
  searchRepositories (Mock.github Mock.known) (lit "outage") 1
  = (Throw {| err_message := lit "search failed" |}, 1)
  /\ findRepository (Mock.github Mock.known) None e
                    (StackTraceParserService.parse (stackTrace e) None)
                    Mock.world0
     = (Ok None,
        {| ext := 1;
           trace := [EvSearchRepositories (lit "outage");
                     EvThrown (EvSearchRepositories (lit "outage"))
                              {| err_message := lit "search failed" |}] |}).
Proof.
  split; vm_compute; reflexivity.
Qed.

(** C6 (amended): the resolver throws only what a lookup threw, as it
    was thrown, and it never swallows the failure of a lookup, so it never
    throws for the not-found outcome; the failure of the search call of
    the fourth heuristic is swallowed and resolution answers not-found. *)
Theorem lookup_failures_propagate (mp : option (list (str * str)))
        (error : AuditLogError) (st : StackTrace)
        (w w' : World W) (r : result (option RepositoryInfo)) :
  findRepository githubAdapter mp error st w = (r, w') ->
  exists evs,
    trace w' = trace w ++ evs
    /\ match r with
       | Throw err => lookup_failures evs = [err] /\ search_failures evs = []
       | Ok x =>
           lookup_failures evs = []
           /\ (search_failures evs <> [] -> x = None)
       end.
Proof.
  revert w r w'. change (propagates (findRepository githubAdapter mp error st)).
  unfold findRepository.
  apply propagates_bind; [apply lookup_only_from_hint |].
  intros [info |]; [apply propagates_ret |].
  apply propagates_bind; [apply lookup_only_from_mapping |].
  intros [info |]; [apply propagates_ret |].
  apply propagates_bind; [apply lookup_only_scan_frames |].
  intros [info |]; [apply propagates_ret |].
  intros w r w' E. unfold bind in E.
  destruct (searchForRepository_swallows error st w)
    as (x & w1 & evs & Es & T & L & S).
  rewrite Es in E. exists evs.
  destruct x as [info |]; injection E as <- <-; auto.
Qed.

End ResolverFacts.

Lemma lookup_failures_propagate_witness :
  let e := Mock.mk_error "err-8" "plain text" "error" "billing"
                         (Some "down/service"%string) in
  exists w' evs,
    findRepository (Mock.github Mock.known) None e
                   (StackTraceParserService.parse (stackTrace e) None)
                   Mock.world0
    = (Throw {| err_message := lit "lookup failed" |}, w')
    /\ trace w' = evs
    /\ lookup_failures evs = [{| err_message := lit "lookup failed" |}]
    /\ search_failures evs = [].
Proof.
  intros e.
  destruct (@lookup_failures_propagate
              nat (Mock.github Mock.known) None e
              (StackTraceParserService.parse (stackTrace e) None)
              Mock.world0
              {| ext := 1;
                 trace := [EvGetRepository (lit "down") (lit "service");
                           EvThrown (EvGetRepository (lit "down") (lit "service"))
                                    {| err_message := lit "lookup failed" |}] |}
              (Throw {| err_message := lit "lookup failed" |}))
    as (evs & T & L & S).
  - vm_compute. reflexivity.
  - simpl in T. subst evs.
    do 2 eexists. split; [vm_compute; reflexivity |].
    split; [reflexivity |]. split; [exact L | exact S].
Defined.


(** ** Regular expressions *)

Module RegexFacts.
Import Regex.

Lemma in_all_ascii (a : ascii) : In a all_ascii.
Proof.
  unfold all_ascii. apply in_map_iff. exists (nat_of_ascii a).
  split; [apply ascii_nat_embedding |].
  apply in_seq. pose proof (nat_ascii_bounded a). lia.
Qed.

Lemma cls_sub_sound (q p : ascii -> bool) :
  cls_sub q p = true -> forall a, q a = true -> p a = true.
Proof.
  unfold cls_sub. rewrite forallb_forall. intros H a Hq.
  specialize (H a (in_all_ascii a)). rewrite Hq in H. exact H.
Qed.

Section Soundness.
Variable R : Type.

Lemma star_loop_sound (a : re)
      (step : str -> caps -> (str -> caps -> option R) -> option R)
      (k : str -> caps -> option R) :
  (forall s c k' res,
      step s c k' = Some res ->
      exists u s1 c1, s = u ++ s1 /\ k' s1 c1 = Some res /\ consumed_ok a u) ->
  forall n s c res,
    star_loop step k n s c = Some res ->
    exists u s1 c1,
      s = u ++ s1 /\ k s1 c1 = Some res /\ consumed_ok (Star a) u.
Proof.
  intros Hstep. induction n as [| n IH]; intros s c res H; simpl in H.
  - exists [], s, c. repeat split; auto; intros P HP; discriminate HP.
  - destruct (step s c _) as [x |] eqn:Es.
    + injection H as ->.
      apply Hstep in Es as (u & s1 & c1 & -> & Hk & [Hm Hw]).
      destruct (length s1 <? length (u ++ s1)); [| discriminate Hk].
      apply IH in Hk as (u2 & s2 & c2 & -> & Hk & [Hm2 Hw2]).
      exists (u ++ u2), s2, c2. rewrite app_assoc.
      split; [reflexivity |]. split; [exact Hk |]. split.
      * intros P HP. discriminate HP.
      * intros Q HQ. rewrite forallb_app. simpl in *.
        rewrite (Hw Q HQ). exact (Hw2 Q HQ).
    + exists [], s, c. repeat split; auto; intros P HP; discriminate HP.
Qed.

(** Soundness of the matcher: a success is a success of the
    continuation on a suffix, and the text consumed obeys [must] and
    [within]. *)
Lemma m_sound (r : re) :
  forall s c (k : str -> caps -> option R) res,
    m r s c k = Some res ->
    exists u s1 c1, s = u ++ s1 /\ k s1 c1 = Some res /\ consumed_ok r u.
Proof.
  induction r as [| p | a IHa b IHb | a IHa b IHb | a IHa | i a IHa |];
    intros s c k res H; simpl in H.
  - exists [], s, c. repeat split; auto; intros P HP; discriminate HP.
  - destruct s as [| x s]; [discriminate |].
    destruct (p x) eqn:Hp; [| discriminate].
    exists [x], s, c. repeat split; auto.
    + intros P HP. simpl. rewrite (cls_sub_sound _ _ HP x Hp). reflexivity.
    + intros Q HQ. simpl. rewrite (cls_sub_sound _ _ HQ x Hp). reflexivity.
  - apply IHa in H as (u1 & s1 & c1 & -> & H & [Hm1 Hw1]).
    apply IHb in H as (u2 & s2 & c2 & -> & H & [Hm2 Hw2]).
    exists (u1 ++ u2), s2, c2. rewrite app_assoc. repeat split; auto.
    + intros P HP. simpl in HP. rewrite existsb_app.
      apply orb_true_iff in HP as [HP | HP];
        [rewrite (Hm1 P HP) | rewrite (Hm2 P HP), orb_true_r]; reflexivity.
    + intros Q HQ. simpl in HQ. apply andb_true_iff in HQ as [H1 H2].
      rewrite forallb_app, (Hw1 Q H1), (Hw2 Q H2). reflexivity.
  - destruct (m a s c k) as [x |] eqn:Ea.
    + injection H as ->.
      apply IHa in Ea as (u & s1 & c1 & -> & H & [Hm Hw]).
      exists u, s1, c1. repeat split; auto.
      * intros P HP. simpl in HP. apply andb_true_iff in HP as [HP _]. auto.
      * intros Q HQ. simpl in HQ. apply andb_true_iff in HQ as [HQ _]. auto.
    + apply IHb in H as (u & s1 & c1 & -> & H & [Hm Hw]).
      exists u, s1, c1. repeat split; auto.
      * intros P HP. simpl in HP. apply andb_true_iff in HP as [_ HP]. auto.
      * intros Q HQ. simpl in HQ. apply andb_true_iff in HQ as [_ HQ]. auto.
  - eapply star_loop_sound; [| exact H]. intros; eauto.
  - apply IHa in H as (u & s1 & c1 & -> & H & [Hm Hw]).
    exists u, s1. eexists. repeat split; eauto.
  - destruct s; [| discriminate].
    exists [], [], c. repeat split; auto; intros P HP; discriminate HP.
Qed.

End Soundness.

Lemma existsb_false_of_forall (P : ascii -> bool) (s : str) :
  Forall (fun a => P a = false) s -> existsb P s = false.
Proof.
  induction 1 as [| a s Ha _ IH]; simpl; [reflexivity |].
  rewrite Ha, IH. reflexivity.
Qed.

Lemma Forall_app_l {A} (P : A -> Prop) (u v : list A) :
  Forall P (u ++ v) -> Forall P u.
Proof. intros H. apply Forall_app in H. tauto. Qed.

Lemma Forall_app_r {A} (P : A -> Prop) (u v : list A) :
  Forall P (u ++ v) -> Forall P v.
Proof. intros H. apply Forall_app in H. tauto. Qed.

(** A text without any character of [P] is not matched, anywhere, by an
    expression that must consume one. *)
Lemma match_here_needs (P : ascii -> bool) (r : re) (pre s : str) :
  must P r = true ->
  Forall (fun a => P a = false) s ->
  match_here r pre s = None.
Proof.
  intros Hm Hs. unfold match_here.
  destruct (m r s [] _) as [x |] eqn:E; [| reflexivity].
  apply m_sound in E as (u & s1 & c1 & -> & _ & [Hmust _]).
  specialize (Hmust P Hm).
  rewrite (existsb_false_of_forall P (Forall_app_l _ _ Hs)) in Hmust.
  discriminate.
Qed.

Lemma search_from_needs (P : ascii -> bool) (r : re) (s : str) :
  must P r = true ->
  Forall (fun a => P a = false) s ->
  forall pre, search_from r pre s = None.
Proof.
  intros Hm. induction s as [| a s IH]; intros Hs pre; simpl.
  - rewrite (match_here_needs P r pre Hm Hs). reflexivity.
  - rewrite (match_here_needs P r pre Hm Hs).
    apply IH. inversion Hs; assumption.
Qed.


(** *** Greedy repetition of a character class *)

Section Greedy.
Variable R : Type.
Implicit Types (k : str -> caps -> option R) (P : ascii -> bool).

Lemma star_cls_unfold P (s : str) (c : caps) k :
  m (Star (Chr P)) s c k
  = match s with
    | a :: s' =>
        if P a
        then match m (Star (Chr P)) s' c k with
             | Some x => Some x
             | None => k s c
             end
        else k s c
    | [] => k [] c
    end.
Proof.
  destruct s as [| a s']; [reflexivity |].
  cbn [m length star_loop]. destruct (P a); [| reflexivity].
  assert (H : (length s' <? S (length s')) = true) by (apply Nat.ltb_lt; lia).
  rewrite H. reflexivity.
Qed.

(** Every way of stopping inside [v] fails: so does the repetition. *)
Lemma star_cls_none P (v s' : str) (c : caps) k :
  stops P s' ->
  (forall v1 v2, v = v1 ++ v2 -> k (v2 ++ s') c = None) ->
  m (Star (Chr P)) (v ++ s') c k = None.
Proof.
  intros Hstop. induction v as [| a v IH]; intros Hk.
  - rewrite star_cls_unfold. cbn [app].
    pose proof (Hk [] [] eq_refl) as H0. simpl in H0.
    destruct s' as [| b t]; [exact H0 |].
    simpl in Hstop. rewrite Hstop. exact H0.
  - rewrite star_cls_unfold. cbn [app].
    rewrite IH; [| intros v1 v2 ->; exact (Hk (a :: v1) v2 eq_refl)].
    pose proof (Hk [] (a :: v) eq_refl) as H0. simpl in H0.
    destruct (P a); exact H0.
Qed.

(** The repetition takes all of [u ++ v], gives [v] back one character at
    a time, and succeeds where the continuation first does. *)
Lemma star_cls_greedy P (u v s' : str) (c : caps) k (res : R) :
  Forall (fun a => P a = true) u ->
  Forall (fun a => P a = true) v ->
  stops P s' ->
  (forall v1 v2, v = v1 ++ v2 -> v1 <> [] -> k (v2 ++ s') c = None) ->
  k (v ++ s') c = Some res ->
  m (Star (Chr P)) (u ++ v ++ s') c k = Some res.
Proof.
  intros Hu Hv Hstop Hfail Hk.
  assert (Hvs : m (Star (Chr P)) (v ++ s') c k = Some res).
  { destruct v as [| a v].
    - rewrite star_cls_unfold. cbn [app] in *.
      destruct s' as [| b t]; [exact Hk |].
      simpl in Hstop. rewrite Hstop. exact Hk.
    - rewrite star_cls_unfold. cbn [app].
      inversion Hv as [| ? ? Ha Hv']; subst.
      rewrite Ha.
      rewrite star_cls_none; [exact Hk | exact Hstop |].
      intros v1 v2 ->. apply (Hfail (a :: v1) v2); [reflexivity | discriminate]. }
  clear Hfail Hk. induction Hu as [| a u Ha _ IH]; [exact Hvs |].
  rewrite star_cls_unfold. cbn [app]. rewrite Ha, IH. reflexivity.
Qed.

Lemma plus_cls_greedy P (u v s' : str) (c : caps) k (res : R) :
  u <> [] ->
  Forall (fun a => P a = true) u ->
  Forall (fun a => P a = true) v ->
  stops P s' ->
  (forall v1 v2, v = v1 ++ v2 -> v1 <> [] -> k (v2 ++ s') c = None) ->
  k (v ++ s') c = Some res ->
  m (Plus (Chr P)) (u ++ v ++ s') c k = Some res.
Proof.
  intros Hne Hu Hv Hstop Hfail Hk.
  destruct u as [| a u]; [congruence |].
  inversion Hu as [| ? ? Ha Hu']; subst.
  unfold Plus. cbn [m app]. rewrite Ha.
  apply star_cls_greedy; assumption.
Qed.

(** The greedy case without giving back. *)
Lemma plus_cls_all P (u s' : str) (c : caps) k (res : R) :
  u <> [] ->
  Forall (fun a => P a = true) u ->
  stops P s' ->
  k s' c = Some res ->
  m (Plus (Chr P)) (u ++ s') c k = Some res.
Proof.
  intros Hne Hu Hstop Hk.
  apply plus_cls_greedy with (v := []); auto.
  intros v1 v2 E Hv1. destruct v1; [congruence | discriminate E].
Qed.


Lemma firstn_consumed (u t : str) :
  firstn (length (u ++ t) - length t) (u ++ t) = u.
Proof.
  rewrite length_app, Nat.add_sub. rewrite firstn_app, Nat.sub_diag.
  rewrite firstn_all. simpl. apply app_nil_r.
Qed.

(** A capture group around a greedy class. *)
Lemma group_plus_all (i : nat) P (u s' : str) (c : caps) k (res : R) :
  u <> [] ->
  Forall (fun a => P a = true) u ->
  stops P s' ->
  k s' ((i, u) :: c) = Some res ->
  m (Group i (Plus (Chr P))) (u ++ s') c k = Some res.
Proof.
  intros Hne Hu Hstop Hk. cbn [m].
  apply plus_cls_all; auto. rewrite firstn_consumed. exact Hk.
Qed.

End Greedy.

(** *** One step of a sequence at a time *)

Section Steps.
Variable R : Type.
Implicit Types (k : str -> caps -> option R) (P : ascii -> bool).

Lemma m_seq (a b : re) (s : str) (c : caps) k :
  m (Seq a b) s c k = m a s c (fun s1 c1 => m b s1 c1 k).
Proof. reflexivity. Qed.

Lemma m_opt (a : re) (s : str) (c : caps) k :
  m (Opt a) s c k = match m a s c k with Some x => Some x | None => k s c end.
Proof. reflexivity. Qed.

Lemma m_seq_assoc (a b d : re) (s : str) (c : caps) k :
  m (Seq (Seq a b) d) s c k = m (Seq a (Seq b d)) s c k.
Proof. reflexivity. Qed.

Lemma m_lits (t s : str) (c : caps) k : m (lits t) (t ++ s) c k = k s c.
Proof.
  induction t as [| a t IH]; [reflexivity |].
  destruct t as [| b t].
  - cbn [lits m app char]. rewrite Ascii.eqb_refl. reflexivity.
  - change (lits (a :: b :: t)) with (Seq (char a) (lits (b :: t))).
    cbn [m app char]. rewrite Ascii.eqb_refl. exact IH.
Qed.

Lemma step_lits (t : str) (b : re) (s : str) (c : caps) k (res : R) :
  m b s c k = Some res -> m (Seq (lits t) b) (t ++ s) c k = Some res.
Proof. intros H. rewrite m_seq, m_lits. exact H. Qed.

Lemma step_plus P (u : str) (b : re) (s : str) (c : caps) k (res : R) :
  u <> [] -> Forall (fun a => P a = true) u -> stops P s ->
  m b s c k = Some res ->
  m (Seq (Plus (Chr P)) b) (u ++ s) c k = Some res.
Proof. intros. rewrite m_seq. apply plus_cls_all; auto. Qed.


Lemma step_group_plus (i : nat) P (u : str) (b : re) (s : str) (c : caps) k
      (res : R) :
  u <> [] -> Forall (fun a => P a = true) u -> stops P s ->
  m b s ((i, u) :: c) k = Some res ->
  m (Seq (Group i (Plus (Chr P))) b) (u ++ s) c k = Some res.
Proof. intros. rewrite m_seq. apply group_plus_all; auto. Qed.

Lemma step_opt_take (a b : re) (s : str) (c : caps) k (res : R) :
  m (Seq a b) s c k = Some res -> m (Seq (Opt a) b) s c k = Some res.
Proof.
  intros H. rewrite m_seq, m_opt. rewrite m_seq in H. rewrite H. reflexivity.
Qed.

Lemma step_opt_skip (a b : re) (s : str) (c : caps) k (res : R) :
  m (Seq a b) s c k = None -> m b s c k = Some res ->
  m (Seq (Opt a) b) s c k = Some res.
Proof.
  intros H1 H2. rewrite m_seq, m_opt. rewrite m_seq in H1. rewrite H1. exact H2.
Qed.

Lemma m_seq_char (a : ascii) (b : re) (s : str) (c : caps) k :
  m (Seq (char a) b) (a :: s) c k = m b s c k.
Proof. cbn [m char]. rewrite Ascii.eqb_refl. reflexivity. Qed.

(** A run of the class fails when what follows fails after every part
    of it. *)
Lemma plus_cls_none P (v s' : str) (c : caps) k :
  stops P s' ->
  (forall v1 v2, v = v1 ++ v2 -> v1 <> [] -> k (v2 ++ s') c = None) ->
  m (Plus (Chr P)) (v ++ s') c k = None.
Proof.
  intros Hstop Hk. unfold Plus. rewrite m_seq.
  destruct v as [| a v].
  - cbn [app m]. destruct s' as [| b t]; [reflexivity |].
    simpl in Hstop. rewrite Hstop. reflexivity.
  - cbn [app m]. destruct (P a); [| reflexivity].
    apply star_cls_none; [exact Hstop |].
    intros v1 v2 ->. apply (Hk (a :: v1) v2); [reflexivity | discriminate].
Qed.

Lemma last_opt_lits (t s : str) (c : caps) k (res : R) :
  k s c = Some res -> m (Opt (lits t)) (t ++ s) c k = Some res.
Proof. intros H. rewrite m_opt, m_lits, H. reflexivity. Qed.

End Steps.

(** A prefix made of characters of [Q], cut where [Q] stops. *)
Lemma prefix_within (Q : ascii -> bool) (w : str) :
  forall (u s1 t : str),
    u ++ s1 = w ++ t ->
    forallb Q u = true ->
    stops Q t ->
    exists w2, w = u ++ w2 /\ s1 = w2 ++ t.
Proof.
  induction w as [| a w IH]; intros u s1 t E Hu Ht.
  - destruct u as [| b u]; [exists []; auto |].
    simpl in E. subst t. simpl in Hu, Ht.
    rewrite Ht in Hu. discriminate.
  - destruct u as [| b u]; [exists (a :: w); auto |].
    simpl in E. injection E as -> E. simpl in Hu.
    apply andb_true_iff in Hu as [_ Hu].
    destruct (IH u s1 t E Hu Ht) as (w2 & -> & ->).
    exists w2. auto.
Qed.

Lemma m_group R (i : nat) (a : re) (s : str) (c : caps)
      (k : str -> caps -> option R) :
  m (Group i a) s c k
  = m a s c (fun s1 c1 => k s1 ((i, firstn (length s - length s1) s) :: c1)).
Proof. reflexivity. Qed.

Lemma m_alt_left R (a b : re) (s : str) (c : caps)
      (k : str -> caps -> option R) (res : R) :
  m a s c k = Some res -> m (Alt a b) s c k = Some res.
Proof. intros H. cbn [m]. rewrite H. reflexivity. Qed.

Lemma lits_mismatch R (x : ascii) (t : str) (a : ascii) (s : str) (c : caps)
      (k : str -> caps -> option R) :
  Ascii.eqb x a = false -> m (lits (x :: t)) (a :: s) c k = None.
Proof.
  intros H. destruct t as [| y t].
  - cbn [lits m char]. rewrite H. reflexivity.
  - change (lits (x :: y :: t)) with (Seq (char x) (lits (y :: t))).
    cbn [m char]. rewrite H. reflexivity.
Qed.

Lemma Matches_lits (t rest : str) : Matches (lits t) t rest.
Proof.
  induction t as [| a t IH]; [constructor |].
  destruct t as [| b t].
  - cbn [lits]. constructor. apply Ascii.eqb_refl.
  - change (lits (a :: b :: t)) with (Seq (char a) (lits (b :: t))).
    change (a :: b :: t) with ([a] ++ b :: t).
    constructor; [constructor; apply Ascii.eqb_refl | exact IH].
Qed.

Lemma Matches_star_cls (P : ascii -> bool) (u rest : str) :
  Forall (fun a => P a = true) u -> Matches (Star (Chr P)) u rest.
Proof.
  induction 1 as [| a u Ha _ IH]; [constructor |].
  change (a :: u) with ([a] ++ u).
  constructor; [discriminate | constructor; exact Ha | exact IH].
Qed.

Lemma Matches_plus_cls (P : ascii -> bool) (u rest : str) :
  u <> [] -> Forall (fun a => P a = true) u -> Matches (Plus (Chr P)) u rest.
Proof.
  intros Hne Hu. destruct u as [| a u]; [congruence |].
  inversion Hu; subst. change (a :: u) with ([a] ++ u).
  constructor; [constructor; assumption | apply Matches_star_cls; assumption].
Qed.

(** *** Completeness of the matcher *)

Section Completeness.
Variable R : Type.

Lemma m_complete_gen (r : re) (u rest : str) :
  Matches r u rest ->
  (forall c (k : str -> caps -> option R),
      (forall c', k rest c' <> None) -> m r (u ++ rest) c k <> None)
  /\ (forall a, r = Star a ->
      forall n c (k : str -> caps -> option R),
        length (u ++ rest) <= n ->
        (forall c', k rest c' <> None) ->
        star_loop (m a) k n (u ++ rest) c <> None).
Proof.
  induction 1 as [rest | p a rest Hp | a b u1 u2 rest _ [IH1 _] _ [IH2 _]
                  | a b u rest _ [IH _] | a b u rest _ [IH _]
                  | a rest | a u1 u2 rest Hne _ [IH1 _] _ [_ IH2]
                  | i a u rest _ [IH _] | ].
  - split; [| discriminate]. intros c k Hk. apply Hk.
  - split; [| discriminate]. intros c k Hk. cbn [app m]. rewrite Hp. apply Hk.
  - split; [| discriminate]. intros c k Hk.
    rewrite <- app_assoc. cbn [m]. apply IH1. intros c'. apply IH2. exact Hk.
  - split; [| discriminate]. intros c k Hk. cbn [m].
    specialize (IH c k Hk). destruct (m a (u ++ rest) c k); congruence.
  - split; [| discriminate]. intros c k Hk. cbn [m].
    destruct (m a (u ++ rest) c k); [discriminate | apply IH; exact Hk].
  - assert (Hloop : forall n c (k : str -> caps -> option R),
               (forall c', k rest c' <> None) ->
               star_loop (m a) k n rest c <> None).
    { intros n c k Hk. destruct n as [| n]; cbn [star_loop]; [apply Hk |].
      destruct (m a rest c _); [discriminate | apply Hk]. }
    split.
    + intros c k Hk. cbn [app m]. apply Hloop. exact Hk.
    + intros a' E n c k _ Hk. injection E as <-. cbn [app]. apply Hloop. exact Hk.
  - assert (Hloop : forall n c (k : str -> caps -> option R),
               length ((u1 ++ u2) ++ rest) <= n ->
               (forall c', k rest c' <> None) ->
               star_loop (m a) k n ((u1 ++ u2) ++ rest) c <> None).
    { intros n c k Hn Hk.
      assert (Hlen : length (u2 ++ rest) < length ((u1 ++ u2) ++ rest)).
      { rewrite <- app_assoc, (length_app u1). destruct u1; [congruence |].
        simpl. lia. }
      destruct n as [| n]; [lia |]. cbn [star_loop].
      match goal with
      | |- match ?x with _ => _ end <> None =>
          assert (Hx : x <> None); [| destruct x; congruence]
      end.
      rewrite <- app_assoc. apply IH1. intros c'.
      rewrite app_assoc.
      apply Nat.ltb_lt in Hlen. rewrite Hlen.
      apply (IH2 a eq_refl); [| exact Hk].
      apply Nat.ltb_lt in Hlen. lia. }
    split.
    + intros c k Hk. cbn [m]. apply Hloop; [lia | exact Hk].
    + intros a' E n c k Hn Hk. injection E as <-. apply Hloop; assumption.
  - split; [| discriminate]. intros c k Hk. cbn [m]. apply IH.
    intros c'. apply Hk.
  - split; [| discriminate]. intros c k Hk. cbn [app m]. apply Hk.
Qed.

Lemma m_complete (r : re) (u rest : str) (c : caps)
      (k : str -> caps -> option R) :
  Matches r u rest ->
  (forall c', k rest c' <> None) ->
  m r (u ++ rest) c k <> None.
Proof. intros H. apply (proj1 (m_complete_gen H)). Qed.

End Completeness.

(** A match somewhere makes [test] true. *)
Lemma test_complete (r : re) (before u rest : str) :
  Matches r u rest -> test (rx r) (before ++ u ++ rest) = true.
Proof.
  intros H. unfold test, exec. cbn [anchored rx body].
  assert (Hs : forall pre, search_from r pre (before ++ u ++ rest) <> None).
  { induction before as [| a before IH]; intros pre.
    - cbn [app].
      assert (Hm : match_here r pre (u ++ rest) <> None).
      { unfold match_here. apply m_complete; [exact H | discriminate]. }
      destruct (u ++ rest); cbn [search_from];
        destruct (match_here r pre _); congruence.
    - cbn [app search_from].
      destruct (match_here r pre _); [discriminate | apply IH]. }
  specialize (Hs []). destruct (search_from r [] _); congruence.
Qed.

End RegexFacts.

(** ** The parser *)

Module ParserFacts.
Import Regex RegexFacts StackTraceParserService.

Lemma word_not_space (a : ascii) : cls_w a = true -> cls_s a = false.
Proof.
  destruct a as [[] [] [] [] [] [] [] []]; intros H; try reflexivity;
    discriminate H.
Qed.

Lemma word_not_dot (a : ascii) : cls_w a = true -> Ascii.eqb "." a = false.
Proof.
  destruct a as [[] [] [] [] [] [] [] []]; intros H; try reflexivity;
    discriminate H.
Qed.

Lemma word_is_dotted (a : ascii) :
  cls_w a = true -> cls_or cls_w (one_of ".") a = true.
Proof. intros H. unfold cls_or. rewrite H. reflexivity. Qed.

Lemma stops_word (P : ascii -> bool) (fn t : str) :
  fn <> [] ->
  Forall (fun a => cls_w a = true) fn ->
  (forall a, cls_w a = true -> P a = false) ->
  stops P (fn ++ t).
Proof.
  intros Hne Hw HP. destruct fn as [| a fn]; [congruence |].
  simpl. inversion Hw; subst. auto.
Qed.

(** The class part of the frame pattern cannot be taken on a plain name. *)
Lemma no_class_prefix R (fn t : str) (b : re) (c : caps)
      (k : str -> caps -> option R) :
  Forall (fun a => cls_w a = true) fn ->
  m (Seq (Seq (Group 1 (Seq word1 (Star (Seq (char ".") word1)))) (char "."))
         b)
    (fn ++ lit " " ++ t) c k = None.
Proof.
  intros Hw.
  destruct (m _ _ c k) as [x |] eqn:E; [| reflexivity]. exfalso.
  rewrite m_seq_assoc, m_seq in E.
  apply m_sound in E as (u & s1 & c1 & Es & Hk & [_ Hwithin]).
  specialize (Hwithin (cls_or cls_w (one_of ".")) eq_refl).
  destruct (prefix_within (cls_or cls_w (one_of ".")) fn u s1 (lit " " ++ t)
                          (eq_sym Es) Hwithin eq_refl)
    as (w2 & -> & ->).
  destruct w2 as [| a w2].
  - cbn in Hk. discriminate Hk.
  - apply Forall_app_r in Hw. inversion Hw as [| ? ? Ha _]; subst.
    cbn [app m char] in Hk. rewrite (word_not_dot a Ha) in Hk. discriminate Hk.
Qed.

#[local] Abbreviation segment := (Seq (char ".") word1).

(** After the last segment the loop of segments cannot go on, whatever
    part of the segment was taken. *)
Lemma segments_end R (w2 t : str) (c : caps) (k : str -> caps -> option R)
      (n : nat) :
  Forall (fun a => cls_w a = true) w2 ->
  (forall s1 c1, stops (Ascii.eqb ".") s1 -> k s1 c1 = None) ->
  star_loop (m segment) k n (w2 ++ lit " " ++ t) c = None.
Proof.
  intros Hw Hk.
  assert (Hstop : stops (Ascii.eqb ".") (w2 ++ lit " " ++ t)).
  { destruct w2 as [| a w2]; [reflexivity |].
    inversion Hw; subst. cbn [app stops]. apply word_not_dot. assumption. }
  assert (Hstep : forall k' : str -> caps -> option R,
             m segment (w2 ++ lit " " ++ t) c k' = None).
  { intros k'. rewrite m_seq.
    destruct (w2 ++ lit " " ++ t) as [| a s]; [reflexivity |].
    cbn [m char]. cbn [stops] in Hstop. rewrite Hstop. reflexivity. }
  destruct n as [| n]; cbn [star_loop]; [apply Hk; exact Hstop |].
  rewrite Hstep. apply Hk. exact Hstop.
Qed.

(** The loop of segments takes every segment of the class and leaves the
    last one, the function name, to what follows. *)
Lemma segments_taken R (cls : list str) (w t : str) (c : caps)
      (k : str -> caps -> option R) (res : R) :
  Forall is_name cls -> is_name w ->
  (forall s1 c1, stops (Ascii.eqb ".") s1 -> k s1 c1 = None) ->
  k (lit "." ++ w ++ lit " " ++ t) c = Some res ->
  forall n,
    length (lit "." ++ dotted cls w ++ lit " " ++ t) <= n ->
    star_loop (m segment) k n (lit "." ++ dotted cls w ++ lit " " ++ t) c
    = Some res.
Proof.
  intros Hcls [Hw1 Hw2] Hfail Hk.
  induction Hcls as [| seg cls [Hs1 Hs2] _ IH]; intros n Hn.
  - cbn [dotted fold_right] in *.
    destruct n as [| n]; [simpl in Hn; lia |]. cbn [star_loop].
    assert (E : m segment (lit "." ++ w ++ lit " " ++ t) c
                  (fun s1 c1 =>
                     if length s1 <? length (lit "." ++ w ++ lit " " ++ t)
                     then star_loop (m segment) k n s1 c1 else None) = None).
    { change (lit ".") with ["."%char]. cbn [app].
      rewrite m_seq_char.
      apply plus_cls_none; [reflexivity |].
      intros v1 v2 E Hv1. subst w.
      destruct (_ <? _); [| reflexivity].
      apply segments_end; [| exact Hfail].
      apply Forall_app_r in Hw2. exact Hw2. }
    rewrite E. exact Hk.
  - cbn [dotted fold_right] in *. fold (dotted cls w) in *.
    destruct n as [| n]; [simpl in Hn; lia |]. cbn [star_loop].
    assert (E : m segment
                  (lit "." ++ (seg ++ lit "." ++ dotted cls w) ++ lit " " ++ t) c
                  (fun s1 c1 =>
                     if length s1
                        <? length (lit "." ++ (seg ++ lit "." ++ dotted cls w)
                                       ++ lit " " ++ t)
                     then star_loop (m segment) k n s1 c1 else None)
                = Some res).
    { change (lit ".") with ["."%char]. cbn [app].
      rewrite m_seq_char. rewrite <- !app_assoc.
      apply plus_cls_all; [assumption | assumption | reflexivity |].
      match goal with
      | |- context [?a <? ?b] => assert (Hlt : (a <? b) = true)
      end.
      { apply Nat.ltb_lt. cbn [length]. rewrite !length_app.
        destruct seg; [congruence |]. cbn [length].
        generalize (length (dotted cls w)) (length (lit " ")) (length t)
                   (length seg).
        clear. intros. lia. }
      rewrite Hlt. apply IH.
      cbn [length app] in Hn. rewrite <- !app_assoc, !length_app in Hn.
      cbn [length app]. rewrite !length_app.
      change (length (lit ".")) with 1 in *.
      destruct seg; [congruence |]. cbn [length] in Hn. lia. }
    rewrite E. reflexivity.
Qed.

Lemma dotted_join (cls : list str) (seg w rest : str) :
  dotted (seg :: cls) w ++ rest
  = JsString.join (lit ".") (seg :: cls) ++ lit "." ++ w ++ rest.
Proof.
  revert seg. induction cls as [| b cls IH]; intros seg.
  - cbn [dotted fold_right JsString.join]. rewrite <- !app_assoc. reflexivity.
  - change (dotted (seg :: b :: cls) w) with (seg ++ lit "." ++ dotted (b :: cls) w).
    change (JsString.join (lit ".") (seg :: b :: cls))
      with (seg ++ lit "." ++ JsString.join (lit ".") (b :: cls)).
    rewrite <- !app_assoc. rewrite IH. reflexivity.
Qed.

Lemma word_is_dotchar (a : ascii) : cls_w a = true -> cls_dot a = true.
Proof.
  destruct a as [[] [] [] [] [] [] [] []]; intros H; try reflexivity;
    discriminate H.
Qed.

Lemma dotted_chars (cls : list str) (w : str) :
  Forall is_name cls -> is_name w ->
  Forall (fun a => cls_dot a = true) (dotted cls w).
Proof.
  intros Hcls [_ Hw].
  assert (Hword : forall s, Forall (fun a => JsString.is_word a = true) s ->
                            Forall (fun a => cls_dot a = true) s).
  { intros s. apply Forall_impl. exact word_is_dotchar. }
  induction Hcls as [| seg cls [_ Hs] _ IH]; cbn [dotted fold_right].
  - apply Hword. exact Hw.
  - apply Forall_app. split; [apply Hword; exact Hs |].
    constructor; [reflexivity | exact IH].
Qed.

Lemma dotted_head (P : ascii -> bool) (cls : list str) (w t : str) :
  Forall is_name cls -> is_name w ->
  (forall a, cls_w a = true -> P a = false) ->
  stops P (dotted cls w ++ t).
Proof.
  intros Hcls [Hw1 Hw2] HP.
  destruct Hcls as [| seg cls [Hs1 Hs2] _]; cbn [dotted fold_right].
  - apply stops_word; assumption.
  - rewrite <- app_assoc. apply stops_word; assumption.
Qed.

(** The optional class part of the frame pattern on a qualified name:
    every segment but the last one is the class. *)
Lemma class_prefix R (cls : list str) (w t : str) (b : re) (c : caps)
      (k : str -> caps -> option R) (res : R) :
  Forall is_name cls -> is_name w ->
  m b (w ++ lit " " ++ t) (class_caps cls ++ c) k = Some res ->
  m (Seq (Opt (Seq (Group 1 (Seq word1 (Star (Seq (char ".") word1))))
                   (char ".")))
         b)
    (dotted cls w ++ lit " " ++ t) c k = Some res.
Proof.
  intros Hcls Hw Hk.
  destruct Hcls as [| seg cls [Hs1 Hs2] Hcls].
  - cbn [dotted fold_right class_caps app] in *.
    apply step_opt_skip; [| exact Hk].
    apply no_class_prefix. exact (proj2 Hw).
  - apply step_opt_take. rewrite m_seq_assoc, m_seq, m_group, m_seq.
    cbn [dotted fold_right]. fold (dotted cls w). rewrite <- !app_assoc.
    apply plus_cls_all; [assumption | assumption | reflexivity |].
    cbn [m]. apply segments_taken; auto.
    + intros s1 c1 Hstop. cbv beta.
      destruct s1 as [| a s1]; [reflexivity |].
      cbn [m char]. cbn [stops] in Hstop. rewrite Hstop. reflexivity.
    + cbv beta. change (lit "." ++ w ++ lit " " ++ t)
        with ("."%char :: w ++ lit " " ++ t).
      rewrite <- m_seq, m_seq_char.
      replace (seg ++ lit "." ++ dotted cls w ++ lit " " ++ t)
        with (dotted (seg :: cls) w ++ lit " " ++ t)
        by (cbn [dotted fold_right]; rewrite <- !app_assoc; reflexivity).
      rewrite dotted_join.
      change ("."%char :: w ++ lit " " ++ t) with (lit "." ++ w ++ lit " " ++ t).
      rewrite firstn_consumed. exact Hk.
Qed.

Lemma path_char_np (a : ascii) : path_char a = true -> none_of "():" a = true.
Proof. unfold path_char. intros H. apply andb_true_iff in H. tauto. Qed.

Lemma path_char_dot (a : ascii) : path_char a = true -> cls_dot a = true.
Proof. unfold path_char. intros H. apply andb_true_iff in H. tauto. Qed.

(** The file part of the frame pattern on [path.ts:...]. *)
Lemma file_group R (path t : str) (b : re) (c : caps)
      (k : str -> caps -> option R) (res : R) :
  path <> [] ->
  Forall (fun a => path_char a = true) path ->
  m b (lit ":" ++ t) ((3, path ++ lit ".ts") :: c) k = Some res ->
  m (Seq (Group 3 (seqs [Plus (Chr (none_of "():")); char ".";
                         alts [text "ts"; text "js"; text "tsx"; text "jsx";
                               text "mjs"; text "cjs"]]))
         b)
    (path ++ lit ".ts" ++ lit ":" ++ t) c k = Some res.
Proof.
  intros Hne Hp Hk.
  rewrite m_seq, m_group. cbn [seqs]. rewrite m_seq.
  apply plus_cls_greedy; auto.
  - eapply Forall_impl; [| exact Hp]. exact path_char_np.
  - repeat constructor.
  - reflexivity.
  - intros v1 v2 E Hv1.
    destruct v1 as [| x1 [| x2 [| x3 [| x4 v1]]]]; try congruence;
      cbn in E; injection E; intros; subst; try reflexivity.
    all: try discriminate.
  - change (lit ".ts" ++ lit ":" ++ t) with (lit "." ++ lit "ts" ++ lit ":" ++ t).
    apply step_lits with (t := lit "."). cbn [alts].
    apply m_alt_left. unfold text. rewrite m_lits.
    replace (path ++ lit "." ++ lit "ts" ++ lit ":" ++ t)
      with ((path ++ lit ".ts") ++ lit ":" ++ t)
      by (rewrite <- app_assoc; reflexivity).
    rewrite firstn_consumed. exact Hk.
Qed.

Lemma ecma_frame_groups R (cls : list str) (w path L C : str)
      (k : str -> caps -> option R) (res : R) :
  Forall is_name cls -> is_name w ->
  path <> [] -> Forall (fun a => path_char a = true) path ->
  L <> [] -> Forall (fun a => cls_d a = true) L ->
  C <> [] -> Forall (fun a => cls_d a = true) C ->
  k [] ([(5, C); (4, L); (3, path ++ lit ".ts"); (2, w)] ++ class_caps cls)
  = Some res ->
  m (body re_ecma_frame) (ecma_line (dotted cls w) path L C) [] k = Some res.
Proof.
  intros Hcls Hw Hp1 Hp2 HL1 HL2 HC1 HC2 Hk.
  unfold re_ecma_frame, rx, body, ecma_line. cbn [seqs]. unfold text.
  change (lit "at " ++ dotted cls w ++ lit " (" ++ path ++ lit ".ts:" ++ L
              ++ lit ":" ++ C ++ lit ")")
    with (lit "at" ++ lit " " ++ dotted cls w ++ lit " " ++ lit "(" ++ path
              ++ lit ".ts" ++ lit ":" ++ L ++ lit ":" ++ C ++ lit ")").
  apply step_lits.
  apply step_plus; [discriminate | repeat constructor | |].
  { apply dotted_head; auto. exact word_not_space. }
  apply step_opt_take. rewrite m_seq_assoc.
  apply class_prefix; [assumption | assumption |].
  rewrite app_nil_r, m_seq_assoc.
  apply step_group_plus; [exact (proj1 Hw) | exact (proj2 Hw) | reflexivity |].
  apply step_plus; [discriminate | repeat constructor | reflexivity |].
  apply step_opt_take. apply step_lits with (t := lit "(").
  apply file_group; [assumption | assumption |].
  apply step_lits with (t := lit ":").
  apply step_group_plus; [assumption | assumption | reflexivity |].
  apply step_lits with (t := lit ":").
  apply step_group_plus; [assumption | assumption | reflexivity |].
  apply last_opt_lits with (t := lit ")") (s := []). exact Hk.
Qed.

Lemma space_not_a (a : ascii) : cls_s a = true -> Ascii.eqb "a" a = false.
Proof.
  destruct a as [[] [] [] [] [] [] [] []]; intros H; try reflexivity;
    discriminate H.
Qed.

Lemma blank_space (a : ascii) : blank a = true -> cls_s a = true.
Proof. unfold blank. intros H. apply andb_true_iff in H. tauto. Qed.

(** The search for a frame steps over the indentation. *)
Lemma search_skips_indent (ws s pre : str) :
  Forall (fun a => blank a = true) ws ->
  search_from (body re_ecma_frame) pre (ws ++ s)
  = search_from (body re_ecma_frame) (rev ws ++ pre) s.
Proof.
  intros H. revert pre. induction H as [| a ws Ha _ IH]; intros pre;
    [reflexivity |].
  cbn [app search_from].
  assert (E : match_here (body re_ecma_frame) pre (a :: ws ++ s) = None).
  { unfold match_here, re_ecma_frame, rx, body. cbn [seqs]. unfold text.
    rewrite m_seq. change (lit "at") with ("a"%char :: lit "t").
    apply lits_mismatch. exact (space_not_a a (blank_space a Ha)). }
  rewrite E, IH. cbn [rev]. rewrite <- app_assoc. reflexivity.
Qed.

Lemma digits_from_value (L : str) :
  Forall (fun a => cls_d a = true) L ->
  forall acc,
    JsString.digits_from acc L
    = fold_left (fun acc d => (10 * acc + JsString.digit_val d)%N) L acc.
Proof.
  induction 1 as [| a L Ha _ IH]; intros acc; [reflexivity |].
  cbn [JsString.digits_from fold_left]. unfold cls_d in Ha. rewrite Ha.
  apply IH.
Qed.

Lemma digit_not_space (a : ascii) : cls_d a = true -> JsString.is_space a = false.
Proof.
  destruct a as [[] [] [] [] [] [] [] []]; intros H; try reflexivity;
    discriminate H.
Qed.

Lemma parse_num_digits (L : str) :
  L <> [] -> Forall (fun a => cls_d a = true) L ->
  parse_num (Some L) = Some (decimal_value L).
Proof.
  intros Hne HL. destruct L as [| a L]; [congruence |].
  inversion HL as [| ? ? Ha HL']; subst.
  unfold parse_num, JsString.parseInt. cbn [JsString.truthy JsString.trim_start].
  rewrite (digit_not_space a Ha). unfold cls_d in Ha. rewrite Ha.
  rewrite digits_from_value by exact HL. reflexivity.
Qed.

(** The frame of an indented call-stack line. *)
Lemma ecma_frame_of_call_line (ws : str) (cls : list str) (w path L C : str) :
  Forall (fun a => blank a = true) ws ->
  Forall is_name cls -> is_name w ->
  path <> [] -> Forall (fun a => path_char a = true) path ->
  L <> [] -> Forall (fun a => cls_d a = true) L ->
  C <> [] -> Forall (fun a => cls_d a = true) C ->
  ecma_frame_of_line (ws ++ ecma_line (dotted cls w) path L C)
  = Some {| filePath := path ++ lit ".ts";
            lineNumber := Some (decimal_value L);
            columnNumber := Some (decimal_value C);
            functionName := Some w;
            className := class_of cls;
            isUserCode := isUserCodePath (path ++ lit ".ts");
            frame_repository := None |}.
Proof.
  intros Hws Hcls Hw Hp1 Hp2 HL1 HL2 HC1 HC2.
  unfold ecma_frame_of_line, exec.
  change (anchored re_ecma_frame) with false. cbv iota.
  rewrite search_skips_indent by exact Hws.
  destruct (ecma_line (dotted cls w) path L C) as [| a0 l0] eqn:El.
  { discriminate El. }
  rewrite <- El. clear El a0 l0.
  assert (E : exists x, match_here (body re_ecma_frame) (rev ws ++ [])
                                   (ecma_line (dotted cls w) path L C) = Some x
                        /\ groups x
                           = [(5, C); (4, L); (3, path ++ lit ".ts"); (2, w)]
                               ++ class_caps cls).
  { eexists. split.
    - unfold match_here. apply ecma_frame_groups; auto.
    - reflexivity. }
  destruct E as (x & Ex & Hg).
  assert (Es : search_from (body re_ecma_frame) (rev ws ++ [])
                           (ecma_line (dotted cls w) path L C) = Some x).
  { destruct (ecma_line (dotted cls w) path L C); cbn [search_from];
      rewrite Ex; reflexivity. }
  rewrite Es. unfold group. rewrite Hg.
  destruct cls as [| seg cls];
    cbn [class_caps class_of app cap Nat.eqb or_empty];
    rewrite !parse_num_digits by assumption; reflexivity.
Qed.

Lemma split_nonempty (c : ascii) (s : str) : JsString.split c s <> [].
Proof.
  destruct s as [| a s]; simpl; [discriminate |].
  destruct (Ascii.eqb a c); [discriminate |].
  destruct (JsString.split c s); discriminate.
Qed.

Lemma split_sep (c : ascii) (p q : str) :
  JsString.split c (p ++ c :: q) = JsString.split c p ++ JsString.split c q.
Proof.
  induction p as [| a p IH]; simpl.
  - rewrite Ascii.eqb_refl. reflexivity.
  - destruct (Ascii.eqb a c); [rewrite IH; reflexivity |].
    rewrite IH. pose proof (split_nonempty c p) as Hne.
    destruct (JsString.split c p); [congruence | reflexivity].
Qed.

Lemma split_one_line (c : ascii) (line : str) :
  Forall (fun a => Ascii.eqb a c = false) line ->
  JsString.split c line = [line].
Proof.
  induction 1 as [| a line Ha _ IH]; simpl; [reflexivity |].
  rewrite Ha, IH. reflexivity.
Qed.

Lemma line_in_split (pre line post : str) :
  Forall (fun a => Ascii.eqb a newline = false) line ->
  line_bounds pre post ->
  In line (JsString.split newline (pre ++ line ++ post)).
Proof.
  intros Hl (Hpre & Hpost).
  assert (Htail : In line (JsString.split newline (line ++ post))).
  { destruct Hpost as [-> | (q & ->)].
    - rewrite app_nil_r, split_one_line by exact Hl. left. reflexivity.
    - rewrite split_sep, split_one_line by exact Hl. left. reflexivity. }
  destruct Hpre as [-> | (p & ->)]; [exact Htail |].
  rewrite <- app_assoc. cbn [app]. rewrite split_sep.
  apply in_or_app. right. exact Htail.
Qed.

Lemma collect_in (f : str -> option StackFrame) (lines : list str)
      (line : str) (fr : StackFrame) :
  In line lines -> f line = Some fr -> In fr (collect f lines).
Proof.
  intros Hin Hf. induction lines as [| l lines IH]; [contradiction |].
  cbn [collect]. destruct Hin as [-> | Hin].
  - rewrite Hf. left. reflexivity.
  - destruct (f l); [right |]; auto.
Qed.

Lemma includes_app (p a b : str) : JsString.includes p (a ++ p ++ b) = true.
Proof.
  assert (Hs : forall q t, JsString.starts_with q (q ++ t) = true).
  { induction q as [| x q IH]; intros t; simpl; [reflexivity |].
    rewrite Ascii.eqb_refl, IH. reflexivity. }
  induction a as [| x a IH].
  - destruct (p ++ b) eqn:E; simpl; rewrite <- E, Hs; reflexivity.
  - cbn [app JsString.includes]. rewrite IH. apply orb_true_r.
Qed.

(** The language pattern matches a call-stack line. *)
Lemma ecma_line_matches (fn path L C rest : str) :
  Forall (fun a => cls_dot a = true) fn ->
  Forall (fun a => path_char a = true) path ->
  L <> [] -> Forall (fun a => cls_d a = true) L ->
  C <> [] -> Forall (fun a => cls_d a = true) C ->
  Matches (body re_ecma) (ecma_line fn path L C) rest.
Proof.
  intros Hfn Hp HL1 HL2 HC1 HC2.
  unfold re_ecma, rx, body, ecma_line. cbn [seqs alts]. unfold text.
  change (lit "at " ++ fn ++ lit " (" ++ path ++ lit ".ts:" ++ L ++ lit ":"
              ++ C ++ lit ")")
    with (lit "at" ++ lit " " ++ fn ++ lit " " ++ lit "(" ++ path ++ lit "."
              ++ lit "ts" ++ lit ":" ++ L ++ lit ":" ++ C ++ lit ")").
  constructor; [apply Matches_lits |].
  constructor; [apply Matches_plus_cls; [discriminate | repeat constructor] |].
  constructor.
  { apply Matches_star_cls. exact Hfn. }
  constructor; [apply Matches_plus_cls; [discriminate | repeat constructor] |].
  constructor; [apply (Matches_lits (lit "(")) |].
  constructor.
  { apply Matches_star_cls.
    eapply Forall_impl; [| exact Hp]. exact path_char_dot. }
  constructor; [apply (Matches_lits (lit ".")) |].
  constructor; [apply M_AltL; apply Matches_lits |].
  constructor; [apply (Matches_lits (lit ":")) |].
  constructor; [apply Matches_plus_cls; assumption |].
  constructor; [apply (Matches_lits (lit ":")) |].
  rewrite <- (app_nil_r (lit ")")).
  constructor; [apply Matches_plus_cls; assumption |].
  rewrite app_nil_r. apply (Matches_lits (lit ")")).
Qed.

Lemma blank_not_nl (a : ascii) : blank a = true -> Ascii.eqb a newline = false.
Proof.
  unfold blank. intros H. apply andb_true_iff in H as [_ H].
  apply negb_true_iff in H. exact H.
Qed.

Lemma dot_not_nl (a : ascii) : cls_dot a = true -> Ascii.eqb a newline = false.
Proof.
  unfold cls_dot. intros H. apply andb_true_iff in H as [H _].
  apply negb_true_iff in H. exact H.
Qed.

Lemma digit_is_dotchar (a : ascii) : cls_d a = true -> cls_dot a = true.
Proof.
  destruct a as [[] [] [] [] [] [] [] []]; intros H; try reflexivity;
    discriminate H.
Qed.

Lemma ecma_line_no_newline (ws fn path L C : str) :
  Forall (fun a => blank a = true) ws ->
  Forall (fun a => cls_dot a = true) fn ->
  Forall (fun a => path_char a = true) path ->
  Forall (fun a => cls_d a = true) L ->
  Forall (fun a => cls_d a = true) C ->
  Forall (fun a => Ascii.eqb a newline = false) (ws ++ ecma_line fn path L C).
Proof.
  intros Hws Hfn Hp HL HC. unfold ecma_line.
  repeat (apply Forall_app; split); try (repeat constructor; fail).
  - eapply Forall_impl; [| exact Hws]. exact blank_not_nl.
  - eapply Forall_impl; [| exact Hfn]. exact dot_not_nl.
  - eapply Forall_impl; [| exact Hp].
    intros a Ha. apply dot_not_nl, path_char_dot, Ha.
  - eapply Forall_impl; [| exact HL].
    intros a Ha. apply dot_not_nl, digit_is_dotchar, Ha.
  - eapply Forall_impl; [| exact HC].
    intros a Ha. apply dot_not_nl, digit_is_dotchar, Ha.
Qed.

(** C4, as stated, fails.  The narrowing looks at the whole raw text: a
    text whose only call-stack line names a [.js] file is classified as
    typescript because [.ts] occurs on another line.  And a call-stack line
    whose function part is not a name, as in [Object.<anonymous>], matches
    the language pattern but gives no frame. *)
Lemma narrowing_reads_whole_text :
  let line := lit "at fn (a.js:1:2)" in
  let rawText := line ++ [newline] ++ lit "see notes.ts" in
  option_map matched (exec re_ecma rawText) = Some line
  /\ JsString.includes (lit ".ts") line = false
  /\ language (parse rawText None) = typescript
  /\ language (parse (lit "at Object.<anonymous> (/a/b.ts:1:2)") None)
     = typescript
  /\ frames (parse (lit "at Object.<anonymous> (/a/b.ts:1:2)") None) = [].
Proof.
  vm_compute. repeat split; reflexivity.
Qed.

(** C4 (amended): a raw text with a line [at fn (path.ts:L:C)], indented or
    not, where [fn] is a name or a chain of names joined by dots, [path] is
    not empty and holds no parenthesis, colon or line terminator, and [L]
    (below 2^53) and [C] are decimal numerals, is parsed as typescript
    with a frame for that line: its line number is the integer [L], its
    function is the last name of [fn] and its class is what stands before
    it, if anything; and whenever the language pattern matches, typescript
    is chosen exactly when [.ts] occurs somewhere in the raw text,
    javascript otherwise. *)
Theorem ecma_line_is_typescript :
  (forall (pre post ws : str) (cls : list str) (name path L C : str)
          (provided : option str),
      line_bounds pre post ->
      Forall (fun a => blank a = true) ws ->
      Forall is_name cls -> is_name name ->
      path <> [] -> Forall (fun a => path_char a = true) path ->
      L <> [] -> Forall (fun a => JsString.is_digit a = true) L ->
      (decimal_value L < 2 ^ 53)%N ->
      C <> [] -> Forall (fun a => JsString.is_digit a = true) C ->
      let fn := dotted cls name in
      let t := parse (pre ++ (ws ++ ecma_line fn path L C) ++ post) provided in
      language t = typescript
      /\ exists f,
          In f (frames t)
          /\ lineNumber f = Some (decimal_value L)
          /\ filePath f = path ++ lit ".ts"
          /\ functionName f = Some name
          /\ className f = class_of cls)
  /\ (forall (rawText : str) (provided : option str),
         test re_ecma rawText = true ->
         language (parse rawText provided)
         = if JsString.includes (lit ".ts") rawText
           then typescript else javascript).
Proof.
  split.
  - intros pre post ws cls name path L C provided
           Hline Hws Hcls Hname Hp1 Hp2 HL1 HL2 _ HC1 HC2 fn t.
    assert (Hfn : Forall (fun a => cls_dot a = true) fn)
      by (apply dotted_chars; assumption).
    assert (Hlang : detectLanguage (pre ++ (ws ++ ecma_line fn path L C) ++ post)
                    = typescript).
    { unfold detectLanguage.
      assert (Ht : test re_ecma (pre ++ (ws ++ ecma_line fn path L C) ++ post)
                   = true).
      { replace (pre ++ (ws ++ ecma_line fn path L C) ++ post)
          with ((pre ++ ws) ++ ecma_line fn path L C ++ post)
          by (rewrite <- !app_assoc; reflexivity).
        apply (test_complete (r := body re_ecma)).
        apply ecma_line_matches; assumption. }
      rewrite Ht.
      assert (Hi : JsString.includes (lit ".ts")
                     (pre ++ (ws ++ ecma_line fn path L C) ++ post) = true).
      { unfold ecma_line.
        replace (pre ++ (ws ++ lit "at " ++ fn ++ lit " (" ++ path ++ lit ".ts:"
                            ++ L ++ lit ":" ++ C ++ lit ")") ++ post)
          with ((pre ++ ws ++ lit "at " ++ fn ++ lit " (" ++ path)
                  ++ lit ".ts"
                  ++ (lit ":" ++ L ++ lit ":" ++ C ++ lit ")" ++ post))
          by (rewrite <- !app_assoc; reflexivity).
        apply includes_app. }
      rewrite Hi. reflexivity. }
    subst t. unfold parse. rewrite Hlang.
    destruct (extractErrorInfo _ provided) as [msg ty].
    cbn [language frames parseFrames].
    split; [reflexivity |].
    eexists. split.
    + unfold parseJavaScriptFrames.
      eapply collect_in;
        [apply line_in_split;
         [apply ecma_line_no_newline; assumption | exact Hline]
        | apply ecma_frame_of_call_line; assumption].
    + cbn [lineNumber filePath functionName className]. auto.
  - intros rawText provided Ht. unfold parse.
    destruct (extractErrorInfo rawText provided) as [msg ty].
    cbn [language]. unfold detectLanguage. rewrite Ht. reflexivity.
Qed.

Lemma ecma_line_is_typescript_witness :
  let rawText :=
    (lit "TypeError: x" ++ [newline])
      ++ (lit "    " ++ ecma_line (lit "UserService.getUsers")
                                  (lit "/src/UserService")
                                  (lit "45") (lit "23"))
      ++ [] in
  language (parse rawText None) = typescript
  /\ exists f,
      In f (frames (parse rawText None))
      /\ lineNumber f = Some 45%N
      /\ functionName f = Some (lit "getUsers")
      /\ className f = Some (lit "UserService").
Proof.
  intros rawText.
  destruct (proj1 ecma_line_is_typescript
                  (lit "TypeError: x" ++ [newline]) [] (lit "    ")
                  [lit "UserService"] (lit "getUsers")
                  (lit "/src/UserService")
                  (lit "45") (lit "23") None)
    as (Hl & f & Hin & Hn & _ & Hf & Hc).
  - split; [right; exists (lit "TypeError: x"); reflexivity | left; reflexivity].
  - repeat constructor.
  - constructor; [| constructor].
    split; [discriminate | repeat constructor].
  - split; [discriminate | repeat constructor].
  - discriminate.
  - repeat constructor.
  - discriminate.
  - repeat constructor.
  - vm_compute. reflexivity.
  - discriminate.
  - repeat constructor.
  - split; [exact Hl |]. exists f. repeat split; assumption.
Defined.











End ParserFacts.

Module PatternFacts.
Import Regex RegexFacts.

Section Literal.
Variable R : Type.
Implicit Types (k : str -> caps -> option R).

(** A literal text matches exactly where the input starts with it. *)
Lemma m_lits_starts (t s : str) (c : caps) k :
  m (lits t) s c k
  = if JsString.starts_with t s then k (skipn (length t) s) c else None.
Proof.
  revert s. induction t as [| a t IH]; intros s; [reflexivity |].
  destruct t as [| b t].
  - cbn [lits m char JsString.starts_with length skipn].
    destruct s as [| x s]; [reflexivity |].
    destruct (Ascii.eqb a x); [| reflexivity].
    destruct s; reflexivity.
  - change (lits (a :: b :: t)) with (Seq (char a) (lits (b :: t))).
    cbn [m char]. destruct s as [| x s]; [reflexivity |].
    cbn [JsString.starts_with]. destruct (Ascii.eqb a x); [| reflexivity].
    rewrite IH. reflexivity.
Qed.

End Literal.

Lemma search_lits_includes (t s pre : str) :
  match search_from (lits t) pre s with Some _ => true | None => false end
  = JsString.includes t s.
Proof.
  revert pre. induction s as [| a s IH]; intros pre.
  - cbn [search_from JsString.includes]. unfold match_here.
    rewrite m_lits_starts. destruct (JsString.starts_with t []); reflexivity.
  - cbn [search_from JsString.includes]. unfold match_here.
    rewrite m_lits_starts.
    destruct (JsString.starts_with t (a :: s)); [reflexivity |].
    apply IH.
Qed.

(** A pattern that is a literal text is a test for a substring. *)
Lemma test_text_includes (t : string) (s : str) :
  test (rx (text t)) s = JsString.includes (lit t) s.
Proof. unfold test, exec, rx, text. cbn [anchored body]. apply search_lits_includes. Qed.

End PatternFacts.

Module SearchFacts.
Import Regex RegexFacts.

(** The search steps over characters at which no match can begin. *)
Lemma search_skips (r : re) (P : ascii -> bool) (ws s pre : str) :
  (forall pre' a s', P a = true -> match_here r pre' (a :: s') = None) ->
  Forall (fun a => P a = true) ws ->
  search_from r pre (ws ++ s) = search_from r (rev ws ++ pre) s.
Proof.
  intros Hr H. revert pre. induction H as [| a ws Ha _ IH]; intros pre;
    [reflexivity |].
  cbn [app search_from]. rewrite (Hr pre a (ws ++ s) Ha), IH.
  cbn [rev]. rewrite <- app_assoc. reflexivity.
Qed.

(** A match at the very position where the search starts. *)
Lemma search_here (r : re) (pre s : str) (x : Match) :
  match_here r pre s = Some x -> search_from r pre s = Some x.
Proof. intros H. destruct s; cbn [search_from]; rewrite H; reflexivity. Qed.

Lemma last_opt_take R (a : re) (s : str) (c : caps)
      (k : str -> caps -> option R) (res : R) :
  m a s c k = Some res -> m (Opt a) s c k = Some res.
Proof. intros H. rewrite m_opt, H. reflexivity. Qed.

End SearchFacts.

Module ParserExtras.
Import Regex RegexFacts StackTraceParserService ParserFacts PatternFacts SearchFacts.

(** X1: [isUserCode]: a path is user code exactly when none of the texts
    node_modules, site-packages, vendor, .gem, dist-packages, internal/,
    <anonymous>, native occurs in it, wherever it stands in the path. *)
Theorem user_code_has_no_library_marker (path : str) :
  isUserCodePath path
  = negb (existsb (fun marker => JsString.includes marker path)
                  library_markers).
Proof.
  unfold isUserCodePath, libraryPatterns, library_markers.
  cbn [map existsb]. rewrite !test_text_includes. reflexivity.
Qed.


(** *** The generic frame parser *)

Lemma existsb_eqb_In (fp : str) (acc : list StackFrame) :
  existsb (fun f => JsString.eqb (filePath f) fp) acc = false ->
  ~ In fp (map filePath acc).
Proof.
  induction acc as [| f acc IH]; simpl; [tauto |].
  intros H. apply orb_false_iff in H as [H1 H2].
  intros [E | Hin]; [| exact (IH H2 Hin)].
  apply (proj2 (eqb_true_iff (filePath f) fp)) in E. congruence.
Qed.

Lemma NoDup_snoc {A} (l : list A) (x : A) :
  NoDup l -> ~ In x l -> NoDup (l ++ [x]).
Proof.
  induction 1 as [| a l Ha Hl IH]; intros Hx; simpl.
  - constructor; [tauto | constructor].
  - constructor.
    + rewrite in_app_iff. simpl. intros [H | [H | []]]; [tauto |].
      subst. apply Hx. left. reflexivity.
    + apply IH. intros H. apply Hx. right. exact H.
Qed.

Lemma generic_push_inv (acc : list StackFrame) (mt : Match) :
  generic_inv acc -> generic_inv (generic_push acc mt).
Proof.
  intros [Hnd Hall]. unfold generic_push.
  destruct (group 1 mt) as [fp |]; [| split; assumption].
  destruct (JsString.truthy fp) eqn:Ht; [| split; assumption].
  destruct (existsb _ acc) eqn:Hex; [split; assumption |].
  cbn [andb negb]. split.
  - rewrite map_app. cbn [map filePath].
    apply NoDup_snoc; [exact Hnd | apply existsb_eqb_In; exact Hex].
  - apply Forall_app. split; [exact Hall |].
    constructor; [| constructor]. cbn.
    repeat split; try reflexivity.
    destruct fp; [discriminate Ht | discriminate].
Qed.

Lemma generic_line_inv (acc : list StackFrame) (line : str) :
  generic_inv acc -> generic_inv (generic_line acc line).
Proof.
  unfold generic_line.
  generalize (exec_all (S (length line)) re_generic_frame line).
  intros ms. revert acc. induction ms as [| mt ms IH]; intros acc H;
    [exact H |].
  cbn [fold_left]. apply IH, generic_push_inv, H.
Qed.

Lemma parseGenericFrames_inv (stackTrace : str) :
  generic_inv (parseGenericFrames stackTrace).
Proof.
  unfold parseGenericFrames.
  assert (H0 : generic_inv []) by (split; constructor).
  revert H0. generalize (@nil StackFrame).
  induction (JsString.split newline stackTrace) as [| l ls IH]; intros acc H;
    [exact H |].
  cbn [fold_left]. apply IH, generic_line_inv, H.
Qed.


(** X2: languages without a frame parser of their own, and unrecognised
    text: no two frames of the parsed trace name the same file, every
    frame names one, and none carries a function, a class or a column. *)
Theorem generic_frames_are_distinct_files (rawText : str)
        (provided : option str) :
  let t := parse rawText provided in
  In (language t) [csharp; ruby; rust; unknown] ->
  NoDup (map filePath (frames t))
  /\ Forall (fun f => filePath f <> []
                      /\ functionName f = None
                      /\ className f = None
                      /\ columnNumber f = None) (frames t).
Proof.
  intros t Hl.
  assert (E : frames t = parseGenericFrames rawText).
  { subst t. unfold parse in *.
    destruct (extractErrorInfo rawText provided) as [msg ty].
    cbn [language frames] in *.
    destruct (detectLanguage rawText); cbn [parseFrames]; try reflexivity;
      exfalso; simpl in Hl; intuition discriminate. }
  rewrite E. destruct (parseGenericFrames_inv rawText) as [Hnd Hall].
  split; [exact Hnd |].
  eapply Forall_impl; [| exact Hall]. cbv beta. intros f H. tauto.
Qed.

Lemma generic_frames_are_distinct_files_witness :
  let t := parse (lit "panic at main.c:10 then main.c:12 and util.c:3") None in
  map filePath (frames t) = [lit "main.c"; lit "util.c"]
  /\ NoDup (map filePath (frames t)).
Proof.
  intros t. split; [vm_compute; reflexivity |].
  apply (generic_frames_are_distinct_files
           (lit "panic at main.c:10 then main.c:12 and util.c:3") None).
  vm_compute. tauto.
Defined.

(** *** Every frame parser *)

Lemma collect_Forall (P : StackFrame -> Prop) (f : str -> option StackFrame)
      (lines : list str) :
  (forall line fr, f line = Some fr -> P fr) -> Forall P (collect f lines).
Proof.
  intros H. induction lines as [| l ls IH]; cbn [collect]; [constructor |].
  destruct (f l) as [fr |] eqn:E; [constructor; eauto | exact IH].
Qed.

Lemma go_step_Forall (P : StackFrame -> Prop) (st : list StackFrame * option str)
      (line : str) :
  (forall f, frame_repository f = None ->
             isUserCode f = isUserCodePath (filePath f) -> P f) ->
  Forall P (fst st) -> Forall P (fst (go_step st line)).
Proof.
  intros HP H. destruct st as [acc cur]. unfold go_step.
  destruct (exec re_go_func _); [exact H |].
  destruct (exec re_go_frame line); [| exact H].
  destruct (pop _) as [last parts']. cbn [fst].
  constructor; [apply HP; reflexivity | exact H].
Qed.

Lemma frames_classified (rawText : str) (provided : option str) :
  let t := parse rawText provided in
  Forall (fun f => frame_repository f = None
                   /\ isUserCode f
                      = isUserCodePath (user_code_subject (language t) f))
         (frames t).
Proof.
  intros t. subst t. unfold parse.
  destruct (extractErrorInfo rawText provided) as [msg ty].
  cbn [language frames].
  assert (Hgen : Forall (fun f => frame_repository f = None
                                  /\ isUserCode f = isUserCodePath (filePath f))
                        (parseGenericFrames rawText)).
  { destruct (parseGenericFrames_inv rawText) as [_ Hall].
    eapply Forall_impl; [| exact Hall]. cbv beta. intros f H. tauto. }
  assert (Hjs : Forall (fun f => frame_repository f = None
                                 /\ isUserCode f = isUserCodePath (filePath f))
                       (parseJavaScriptFrames rawText)).
  { apply collect_Forall. intros line fr E. unfold ecma_frame_of_line in E.
    destruct (exec re_ecma_frame line); [| discriminate].
    injection E as <-. split; reflexivity. }
  destruct (detectLanguage rawText); cbn [parseFrames user_code_subject];
    try exact Hgen; try exact Hjs.
  - apply collect_Forall. intros line fr E. unfold python_frame_of_line in E.
    destruct (exec re_python_frame line); [| discriminate].
    injection E as <-. split; reflexivity.
  - unfold parseGoFrames. apply Forall_rev.
    assert (H0 : Forall (fun f => frame_repository f = None
                                  /\ isUserCode f = isUserCodePath (filePath f))
                        (fst (@nil StackFrame, @None str))) by constructor.
    revert H0. generalize (@nil StackFrame, @None str).
    induction (JsString.split newline rawText) as [| l ls IH]; intros st H;
      [exact H |].
    cbn [fold_left]. apply IH. apply go_step_Forall; [auto | exact H].
  - apply collect_Forall. intros line fr E. unfold java_frame_of_line in E.
    destruct (exec re_java_frame line); [| discriminate].
    injection E as <-. split; reflexivity.
Qed.

(** X3: no frame built by the parser carries a repository, and the
    user-code flag of a frame is [isUserCode] of its file path, or of its
    class name in a Java trace. *)
Theorem parsed_frames_are_classified (rawText : str) (provided : option str) :
  let t := parse rawText provided in
  Forall (fun f => frame_repository f = None
                   /\ isUserCode f
                      = isUserCodePath (user_code_subject (language t) f))
         (frames t).
Proof. exact (frames_classified rawText provided). Qed.


(** *** Python traceback lines *)

Lemma py_path_char_nq (a : ascii) :
  py_path_char a = true -> cls_not (Ascii.eqb dquote) a = true.
Proof. unfold py_path_char. intros H. apply andb_true_iff in H. tauto. Qed.

Lemma py_path_char_dot (a : ascii) : py_path_char a = true -> cls_dot a = true.
Proof. unfold py_path_char. intros H. apply andb_true_iff in H. tauto. Qed.

Lemma python_frame_groups R (path L fn : str) (k : str -> caps -> option R)
      (res : R) :
  path <> [] -> Forall (fun a => py_path_char a = true) path ->
  L <> [] -> Forall (fun a => cls_d a = true) L ->
  is_name fn ->
  k [] [(3, fn); (2, L); (1, path ++ lit ".py")] = Some res ->
  m (body re_python_frame) (python_line path L fn) [] k = Some res.
Proof.
  intros Hp1 Hp2 HL1 HL2 [Hf1 Hf2] Hk.
  unfold re_python_frame, rx, body, python_line. cbn [seqs]. unfold text.
  apply step_lits. cbn [app]. rewrite m_seq_char.
  rewrite m_seq, m_group, m_seq.
  apply plus_cls_greedy; auto.
  - eapply Forall_impl; [| exact Hp2]. exact py_path_char_nq.
  - repeat constructor.
  - reflexivity.
  - intros v1 v2 E Hv1.
    destruct v1 as [| x1 [| x2 [| x3 [| x4 v1]]]]; try congruence;
      cbn in E; injection E; intros; subst; try reflexivity.
    all: try discriminate.
  - rewrite m_lits.
    replace (path ++ lit ".py" ++ dquote :: lit ", line " ++ L ++ lit ", in " ++ fn)
      with ((path ++ lit ".py") ++ dquote :: lit ", line " ++ L ++ lit ", in " ++ fn)
      by (rewrite <- app_assoc; reflexivity).
    rewrite firstn_consumed. rewrite m_seq_char.
    apply step_lits.
    apply step_group_plus; [assumption | assumption | reflexivity |].
    apply last_opt_take. apply step_lits.
    rewrite <- (app_nil_r fn).
    apply group_plus_all; [assumption | assumption | exact I | exact Hk].
Qed.

Lemma blank_not_F (a : ascii) : blank a = true -> Ascii.eqb "F" a = false.
Proof.
  intros H. apply blank_space in H.
  destruct a as [[] [] [] [] [] [] [] []]; try reflexivity; discriminate H.
Qed.

(** The frame of an indented traceback line. *)
Lemma python_frame_of_traceback_line (ws path L fn : str) :
  Forall (fun a => blank a = true) ws ->
  path <> [] -> Forall (fun a => py_path_char a = true) path ->
  L <> [] -> Forall (fun a => cls_d a = true) L ->
  is_name fn ->
  python_frame_of_line (ws ++ python_line path L fn)
  = Some {| filePath := path ++ lit ".py";
            lineNumber := Some (decimal_value L);
            columnNumber := None;
            functionName := Some fn;
            className := None;
            isUserCode := isUserCodePath (path ++ lit ".py");
            frame_repository := None |}.
Proof.
  intros Hws Hp1 Hp2 HL1 HL2 Hfn.
  unfold python_frame_of_line, exec.
  change (anchored re_python_frame) with false. cbv iota.
  rewrite (search_skips (body re_python_frame) blank)
    by (try exact Hws; intros pre' a s' Ha; unfold match_here,
          re_python_frame, rx, body; cbn [seqs]; unfold text;
          rewrite m_seq; change (lit "File ") with ("F"%char :: lit "ile ");
          apply lits_mismatch; exact (blank_not_F a Ha)).
  assert (E : exists x, match_here (body re_python_frame) (rev ws ++ [])
                                   (python_line path L fn) = Some x
                        /\ groups x = [(3, fn); (2, L); (1, path ++ lit ".py")]).
  { eexists. split.
    - unfold match_here. apply python_frame_groups; auto.
    - reflexivity. }
  destruct E as (x & Ex & Hg).
  rewrite (search_here _ _ _ Ex). unfold group. rewrite Hg.
  cbn [cap Nat.eqb or_empty].
  rewrite parse_num_digits by assumption. reflexivity.
Qed.

Lemma python_line_matches (path L fn rest : str) :
  Forall (fun a => py_path_char a = true) path ->
  L <> [] -> Forall (fun a => cls_d a = true) L ->
  Matches (body re_python)
          (lit "File " ++ [dquote] ++ path ++ lit ".py" ++ [dquote]
               ++ lit ", line " ++ L)
          rest.
Proof.
  intros Hp HL1 HL2.
  unfold re_python, rx, body. cbn [seqs]. unfold text.
  constructor; [apply Matches_lits |].
  constructor; [apply (Matches_lits [dquote]) |].
  constructor.
  { apply Matches_star_cls.
    eapply Forall_impl; [| exact Hp]. exact py_path_char_dot. }
  constructor; [apply Matches_lits |].
  constructor; [apply (Matches_lits [dquote]) |].
  constructor; [apply Matches_lits |].
  apply Matches_plus_cls; assumption.
Qed.

Lemma python_line_no_newline (ws path L fn : str) :
  Forall (fun a => blank a = true) ws ->
  Forall (fun a => py_path_char a = true) path ->
  Forall (fun a => cls_d a = true) L ->
  is_name fn ->
  Forall (fun a => Ascii.eqb a newline = false) (ws ++ python_line path L fn).
Proof.
  intros Hws Hp HL [_ Hfn]. unfold python_line.
  repeat (apply Forall_app; split); try (repeat constructor; fail).
  - eapply Forall_impl; [| exact Hws]. exact blank_not_nl.
  - eapply Forall_impl; [| exact Hp].
    intros a Ha. apply dot_not_nl, py_path_char_dot, Ha.
  - eapply Forall_impl; [| exact HL].
    intros a Ha. apply dot_not_nl, digit_is_dotchar, Ha.
  - eapply Forall_impl; [| exact Hfn].
    intros a Ha. apply dot_not_nl, word_is_dotchar, Ha.
Qed.

(** X4: A raw text that the ECMAScript pattern does not match and that holds
    a line [File Qpath.pyQ, line L, in fn], indented or not, is parsed as
    python, with a frame for that line: file [path.py], line the integer
    [L], function [fn], no class and no column. *)
Theorem python_line_is_python :
  forall (pre post ws path L fn : str) (provided : option str),
    line_bounds pre post ->
    Forall (fun a => blank a = true) ws ->
    path <> [] -> Forall (fun a => py_path_char a = true) path ->
    L <> [] -> Forall (fun a => JsString.is_digit a = true) L ->
    (decimal_value L < 2 ^ 53)%N ->
    is_name fn ->
    let rawText := pre ++ (ws ++ python_line path L fn) ++ post in
    test re_ecma rawText = false ->
    let t := parse rawText provided in
    language t = python
    /\ exists f,
        In f (frames t)
        /\ filePath f = path ++ lit ".py"
        /\ lineNumber f = Some (decimal_value L)
        /\ functionName f = Some fn
        /\ className f = None
        /\ columnNumber f = None.
Proof.
  intros pre post ws path L fn provided Hline Hws Hp1 Hp2 HL1 HL2 _ Hfn
         rawText Hecma t.
  assert (Hlang : detectLanguage rawText = python).
  { unfold detectLanguage. rewrite Hecma.
    assert (Ht : test re_python rawText = true).
    { subst rawText. unfold python_line.
      replace (pre ++ (ws ++ lit "File " ++ [dquote] ++ path ++ lit ".py"
                          ++ [dquote] ++ lit ", line " ++ L ++ lit ", in " ++ fn)
                   ++ post)
        with ((pre ++ ws)
                ++ (lit "File " ++ [dquote] ++ path ++ lit ".py" ++ [dquote]
                        ++ lit ", line " ++ L)
                ++ (lit ", in " ++ fn ++ post))
        by (rewrite <- !app_assoc; reflexivity).
      apply (test_complete (r := body re_python)).
      apply python_line_matches; assumption. }
    rewrite Ht. reflexivity. }
  subst t. unfold parse. rewrite Hlang.
  destruct (extractErrorInfo _ provided) as [msg ty].
  cbn [language frames parseFrames].
  split; [reflexivity |].
  eexists. split.
  - unfold parsePythonFrames.
    eapply collect_in;
      [apply line_in_split;
       [apply python_line_no_newline; assumption | exact Hline]
      | apply python_frame_of_traceback_line; assumption].
  - cbn [lineNumber filePath functionName className columnNumber]. auto.
Qed.


Lemma python_line_is_python_witness :
  let rawText :=
    (lit "Traceback (most recent call last):" ++ [newline])
      ++ (lit "  " ++ python_line (lit "/app/main") (lit "10") (lit "handler"))
      ++ (newline :: lit "ValueError: bad input") in
  language (parse rawText None) = python
  /\ exists f,
      In f (frames (parse rawText None))
      /\ filePath f = lit "/app/main.py"
      /\ lineNumber f = Some 10%N
      /\ functionName f = Some (lit "handler").
Proof.
  intros rawText.
  destruct (@python_line_is_python
              (lit "Traceback (most recent call last):" ++ [newline])
              (newline :: lit "ValueError: bad input") (lit "  ")
              (lit "/app/main") (lit "10") (lit "handler") None)
    as (Hl & f & Hin & Hp & Hn & Hf & _).
  - split; [right; exists (lit "Traceback (most recent call last):");
            reflexivity
           | right; exists (lit "ValueError: bad input"); reflexivity].
  - repeat constructor.
  - discriminate.
  - repeat constructor.
  - discriminate.
  - repeat constructor.
  - vm_compute. reflexivity.
  - split; [discriminate | repeat constructor].
  - vm_compute. reflexivity.
  - split; [exact Hl |]. exists f. repeat split; assumption.
Defined.

(** *** Java stack lines *)

Lemma java_class_not_space (a : ascii) :
  java_class_char a = true -> cls_s a = false.
Proof.
  destruct a as [[] [] [] [] [] [] [] []]; intros H; try reflexivity;
    discriminate H.
Qed.

Lemma java_method_is_class (a : ascii) :
  java_method_char a = true -> java_class_char a = true.
Proof.
  destruct a as [[] [] [] [] [] [] [] []]; intros H; try reflexivity;
    discriminate H.
Qed.

Lemma java_method_not_dot (a : ascii) :
  java_method_char a = true -> Ascii.eqb "." a = false.
Proof.
  destruct a as [[] [] [] [] [] [] [] []]; intros H; try reflexivity;
    discriminate H.
Qed.

Lemma java_method_in_group (a : ascii) :
  java_method_char a = true -> cls_or cls_w (one_of "$<>") a = true.
Proof.
  destruct a as [[] [] [] [] [] [] [] []]; intros H; try reflexivity;
    discriminate H.
Qed.

Lemma java_class_dotchar (a : ascii) :
  java_class_char a = true -> cls_dot a = true.
Proof.
  destruct a as [[] [] [] [] [] [] [] []]; intros H; try reflexivity;
    discriminate H.
Qed.

Lemma java_file_dotchar (a : ascii) :
  java_file_char a = true -> cls_dot a = true.
Proof.
  destruct a as [[] [] [] [] [] [] [] []]; intros H; try reflexivity;
    discriminate H.
Qed.

Lemma java_frame_groups R (cls meth file L : str)
      (k : str -> caps -> option R) (res : R) :
  cls <> [] -> Forall (fun a => java_class_char a = true) cls ->
  meth <> [] -> Forall (fun a => java_method_char a = true) meth ->
  file <> [] -> Forall (fun a => java_file_char a = true) file ->
  L <> [] -> Forall (fun a => cls_d a = true) L ->
  k [] [(4, L); (3, file); (2, meth); (1, cls)] = Some res ->
  m (body re_java_frame) (java_line cls meth file L) [] k = Some res.
Proof.
  intros Hc1 Hc2 Hm1 Hm2 Hf1 Hf2 HL1 HL2 Hk.
  unfold re_java_frame, rx, body, java_line. cbn [seqs]. unfold text.
  change (lit "at " ++ cls ++ lit "." ++ meth ++ lit "(" ++ file ++ lit ":"
              ++ L ++ lit ")")
    with (lit "at" ++ lit " " ++ cls ++ lit "." ++ meth ++ lit "(" ++ file
              ++ lit ":" ++ L ++ lit ")").
  apply step_lits.
  apply step_plus; [discriminate | repeat constructor | |].
  { destruct cls as [| a cls]; [congruence |]. inversion Hc2; subst.
    cbn [app stops]. apply java_class_not_space. assumption. }
  rewrite m_seq, m_group.
  rewrite (app_assoc (lit ".") meth).
  apply plus_cls_greedy; auto.
  - apply Forall_app. split; [repeat constructor |].
    eapply Forall_impl; [| exact Hm2]. exact java_method_is_class.
  - reflexivity.
  - intros v1 v2 E Hv1. cbv beta. rewrite m_seq.
    destruct v1 as [| x v1]; [congruence |].
    cbn [app] in E. injection E as <- E.
    assert (Hstop : stops (Ascii.eqb ".")
                          (v2 ++ lit "(" ++ file ++ lit ":" ++ L ++ lit ")")).
    { destruct v2 as [| y v2]; [reflexivity |].
      cbn [app stops]. apply java_method_not_dot.
      rewrite E in Hm2. apply Forall_app_r in Hm2. inversion Hm2; assumption. }
    destruct (v2 ++ _) as [| y s1]; [reflexivity |].
    cbn [m char]. cbn [stops] in Hstop. rewrite Hstop. reflexivity.
  - cbv beta.
    rewrite <- (app_assoc (lit ".") meth). cbn [app].
    change ("."%char :: meth ++ lit "(" ++ file ++ lit ":" ++ L ++ lit ")")
      with (lit "." ++ meth ++ lit "(" ++ file ++ lit ":" ++ L ++ lit ")").
    rewrite firstn_consumed.
    apply step_lits with (t := lit ".").
    apply step_group_plus; [assumption | | reflexivity |].
    { eapply Forall_impl; [| exact Hm2]. exact java_method_in_group. }
    apply step_lits with (t := lit "(").
    apply step_group_plus; [assumption | assumption | reflexivity |].
    apply step_lits with (t := lit ":").
    apply step_group_plus; [assumption | assumption | reflexivity |].
    exact Hk.
Qed.


(** The frame of an indented Java stack line. *)
Lemma java_frame_of_stack_line (ws cls meth file L : str) :
  Forall (fun a => blank a = true) ws ->
  cls <> [] -> Forall (fun a => java_class_char a = true) cls ->
  meth <> [] -> Forall (fun a => java_method_char a = true) meth ->
  file <> [] -> Forall (fun a => java_file_char a = true) file ->
  L <> [] -> Forall (fun a => cls_d a = true) L ->
  java_frame_of_line (ws ++ java_line cls meth file L)
  = Some {| filePath := file;
            lineNumber := Some (decimal_value L);
            columnNumber := None;
            functionName := Some meth;
            className := Some cls;
            isUserCode := isUserCodePath cls;
            frame_repository := None |}.
Proof.
  intros Hws Hc1 Hc2 Hm1 Hm2 Hf1 Hf2 HL1 HL2.
  unfold java_frame_of_line, exec.
  change (anchored re_java_frame) with false. cbv iota.
  rewrite (search_skips (body re_java_frame) blank)
    by (try exact Hws; intros pre' a s' Ha; unfold match_here,
          re_java_frame, rx, body; cbn [seqs]; unfold text;
          rewrite m_seq; change (lit "at") with ("a"%char :: lit "t");
          apply lits_mismatch; exact (space_not_a a (blank_space a Ha))).
  assert (E : exists x, match_here (body re_java_frame) (rev ws ++ [])
                                   (java_line cls meth file L) = Some x
                        /\ groups x = [(4, L); (3, file); (2, meth); (1, cls)]).
  { eexists. split.
    - unfold match_here. apply java_frame_groups; auto.
    - reflexivity. }
  destruct E as (x & Ex & Hg).
  rewrite (search_here _ _ _ Ex). unfold group. rewrite Hg.
  cbn [cap Nat.eqb or_empty].
  rewrite parse_num_digits by assumption. reflexivity.
Qed.

Lemma java_line_no_newline (ws cls meth file L : str) :
  Forall (fun a => blank a = true) ws ->
  Forall (fun a => java_class_char a = true) cls ->
  Forall (fun a => java_method_char a = true) meth ->
  Forall (fun a => java_file_char a = true) file ->
  Forall (fun a => cls_d a = true) L ->
  Forall (fun a => Ascii.eqb a newline = false) (ws ++ java_line cls meth file L).
Proof.
  intros Hws Hc Hm Hf HL. unfold java_line.
  repeat (apply Forall_app; split); try (repeat constructor; fail).
  - eapply Forall_impl; [| exact Hws]. exact blank_not_nl.
  - eapply Forall_impl; [| exact Hc].
    intros a Ha. apply dot_not_nl, java_class_dotchar, Ha.
  - eapply Forall_impl; [| exact Hm].
    intros a Ha. apply dot_not_nl, java_class_dotchar, java_method_is_class, Ha.
  - eapply Forall_impl; [| exact Hf].
    intros a Ha. apply dot_not_nl, java_file_dotchar, Ha.
  - eapply Forall_impl; [| exact HL].
    intros a Ha. apply dot_not_nl, digit_is_dotchar, Ha.
Qed.

(** X5: in a trace parsed as java, a line [at cls.meth(file:L)], indented or
    not, gives a frame whose class is [cls], dots included, whose
    function is [meth], whose file is the bare file name and whose line is
    the integer [L]; whether the frame is user code is decided on the
    class name, not on the file. *)
Theorem java_line_frame :
  forall (pre post ws cls meth file L : str) (provided : option str),
    line_bounds pre post ->
    Forall (fun a => blank a = true) ws ->
    cls <> [] -> Forall (fun a => java_class_char a = true) cls ->
    meth <> [] -> Forall (fun a => java_method_char a = true) meth ->
    file <> [] -> Forall (fun a => java_file_char a = true) file ->
    L <> [] -> Forall (fun a => JsString.is_digit a = true) L ->
    (decimal_value L < 2 ^ 53)%N ->
    let t := parse (pre ++ (ws ++ java_line cls meth file L) ++ post) provided in
    language t = java ->
    exists f,
      In f (frames t)
      /\ className f = Some cls
      /\ functionName f = Some meth
      /\ filePath f = file
      /\ lineNumber f = Some (decimal_value L)
      /\ isUserCode f = isUserCodePath cls.
Proof.
  intros pre post ws cls meth file L provided Hline Hws Hc1 Hc2 Hm1 Hm2
         Hf1 Hf2 HL1 HL2 _ t Hlang.
  subst t. unfold parse in *.
  destruct (extractErrorInfo _ provided) as [msg ty].
  cbn [language frames] in *. rewrite Hlang. cbn [parseFrames].
  eexists. split.
  - unfold parseJavaFrames.
    eapply collect_in;
      [apply line_in_split;
       [apply java_line_no_newline; assumption | exact Hline]
      | apply java_frame_of_stack_line; assumption].
  - cbn [lineNumber filePath functionName className isUserCode]. auto.
Qed.

Lemma java_line_frame_witness :
  let rawText :=
    (lit "java.lang.IllegalStateException: closed" ++ [newline])
      ++ (lit "    " ++ java_line (lit "com.vendor.pool.Pool") (lit "take")
                                  (lit "Pool.java") (lit "88"))
      ++ [] in
  language (parse rawText None) = java
  /\ exists f,
      In f (frames (parse rawText None))
      /\ className f = Some (lit "com.vendor.pool.Pool")
      /\ filePath f = lit "Pool.java"
      /\ lineNumber f = Some 88%N
      /\ isUserCode f = false.
Proof.
  intros rawText.
  assert (Hl : language (parse rawText None) = java)
    by (vm_compute; reflexivity).
  split; [exact Hl |].
  destruct (@java_line_frame
              (lit "java.lang.IllegalStateException: closed" ++ [newline]) []
              (lit "    ") (lit "com.vendor.pool.Pool") (lit "take")
              (lit "Pool.java") (lit "88") None)
    as (f & Hin & Hc & Hm & Hp & Hn & Hu).
  - split; [right; exists (lit "java.lang.IllegalStateException: closed");
            reflexivity
           | left; reflexivity].
  - repeat constructor.
  - discriminate.
  - repeat constructor.
  - discriminate.
  - repeat constructor.
  - discriminate.
  - repeat constructor.
  - discriminate.
  - repeat constructor.
  - vm_compute. reflexivity.
  - exact Hl.
  - exists f. repeat split; assumption.
Defined.

End ParserExtras.

Module ResolverExtras.
Import Regex RegexFacts PatternFacts SearchFacts.

(** *** File names as search terms *)

Lemma span_class (P : ascii -> bool) (l : str) :
  exists v rest, l = v ++ rest /\ Forall (fun a => P a = true) v /\ stops P rest.
Proof.
  induction l as [| a l (v & rest & -> & Hv & Hs)].
  - exists [], []. repeat split. constructor.
  - destruct (P a) eqn:Ha.
    + exists (a :: v), rest. repeat split; [constructor; assumption | exact Hs].
    + exists [], (a :: v ++ rest). repeat split; [constructor | exact Ha].
Qed.

(** The extension pattern matches at the last dot and nowhere before. *)
Lemma search_extension (stem ext pre : str) :
  ext <> [] -> Forall (fun a => none_of "." a = true) ext ->
  search_from (body re_extension) pre (stem ++ lit "." ++ ext)
  = Some {| before := rev pre ++ stem; matched := lit "." ++ ext;
            after := []; groups := [] |}.
Proof.
  intros He1 He2. revert pre. induction stem as [| a stem IH]; intros pre.
  - apply search_here. unfold match_here, re_extension, rx, body.
    cbn [seqs app]. change (lit "." ++ ext) with ("."%char :: ext).
    rewrite m_seq_char. rewrite m_seq.
    assert (G : forall (K : str -> caps -> option Match) res,
               K [] [] = Some res ->
               m (Plus (Chr (none_of "."))) ext []
                 (fun s1 c1 => m Eos s1 c1 K) = Some res).
    { intros K res HK. rewrite <- (app_nil_r ext).
      apply plus_cls_all; [assumption | assumption | exact I | exact HK]. }
    apply G. rewrite app_nil_r. f_equal. f_equal.
    cbn [length]. rewrite Nat.sub_0_r.
    change (S (length ext)) with (length ("."%char :: ext)).
    apply firstn_all.
  - cbn [app search_from].
    assert (E : match_here (body re_extension) pre
                           (a :: stem ++ lit "." ++ ext) = None).
    { unfold match_here, re_extension, rx, body. cbn [seqs].
      destruct (Ascii.eqb "." a) eqn:Ea;
        [| rewrite m_seq; cbn [m char]; rewrite Ea; reflexivity].
      apply Ascii.eqb_eq in Ea. subst a. rewrite m_seq_char, m_seq.
      destruct (span_class (none_of ".") stem) as (v & rest & -> & Hv & Hs).
      rewrite <- app_assoc.
      apply plus_cls_none.
      - destruct rest as [| b rest]; [reflexivity | exact Hs].
      - intros v1 v2 _ _.
        destruct (v2 ++ rest ++ lit "." ++ ext) eqn:El; [| reflexivity].
        apply app_eq_nil in El as [_ El]. apply app_eq_nil in El as [_ El].
        discriminate El. }
    rewrite E, IH. cbn [rev]. rewrite <- app_assoc. reflexivity.
Qed.

Lemma remove_extension (stem ext : str) :
  ext <> [] -> Forall (fun a => none_of "." a = true) ext ->
  remove_first re_extension (stem ++ lit "." ++ ext) = stem.
Proof.
  intros He1 He2. unfold remove_first, exec.
  change (anchored re_extension) with false. cbv iota.
  rewrite search_extension by assumption.
  cbn [before after rev app]. apply app_nil_r.
Qed.

Lemma not_dot_neq (a : ascii) :
  none_of "." a = true -> Ascii.eqb "." a = false.
Proof.
  destruct a as [[] [] [] [] [] [] [] []]; intros H; try reflexivity;
    discriminate H.
Qed.

Lemma not_dot_slash_no_slash (a : ascii) :
  none_of "./" a = true -> Ascii.eqb a "/" = false.
Proof.
  destruct a as [[] [] [] [] [] [] [] []]; intros H; try reflexivity;
    discriminate H.
Qed.

Lemma not_dot_slash_no_dot (a : ascii) :
  none_of "./" a = true -> none_of "." a = true.
Proof.
  destruct a as [[] [] [] [] [] [] [] []]; intros H; try reflexivity;
    discriminate H.
Qed.

Lemma keep_without_dot (name : str) :
  Forall (fun a => none_of "." a = true) name ->
  remove_first re_extension name = name.
Proof.
  intros H. unfold remove_first, exec.
  change (anchored re_extension) with false. cbv iota.
  rewrite (search_from_needs (Ascii.eqb ".") (body re_extension));
    [reflexivity | vm_compute; reflexivity |].
  eapply Forall_impl; [| exact H]. exact not_dot_neq.
Qed.

Lemma last_segment (p file : str) :
  ends_dir p ->
  Forall (fun a => Ascii.eqb a "/" = false) file ->
  exists before, rev (JsString.split "/" (p ++ file)) = file :: before.
Proof.
  intros [-> | (d & ->)] Hf.
  - cbn [app]. rewrite (ParserFacts.split_one_line "/" Hf).
    exists []. reflexivity.
  - rewrite <- app_assoc. change (lit "/" ++ file) with ("/"%char :: file).
    rewrite ParserFacts.split_sep.
    rewrite (ParserFacts.split_one_line "/" Hf).
    rewrite rev_app_distr.
    cbn [rev app]. eexists. reflexivity.
Qed.

Lemma no_slash_app (stem ext : str) :
  Forall (fun a => Ascii.eqb a "/" = false) stem ->
  Forall (fun a => none_of "./" a = true) ext ->
  Forall (fun a => Ascii.eqb a "/" = false) (stem ++ lit "." ++ ext).
Proof.
  intros Hs He. apply Forall_app. split; [exact Hs |].
  constructor; [reflexivity |].
  eapply Forall_impl; [| exact He]. exact not_dot_slash_no_slash.
Qed.

Lemma no_dot_of (ext : str) :
  Forall (fun a => none_of "./" a = true) ext ->
  Forall (fun a => none_of "." a = true) ext.
Proof.
  apply Forall_impl. exact not_dot_slash_no_dot.
Qed.

Lemma no_slash_of (ext : str) :
  Forall (fun a => none_of "./" a = true) ext ->
  Forall (fun a => Ascii.eqb a "/" = false) ext.
Proof.
  apply Forall_impl. exact not_dot_slash_no_slash.
Qed.

(** X6: the search term taken from a file path is the last segment of the
    path without its last extension: [dir/stem.ext] gives [stem], dots of
    [stem] included, and a last segment without a dot is kept whole. *)
Theorem base_name_strips_directory_and_extension :
  (forall p stem ext : str,
      ends_dir p ->
      Forall (fun a => Ascii.eqb a "/" = false) stem ->
      ext <> [] -> Forall (fun a => none_of "./" a = true) ext ->
      base_name (p ++ stem ++ lit "." ++ ext) = Some stem)
  /\ (forall p name : str,
         ends_dir p ->
         Forall (fun a => none_of "./" a = true) name ->
         base_name (p ++ name) = Some name).
Proof.
  split.
  - intros p stem ext Hp Hs He1 He2. unfold base_name.
    destruct (last_segment Hp (no_slash_app Hs He2)) as (b & ->).
    rewrite remove_extension; [reflexivity | exact He1 | apply no_dot_of, He2].
  - intros p name Hp Hn. unfold base_name.
    destruct (last_segment Hp (no_slash_of Hn)) as (b & ->).
    rewrite keep_without_dot; [reflexivity | apply no_dot_of, Hn].
Qed.

Lemma base_name_strips_directory_and_extension_witness :
  base_name (lit "/src/services/" ++ lit "UserService.test" ++ lit "." ++ lit "ts")
  = Some (lit "UserService.test").
Proof.
  apply (proj1 base_name_strips_directory_and_extension).
  - right. exists (lit "/src/services"). reflexivity.
  - repeat constructor.
  - discriminate.
  - repeat constructor.
Defined.


(** *** The search terms *)

Lemma existsb_eqb_false (t : str) (l : list str) :
  existsb (JsString.eqb t) l = false -> ~ In t l.
Proof.
  induction l as [| x l IH]; simpl; [tauto |].
  intros H. apply orb_false_iff in H as [H1 H2].
  intros [E | Hin]; [| exact (IH H2 Hin)].
  symmetry in E. apply (proj2 (eqb_true_iff t x)) in E. congruence.
Qed.

Lemma add_file_name_spec (terms : list str) (frame : StackFrame) :
  add_file_name terms frame = terms
  \/ exists t, add_file_name terms frame = terms ++ [t]
               /\ t <> [] /\ ~ In t terms
               /\ base_name (filePath frame) = Some t.
Proof.
  unfold add_file_name.
  destruct (base_name (filePath frame)) as [t |]; [| left; reflexivity].
  destruct (JsString.truthy t) eqn:Ht; [| left; reflexivity].
  destruct (existsb (JsString.eqb t) terms) eqn:Hex; [left; reflexivity |].
  right. exists t. cbn [andb negb]. repeat split.
  - destruct t; [discriminate Ht | discriminate].
  - apply existsb_eqb_false. exact Hex.
Qed.

Lemma fold_add_file_name (fs : list StackFrame) :
  forall terms : list str,
    NoDup terms -> Forall (fun t => t <> []) terms ->
    let out := fold_left add_file_name fs terms in
    NoDup out
    /\ Forall (fun t => t <> []) out
    /\ length out <= length terms + length fs
    /\ (exists rest, out = terms ++ rest)
    /\ (forall t, In t out ->
                  In t terms
                  \/ exists f, In f fs /\ base_name (filePath f) = Some t).
Proof.
  induction fs as [| f fs IH]; intros terms Hnd Hne; cbn [fold_left].
  - repeat split; auto; [cbn; lia | exists []; symmetry; apply app_nil_r].
  - destruct (add_file_name_spec terms f) as [-> | (t & -> & Ht & Hnin & Hb)].
    + destruct (IH terms Hnd Hne) as (H1 & H2 & H3 & H4 & H5).
      repeat split; auto; [cbn [length]; lia |].
      intros t Ht. destruct (H5 t Ht) as [? | (g & Hg & Hb)]; [left; auto |].
      right. exists g. split; [right; exact Hg | exact Hb].
    + destruct (IH (terms ++ [t])) as (H1 & H2 & H3 & (rest & H4) & H5).
      * apply ParserExtras.NoDup_snoc; assumption.
      * apply Forall_app. split; [exact Hne | repeat constructor; exact Ht].
      * repeat split; auto.
        -- rewrite length_app in H3. cbn [length] in *. lia.
        -- exists (t :: rest). rewrite H4, <- app_assoc. reflexivity.
        -- intros u Hu. destruct (H5 u Hu) as [Hin | (g & Hg & Hbg)].
           ++ apply in_app_iff in Hin as [Hin | [<- | []]]; [left; exact Hin |].
              right. exists f. split; [left; reflexivity | exact Hb].
           ++ right. exists g. split; [right; exact Hg | exact Hbg].
Qed.

(** X7: the terms of the repository search: at most four, none empty, no
    two equal; the source of the error comes first when it is not empty;
    every other term is the base name of the file of one of the first
    three user-code frames. *)
Theorem search_terms_are_few_and_distinct (error : AuditLogError)
        (st : StackTrace) :
  let terms := searchTerms_of error st in
  NoDup terms
  /\ Forall (fun t => t <> []) terms
  /\ length terms <= 4
  /\ (source error <> [] -> exists rest, terms = source error :: rest)
  /\ (forall t, In t terms ->
                t = source error
                \/ exists f, In f (firstn 3 (filter isUserCode (frames st)))
                             /\ base_name (filePath f) = Some t).
Proof.
  intros terms. subst terms. unfold searchTerms_of.
  set (fs := firstn 3 (filter isUserCode (frames st))).
  assert (Hlen : length fs <= 3) by apply firstn_le_length.
  clearbody fs.
  destruct (source error) as [| a src] eqn:Hsrc; cbn [JsString.truthy].
  - destruct (fold_add_file_name fs (terms := [])) as (H1 & H2 & H3 & H4 & H5);
      [constructor | constructor |].
    cbn [length] in H3.
    split; [exact H1 |]. split; [exact H2 |]. split; [lia |].
    split; [congruence |].
    intros t Ht. destruct (H5 t Ht) as [[] | H]. right. exact H.
  - destruct (fold_add_file_name fs (terms := [a :: src]))
      as (H1 & H2 & H3 & (rest & H4) & H5).
    + constructor; [simpl; tauto | constructor].
    + repeat constructor. discriminate.
    + cbn [length] in H3.
      split; [exact H1 |]. split; [exact H2 |].
      split; [eapply Nat.le_trans; [exact H3 | lia] |].
      split; [intros _; exists rest; exact H4 |].
      intros t Ht. destruct (H5 t Ht) as [[<- | []] | H]; [left | right]; auto.
Qed.


Section Finder.
Variable W : Type.
Variable githubAdapter : IGitHubAdapter W.

(** X8: the search step never throws and never looks a repository up.  It
    makes no call when there is no search term, and otherwise one search
    whose query is the terms joined by blanks.  It answers the first hit
    of the search, with main as default branch whatever the repository
    has, and not-found when the search returns nothing or fails. *)
Theorem search_takes_first_hit (error : AuditLogError) (st : StackTrace)
        (w : World W) :
  let terms := searchTerms_of error st in
  let query := JsString.join (lit " ") terms in
  exists x w' evs,
    searchForRepository githubAdapter error st w = (Ok x, w')
    /\ trace w' = trace w ++ evs
    /\ lookups evs = []
    /\ searches evs = match terms with [] => [] | _ :: _ => [query] end
    /\ match terms with
       | [] => x = None /\ w' = w
       | _ :: _ =>
           match fst (searchRepositories githubAdapter query (ext w)) with
           | Ok (hit :: _) =>
               x = Some {| owner := sh_owner hit;
                           name := sh_name hit;
                           fullName := sh_fullName hit;
                           url := sh_url hit;
                           defaultBranch := lit "main" |}
           | Ok [] | Throw _ => x = None
           end
       end.
Proof.
  intros terms query. unfold searchForRepository. fold terms.
  destruct terms as [| t ts] eqn:Et.
  - exists None, w, []. unfold ret. rewrite app_nil_r. repeat split.
  - fold query. unfold try_catch, bind, call, ret.
    destruct (searchRepositories githubAdapter query (ext w))
      as [[[| hit hits] | e] x1]; cbn [fst];
      do 3 eexists; (split; [reflexivity |]); cbn [trace];
      repeat split; reflexivity.
Qed.

(** X9: A trace as the parser builds it, none of whose user-code frames holds
    github.com/ in its path: the stack-trace step answers not-found and
    makes no call. *)
Theorem stack_scan_needs_a_github_path (rawText : str)
        (provided : option str) (w : World W) :
  let st := StackTraceParserService.parse rawText provided in
  Forall (fun f => isUserCode f = true ->
                   JsString.includes (lit "github.com/") (filePath f) = false)
         (frames st) ->
  findRepositoryFromStackTrace githubAdapter st w = (Ok None, w).
Proof.
  intros st Hpaths.
  pose proof (ParserExtras.frames_classified rawText provided) as Hrepo.
  cbv zeta in Hrepo. fold st in Hrepo.
  unfold findRepositoryFromStackTrace.
  induction (frames st) as [| f fs IH]; [reflexivity |].
  inversion Hpaths as [| ? ? Hf Hfs]; subst.
  inversion Hrepo as [| ? ? [Hr _] Hrs]; subst.
  cbn [filter]. destruct (isUserCode f) eqn:Hu; [| apply IH; assumption].
  cbn [scan_frames]. unfold bind.
  assert (E1 : frame_path_repo githubAdapter f w = (Ok None, w)).
  { unfold frame_path_repo, exec, re_github.
    cbn [anchored rx body seqs]. unfold text.
    assert (Hs : forall pre s,
               JsString.includes (lit "github.com/") s = false ->
               search_from
                 (Seq (lits (lit "github.com/"))
                      (Seq (Group 1 (Plus (Chr (none_of "/"))))
                           (Seq (char "/")
                                (Group 2 (Plus (Chr (none_of "/")))))))
                 pre s = None).
    { intros pre s. revert pre. induction s as [| a s IHs]; intros pre Hi;
        cbn [search_from]; unfold match_here; rewrite m_seq, m_lits_starts;
        cbn [JsString.includes] in Hi; apply orb_false_iff in Hi as [Hi1 Hi2];
        rewrite Hi1; [reflexivity | apply IHs; exact Hi2]. }
    rewrite (Hs [] (filePath f) (Hf eq_refl)). reflexivity. }
  rewrite E1.
  unfold frame_meta_repo. rewrite Hr. unfold ret at 1.
  apply IH; assumption.
Qed.

(** X10: [addMapping] and step 2 of the resolution.  A mapping added for the
    source of an error is the one step 2 looks up; a mapping added for
    another source leaves step 2 as it was; and a finder built without a
    mapping table never gets one: step 2 makes no call. *)
Theorem added_mapping_is_used :
  (forall (mp : list (str * str)) (error : AuditLogError) (repo : str),
      from_mapping githubAdapter (addMapping (Some mp) (source error) repo) error
      = getRepositoryInfo githubAdapter repo)
  /\ (forall (mp : list (str * str)) (error : AuditLogError) (src repo : str),
         src <> source error ->
         from_mapping githubAdapter (addMapping (Some mp) src repo) error
         = from_mapping githubAdapter (Some mp) error)
  /\ (forall (error : AuditLogError) (src repo : str) (w : World W),
         from_mapping githubAdapter (addMapping None src repo) error w
         = (Ok None, w)).
Proof.
  assert (Hsame : forall mp k v, map_get k (map_set k v mp) = Some v).
  { induction mp as [| [k' v'] mp IH]; intros k v; cbn [map_set map_get].
    - rewrite (proj2 (eqb_true_iff k k) eq_refl). reflexivity.
    - destruct (JsString.eqb k' k) eqn:E; cbn [map_get].
      + rewrite (proj2 (eqb_true_iff k k) eq_refl). reflexivity.
      + assert (E' : JsString.eqb k k' = false).
        { apply eqb_false_of_neq. intros ->.
          rewrite (proj2 (eqb_true_iff k' k') eq_refl) in E. discriminate. }
        rewrite E'. apply IH. }
  assert (Hother : forall mp k k' v, k <> k' ->
                     map_get k' (map_set k v mp) = map_get k' mp).
  { induction mp as [| [k0 v0] mp IH]; intros k k' v Hne;
      cbn [map_set map_get].
    - rewrite (eqb_false_of_neq (a := k') (b := k)); [reflexivity | congruence].
    - destruct (JsString.eqb k0 k) eqn:E; cbn [map_get].
      + apply eqb_true_iff in E. subst k0.
        rewrite (eqb_false_of_neq (a := k') (b := k)); [reflexivity | congruence].
      + destruct (JsString.eqb k' k0); [reflexivity | apply IH; exact Hne]. }
  split; [| split].
  - intros mp error repo. unfold from_mapping, addMapping. rewrite Hsame.
    reflexivity.
  - intros mp error src repo Hne. unfold from_mapping, addMapping.
    rewrite Hother by exact Hne. reflexivity.
  - reflexivity.
Qed.

End Finder.

Lemma stack_scan_needs_a_github_path_witness :
  findRepositoryFromStackTrace
    (Mock.github Mock.known)
    (StackTraceParserService.parse (lit Mock.trace1) None) Mock.world0
  = (Ok None, Mock.world0).
Proof.
  apply (@stack_scan_needs_a_github_path
           nat (Mock.github Mock.known) (lit Mock.trace1) None Mock.world0).
  vm_compute. repeat constructor.
Defined.

Lemma added_mapping_is_used_witness :
  from_mapping (Mock.github Mock.known)
               (addMapping (Some [(lit "billing", lit "myorg/billing")])
                           (lit "report-service") (lit "myorg/report-service"))
               Mock.err1
  = from_mapping (Mock.github Mock.known)
                 (Some [(lit "billing", lit "myorg/billing")]) Mock.err1.
Proof.
  apply (proj1 (proj2 (@added_mapping_is_used nat (Mock.github Mock.known)))).
  discriminate.
Defined.

End ResolverExtras.

Section WorkflowExtras.

Variable W : Type.
Variable rt : Runtime W.
Variable dynamoAdapter : IDynamoDBAdapter W.
Variable devOpsAdapter : IDevOpsAdapter W.
Variable githubAdapter : IGitHubAdapter W.
Variable teamsAdapter : ITeamsAdapter W.
Variable ozAdapter : IOzAdapter W.
Variable config : OrchestratorConfig.

Ltac run_step :=
  first
    [ rewrite bind_advance; cbn [fst snd ext trace]
    | rewrite bind_lift_now; cbn [fst snd ext trace]
    | rewrite bind_lift_call; cbn [fst snd ext trace];
      match goal with
      | |- context [match ?c with pair _ _ => _ end] =>
          destruct c as [[? | ?] ?] eqn:?
      end
    | match goal with
      | |- context [if negb (oz_success ?r) then _ else _] =>
          destruct (oz_success r) eqn:?; cbn [negb]
      end ].

Lemma processError_catch_full (error : AuditLogError)
      (status : FixWorkflowStatus) (err : JsError) (w : World W) :
  exists r w' evs,
    processError_catch rt teamsAdapter config error status err w = (Ok r, w')
    /\ trace w' = trace w ++ evs
    /\ after_failure config error status err r evs.
Proof.
  unfold processError_catch, handleWorkflowError.
  unfold bind, try_catch, logger, date_now, call, call_total, ret.
  simpl.
  destruct (sendErrorNotification teamsAdapter _ _) as [[u | ne] x1] eqn:Hn;
    simpl; destruct (now rt _) as [ts x2] eqn:Hts; simpl;
    do 3 eexists; (split; [reflexivity |]); simpl;
    (split; [rewrite <- !app_assoc; reflexivity |]);
    unfold after_failure; cbn;
    repeat (split; [reflexivity |]).
  - left. reflexivity.
  - right. do 2 eexists. reflexivity.
Qed.

(** Projections of a trace distribute over concatenation. *)

Lemma steps_app (a b : list Event) : steps (a ++ b) = steps a ++ steps b.
Proof.
  induction a as [| ev a IH]; simpl; [reflexivity |].
  destruct ev; simpl; rewrite ?IH; reflexivity.
Qed.

Lemma status_log_app (a b : list Event) :
  status_log (a ++ b) = status_log a ++ status_log b.
Proof.
  induction a as [| ev a IH]; simpl; [reflexivity |].
  destruct ev; simpl; rewrite ?IH; reflexivity.
Qed.

Lemma thrown_app (a b : list Event) : thrown (a ++ b) = thrown a ++ thrown b.
Proof.
  induction a as [| ev a IH]; simpl; [reflexivity |].
  destruct ev; simpl; rewrite ?IH; reflexivity.
Qed.

Lemma error_notifications_app (a b : list Event) :
  error_notifications (a ++ b)
  = error_notifications a ++ error_notifications b.
Proof.
  induction a as [| ev a IH]; simpl; [reflexivity |].
  destruct ev; simpl; rewrite ?IH; reflexivity.
Qed.


Lemma lookups_make_no_step (evs : list Event) :
  forallb is_lookup evs = true ->
  steps evs = [] /\ status_log evs = [] /\ error_notifications evs = []
  /\ branch_calls evs = [] /\ created_bugs evs = [].
Proof.
  induction evs as [| ev evs IH]; simpl; [auto |].
  intros H. apply andb_true_iff in H as [H1 H2].
  destruct ev; simpl in *; try discriminate; auto.
Qed.

(** The [try] block, once the repository is known. *)
Lemma processError_try_full (error : AuditLogError) (s0 : Local W) :
  let s1 := snd (advance rt parsing_error 10 (lit "Parsing stack trace") s0) in
  let st := StackTraceParserService.parse (stackTrace error)
                                          (Some (message error)) in
  forall info w2,
    repositoryFinder_findRepository githubAdapter error st (snd s1)
    = (Ok (Some info), w2) ->
    exists r status' w' evs,
      processError_try rt dynamoAdapter devOpsAdapter githubAdapter
                       teamsAdapter ozAdapter config error s0
      = (r, (status', w'))
      /\ trace w' = trace w2 ++ evs
      /\ after_resolution config error st info (fst s0) r status' evs.
Proof.
  intros s1 st info w2 Hf.
  unfold processError_try.
  rewrite bind_advance, <- advance_snd. fold s1 st.
  unfold bind at 1. unfold lift at 1. rewrite Hf.
  cbn [fst snd]. repeat run_step.
  all: unfold throw, ret.
  all: do 4 eexists; (split; [reflexivity |]).
  all: cbn [fst snd ext trace].
  all: split; [rewrite <- ?(@app_assoc Event); reflexivity |].
  all: unfold after_resolution.
  all: split;
    [do 2 eexists; split; [| split; [| split; [reflexivity |]]];
     [reflexivity | discriminate | split; [reflexivity | try reflexivity; exact I]] |].
  all: split; [eexists; reflexivity |].
  all: split; [repeat constructor |].
  all: split;
    [first [reflexivity
           | left; eexists; reflexivity
           | right; repeat split; eexists; reflexivity] |].
  all: split; [reflexivity |].
  all: split; [reflexivity |].
  all: split; [reflexivity |].
  all: try exact I.
  repeat (split; [reflexivity |]).
  split.
  - apply Forall_forall. intros f Hin. apply in_map_iff in Hin as (p & <- & _).
    repeat split.
  - do 3 eexists. repeat (split; [reflexivity |]).
    split; cbn [app In]; repeat (first [left; reflexivity | right]).
Qed.


(** One run of [processError], in full: the calls before the resolution,
    the lookups of the resolution, the calls of the [try] block after it
    and those of the [catch] block. *)
Lemma processError_full (error : AuditLogError) (w : World W) :
  let t0 := fst (now rt (ext w)) in
  let st := StackTraceParserService.parse (stackTrace error)
                                          (Some (message error)) in
  let status1 := with_stage (initial_status t0) parsing_error 10
                            (lit "Parsing stack trace") in
  exists out w2 r w' fevs evs cevs,
    repositoryFinder_findRepository githubAdapter error st
                                    (snd (before_resolution rt w))
    = (out, w2)
    /\ processError rt dynamoAdapter devOpsAdapter githubAdapter teamsAdapter
                    ozAdapter config error w
       = (Ok r, w')
    /\ trace w'
       = trace w
           ++ [EvNow; EvStatus (initial_status t0);
               EvLog LogDebug
                     (stage_line parsing_error 10 (lit "Parsing stack trace")) [];
               EvStatus status1]
           ++ fevs ++ evs ++ cevs
    /\ forallb is_lookup fevs = true
    /\ trace w2 = trace (snd (before_resolution rt w)) ++ fevs
    /\ match out with
       | Ok (Some info) =>
           exists tr status',
             after_resolution config error st info (initial_status t0)
                              tr status' evs
             /\ match tr with
                | Ok res => r = res /\ cevs = []
                | Throw e => after_failure config error status' e r cevs
                end
       | Ok None =>
           evs = []
           /\ after_failure
                config error status1
                {| err_message := lit "Could not identify repository for error "
                                      ++ id error |} r cevs
       | Throw e => evs = [] /\ after_failure config error status1 e r cevs
       end.
Proof.
  intros t0 st status1.
  destruct (repositoryFinder_findRepository githubAdapter error st
              (snd (before_resolution rt w))) as [out w2] eqn:Hf.
  exists out, w2.
  unfold processError. unfold bind, date_now, call_total, note.
  unfold before_resolution in Hf. subst t0 status1.
  destruct (now rt (ext w)) as [t x] eqn:Hnow. cbn [ext trace fst].
  set (s0 := (initial_status t,
              {| ext := x;
                 trace := (trace w ++ [EvNow]) ++ [EvStatus (initial_status t)] |}))
    in *.
  destruct (@appends_findRepository W githubAdapter None error st _ _ _ Hf)
    as (fevs & Tf & Lf).
  assert (T1 : trace (snd (snd (advance rt parsing_error 10
                                        (lit "Parsing stack trace") s0)))
               = trace w ++ [EvNow; EvStatus (initial_status t);
                             EvLog LogDebug
                                   (stage_line parsing_error 10
                                               (lit "Parsing stack trace")) [];
                             EvStatus (with_stage (initial_status t)
                                                  parsing_error 10
                                                  (lit "Parsing stack trace"))]).
  { rewrite advance_snd. subst s0. cbn [fst snd ext trace].
    rewrite <- !(@app_assoc Event). reflexivity. }
  pose proof Tf as Tf0. rewrite T1 in Tf.
  destruct out as [[info |] | err].
  - destruct (processError_try_full error s0 Hf)
      as (tr & status' & w' & evs & Etry & Ttry & Hafter).
    rewrite Etry. rewrite Tf in Ttry.
    destruct tr as [res | e].
    + exists res, w', fevs, evs, [].
      split; [reflexivity |]. split; [reflexivity |].
      split; [rewrite Ttry, app_nil_r, <- !(@app_assoc Event); reflexivity |].
      split; [exact Lf |].
      split; [unfold before_resolution; rewrite Hnow; exact Tf0 |].
      exists (Ok res), status'. split; [exact Hafter | auto].
    + destruct (processError_catch_full error status' e w')
        as (r & w3 & cevs & Ec & Tc & Hc).
      rewrite Ec. exists r, w3, fevs, evs, cevs.
      split; [reflexivity |]. split; [reflexivity |].
      split; [rewrite Tc, Ttry, <- !(@app_assoc Event); reflexivity |].
      split; [exact Lf |].
      split; [unfold before_resolution; rewrite Hnow; exact Tf0 |].
      exists (Throw e), status'. split; [exact Hafter | exact Hc].
  - destruct (@processError_try_spec W rt dynamoAdapter devOpsAdapter
                githubAdapter teamsAdapter ozAdapter config error s0 _ _ Hf)
      as (tr & status' & w' & evs & Etry & Ttry & -> & -> & ->).
    rewrite Etry. rewrite Tf, app_nil_r in Ttry.
    match goal with
    | |- context [processError_catch _ _ _ _ ?st ?e w'] =>
        destruct (processError_catch_full error st e w')
        as (r & w3 & cevs & Ec & Tc & Hc)
    end.
    rewrite Ec. exists r, w3, fevs, [], cevs.
    split; [reflexivity |]. split; [reflexivity |].
    split; [rewrite Tc, Ttry, <- !(@app_assoc Event); reflexivity |].
    split; [exact Lf |].
      split; [unfold before_resolution; rewrite Hnow; exact Tf0 |]. split; [reflexivity |].
    rewrite advance_snd in Hc. exact Hc.
  - destruct (@processError_try_spec W rt dynamoAdapter devOpsAdapter
                githubAdapter teamsAdapter ozAdapter config error s0 _ _ Hf)
      as (tr & status' & w' & evs & Etry & Ttry & -> & -> & ->).
    rewrite Etry. rewrite Tf, app_nil_r in Ttry.
    match goal with
    | |- context [processError_catch _ _ _ _ ?st ?e w'] =>
        destruct (processError_catch_full error st e w')
        as (r & w3 & cevs & Ec & Tc & Hc)
    end.
    rewrite Ec. exists r, w3, fevs, [], cevs.
    split; [reflexivity |]. split; [reflexivity |].
    split; [rewrite Tc, Ttry, <- !(@app_assoc Event); reflexivity |].
    split; [exact Lf |].
      split; [unfold before_resolution; rewrite Hnow; exact Tf0 |]. split; [reflexivity |].
    rewrite advance_snd in Hc. exact Hc.
Qed.


#[local] Abbreviation run error w :=
  (processError rt dynamoAdapter devOpsAdapter githubAdapter teamsAdapter
                ozAdapter config error w).

(** X11: the steps of a run are made in the order of the pipeline, without a
    gap: ticket, branch, fix agent, pull request, link, comment, team
    notification, mark as processed, fix information.  A run that
    succeeds has made them all; a run that fails has stopped after one of
    them, or before the first, and then sends one error notification,
    its last step. *)
Theorem steps_follow_the_pipeline (error : AuditLogError) (w : World W) :
  exists r w' evs done rest,
    run error w = (Ok r, w')
    /\ trace w' = trace w ++ evs
    /\ pipeline = done ++ rest
    /\ steps evs
       = done ++ (if success r then [] else [StepSendErrorNotification])
    /\ (success r = true -> rest = []).
Proof.
  destruct (processError_full error w)
    as (out & w2 & r & w' & fevs & evs & cevs & Hf & E & T & Lf & Tf & Hout).
  destruct (lookups_make_no_step fevs Lf) as (Sf & _).
  exists r, w'. eexists.
  destruct out as [[info |] | err].
  - destruct Hout as (tr & status' & Hafter & Htr).
    destruct Hafter as ((done & rest & Hp & Hne & Hs & Hst & Hrest)
                        & Hprog & Htime & Hfail & Hbugs & Hbr & Hnot & Hres).
    exists done, rest.
    split; [exact E |]. split; [exact T |]. split; [exact Hp |].
    rewrite !steps_app, Sf, Hs. cbn [steps app].
    destruct tr as [res | e].
    + destruct Htr as (-> & ->).
      destruct Hres as (-> & _).
      split; [rewrite !app_nil_r; reflexivity | intros _; exact Hrest].
    + destruct Htr as (-> & _ & _ & _ & _ & _ & _ & -> & _).
      split; [reflexivity | discriminate].
  - destruct Hout as (-> & Hs & _ & _ & _ & _ & _ & _ & Hc & _).
    exists [], pipeline.
    split; [exact E |]. split; [exact T |]. split; [reflexivity |].
    rewrite !steps_app, Sf, Hc, Hs. split; [reflexivity | discriminate].
  - destruct Hout as (-> & Hs & _ & _ & _ & _ & _ & _ & Hc & _).
    exists [], pipeline.
    split; [exact E |]. split; [exact T |]. split; [reflexivity |].
    rewrite !steps_app, Sf, Hc, Hs. split; [reflexivity | discriminate].
Qed.


(** X12: A run that fails sends exactly one error notification, to the team
    and the channel of the configuration, with the id of the error, the
    message of the failed result and the stage of the last step made
    (parsing_error when no step was made); a run that succeeds sends
    none. *)
Theorem failure_is_notified_with_its_stage (error : AuditLogError)
        (w : World W) :
  exists r w' evs,
    run error w = (Ok r, w')
    /\ trace w' = trace w ++ evs
    /\ (success r = true -> error_notifications evs = [])
    /\ (success r = false ->
        exists msg done,
          errorMessage r = Some msg
          /\ steps evs = done ++ [StepSendErrorNotification]
          /\ error_notifications evs
             = [{| en_teamId := teamsTeamId config;
                   en_channelId := teamsChannelId config;
                   en_errorMessage := msg;
                   en_errorId := id error;
                   en_stage := stage_name (failure_stage done) |}]).
Proof.
  destruct (processError_full error w)
    as (out & w2 & r & w' & fevs & evs & cevs & Hf & E & T & Lf & Tf & Hout).
  destruct (lookups_make_no_step fevs Lf) as (Sf & _ & Nf & _).
  exists r, w'. eexists.
  split; [exact E |]. split; [exact T |].
  rewrite !steps_app, !error_notifications_app, Sf, Nf.
  cbn [steps error_notifications app].
  destruct out as [[info |] | err].
  - destruct Hout as (tr & status' & Hafter & Htr).
    destruct Hafter as ((done & rest & Hp & Hne & Hs & Hst & Hrest)
                        & Hprog & Htime & Hfail & Hbugs & Hbr & Hnot & Hres).
    rewrite Hnot, Hs. destruct tr as [res | e].
    + destruct Htr as (-> & ->). destruct Hres as (Hsucc & _).
      split; [reflexivity | congruence].
    + destruct Htr as (Hsucc & _ & Hm & _ & _ & _ & _ & Hc & Hn & _).
      split; [congruence |]. intros _.
      exists (err_message e), done. rewrite Hc, Hn, Hst.
      destruct done; [congruence |].
      split; [exact Hm | split; reflexivity].
  - destruct Hout as (-> & Hsucc & _ & Hm & _ & _ & _ & _ & Hc & Hn & _).
    split; [congruence |]. intros _.
    eexists. exists []. rewrite Hc, Hn.
    split; [exact Hm | split; reflexivity].
  - destruct Hout as (-> & Hsucc & _ & Hm & _ & _ & _ & _ & Hc & Hn & _).
    split; [congruence |]. intros _.
    eexists. exists []. rewrite Hc, Hn.
    split; [exact Hm | split; reflexivity].
Qed.

(** X13: the values assigned to [status] during a run go through the stages
    in order with the progress 0, 10, 20, 40, 50, 80, 90, 100; they all
    carry the start time read at the beginning of the run; the end time
    and the error of the status are never set. *)
Theorem progress_only_grows (error : AuditLogError) (w : World W) :
  exists r w' evs rest,
    run error w = (r, w')
    /\ trace w' = trace w ++ evs
    /\ map (fun s => (stage s, progress s)) (status_log evs) ++ rest
       = progress_table
    /\ Forall (fun s => startTime s = fst (now rt (ext w))
                        /\ endTime s = None
                        /\ ws_error s = None) (status_log evs).
Proof.
  destruct (processError_full error w)
    as (out & w2 & r & w' & fevs & evs & cevs & Hf & E & T & Lf & Tf & Hout).
  destruct (lookups_make_no_step fevs Lf) as (_ & Lg & _).
  assert (H : exists rest,
             map (fun s => (stage s, progress s)) (status_log evs) ++ rest
             = skipn 2 progress_table
             /\ Forall (fun s => startTime s = fst (now rt (ext w))
                                 /\ endTime s = None
                                 /\ ws_error s = None) (status_log evs)
             /\ status_log cevs = []).
  { destruct out as [[info |] | err].
    - destruct Hout as (tr & status' & Hafter & Htr).
      destruct Hafter as (_ & (rest & Hprog) & Htime & _).
      exists rest. split; [exact Hprog |]. split; [exact Htime |].
      destruct tr as [res | e]; [destruct Htr as (_ & ->); reflexivity |].
      destruct Htr as (_ & _ & _ & _ & _ & _ & _ & _ & _ & Hl & _). exact Hl.
    - destruct Hout as (-> & _ & _ & _ & _ & _ & _ & _ & _ & _ & Hl & _).
      eexists. split; [reflexivity |]. split; [constructor | exact Hl].
    - destruct Hout as (-> & _ & _ & _ & _ & _ & _ & _ & _ & _ & Hl & _).
      eexists. split; [reflexivity |]. split; [constructor | exact Hl]. }
  destruct H as (rest & Hprog & Htime & Hc).
  exists (Ok r), w'. eexists. exists rest.
  split; [exact E |]. split; [exact T |].
  rewrite !status_log_app, Lg, Hc, app_nil_r.
  cbn [status_log app map]. split.
  - rewrite Hprog. reflexivity.
  - constructor; [repeat split |]. constructor; [repeat split |]. exact Htime.
Qed.


Lemma thrown_nil_no_lookup_failure (evs : list Event) :
  thrown evs = [] -> lookup_failures evs = [].
Proof.
  induction evs as [| ev evs IH]; [reflexivity |].
  destruct ev; cbn [thrown lookup_failures]; try exact IH. discriminate.
Qed.

(** The resolution of the orchestrator throws only what a lookup
    threw. *)
Lemma finder_throw_is_recorded (error : AuditLogError) (st : StackTrace)
      (w w2 : World W) (err : JsError) :
  repositoryFinder_findRepository githubAdapter error st w = (Throw err, w2) ->
  exists evs, trace w2 = trace w ++ evs /\ lookup_failures evs = [err].
Proof.
  intros E.
  assert (H : propagates (findRepository githubAdapter None error st)).
  { unfold findRepository.
    apply propagates_bind; [apply lookup_only_from_hint |].
    intros [info |]; [apply propagates_ret |].
    apply propagates_bind; [apply lookup_only_from_mapping |].
    intros [info |]; [apply propagates_ret |].
    apply propagates_bind; [apply lookup_only_scan_frames |].
    intros [info |]; [apply propagates_ret |].
    intros w0 r w0' E0. unfold bind in E0.
    destruct (searchForRepository_swallows githubAdapter error st w0)
      as (x & w1 & evs & Es & T & L & S).
    rewrite Es in E0. exists evs.
    destruct x as [info |]; injection E0 as <- <-; auto. }
  destruct (H _ _ _ E) as (evs & T & L & _). exists evs. auto.
Qed.

(** X15: A run that fails although no call threw has failed for one of two
    reasons.  Either no repository was found: no step was made.  Or the
    fix agent answered that it did not succeed: the ticket and the
    branch were requested, no pull request was, and the error was not
    marked as processed. *)
Theorem failure_without_exception (error : AuditLogError) (w : World W) :
  exists r w' evs,
    run error w = (Ok r, w')
    /\ trace w' = trace w ++ evs
    /\ (success r = false -> thrown evs = [] ->
        (errorMessage r
         = Some (lit "Could not identify repository for error " ++ id error)
         /\ steps evs = [StepSendErrorNotification])
        \/ (exists detail,
               errorMessage r
               = Some (lit "Oz agent failed to fix bug: " ++ detail)
               /\ steps evs = [StepCreateBug; StepCreateBranch; StepFixBug;
                               StepSendErrorNotification])).
Proof.
  destruct (processError_full error w)
    as (out & w2 & r & w' & fevs & evs & cevs & Hf & E & T & Lf & Tf & Hout).
  destruct (lookups_make_no_step fevs Lf) as (Sf & _).
  exists r, w'. eexists.
  split; [exact E |]. split; [exact T |].
  intros Hsucc Hth.
  rewrite !thrown_app in Hth. cbn [thrown app] in Hth.
  apply app_eq_nil in Hth as (Hth1 & Hth).
  apply app_eq_nil in Hth as (Hth2 & _).
  rewrite !steps_app, Sf. cbn [steps app].
  destruct out as [[info |] | err].
  - right.
    destruct Hout as (tr & status' & Hafter & Htr).
    destruct Hafter as (_ & _ & _ & Hfail & _ & _ & _ & Hres).
    destruct tr as [res | e].
    { destruct Htr as (-> & _). destruct Hres as (Hres & _). congruence. }
    destruct Htr as (_ & _ & Hm & _ & _ & _ & _ & Hc & _).
    destruct Hfail as [(c & Hc1) | (_ & Hs & detail & Hd)]; [congruence |].
    exists detail. rewrite Hm, Hd, Hs, Hc. auto.
  - left. destruct Hout as (-> & _ & _ & Hm & _ & _ & _ & _ & Hc & _).
    rewrite Hc. auto.
  - exfalso.
    destruct (finder_throw_is_recorded _ _ _ Hf) as (evs' & T' & L').
    rewrite Tf in T'. apply app_inv_head in T'. subst evs'.
    rewrite (thrown_nil_no_lookup_failure fevs Hth1) in L'. discriminate.
Qed.

(** X16: A failure of the audit store when the batch is fetched is not
    caught: the cycle throws what the store threw, no error is processed,
    no notification is sent. *)
Theorem cycle_aborts_when_store_fails (w : World W) (e : JsError) (x : W) :
  getUnprocessedErrors dynamoAdapter batch_filter
    (log rt LogInfo (lit "Starting error processing cycle") [] (ext w))
  = (Throw e, x) ->
  exists w' evs,
    processUnprocessedErrors rt dynamoAdapter devOpsAdapter githubAdapter
                             teamsAdapter ozAdapter config w
    = (Throw e, w')
    /\ trace w' = trace w ++ evs
    /\ steps evs = []
    /\ status_log evs = []
    /\ thrown evs = [(EvGetUnprocessedErrors batch_filter, e)].
Proof.
  intros Hget.
  unfold processUnprocessedErrors, bind, logger, call_total, call.
  cbn [ext trace]. rewrite Hget.
  do 2 eexists. split; [reflexivity |]. cbn [trace].
  split; [rewrite <- app_assoc; reflexivity |].
  repeat split.
Qed.

Lemma filter_tags_nonempty (tags : list (option str)) :
  Forall (fun t => t <> []) (filter_tags tags).
Proof.
  induction tags as [| [t |] tags IH]; cbn [filter_tags]; [constructor | | exact IH].
  destruct t as [| a t]; cbn [JsString.truthy]; [exact IH |].
  constructor; [discriminate | exact IH].
Qed.

Lemma filter_tags_length (tags : list (option str)) :
  length (filter_tags tags) <= length tags.
Proof.
  induction tags as [| [t |] tags IH]; cbn [filter_tags length]; [lia | | lia].
  destruct (JsString.truthy t); cbn [length]; lia.
Qed.

(** X17: the ticket requested for an error: its title is [Auto-Fix] and the
    first hundred code units of the message, so at most 111 long; it has
    at most six tags, none of them empty, auto-fix and oz-agent among
    them; it is related to the error; and it has an area path and an
    iteration path only when the configuration names a project. *)
Theorem ticket_is_well_formed (error : AuditLogError) (st : StackTrace)
        (info : RepositoryInfo) :
  let input := bug_input config error st info in
  cb_title input = lit "[Auto-Fix] " ++ firstn 100 (message error)
  /\ length (cb_title input) <= 111
  /\ cb_relatedErrorId input = id error
  /\ (exists tags,
         cb_tags input = Some tags
         /\ Forall (fun t => t <> []) tags
         /\ length tags <= 6
         /\ In (lit "auto-fix") tags /\ In (lit "oz-agent") tags)
  /\ (JsString.truthy_opt (devOpsProject config) = false ->
      cb_areaPath input = None /\ cb_iterationPath input = None)
  /\ (forall project,
         devOpsProject config = Some project -> project <> [] ->
         cb_iterationPath input = Some (project ++ lit "\Backlog")
         /\ exists area, cb_areaPath input = Some (project ++ area)).
Proof.
  intros input. subst input. unfold bug_input.
  cbn [cb_title cb_relatedErrorId cb_tags cb_areaPath cb_iterationPath].
  split; [reflexivity |].
  split.
  { unfold JsString.slice0. rewrite length_app.
    pose proof (firstn_le_length 100 (message error)) as H.
    change (length (lit "[Auto-Fix] ")) with 11. lia. }
  split; [reflexivity |].
  split.
  { eexists. split; [reflexivity |].
    split; [apply filter_tags_nonempty |].
    split; [eapply Nat.le_trans; [apply filter_tags_length | cbn; lia] |].
    cbn [filter_tags]. change (JsString.truthy (lit "auto-fix")) with true.
    change (JsString.truthy (lit "oz-agent")) with true.
    cbv iota. split; [left; reflexivity | right; left; reflexivity]. }
  split.
  - unfold determineAreaPath.
    destruct (devOpsProject config) as [[| a p] |]; cbn; intros H;
      try discriminate; split; reflexivity.
  - intros project Hp Hne. unfold determineAreaPath. rewrite Hp.
    destruct project as [| a p]; [congruence |].
    cbn [JsString.truthy negb]. cbv iota.
    split; [reflexivity |].
    destruct (first_area sourceToArea _) as [area |];
      [eexists; reflexivity |].
    destruct (first_area sourceToArea _) as [area |];
      [eexists; reflexivity |].
    exists []. rewrite app_nil_r. reflexivity.
Qed.

End WorkflowExtras.


(** The agent gives up on the fourth error of the examples. *)
Lemma failure_without_exception_witness :
  exists r w',
    Mock.run_error Mock.err4 = (Ok r, w')
    /\ success r = false
    /\ errorMessage r = Some (lit "Oz agent failed to fix bug: no patch found")
    /\ steps (trace w')
       = [StepCreateBug; StepCreateBranch; StepFixBug;
          StepSendErrorNotification].
Proof.
  destruct (@failure_without_exception
              nat Mock.runtime (Mock.dynamo []) Mock.devops
              (Mock.github Mock.known) Mock.teams Mock.oz Mock.config
              Mock.err4 Mock.world0)
    as (r & w' & evs & E & T & H).
  exists r, w'. split; [exact E |].
  assert (Hs : success r = false /\ errorMessage r
                                   = Some (lit "Oz agent failed to fix bug: no patch found")).
  { vm_compute in E. injection E as <- _. split; reflexivity. }
  destruct Hs as (Hs & Hm).
  split; [exact Hs |]. split; [exact Hm |].
  assert (Hth : thrown evs = []).
  { cbn [Mock.world0 trace app] in T. rewrite <- T.
    vm_compute in E. injection E as _ <-. reflexivity. }
  rewrite T. cbn [Mock.world0 trace app].
  destruct (H Hs Hth) as [(Hm' & _) | (detail & _ & Hsteps)];
    [rewrite Hm in Hm'; discriminate Hm' | exact Hsteps].
Defined.

Lemma failure_is_notified_with_its_stage_witness :
  exists r w',
    Mock.run_error Mock.err4 = (Ok r, w')
    /\ map en_stage (error_notifications (trace w')) = [lit "running_oz_agent"]
    /\ map en_errorMessage (error_notifications (trace w'))
       = [lit "Oz agent failed to fix bug: no patch found"].
Proof.
  destruct (@failure_is_notified_with_its_stage
              nat Mock.runtime (Mock.dynamo []) Mock.devops
              (Mock.github Mock.known) Mock.teams Mock.oz Mock.config
              Mock.err4 Mock.world0)
    as (r & w' & evs & E & T & _ & H).
  exists r, w'. split; [exact E |].
  assert (Hs : success r = false /\ errorMessage r
                                   = Some (lit "Oz agent failed to fix bug: no patch found")).
  { vm_compute in E. injection E as <- _. split; reflexivity. }
  destruct Hs as (Hs & Hm).
  destruct (H Hs) as (msg & done & Hmsg & Hsteps & Hn).
  rewrite Hm in Hmsg. injection Hmsg as <-.
  assert (Hd : done = [StepCreateBug; StepCreateBranch; StepFixBug]).
  { cbn [Mock.world0 trace app] in T. rewrite <- T in Hsteps.
    vm_compute in E. injection E as _ <-.
    vm_compute in Hsteps.
    destruct done as [| a [| b [| c [| d done]]]]; try discriminate Hsteps.
    - injection Hsteps as <- <- <-. reflexivity.
    - injection Hsteps as _ _ _ _ Hrest. destruct done; discriminate Hrest. }
  rewrite T. cbn [Mock.world0 trace app]. rewrite Hn, Hd. split; reflexivity.
Defined.

(** An audit store that is out of reach. *)
Lemma cycle_aborts_when_store_fails_witness :
  exists w',
    processUnprocessedErrors Mock.runtime dynamo_down Mock.devops
                             (Mock.github Mock.known) Mock.teams Mock.oz
                             Mock.config Mock.world0
    = (Throw {| err_message := lit "store unavailable" |}, w')
    /\ steps (trace w') = [].
Proof.
  destruct (@cycle_aborts_when_store_fails
              nat Mock.runtime dynamo_down Mock.devops (Mock.github Mock.known)
              Mock.teams Mock.oz Mock.config Mock.world0
              {| err_message := lit "store unavailable" |} 1 eq_refl)
    as (w' & evs & E & T & Hs & _).
  exists w'. split; [exact E |].
  rewrite T. cbn [Mock.world0 trace app]. exact Hs.
Defined.

Lemma ticket_is_well_formed_witness :
  let input := bug_input Mock.config Mock.err1
                         (StackTraceParserService.parse (stackTrace Mock.err1)
                                                        (Some (message Mock.err1)))
                         {| owner := lit "myorg"; name := lit "user-service";
                            fullName := lit "myorg/user-service";
                            url := lit "https://github.com/myorg/user-service";
                            defaultBranch := lit "main" |} in
  cb_iterationPath input = Some (lit "Shop\Backlog")
  /\ cb_areaPath input = Some (lit "Shop\User Management")
  /\ cb_tags input
     = Some [lit "auto-fix"; lit "oz-agent"; lit "user-service";
             lit "production"; lit "user-service"; lit "typescript"].
Proof.
  intros input.
  destruct (ticket_is_well_formed
              Mock.config Mock.err1
              (StackTraceParserService.parse (stackTrace Mock.err1)
                                             (Some (message Mock.err1)))
              {| owner := lit "myorg"; name := lit "user-service";
                 fullName := lit "myorg/user-service";
                 url := lit "https://github.com/myorg/user-service";
                 defaultBranch := lit "main" |})
    as (_ & _ & _ & _ & _ & H).
  destruct (H (lit "Shop") eq_refl) as (Hi & area & Ha); [discriminate |].
  split; [exact Hi |]. split; vm_compute; reflexivity.
Defined.

(** ** The in-memory adapters *)

Module JsMapFacts.

Section Facts.

Variables K V : Type.
Variable eqb : K -> K -> bool.
Hypothesis eqb_spec : forall a b, eqb a b = true <-> a = b.

Lemma eqb_refl (k : K) : eqb k k = true.
Proof. apply eqb_spec. reflexivity. Qed.

Lemma eqb_neq (a b : K) : a <> b -> eqb a b = false.
Proof.
  intros H. destruct (eqb a b) eqn:E; [| reflexivity].
  apply eqb_spec in E. contradiction.
Qed.

Lemma get_set_same (k : K) (v : V) (m : list (K * V)) :
  JsMap.get eqb k (JsMap.set eqb k v m) = Some v.
Proof.
  induction m as [| [k' v'] m IH]; simpl.
  - rewrite eqb_refl. reflexivity.
  - destruct (eqb k k') eqn:E; simpl; rewrite E; [reflexivity | exact IH].
Qed.

Lemma get_set_other (k k2 : K) (v : V) (m : list (K * V)) :
  k2 <> k -> JsMap.get eqb k2 (JsMap.set eqb k v m) = JsMap.get eqb k2 m.
Proof.
  intros N. induction m as [| [k' v'] m IH]; simpl.
  - rewrite (eqb_neq N). reflexivity.
  - destruct (eqb k k') eqn:E; simpl.
    + apply eqb_spec in E. subst k'. rewrite (eqb_neq N). reflexivity.
    + rewrite IH. reflexivity.
Qed.

Lemma get_In (k : K) (v : V) (m : list (K * V)) :
  JsMap.get eqb k m = Some v -> In (k, v) m.
Proof.
  induction m as [| [k' v'] m IH]; simpl; [discriminate |].
  destruct (eqb k k') eqn:E.
  - apply eqb_spec in E. subst k'. intros [= <-]. left. reflexivity.
  - intros H. right. apply IH. exact H.
Qed.

Lemma get_None (k : K) (m : list (K * V)) :
  JsMap.get eqb k m = None <-> ~ In k (JsMap.keys m).
Proof.
  induction m as [| [k' v'] m IH]; simpl.
  - split; [intros _ [] | reflexivity].
  - destruct (eqb k k') eqn:E.
    + apply eqb_spec in E. subst k'. split; [discriminate |].
      intros H. exfalso. apply H. left. reflexivity.
    + rewrite IH. split.
      * intros H [H1 | H1]; [| exact (H H1)].
        subst k'. rewrite eqb_refl in E. discriminate.
      * intros H H1. apply H. right. exact H1.
Qed.

Lemma In_set (k k' : K) (v v' : V) (m : list (K * V)) :
  In (k', v') (JsMap.set eqb k v m) -> In (k', v') m \/ (k' = k /\ v' = v).
Proof.
  induction m as [| [k0 v0] m IH]; simpl.
  - intros [[= <- <-] | []]. right. split; reflexivity.
  - destruct (eqb k k0) eqn:E; simpl.
    + apply eqb_spec in E. subst k0.
      intros [[= <- <-] | H]; [right; split; reflexivity | left; right; exact H].
    + intros [H | H]; [left; left; exact H |].
      destruct (IH H) as [H1 | H1]; [left; right; exact H1 | right; exact H1].
Qed.

Lemma keys_set (k : K) (v : V) (m : list (K * V)) :
  JsMap.keys (JsMap.set eqb k v m)
  = if existsb (eqb k) (JsMap.keys m) then JsMap.keys m
    else JsMap.keys m ++ [k].
Proof.
  induction m as [| [k0 v0] m IH]; simpl; [reflexivity |].
  destruct (eqb k k0) eqn:E; simpl; [reflexivity |].
  unfold JsMap.keys in *. rewrite IH.
  destruct (existsb (eqb k) (map fst m)); reflexivity.
Qed.

Lemma NoDup_keys_set (k : K) (v : V) (m : list (K * V)) :
  NoDup (JsMap.keys m) -> NoDup (JsMap.keys (JsMap.set eqb k v m)).
Proof.
  intros H. rewrite keys_set.
  destruct (existsb (eqb k) (JsMap.keys m)) eqn:E; [exact H |].
  apply NoDup_rev in H. rewrite <- (rev_involutive (_ ++ _)).
  apply NoDup_rev. rewrite rev_app_distr. simpl. constructor; [| exact H].
  intros Hin. apply in_rev in Hin.
  assert (C : existsb (eqb k) (JsMap.keys m) = true).
  { apply existsb_exists. exists k. split; [exact Hin | apply eqb_refl]. }
  rewrite C in E. discriminate.
Qed.

End Facts.

Arguments eqb_refl {K eqb} eqb_spec k.
Arguments eqb_neq {K eqb} eqb_spec {a b} _.
Arguments get_set_same {K V eqb} eqb_spec k v m.
Arguments get_set_other {K V eqb} eqb_spec {k k2} v m _.
Arguments get_In {K V eqb} eqb_spec {k v m} _.
Arguments get_None {K V eqb} eqb_spec k m.
Arguments In_set {K V eqb} eqb_spec {k k' v v' m} _.
Arguments keys_set {K V} eqb k v m.
Arguments NoDup_keys_set {K V eqb} eqb_spec k v {m} _.

Lemma number_eqb_spec (a b : option N) : number_eqb a b = true <-> a = b.
Proof.
  destruct a as [x |], b as [y |]; simpl; split; intros H;
    try discriminate; try reflexivity.
  - apply N.eqb_eq in H. subst. reflexivity.
  - injection H as ->. apply N.eqb_refl.
Qed.

Lemma str_eqb_spec (a b : str) : JsString.eqb a b = true <-> a = b.
Proof.
  unfold JsString.eqb. destruct (list_eq_dec ascii_dec a b); split;
    intros H; try reflexivity; try assumption; try discriminate; contradiction.
Qed.

End JsMapFacts.

Module DevOpsFacts.
Import MockDevOpsAdapter.
Import TrackerNotions.

Lemma tracker_inv_initial : inv initial.
Proof. split; [simpl; lia | intros k wi []]. Qed.

Lemma tracker_inv_set (s : State) (k : option N) (wi : BugWorkItem) :
  inv s ->
  wi_id wi = k -> (exists i, k = Some i /\ (i < idCounter s)%N) ->
  inv {| workItems := JsMap.set number_eqb k wi (workItems s);
         comments := comments s;
         idCounter := idCounter s |}.
Proof.
  intros [H0 H] Hid Hk. split; [exact H0 |]. simpl.
  intros k' wi' Hin.
  apply (JsMapFacts.In_set JsMapFacts.number_eqb_spec) in Hin
    as [Hin | [-> ->]].
  - apply H. exact Hin.
  - split; assumption.
Qed.

Lemma tracker_inv_after (c : Call) (s : State) : inv s -> inv (after c s).
Proof.
  intros I. pose proof I as [H0 H].
  destruct c as [input | i updates | i comment | i prUrl | i | i reason |];
    simpl.
  - (* createBug *)
    split; [simpl; lia |]. simpl. intros k wi Hin.
    apply (JsMapFacts.In_set JsMapFacts.number_eqb_spec) in Hin
      as [Hin | [-> ->]].
    + destruct (H _ _ Hin) as (E & i & -> & Hi).
      split; [exact E |]. exists i. split; [reflexivity | lia].
    + split; [reflexivity |]. eexists. split; [reflexivity | lia].
  - (* updateBug *)
    unfold updateBug.
    destruct (JsMap.get number_eqb i (workItems s)) as [wi |] eqn:G;
      [| exact I].
    apply (JsMapFacts.get_In JsMapFacts.number_eqb_spec) in G.
    destruct (H _ _ G) as (E & Hk).
    apply tracker_inv_set; [exact I | exact E | exact Hk].
  - (* addComment *)
    split; [exact H0 | exact H].
  - (* linkPullRequest *)
    unfold linkPullRequest.
    destruct (JsMap.get number_eqb i (workItems s)) as [wi |] eqn:G;
      [| exact I].
    apply (JsMapFacts.get_In JsMapFacts.number_eqb_spec) in G.
    destruct (H _ _ G) as (E & Hk).
    apply tracker_inv_set; [exact I | exact E | exact Hk].
  - exact I.
  - (* closeWorkItem *)
    unfold closeWorkItem.
    destruct (JsMap.get number_eqb i (workItems s)); [| exact I].
    split; [exact H0 | exact H].
  - exact tracker_inv_initial.
Qed.

Lemma tracker_inv_fold (cs : list Call) (s : State) :
  inv s -> inv (fold_left (fun s c => after c s) cs s).
Proof.
  revert s. induction cs as [| c cs IH]; intros s I; simpl; [exact I |].
  apply IH. apply tracker_inv_after. exact I.
Qed.

Lemma tracker_inv_history (cs : list Call) : inv (history cs).
Proof. apply tracker_inv_fold. exact tracker_inv_initial. Qed.

Lemma counter_is_free (s : State) :
  inv s -> JsMap.get number_eqb (Some (idCounter s)) (workItems s) = None.
Proof.
  intros [_ H].
  destruct (JsMap.get number_eqb (Some (idCounter s)) (workItems s))
    as [wi |] eqn:G; [| reflexivity].
  apply (JsMapFacts.get_In JsMapFacts.number_eqb_spec) in G.
  destruct (H _ _ G) as (_ & i & [= <-] & Hi). lia.
Qed.

(** X18: whatever calls an instance of the in-memory tracker has served,
    [createBug] returns a ticket whose id is the counter, at least 1000
    and held by no ticket of the store; afterwards [getWorkItem] returns
    the new ticket for that id and what it returned before for every
    other id, and the new ticket has no comment. *)
Theorem created_ticket_has_a_fresh_id (cs : list Call) (input : CreateBugInput) :
  let s := history cs in
  exists wi s',
    createBug input s = (Ok wi, s')
    /\ wi_id wi = Some (idCounter s)
    /\ (1000 <= idCounter s)%N
    /\ idCounter s' = (idCounter s + 1)%N
    /\ getWorkItem (wi_id wi) s = (Ok None, s)
    /\ getWorkItem (wi_id wi) s' = (Ok (Some wi), s')
    /\ (forall k, k <> wi_id wi ->
                  fst (getWorkItem k s') = fst (getWorkItem k s))
    /\ getComments (wi_id wi) s' = []
    /\ wi_relatedErrorId wi = cb_relatedErrorId input
    /\ wi_pullRequestUrl wi = None.
Proof.
  intros s. pose proof (tracker_inv_history cs) as I. fold s in I.
  do 2 eexists. split; [reflexivity |]. cbn [wi_id].
  split; [reflexivity |].
  split; [exact (proj1 I) |].
  split; [reflexivity |].
  split.
  { pose proof (counter_is_free I) as F.
    unfold getWorkItem. rewrite F. reflexivity. }
  split.
  { unfold getWorkItem. cbn [workItems].
    rewrite (JsMapFacts.get_set_same JsMapFacts.number_eqb_spec).
    reflexivity. }
  split.
  { intros k Hk. unfold getWorkItem. cbn [fst workItems].
    rewrite (JsMapFacts.get_set_other JsMapFacts.number_eqb_spec); auto. }
  split.
  { unfold getComments. cbn [comments].
    rewrite (JsMapFacts.get_set_same JsMapFacts.number_eqb_spec).
    reflexivity. }
  split; reflexivity.
Qed.



End DevOpsFacts.

Module DynamoFacts.
Import MockDynamoDBAdapter.
Import StoreNotions.

#[local] Abbreviation sspec := JsMapFacts.str_eqb_spec.

Lemma map_get_set (k k' v : str) (mp : list (str * str)) :
  map_get k' (map_set k v mp)
  = if JsString.eqb k' k then Some v else map_get k' mp.
Proof.
  induction mp as [| [k0 v0] mp IH]; cbn [map_set map_get].
  - reflexivity.
  - destruct (JsString.eqb k0 k) eqn:E; cbn [map_get].
    + apply sspec in E. subst k0.
      destruct (JsString.eqb k' k); reflexivity.
    + rewrite IH. destruct (JsString.eqb k' k0) eqn:E0; [| reflexivity].
      apply sspec in E0.
      destruct (JsString.eqb k' k) eqn:E1; [| reflexivity].
      apply sspec in E1.
      assert (E2 : JsString.eqb k0 k = true) by (apply sspec; congruence).
      congruence.
Qed.

(** Lookup in [{ ...a, ...b }]: the last entry of [b] for the key, or
    else what [a] holds. *)
Lemma map_get_spread (k : str) (a : option (list (str * str)))
      (b : list (str * str)) :
  map_get k (spread a b)
  = match map_get k (rev b) with
    | Some v => Some v
    | None => map_get k (match a with Some o => o | None => [] end)
    end.
Proof.
  unfold spread. induction b as [| [kx vx] b IH] using rev_ind.
  - reflexivity.
  - rewrite fold_left_app, rev_app_distr. cbn [fold_left rev app fst snd map_get].
    rewrite map_get_set. destruct (JsString.eqb k kx); [reflexivity | exact IH].
Qed.

Lemma store_inv_set (s : State) (k : str) (e : AuditLogError) :
  inv s -> id e = k ->
  inv {| errors := JsMap.set JsString.eqb k e (errors s) |}.
Proof.
  intros [N H] E. split; cbn [errors].
  - apply (JsMapFacts.NoDup_keys_set sspec). exact N.
  - intros k' e' Hin. apply (JsMapFacts.In_set sspec) in Hin as [Hin | [-> ->]].
    + apply H. exact Hin.
    + exact E.
Qed.

Lemma store_inv_empty : inv {| errors := [] |}.
Proof. split; [constructor | intros k e []]. Qed.

Lemma store_inv_after (c : Call) (s : State) : inv s -> inv (after c s).
Proof.
  intros I. pose proof I as [N H].
  destruct c as [f | i | errorId md | errorId fixInfo | err |]; cbn [after].
  - exact I.
  - exact I.
  - unfold markAsProcessed.
    destruct (JsMap.get JsString.eqb errorId (errors s)) as [e |] eqn:G;
      [| exact I].
    cbn [snd]. apply store_inv_set; [exact I |]. cbn [id].
    apply H. apply (JsMapFacts.get_In sspec). exact G.
  - unfold updateErrorWithFixInfo.
    destruct (JsMap.get JsString.eqb errorId (errors s)) as [e |] eqn:G;
      [| exact I].
    cbn [snd]. apply store_inv_set; [exact I |]. cbn [id].
    apply H. apply (JsMapFacts.get_In sspec). exact G.
  - unfold addError. apply store_inv_set; [exact I | reflexivity].
  - exact store_inv_empty.
Qed.

Lemma store_inv_of_errors (l : list AuditLogError) : inv (of_errors l).
Proof.
  unfold of_errors.
  assert (G : forall s, inv s ->
                inv (fold_left (fun s error => addError error s) l s)).
  { induction l as [| e l IH]; intros s I; simpl; [exact I |].
    apply IH. apply store_inv_set; [exact I | reflexivity]. }
  apply G. exact store_inv_empty.
Qed.

Lemma store_inv_history (l : list AuditLogError) (cs : list Call) :
  inv (history l cs).
Proof.
  unfold history.
  assert (G : forall s, inv s -> inv (fold_left (fun s c => after c s) cs s)).
  { induction cs as [| c cs IH]; intros s I; simpl; [exact I |].
    apply IH. apply store_inv_after. exact I. }
  apply G. apply store_inv_of_errors.
Qed.

Lemma In_get (s : State) (k : str) (e : AuditLogError) :
  NoDup (JsMap.keys (errors s)) ->
  In (k, e) (errors s) -> JsMap.get JsString.eqb k (errors s) = Some e.
Proof.
  destruct s as [m]. cbn [errors]. induction m as [| [k0 e0] m IH]; intros N Hin.
  - destruct Hin.
  - cbn in N. inversion N as [| ? ? Hnot N']; subst.
    cbn [JsMap.get]. destruct Hin as [[= -> ->] | Hin].
    + rewrite (JsMapFacts.eqb_refl sspec). reflexivity.
    + destruct (JsString.eqb k k0) eqn:E.
      * apply sspec in E. subst k0. exfalso. apply Hnot.
        apply in_map_iff. exists (k, e). auto.
      * apply IH; assumption.
Qed.

Lemma by_severity_In (f : option AuditLogErrorFilter) (l : list AuditLogError)
      (e : AuditLogError) : In e (by_severity f l) -> In e l.
Proof.
  unfold by_severity. destruct f as [f |]; [| auto].
  destruct (f_severity f) as [sev |]; [| auto].
  destruct (0 <? length sev)%nat; [| auto].
  intros H. apply filter_In in H. tauto.
Qed.

Lemma by_source_In (f : option AuditLogErrorFilter) (l : list AuditLogError)
      (e : AuditLogError) : In e (by_source f l) -> In e l.
Proof.
  unfold by_source. destruct f as [f |]; [| auto].
  destruct (f_source f) as [src |]; [| auto].
  destruct (JsString.truthy src); [| auto].
  intros H. apply filter_In in H. tauto.
Qed.

Lemma by_since_In (f : option AuditLogErrorFilter) (l : list AuditLogError)
      (e : AuditLogError) : In e (by_since f l) -> In e l.
Proof.
  unfold by_since. destruct f as [f |]; [| auto].
  destruct (f_since f) as [since |]; [| auto].
  destruct (JsString.truthy since); [| auto].
  intros H. apply filter_In in H. tauto.
Qed.

Lemma by_limit_In (f : option AuditLogErrorFilter) (l : list AuditLogError)
      (e : AuditLogError) : In e (by_limit f l) -> In e l.
Proof.
  unfold by_limit. destruct f as [f |]; [| auto].
  destruct (f_limit f) as [n |]; [| auto].
  destruct (negb (N.eqb n 0)); [| auto].
  intros H. rewrite <- (firstn_skipn (N.to_nat n) l).
  apply in_or_app. left. exact H.
Qed.

(** The records the store hands out are among the unprocessed ones. *)
Lemma fetched_are_stored (filter : option AuditLogErrorFilter) (s : State) :
  exists l,
    getUnprocessedErrors filter s = (Ok l, s)
    /\ forall e, In e l ->
         processed e = false /\ exists k, In (k, e) (errors s).
Proof.
  unfold getUnprocessedErrors.
  eexists. split; [reflexivity |].
  intros e Hin.
  apply by_limit_In, by_since_In, by_source_In, by_severity_In in Hin.
  apply filter_In in Hin as [Hv Hp].
  split; [destruct (processed e); [discriminate | reflexivity] |].
  unfold JsMap.values in Hv. apply in_map_iff in Hv as ([k e'] & E & Hin').
  cbn in E. subst e'. exists k. exact Hin'.
Qed.

(** X21: in the in-memory audit store, whatever calls it has served,
    [markAsProcessed] returns without throwing; afterwards no record
    with that id is returned by [getUnprocessedErrors], whatever the
    filter, while a record with another id is returned without a filter
    exactly if it was before.  An id the store does not hold changes
    nothing. *)
Theorem processed_errors_are_not_fetched_again
        (initialErrors : list AuditLogError) (cs : list Call)
        (errorId : str) (md : option (list (str * str))) :
  let s := history initialErrors cs in
  exists s',
    markAsProcessed errorId md s = (Ok tt, s')
    /\ (forall filter, exists l,
           getUnprocessedErrors filter s' = (Ok l, s')
           /\ forall e, In e l -> id e <> errorId)
    /\ (exists l l',
           getUnprocessedErrors None s = (Ok l, s)
           /\ getUnprocessedErrors None s' = (Ok l', s')
           /\ forall e, id e <> errorId -> (In e l' <-> In e l))
    /\ match fst (getErrorById errorId s) with
       | Ok None => s' = s
       | _ => JsMap.keys (errors s') = JsMap.keys (errors s)
       end.
Proof.
  intros s. pose proof (store_inv_history initialErrors cs) as I. fold s in I.
  pose proof (store_inv_after (MarkAsProcessed errorId md) I) as I'.
  cbn [after] in I'.
  destruct I as [N H]. destruct I' as [N' H'].
  unfold markAsProcessed in *. unfold getErrorById. cbn [fst].
  destruct (JsMap.get JsString.eqb errorId (errors s)) as [e0 |] eqn:G.
  - cbn [snd] in N', H'. eexists. split; [reflexivity |].
    set (e1 := {| id := id e0; timestamp := timestamp e0;
                  message := message e0; stackTrace := stackTrace e0;
                  severity := severity e0; source := source e0;
                  environment := environment e0; commitSha := commitSha e0;
                  repository := repository e0; processed := true;
                  metadata := _ |}) in *.
    set (s' := {| errors := JsMap.set JsString.eqb errorId e1 (errors s) |})
      in *.
    split; [| split].
    + intros filter. destruct (fetched_are_stored filter s')
        as (l & E & Hl).
      exists l. split; [exact E |]. intros e Hin.
      destruct (Hl e Hin) as (Hp & k & Hk).
      pose proof (H' _ _ Hk) as Hid. rewrite Hid. intros ->.
      apply (@In_get s' _ _ N') in Hk. subst s'. cbn [errors] in Hk.
      rewrite (JsMapFacts.get_set_same sspec) in Hk.
      injection Hk as <-. discriminate Hp.
    + do 2 eexists. split; [reflexivity |]. split; [reflexivity |].
      intros e Hne. cbv beta zeta.
      cbn [by_limit by_since by_source by_severity].
      rewrite !filter_In. unfold JsMap.values.
      rewrite !in_map_iff.
      split; intros [([k e'] & E & Hk) Hp]; cbn in E; subst e';
        (split; [| exact Hp]); exists (k, e); (split; [reflexivity |]).
      * subst s'. cbn [errors] in Hk.
        apply (JsMapFacts.In_set sspec) in Hk as [Hk | [-> ->]];
          [exact Hk | discriminate Hp].
      * pose proof (H _ _ Hk) as Hid.
        apply (@In_get s _ _ N) in Hk.
        apply (JsMapFacts.get_In sspec).
        subst s'. cbn [errors].
        rewrite (JsMapFacts.get_set_other sspec); [exact Hk |].
        rewrite <- Hid. exact Hne.
    + subst s'. cbn [errors].
      rewrite (JsMapFacts.keys_set JsString.eqb).
      assert (C : existsb (JsString.eqb errorId) (JsMap.keys (errors s)) = true).
      { apply existsb_exists. exists errorId. split.
        - apply (JsMapFacts.get_In sspec) in G.
          unfold JsMap.keys. apply in_map_iff. exists (errorId, e0). auto.
        - apply sspec. reflexivity. }
      rewrite C. reflexivity.
  - exists s. split; [reflexivity |]. split; [| split].
    + intros filter. destruct (fetched_are_stored filter s) as (l & E & Hl).
      exists l. split; [exact E |]. intros e Hin.
      destruct (Hl e Hin) as (_ & k & Hk).
      pose proof (H _ _ Hk) as Hid. rewrite Hid. intros ->.
      apply (@In_get s _ _ N) in Hk. rewrite Hk in G. discriminate.
    + do 2 eexists. split; [reflexivity |]. split; [reflexivity |].
      intros e _. reflexivity.
    + reflexivity.
Qed.

Lemma str_ltb_irrefl (a : str) : str_ltb a a = false.
Proof.
  induction a as [| x a IH]; simpl; [reflexivity |].
  rewrite Nat.ltb_irrefl. exact IH.
Qed.

(** X22: [getUnprocessedErrors] of the in-memory audit store returns,
    without throwing or changing the store, unprocessed records only,
    each of which meets the criteria of the filter that are not empty (a
    severity of the list, the source, a time stamp that is not before
    [since] as strings), and at most [limit] of them when [limit] is not
    0.  The key [processed] of the filter is not looked at, and a filter
    of empty criteria with a limit of 0 returns what no filter returns.
    A record whose time stamp is [since] itself is not left out by
    [since]. *)
Theorem fetch_respects_the_filter (s : State) (f : AuditLogErrorFilter) :
  exists l,
    getUnprocessedErrors (Some f) s = (Ok l, s)
    /\ Forall
         (fun e =>
            processed e = false
            /\ match f_severity f with
               | Some (v :: sev) => In (severity e) (v :: sev)
               | _ => True
               end
            /\ match f_source f with
               | Some (a :: src) => source e = a :: src
               | _ => True
               end
            /\ match f_since f with
               | Some (a :: since) => str_ltb (timestamp e) (a :: since) = false
               | _ => True
               end) l
    /\ match f_limit f with
       | Some n => if N.eqb n 0 then True else (N.of_nat (length l) <= n)%N
       | None => True
       end
    /\ (forall p,
           getUnprocessedErrors
             (Some {| f_processed := p; f_severity := f_severity f;
                      f_source := f_source f; f_since := f_since f;
                      f_limit := f_limit f |}) s
           = (Ok l, s))
    /\ (forall p,
           getUnprocessedErrors
             (Some {| f_processed := p; f_severity := Some [];
                      f_source := Some []; f_since := Some [];
                      f_limit := Some 0%N |}) s
           = getUnprocessedErrors None s)
    /\ (forall e,
           In e (JsMap.values (errors s)) -> processed e = false ->
           exists l',
             getUnprocessedErrors
               (Some {| f_processed := None; f_severity := None;
                        f_source := None; f_since := Some (timestamp e);
                        f_limit := None |}) s
             = (Ok l', s)
             /\ In e l').
Proof.
  unfold getUnprocessedErrors. eexists. split; [reflexivity |].
  cbv beta zeta.
  set (base := List.filter (fun e => negb (processed e))
                           (JsMap.values (errors s))).
  split; [| split; [| split; [| split]]].
  - apply Forall_forall. intros e Hin.
    apply by_limit_In in Hin.
    assert (H3 : match f_since f with
                 | Some (a :: since) =>
                     str_ltb (timestamp e) (a :: since) = false
                 | _ => True
                 end).
    { unfold by_since in Hin. destruct (f_since f) as [[| a since] |];
        [exact I | | exact I].
      cbn [JsString.truthy] in Hin. apply filter_In in Hin as [_ Hin].
      apply negb_true_iff in Hin. exact Hin. }
    apply by_since_In in Hin.
    assert (H2 : match f_source f with
                 | Some (a :: src) => source e = a :: src
                 | _ => True
                 end).
    { unfold by_source in Hin. destruct (f_source f) as [[| a src] |];
        [exact I | | exact I].
      cbn [JsString.truthy] in Hin. apply filter_In in Hin as [_ Hin].
      apply sspec in Hin. exact Hin. }
    apply by_source_In in Hin.
    assert (H1 : match f_severity f with
                 | Some (v :: sev) => In (severity e) (v :: sev)
                 | _ => True
                 end).
    { unfold by_severity in Hin. destruct (f_severity f) as [[| v sev] |];
        [exact I | | exact I].
      cbn [length Nat.ltb Nat.leb] in Hin.
      apply filter_In in Hin as [_ Hin].
      apply existsb_exists in Hin as (x & Hx & Ex).
      apply sspec in Ex. rewrite Ex. exact Hx. }
    apply by_severity_In in Hin. subst base.
    apply filter_In in Hin as [_ Hp].
    split; [destruct (processed e); [discriminate | reflexivity] |].
    split; [exact H1 |]. split; [exact H2 | exact H3].
  - unfold by_limit at 1. destruct (f_limit f) as [n |]; [| exact I].
    destruct (N.eqb n 0) eqn:E; [exact I |]. cbn [negb].
    pose proof (firstn_le_length (N.to_nat n)
                  (by_since (Some f) (by_source (Some f)
                                        (by_severity (Some f) base)))) as L.
    lia.
  - intros p. reflexivity.
  - intros p. reflexivity.
  - intros e Hin Hp. eexists. split; [reflexivity |].
    cbn [by_limit by_since by_source by_severity f_limit f_since
         f_source f_severity].
    assert (B : In e base).
    { apply filter_In. split; [exact Hin |]. rewrite Hp. reflexivity. }
    destruct (timestamp e) as [| a ts] eqn:T; cbn [JsString.truthy];
      [exact B |].
    apply filter_In. split; [exact B |].
    rewrite T, str_ltb_irrefl. reflexivity.
Qed.


End DynamoFacts.

Module GitHubFacts.
Import MockGitHubAdapter.
Import HostNotions.

#[local] Abbreviation sspec := JsMapFacts.str_eqb_spec.

(** [createBranch] of the in-memory host never fails, also when
    the branch exists already: afterwards the latest commit of the
    branch is the latest commit of the source branch ([main] when none
    is given) if the host knows the source branch, and a commit with the
    sha "default-sha" if it does not.  Branches under another key, the
    files and the pull requests are left as they are. *)
Lemma new_branch_points_at_its_source (s : State)
        (owner repo branchName : str) (fromBranch : option str) :
  let src := match fromBranch with Some b => b | None => lit "main" end in
  exists s',
    createBranch owner repo branchName fromBranch s = (Ok tt, s')
    /\ fst (getLatestCommit owner repo branchName s')
       = match JsMap.get JsString.eqb (branch_key owner repo src) (branches s)
         with
         | Some _ => fst (getLatestCommit owner repo src s)
         | None => Ok (Some {| c_sha := lit "default-sha";
                               c_message := lit "Latest commit message";
                               c_author := lit "Test Author" |})
         end
    /\ (forall o r b,
           branch_key o r b <> branch_key owner repo branchName ->
           fst (getLatestCommit o r b s') = fst (getLatestCommit o r b s))
    /\ files s' = files s
    /\ pullRequests s' = pullRequests s
    /\ prCounter s' = prCounter s.
Proof.
  intros src. eexists. split; [reflexivity |].
  unfold getLatestCommit. cbn [branches files pullRequests prCounter].
  rewrite (JsMapFacts.get_set_same sspec). fold src.
  split.
  - destruct (JsMap.get JsString.eqb (branch_key owner repo src) (branches s))
      as [sha |]; [| reflexivity].
    destruct (JsString.truthy sha); reflexivity.
  - split; [| repeat split].
    intros o r b Hk.
    rewrite (JsMapFacts.get_set_other sspec); [| exact Hk].
    destruct (JsMap.get JsString.eqb (branch_key o r b) (branches s))
      as [sha |]; [destruct (JsString.truthy sha) |]; reflexivity.
Qed.

(** The numbers [1 .. n]. *)
Lemma numbers_snoc (n : nat) :
  map (fun i => N.of_nat (S i)) (seq 0 (S n))
  = map (fun i => N.of_nat (S i)) (seq 0 n) ++ [N.of_nat (S n)].
Proof. rewrite seq_S, map_app. reflexivity. Qed.

Lemma numbered_createPullRequest (params : PullRequestParams) (s : State) :
  numbered s -> numbered (snd (createPullRequest params s)).
Proof.
  intros [C L]. unfold numbered. cbn [snd createPullRequest pullRequests prCounter].
  rewrite length_app, Nat.add_1_r. split; [rewrite C; lia |].
  rewrite map_app, L, numbers_snoc. cbn [map prr_number].
  rewrite C. reflexivity.
Qed.

Lemma numbered_history {E} (amb : Ambient E) (cs : list Call) (e : E) :
  numbered (fst (history amb cs e)).
Proof.
  unfold history.
  assert (G : forall se, numbered (fst se) ->
                numbered (fst (fold_left (fun se c => after amb c se) cs se))).
  { induction cs as [| c cs IH]; intros se I; simpl; [exact I |].
    apply IH. destruct c; cbn [after fst snd].
    - exact I.
    - unfold pushFiles.
      destruct (date_now_ms amb (snd se)) as [t e1].
      destruct (math_random36 amb e1) as [r e2]. exact I.
    - apply numbered_createPullRequest. exact I.
    - exact I.
    - exact I.
    - exact I.
    - unfold getLatestCommit.
      destruct (JsMap.get _ _ _) as [sha |];
        [destruct (JsString.truthy sha) |]; exact I.
    - exact I.
    - unfold setFileContent.
      destruct (date_now_ms amb (snd se)) as [t e1]. exact I. }
  apply G. split; reflexivity.
Qed.

(** X24: whatever calls the in-memory host has served, the pull
    requests it holds are numbered 1, 2, 3, ... in the order of their
    creation, across all repositories; [createPullRequest] never fails,
    gives the next number, and the address it returns is
    https://github.com/<owner>/<repo>/pull/<number>. *)
Theorem pull_requests_are_numbered_in_order {E} (amb : Ambient E)
        (cs : list Call) (e : E) (params : PullRequestParams) :
  let s := fst (history amb cs e) in
  let n := length (getPullRequests s) in
  map prr_number (getPullRequests s) = map (fun i => N.of_nat (S i)) (seq 0 n)
  /\ exists pr s',
      createPullRequest params s = (Ok pr, s')
      /\ pr_number pr = N.of_nat (S n)
      /\ pr_url pr = lit "https://github.com/" ++ pr_owner params ++ lit "/"
                         ++ pr_repo params ++ lit "/pull/"
                         ++ JsString.of_N (N.of_nat (S n))
      /\ getPullRequests s'
         = getPullRequests s
             ++ [{| prr_number := pr_number pr; prr_url := pr_url pr;
                    prr_title := pr_title params; prr_head := pr_head params;
                    prr_base := pr_base params |}]
      /\ branches s' = branches s /\ files s' = files s.
Proof.
  intros s n. destruct (numbered_history amb cs e) as [C L]. fold s in C, L.
  split; [exact L |].
  do 2 eexists. split; [reflexivity |].
  cbn [pr_number pr_url getPullRequests pullRequests branches files].
  rewrite C. repeat split.
Qed.

Lemma file_key_inj (owner repo branch p q : str) :
  file_key owner repo branch p = file_key owner repo branch q -> p = q.
Proof.
  unfold file_key. intros H.
  repeat (apply app_inv_head in H). exact H.
Qed.

Lemma get_put_files (owner repo branch sha path : str) (fs : list (str * str))
      (m : list (str * FileContents)) :
  JsMap.get JsString.eqb (file_key owner repo branch path)
            (put_files owner repo branch sha fs m)
  = match find (fun f => JsString.eqb (fst f) path) (rev fs) with
    | Some f => Some {| fc_content := snd f; fc_sha := sha |}
    | None => JsMap.get JsString.eqb (file_key owner repo branch path) m
    end.
Proof.
  unfold put_files. induction fs as [| [p c] fs IH] using rev_ind.
  - reflexivity.
  - rewrite fold_left_app, rev_app_distr. cbn [fold_left rev app find fst snd].
    destruct (JsString.eqb p path) eqn:E.
    + apply sspec in E. subst p.
      apply (JsMapFacts.get_set_same sspec).
    + rewrite (JsMapFacts.get_set_other sspec); [exact IH |].
      intros K. apply file_key_inj in K. subst p.
      rewrite (JsMapFacts.eqb_refl sspec) in E. discriminate.
Qed.

(** X25: [pushFiles] of the in-memory host returns a new sha that
    begins with "sha-"; afterwards the latest commit of the branch has
    that sha, and [getFileContents] on that branch returns, for a path
    among the pushed files, the content pushed last for it together with
    the new sha, and what it returned before for any other path. *)
Theorem pushed_files_are_read_back {E} (amb : Ambient E) (s : State) (e : E)
        (owner repo branch : str) (fs : list (str * str))
        (commitMessage : str) :
  exists sha s' e',
    pushFiles amb owner repo branch fs commitMessage (s, e) = (Ok sha, (s', e'))
    /\ (exists rest, sha = lit "sha-" ++ rest)
    /\ fst (getLatestCommit owner repo branch s')
       = Ok (Some {| c_sha := sha;
                     c_message := lit "Latest commit message";
                     c_author := lit "Test Author" |})
    /\ (forall path,
           fst (getFileContents owner repo path (Some branch) s')
           = match find (fun f => JsString.eqb (fst f) path) (rev fs) with
             | Some f => Ok (Some {| fc_content := snd f; fc_sha := sha |})
             | None => fst (getFileContents owner repo path (Some branch) s)
             end)
    /\ pullRequests s' = pullRequests s
    /\ prCounter s' = prCounter s.
Proof.
  unfold pushFiles. cbn [fst snd].
  destruct (date_now_ms amb e) as [t e1].
  destruct (math_random36 amb e1) as [r e2].
  do 3 eexists. split; [reflexivity |].
  split; [eexists; reflexivity |].
  unfold getLatestCommit, getFileContents.
  cbn [branches files pullRequests prCounter fst].
  rewrite (JsMapFacts.get_set_same sspec).
  split; [reflexivity |].
  split; [| split; reflexivity].
  intros path. rewrite get_put_files.
  destruct (find _ (rev fs)); reflexivity.
Qed.

End GitHubFacts.

Module OzMockFacts.
Import MockOzAdapter.
Import AgentNotions.

#[local] Abbreviation sspec := JsMapFacts.str_eqb_spec.

Lemma of_N_inj (a b : N) : JsString.of_N a = JsString.of_N b -> a = b.
Proof.
  unfold JsString.of_N, lit. intros H.
  apply (f_equal string_of_list_ascii) in H.
  rewrite !string_of_list_ascii_of_string in H.
  assert (Nn : forall n, N.to_uint n <> Decimal.Nil).
  { intros n. rewrite <- (DecimalN.Unsigned.of_to n) at 1.
    rewrite DecimalN.Unsigned.to_of. apply DecimalFacts.unorm_nonnil. }
  apply (f_equal NilZero.uint_of_string) in H.
  rewrite !NilZero.usu in H by apply Nn.
  injection H as H. apply DecimalN.Unsigned.to_uint_inj. exact H.
Qed.

Lemma run_key_inj (a b : N) : run_key a = run_key b -> a = b.
Proof.
  unfold run_key. intros H. apply app_inv_head in H. apply of_N_inj. exact H.
Qed.

Lemma agent_inv_set_status (runId : str) (status : RunState) (s : State) :
  inv s -> inv (set_status runId status s).
Proof.
  intros I. unfold set_status.
  destruct (JsMap.get JsString.eqb runId (runs s)) as [run |] eqn:G;
    [| exact I].
  intros k r Hin. cbn [runs with_runs runCounter] in *.
  apply (JsMapFacts.In_set sspec) in Hin as [Hin | [-> _]].
  - exact (I _ _ Hin).
  - apply (JsMapFacts.get_In sspec) in G. exact (I _ _ G).
Qed.

Lemma fixBug_state {E} (amb : Ambient E) (params : FixBugParams)
      (s : State) (e : E) :
  exists r e',
    fixBug amb params (s, e)
    = (Ok r, (finished params (fst (date_now_ms amb e)) s, e'))
    /\ runId r = run_key (runCounter s)
    /\ oz_success r = negb (simulateFailure s)
    /\ (if simulateFailure s
        then summary r = lit "Mock fix failed"
             /\ filesModified r = []
             /\ oz_error r = Some (lit "Simulated failure for testing")
             /\ oz_commitSha r = None
        else filesModified r
             = [match find isUserCode (frames (fb_stackTrace params)) with
                | Some f => filePath f
                | None => lit "src/unknown.ts"
                end]
             /\ oz_error r = None
             /\ exists sha, oz_commitSha r = Some (lit "mock-sha-" ++ sha)).
Proof.
  unfold fixBug, finished. cbn [fst snd].
  destruct (date_now_ms amb e) as [t0 e1]. cbn [fst].
  fold (run_key (runCounter s)). fold (started params t0 s).
  cbn [simulatedDelay simulateFailure started].
  destruct (date_now_ms amb (sleep amb (simulatedDelay s) e1)) as [t2 e3].
  assert (F : simulateFailure
                (set_status (run_key (runCounter s))
                            (if simulateFailure s then run_failed
                             else run_completed) (started params t0 s))
              = simulateFailure s).
  { unfold set_status. destruct (JsMap.get _ _ _); reflexivity. }
  rewrite F. destruct (simulateFailure s) eqn:Fs.
  - do 2 eexists. split; [reflexivity |]. repeat split.
  - destruct (date_now_ms amb e3) as [t3 e4].
    do 2 eexists. split; [reflexivity |].
    cbn. repeat split. eexists. reflexivity.
Qed.

Lemma get_finished (params : FixBugParams) (t : N) (s : State) :
  JsMap.get JsString.eqb (run_key (runCounter s)) (runs (finished params t s))
  = Some {| mr_runId := run_key (runCounter s);
            mr_status := if simulateFailure s then run_failed
                         else run_completed;
            mr_errorMessage := fb_errorMessage params;
            mr_repository := fb_repository params;
            mr_branch := fb_branch params;
            mr_startTime := t |}.
Proof.
  unfold finished, set_status. cbn [runs started].
  rewrite (JsMapFacts.get_set_same sspec).
  cbn [with_runs runs].
  rewrite (JsMapFacts.get_set_same sspec). reflexivity.
Qed.

Lemma agent_inv_finished (params : FixBugParams) (t : N) (s : State) :
  inv s -> inv (finished params t s).
Proof.
  intros I. apply agent_inv_set_status. intros k run Hin.
  cbn [runs started runCounter] in *.
  apply (JsMapFacts.In_set sspec) in Hin as [Hin | [-> _]].
  - destruct (I _ _ Hin) as (i & -> & Hi). exists i. split; [reflexivity | lia].
  - exists (runCounter s). split; [reflexivity | lia].
Qed.

Lemma agent_inv_after {E} (amb : Ambient E) (c : Call) (se : State * E) :
  inv (fst se) -> inv (fst (after amb c se)).
Proof.
  intros I. destruct se as [s e]. cbn [fst] in I.
  destruct c as [params | i | i timeoutMs | i | value | ms |];
    cbn [after fst snd].
  - destruct (fixBug_state amb params s e) as (r & e' & -> & _).
    cbn [fst snd]. apply agent_inv_finished. exact I.
  - unfold getRunStatus. cbn [fst snd].
    destruct (JsMap.get _ _ _) as [run |].
    + destruct (RunState_eqb _ _); [exact I |].
      destruct (iso_now amb e). exact I.
    + destruct (iso_now amb e). exact I.
  - unfold waitForCompletion. cbn [fst snd].
    destruct (JsMap.get _ _ _) as [run |]; [| exact I].
    destruct (date_now_ms amb e) as [t e1].
    destruct (mr_status run); try exact I.
    destruct (date_now_ms amb _). exact I.
  - apply agent_inv_set_status. exact I.
  - exact I.
  - exact I.
  - intros k run [].
Qed.

Lemma agent_inv_history {E} (amb : Ambient E) (cs : list Call) (e : E) :
  inv (fst (history amb cs e)).
Proof.
  unfold history.
  assert (G : forall se, inv (fst se) ->
                inv (fst (fold_left (fun se c => after amb c se) cs se))).
  { induction cs as [| c cs IH]; intros se I; simpl; [exact I |].
    apply IH. apply agent_inv_after. exact I. }
  apply G. intros k run [].
Qed.

(** X26: whatever calls the in-memory agent has served, [fixBug]
    returns (nothing else running meanwhile) a result under the run id
    "mock-run-<counter>", which no earlier run of the store has; the
    result is a success exactly if no failure is simulated.  A success
    names one modified file, the file of the first user-code frame of
    the trace or "src/unknown.ts", and a commit; a failure names no file
    and the error "Simulated failure for testing".  The run is stored as
    completed or failed, the other runs are untouched, and
    [waitForCompletion] on the run id then reports the same outcome. *)
Theorem agent_run_is_recorded {E} (amb : Ambient E) (cs : list Call) (e0 : E)
        (params : FixBugParams) :
  let s := fst (history amb cs e0) in
  let e := snd (history amb cs e0) in
  exists r s' e',
    fixBug amb params (s, e) = (Ok r, (s', e'))
    /\ runId r = lit "mock-run-" ++ JsString.of_N (runCounter s)
    /\ JsMap.get JsString.eqb (runId r) (runs s) = None
    /\ oz_success r = negb (simulateFailure s)
    /\ (if simulateFailure s
        then summary r = lit "Mock fix failed"
             /\ filesModified r = []
             /\ oz_error r = Some (lit "Simulated failure for testing")
             /\ oz_commitSha r = None
        else filesModified r
             = [match find isUserCode (frames (fb_stackTrace params)) with
                | Some f => filePath f
                | None => lit "src/unknown.ts"
                end]
             /\ oz_error r = None
             /\ exists sha, oz_commitSha r = Some (lit "mock-sha-" ++ sha))
    /\ (exists run,
           JsMap.get JsString.eqb (runId r) (runs s') = Some run
           /\ mr_status run = (if simulateFailure s then run_failed
                               else run_completed)
           /\ mr_errorMessage run = fb_errorMessage params
           /\ mr_repository run = fb_repository params
           /\ mr_branch run = fb_branch params)
    /\ (forall k, k <> runId r ->
                  JsMap.get JsString.eqb k (runs s')
                  = JsMap.get JsString.eqb k (runs s))
    /\ runCounter s' = (runCounter s + 1)%N
    /\ simulateFailure s' = simulateFailure s
    /\ (forall timeoutMs, exists r2 e2,
           waitForCompletion amb (runId r) timeoutMs (s', e')
           = (Ok r2, (s', e2))
           /\ runId r2 = runId r
           /\ oz_success r2 = oz_success r).
Proof.
  intros s e. pose proof (agent_inv_history amb cs e0) as I. fold s in I.
  destruct (fixBug_state amb params s e) as (r & e' & Efix & Hid & Hok & Hres).
  exists r, (finished params (fst (date_now_ms amb e)) s), e'.
  split; [exact Efix |]. split; [exact Hid |].
  assert (Fresh : JsMap.get JsString.eqb (run_key (runCounter s)) (runs s)
                  = None).
  { destruct (JsMap.get JsString.eqb (run_key (runCounter s)) (runs s))
      as [run |] eqn:G; [| reflexivity].
    apply (JsMapFacts.get_In sspec) in G.
    destruct (I _ _ G) as (i & K & Hi). apply run_key_inj in K. lia. }
  split; [rewrite Hid; exact Fresh |].
  split; [exact Hok |]. split; [exact Hres |].
  rewrite Hid. unfold finished, set_status.
  cbn [runs started].
  rewrite (JsMapFacts.get_set_same sspec).
  cbn [with_runs runs runCounter simulateFailure started mr_runId
       mr_errorMessage mr_repository mr_branch mr_startTime].
  rewrite (JsMapFacts.get_set_same sspec).
  split; [eexists; split; [reflexivity |]; repeat split |].
  split.
  { intros k Hk. rewrite !(JsMapFacts.get_set_other sspec); auto. }
  split; [reflexivity |]. split; [reflexivity |].
  intros timeoutMs. unfold waitForCompletion. cbn [fst snd runs with_runs].
  rewrite (JsMapFacts.get_set_same sspec).
  destruct (date_now_ms amb e') as [t e1].
  cbn [mr_status]. rewrite Hok.
  destruct (simulateFailure s).
  - do 2 eexists. split; [reflexivity |]. split; reflexivity.
  - destruct (date_now_ms amb (sleep amb 100 e1)) as [t' e3].
    do 2 eexists. split; [reflexivity |]. split; reflexivity.
Qed.

End OzMockFacts.

Module OzAdapterFacts.

Section Facts.

Variable E : Type.
Variable amb : Ambient E.
Variable agent_run : AgentRunRequest -> op E AgentRunResponse.
Variable defaultEnvironmentId : option str.

Lemma poll_times_out (rounds : nat) (runId : str) (startTime timeoutMs : N) :
  forall e out e',
    OzAdapter.poll amb rounds runId startTime timeoutMs e = Some (out, e') ->
    exists r, out = Ok r /\ timed_out runId timeoutMs r.
Proof.
  induction rounds as [| rounds IH]; intros e out e' H; [discriminate H |].
  cbn [OzAdapter.poll] in H.
  destruct (date_now_ms amb e) as [t e1].
  destruct (elapsed_ltb t startTime timeoutMs).
  - unfold OzAdapter.getRunStatus in H.
    destruct (iso_now amb e1) as [now e2]. cbn [rs_status] in H.
    exact (IH _ _ _ H).
  - destruct (date_now_ms amb e1) as [t' e2].
    injection H as <- <-. eexists. split; [reflexivity |].
    repeat split.
Qed.

Lemma poll_returns (k : nat) (runId : str) (startTime timeoutMs : N) :
  clock_advances amb ->
  forall e,
    (startTime + timeoutMs <= reading amb e + 5000 * N.of_nat k)%N ->
    exists out e',
      OzAdapter.poll amb (S k) runId startTime timeoutMs e = Some (out, e').
Proof.
  intros [Hread Hsleep]. induction k as [| k IH]; intros e Hk.
  - cbn [OzAdapter.poll]. unfold reading in Hk.
    destruct (date_now_ms amb e) as [t e1]. cbn [fst] in Hk.
    unfold elapsed_ltb.
    destruct (N.ltb_spec t (startTime + timeoutMs)) as [L | L]; [lia |].
    destruct (date_now_ms amb e1) as [t' e2]. do 2 eexists. reflexivity.
  - remember (S k) as k1 eqn:Ek1. cbn [OzAdapter.poll].
    pose proof (Hread e) as R1. unfold reading in Hk, R1.
    destruct (date_now_ms amb e) as [t e1]. cbn [fst snd] in Hk, R1.
    destruct (elapsed_ltb t startTime timeoutMs).
    + unfold OzAdapter.getRunStatus, iso_now.
      pose proof (Hread e1) as R2. unfold reading in R2.
      destruct (date_now_ms amb e1) as [t1 e2]. cbn [fst snd rs_status] in *.
      subst k1. apply IH.
      pose proof (Hsleep 5000%N e2) as R3. unfold reading in *. lia.
    + destruct (date_now_ms amb e1) as [t' e2]. do 2 eexists. reflexivity.
Qed.

(** X27: [fixBug] of the adapter of the real agent never reports a
    success.  It submits the prompt to the SDK; if that call throws, so
    does [fixBug]; otherwise it waits, and since [getRunStatus] always
    answers "running", the only result it can return is the failure
    "Fix timed out" with the error "Timeout after 300000ms", under the
    run id of the response (or its task id, or "unknown").  With a clock
    that is not set back and that a timer moves on, it does return: 62
    rounds of the loop are enough. *)
Theorem real_agent_run_only_times_out (params : FixBugParams) (e : E) :
  (forall rounds out e',
      OzAdapter.fixBug amb agent_run defaultEnvironmentId rounds params e
      = Some (out, e') ->
      match agent_run (OzAdapter.request defaultEnvironmentId params) e with
      | (Throw err, x) => out = Throw err /\ e' = x
      | (Ok response, _) =>
          exists r,
            out = Ok r
            /\ timed_out (match run_id response with
                          | Some i => i
                          | None => match task_id response with
                                    | Some t => t
                                    | None => lit "unknown"
                                    end
                          end) 300000 r
      end)
  /\ (clock_advances amb ->
      forall rounds, 62 <= rounds ->
        exists out e',
          OzAdapter.fixBug amb agent_run defaultEnvironmentId rounds params e
          = Some (out, e')).
Proof.
  split.
  - intros rounds out e' H. unfold OzAdapter.fixBug in H.
    
    destruct (agent_run (OzAdapter.request defaultEnvironmentId params) e) as [[response | err] e1].
    + unfold OzAdapter.waitForCompletion in H.
      destruct (date_now_ms amb e1) as [t0 e2].
      exact (poll_times_out _ _ _ _ _ H).
    + injection H as <- <-. split; reflexivity.
  - intros Hc rounds Hr. unfold OzAdapter.fixBug.
    destruct (agent_run _ e) as [[response | err] e1];
      [| do 2 eexists; reflexivity].
    unfold OzAdapter.waitForCompletion.
    pose proof (proj1 Hc e1) as R. unfold reading in R.
    destruct (date_now_ms amb e1) as [t0 e2] eqn:D. cbn [fst snd] in R.
    destruct rounds as [| k]; [lia |].
    apply poll_returns; [exact Hc |]. fold (reading amb e2) in R. lia.
Qed.

End Facts.

Lemma simulated_clock_advances : clock_advances simulated.
Proof.
  split.
  - intros e. unfold reading. cbn. lia.
  - intros ms e. unfold reading. cbn. lia.
Qed.

Lemma real_agent_run_only_times_out_witness :
  clock_advances simulated
  /\ exists out e',
      OzAdapter.fixBug simulated accepting None 62
        {| fb_errorMessage := lit "boom";
           fb_stackTrace :=
             StackTraceParserService.parse (lit "boom") None;
           fb_repository := lit "myorg/user-service";
           fb_branch := lit "bug/auto-fix-1";
           fb_context := None;
           fb_environmentId := None |} 0%N
      = Some (out, e').
Proof.
  split; [exact simulated_clock_advances |].
  apply (proj2 (real_agent_run_only_times_out simulated accepting None _ 0%N));
    [exact simulated_clock_advances | apply le_n].
Defined.

End OzAdapterFacts.

Module MockModeFacts.

Section Facts.

Variables T E : Type.

#[local] Abbreviation gh := (MockMode.githubAdapter T E).
#[local] Abbreviation Sys := (MockMode.Systems T E).

Lemma mock_getRepositoryInfo (fullName : str) (x : Sys) (tr : list Event) :
  exists out evs,
    getRepositoryInfo gh fullName {| ext := x; trace := tr |}
    = (Ok out, {| ext := x; trace := tr ++ evs |})
    /\ forall info, out = Some info -> defaultBranch info = lit "main".
Proof.
  destruct x as [d v g o c e].
  unfold getRepositoryInfo.
  destruct (nth_error (JsString.split "/" fullName) 0) as [ow |];
    [| exists None, []; rewrite app_nil_r; split; [reflexivity | discriminate]].
  destruct (nth_error (JsString.split "/" fullName) 1) as [rp |];
    [| exists None, []; rewrite app_nil_r; split; [reflexivity | discriminate]].
  destruct (negb (JsString.truthy ow) || negb (JsString.truthy rp));
    [exists None, []; rewrite app_nil_r; split; [reflexivity | discriminate] |].
  do 2 eexists. split; [reflexivity |].
  intros info [= <-]. reflexivity.
Qed.

Ltac none_here :=
  exists None, []; rewrite app_nil_r; split; [reflexivity | discriminate].

Lemma mock_scan_frames (fs : list StackFrame) :
  forall (x : Sys) (tr : list Event),
  exists out evs,
    scan_frames gh fs {| ext := x; trace := tr |}
    = (Ok out, {| ext := x; trace := tr ++ evs |})
    /\ forall info, out = Some info -> defaultBranch info = lit "main".
Proof.
  induction fs as [| f fs IH]; intros x tr; [none_here |].
  cbn [scan_frames]. unfold bind.
  assert (P : exists out evs,
             frame_path_repo gh f {| ext := x; trace := tr |}
             = (Ok out, {| ext := x; trace := tr ++ evs |})
             /\ forall info, out = Some info -> defaultBranch info = lit "main").
  { unfold frame_path_repo.
    destruct (Regex.exec re_github (filePath f)) as [m |]; [| none_here].
    destruct (Regex.group 1 m) as [ow |]; [| none_here].
    destruct (Regex.group 2 m) as [rp |]; [| none_here].
    destruct (JsString.truthy ow && JsString.truthy rp); [| none_here].
    apply mock_getRepositoryInfo. }
  destruct P as (o1 & ev1 & -> & H1).
  destruct o1 as [info |].
  { do 2 eexists. split; [reflexivity | exact H1]. }
  assert (Q : exists out evs,
             frame_meta_repo gh f {| ext := x; trace := tr ++ ev1 |}
             = (Ok out, {| ext := x; trace := (tr ++ ev1) ++ evs |})
             /\ forall info, out = Some info -> defaultBranch info = lit "main").
  { unfold frame_meta_repo.
    destruct (frame_repository f) as [r |]; [| none_here].
    destruct (JsString.truthy r); [| none_here].
    apply mock_getRepositoryInfo. }
  destruct Q as (o2 & ev2 & -> & H2).
  destruct o2 as [info |].
  { exists (Some info), (ev1 ++ ev2). rewrite app_assoc.
    split; [reflexivity | exact H2]. }
  destruct (IH x ((tr ++ ev1) ++ ev2)) as (o3 & ev3 & -> & H3).
  exists o3, (ev1 ++ ev2 ++ ev3). rewrite !app_assoc.
  split; [reflexivity | exact H3].
Qed.

(** On the in-memory host the resolver finds a repository for every
    error that names its source, and changes nothing. *)
Lemma mock_finder (error : AuditLogError) (st : StackTrace)
      (x : Sys) (tr : list Event) :
  JsString.truthy (source error) = true ->
  exists info evs,
    findRepository gh None error st {| ext := x; trace := tr |}
    = (Ok (Some info), {| ext := x; trace := tr ++ evs |})
    /\ defaultBranch info = lit "main".
Proof.
  intros Hsrc. unfold findRepository, bind.
  assert (P : exists out evs,
             from_hint gh error {| ext := x; trace := tr |}
             = (Ok out, {| ext := x; trace := tr ++ evs |})
             /\ forall info, out = Some info -> defaultBranch info = lit "main").
  { unfold from_hint.
    destruct (repository error) as [r |]; [| none_here].
    destruct (JsString.truthy r); [| none_here].
    apply mock_getRepositoryInfo. }
  destruct P as (o1 & ev1 & -> & H1).
  destruct o1 as [info |].
  { do 2 eexists. split; [reflexivity | apply H1; reflexivity]. }
  unfold from_mapping, ret. unfold findRepositoryFromStackTrace.
  destruct (mock_scan_frames (filter isUserCode (frames st)) x (tr ++ ev1))
    as (o2 & ev2 & -> & H2).
  destruct o2 as [info |].
  { exists info, (ev1 ++ ev2). rewrite app_assoc.
    split; [reflexivity | apply H2; reflexivity]. }
  unfold searchForRepository.
  assert (Hterms : searchTerms_of error st <> []).
  { unfold searchTerms_of. rewrite Hsrc.
    destruct (ResolverExtras.fold_add_file_name
                (firstn 3 (filter isUserCode (frames st)))
                (terms := [source error]))
      as (_ & _ & _ & (rest & ->) & _).
    - constructor; [simpl; tauto | constructor].
    - repeat constructor. destruct (source error); discriminate.
    - discriminate. }
  destruct (searchTerms_of error st) as [| t ts]; [contradiction |].
  destruct x as [d v g o c e].
  unfold try_catch, bind, call, ret.
  cbn [searchRepositories MockMode.githubAdapter MockMode.on_github
       MockGitHubAdapter.searchRepositories ext trace MockMode.github
       MockMode.dynamo MockMode.devops MockMode.oz MockMode.chat MockMode.env].
  do 2 eexists. split; [rewrite <- !app_assoc; reflexivity | reflexivity].
Qed.

(** X28: on the in-memory host the resolver finds a repository for
    every error that names its source: it returns without throwing, it
    leaves the systems as they are, it makes only look-ups and searches,
    and the repository it answers has "main" as default branch. *)
Theorem in_memory_host_always_resolves (error : AuditLogError)
        (st : StackTrace) (w : World Sys) :
  JsString.truthy (source error) = true ->
  exists info w',
    repositoryFinder_findRepository gh error st w = (Ok (Some info), w')
    /\ ext w' = ext w
    /\ defaultBranch info = lit "main"
    /\ exists evs, trace w' = trace w ++ evs /\ forallb is_lookup evs = true.
Proof.
  intros Hsrc. destruct w as [x tr].
  destruct (mock_finder error st x tr Hsrc) as (info & evs & Hf & Hmain).
  unfold repositoryFinder_findRepository.
  exists info. eexists. split; [exact Hf |].
  split; [reflexivity |]. split; [exact Hmain |].
  destruct (@appends_findRepository _ gh None error st _ _ _ Hf)
    as (evs' & Tf & Lf).
  cbn [trace] in Tf. apply app_inv_head in Tf. subst evs'.
  exists evs. split; [reflexivity | exact Lf].
Qed.

Variable amb : Ambient E.
Variable write_log : LogLevel -> str -> list (str * str) -> E -> E.
Variable teams : ITeamsAdapter T.
Variable config : OrchestratorConfig.

#[local] Abbreviation rt := (MockMode.runtime T amb write_log).
#[local] Abbreviation mk := (@MockMode.Build_Systems T E).

Lemma mock_now d v g o c e :
  now rt (mk d v g o c e)
  = (toISOString amb (fst (date_now_ms amb e)),
     mk d v g o c (snd (date_now_ms amb e))).
Proof.
  cbn [now MockMode.runtime]. unfold MockMode.on_env, iso_now.
  cbn [MockMode.env]. destruct (date_now_ms amb e). reflexivity.
Qed.

Lemma processError_unfold (W : Type) (r0 : Runtime W)
      (da : IDynamoDBAdapter W) (dv : IDevOpsAdapter W) (ga : IGitHubAdapter W)
      (ta : ITeamsAdapter W) (oa : IOzAdapter W) (error : AuditLogError)
      (w : World W) :
  processError r0 da dv ga ta oa config error w
  = let status := initial_status (fst (now r0 (ext w))) in
    match processError_try r0 da dv ga ta oa config error
            (status,
             {| ext := snd (now r0 (ext w));
                trace := (trace w ++ [EvNow]) ++ [EvStatus status] |}) with
    | (Ok r, (_, w')) => (Ok r, w')
    | (Throw err, (status', w')) =>
        processError_catch r0 ta config error status' err w'
    end.
Proof.
  unfold processError. unfold bind at 1. unfold date_now, call_total.
  destruct (now r0 (ext w)) as [t x]. unfold bind at 1. unfold note.
  reflexivity.
Qed.

Ltac sys :=
  cbn [ext trace fst snd
       MockMode.dynamo MockMode.devops MockMode.github MockMode.oz
       MockMode.chat MockMode.env
       log MockMode.runtime
       createBug addComment linkPullRequest MockMode.devOpsAdapter
       MockMode.on_devops
       createBranch createPullRequest MockMode.githubAdapter
       MockMode.on_github
       fixBug MockMode.ozAdapter MockMode.on_oz
       sendPRNotification sendErrorNotification MockMode.teamsAdapter
       MockMode.on_chat
       markAsProcessed updateErrorWithFixInfo MockMode.dynamoAdapter
       MockMode.on_dynamo pr_url pr_number].

Ltac step_advance :=
  match goal with
  | |- context [@bind ?a ?b ?c (advance ?r ?st ?p ?m) ?k ?s] =>
      rewrite (@bind_advance _ r c st p m k s)
  end; sys.

Ltac step_call :=
  match goal with
  | |- context [@bind ?a ?b ?c (lift (call ?ev ?o)) ?k ?s] =>
      rewrite (@bind_lift_call _ b c ev o k s)
  end; sys.

Ltac step_now :=
  match goal with
  | |- context [@bind ?a ?b ?c (lift (date_now ?r)) ?k ?s] =>
      rewrite (@bind_lift_now _ r c k s)
  end; sys.

(** X29: one run of [processError] on the in-memory adapters, with a
    chat adapter that delivers the notification, for an error that names
    its source and is held by the audit store, while the agent simulates
    no failure.  The run succeeds.  Its result names the ticket (the
    counter of the tracker), the pull request (the counter of the host,
    at https://github.com/<owner>/<repo>/pull/<number> of the repository
    the resolver found), the branch "bug/auto-fix-<error id>" and the
    run "mock-run-<counter of the agent>".  Afterwards the tracker holds
    the ticket, linked to the pull request and with one comment; the
    host holds the branch and the pull request from that branch to
    "main"; the agent holds the run as completed; the store holds the
    record as processed, with the ticket, the pull request, the branch,
    the run and the time of the fix in its metadata. *)
Theorem in_memory_run_fixes_the_error (error : AuditLogError)
        (x : Sys) (tr : list Event) :
  let w := {| ext := x; trace := tr |} in
  let st := StackTraceParserService.parse (stackTrace error)
                                          (Some (message error)) in
  let ticket := MockDevOpsAdapter.idCounter (MockMode.devops x) in
  let number := MockGitHubAdapter.prCounter (MockMode.github x) in
  let run := lit "mock-run-"
                 ++ JsString.of_N (MockOzAdapter.runCounter (MockMode.oz x)) in
  let branchName := lit "bug/auto-fix-" ++ id error in
  JsString.truthy (source error) = true ->
  (forall p t, exists t', sendPRNotification teams p t = (Ok tt, t')) ->
  MockOzAdapter.simulateFailure (MockMode.oz x) = false ->
  fst (MockDynamoDBAdapter.getErrorById (id error) (MockMode.dynamo x))
  = Ok (Some error) ->
  exists r w' info,
    MockMode.processError amb write_log teams config error w = (Ok r, w')
    /\ fst (repositoryFinder_findRepository gh error st
                                            (snd (before_resolution rt w)))
       = Ok (Some info)
    /\ let url := lit "https://github.com/" ++ owner info ++ lit "/"
                       ++ name info ++ lit "/pull/" ++ JsString.of_N number in
       (* the result *)
       success r = true
       /\ errorId r = id error
       /\ fr_repository r = fullName info
       /\ branch r = branchName
       /\ workItemId r = Some ticket
       /\ pullRequestNumber r = Some number
       /\ pullRequestUrl r = Some url
       /\ ozRunId r = Some run
       /\ length (modifiedFiles r) = 1
       (* the tracker *)
       /\ (exists wi,
              fst (MockDevOpsAdapter.getWorkItem (Some ticket)
                                                 (MockMode.devops (ext w')))
              = Ok (Some wi)
              /\ wi_id wi = Some ticket
              /\ wi_relatedErrorId wi = id error
              /\ wi_title wi
                 = lit "[Auto-Fix] " ++ JsString.slice0 100 (message error)
              /\ wi_pullRequestUrl wi = Some url)
       /\ MockDevOpsAdapter.getComments (Some ticket)
                                        (MockMode.devops (ext w'))
          = [lit "Automated fix PR created: " ++ url ++ nl ++ nl
                 ++ lit "Fix summary: " ++ fixSummary r]
       (* the host *)
       /\ JsMap.get JsString.eqb
                    (MockGitHubAdapter.branch_key (owner info) (name info)
                                                  branchName)
                    (MockGitHubAdapter.branches (MockMode.github (ext w')))
          = Some (match JsMap.get JsString.eqb
                          (MockGitHubAdapter.branch_key (owner info)
                                                        (name info)
                                                        (lit "main"))
                          (MockGitHubAdapter.branches (MockMode.github x))
                  with
                  | Some sha => sha
                  | None => lit "default-sha"
                  end)
       /\ MockGitHubAdapter.getPullRequests (MockMode.github (ext w'))
          = MockGitHubAdapter.getPullRequests (MockMode.github x)
              ++ [{| prr_number := number;
                     prr_url := url;
                     prr_title := lit "[Auto-Fix] "
                                      ++ JsString.slice0 80 (message error);
                     prr_head := branchName;
                     prr_base := lit "main" |}]
       (* the agent *)
       /\ (exists mr,
              JsMap.get JsString.eqb run
                        (MockOzAdapter.runs (MockMode.oz (ext w')))
              = Some mr
              /\ MockOzAdapter.mr_status mr = run_completed
              /\ MockOzAdapter.mr_branch mr = branchName)
       (* the audit store *)
       /\ (exists e' m',
              fst (MockDynamoDBAdapter.getErrorById
                     (id error) (MockMode.dynamo (ext w')))
              = Ok (Some e')
              /\ processed e' = true
              /\ id e' = id error
              /\ metadata e' = Some m'
              /\ map_get (lit "workItemId") m' = Some (JsString.of_N ticket)
              /\ map_get (lit "pullRequestUrl") m' = Some url
              /\ map_get (lit "branch") m' = Some branchName
              /\ map_get (lit "ozRunId") m' = Some run
              /\ exists fixedAt, map_get (lit "fixedAt") m' = Some fixedAt).
Proof.
  intros w st ticket number run branchName Hsrc Hteams Hoz Hstored.
  subst w. destruct x as [d v g o c e].
  cbn [MockMode.devops MockMode.oz MockMode.dynamo MockMode.github] in *.
  unfold MockDynamoDBAdapter.getErrorById in Hstored. cbn [fst] in Hstored.
  injection Hstored as Hstored.
  unfold MockMode.processError. rewrite processError_unfold.
  unfold before_resolution.
  cbv zeta. cbn [ext trace]. rewrite mock_now. cbn [fst snd].
  set (t0 := fst (date_now_ms amb e)). set (e0 := snd (date_now_ms amb e)).
  rewrite advance_snd. sys.
  unfold processError_try.
  step_advance.
  unfold bind at 1. unfold lift at 1. cbn [fst snd].
  fold st.
  match goal with
  | |- context [repositoryFinder_findRepository _ error st
                  {| ext := ?x; trace := ?t |}] =>
      destruct (mock_finder error st x t Hsrc) as (info & fevs & Hf & Hmain)
  end.
  unfold repositoryFinder_findRepository. rewrite Hf.
  cbn [fst snd].
  step_advance. step_call.
  unfold MockDevOpsAdapter.createBug at 1. sys.
  set (wi := Build_BugWorkItem (Some (MockDevOpsAdapter.idCounter v))
                               _ _ _ _ _ _ _ _ _ _ _ _ _).
  set (v1 := MockDevOpsAdapter.Build_State _ _ _).
  step_advance. step_call.
  unfold MockGitHubAdapter.createBranch at 1. sys.
  set (g1 := MockGitHubAdapter.Build_State _ _ _ _).
  step_advance. step_call.
  unfold MockMode.on_oz at 1. sys.
  match goal with
  | |- context [MockOzAdapter.fixBug amb ?p (o, ?ee)] =>
      destruct (OzMockFacts.fixBug_state amb p o ee)
        as (ozr & e1 & Efix & Hrun & Hok & Hres);
      set (params := p) in *
  end.
  rewrite Efix. sys.
  rewrite Hoz in Hok, Hres. cbn [negb] in Hok. rewrite Hok. cbn [negb].
  set (o1 := AgentNotions.finished _ _ _) in *.
  step_advance. step_call.
  unfold MockGitHubAdapter.createPullRequest at 1. sys.
  set (g2 := MockGitHubAdapter.Build_State _ _ _ _).
  set (url := lit "https://github.com/" ++ _).
  step_call.
  assert (Hget1 : JsMap.get number_eqb (wi_id wi)
                            (MockDevOpsAdapter.workItems v1) = Some wi).
  { apply (JsMapFacts.get_set_same JsMapFacts.number_eqb_spec). }
  unfold MockMode.on_devops at 1. unfold MockDevOpsAdapter.linkPullRequest at 1.
  sys. rewrite Hget1. sys.
  match goal with
  | |- context [JsMap.set number_eqb (wi_id wi) ?r
                          (MockDevOpsAdapter.workItems v1)] =>
      set (wi2 := r)
  end.
  set (v2 := MockDevOpsAdapter.Build_State _ _ _).
  step_call.
  unfold MockDevOpsAdapter.addComment at 1. sys.
  set (v3 := MockDevOpsAdapter.Build_State _ _ _).
  step_advance. step_call.
  unfold MockMode.on_chat at 1. sys.
  match goal with
  | |- context [sendPRNotification teams ?p c] =>
      destruct (Hteams p c) as (c1 & ->)
  end.
  sys.
  step_advance. step_call.
  unfold MockMode.on_dynamo at 1. unfold MockDynamoDBAdapter.markAsProcessed at 1.
  sys. rewrite Hstored. sys.
  match goal with
  | |- context [JsMap.set JsString.eqb (id error) ?r
                          (MockDynamoDBAdapter.errors d)] =>
      set (err1 := r)
  end.
  set (d1 := MockDynamoDBAdapter.Build_State _).
  step_now. rewrite mock_now. sys.
  step_call.
  assert (Hget2 : JsMap.get JsString.eqb (id error)
                            (MockDynamoDBAdapter.errors d1) = Some err1).
  { apply (JsMapFacts.get_set_same JsMapFacts.str_eqb_spec). }
  unfold MockMode.on_dynamo at 1.
  unfold MockDynamoDBAdapter.updateErrorWithFixInfo at 1.
  sys. rewrite Hget2. sys.
  match goal with
  | |- context [JsMap.set JsString.eqb (id error) ?r
                          (MockDynamoDBAdapter.errors d1)] =>
      set (err2 := r)
  end.
  set (d2 := MockDynamoDBAdapter.Build_State _).
  step_now. rewrite mock_now. sys.
  unfold ret.
  do 2 eexists. exists info.
  split; [reflexivity |]. split; [reflexivity |].
  cbv zeta.
  cbn [success errorId fr_repository branch workItemId pullRequestNumber
       pullRequestUrl ozRunId modifiedFiles fixSummary ext
       MockMode.devops MockMode.github MockMode.oz MockMode.dynamo].
  split; [reflexivity |]. split; [reflexivity |]. split; [reflexivity |].
  split; [reflexivity |]. split; [reflexivity |]. split; [reflexivity |].
  split; [reflexivity |].
  split; [rewrite Hrun; reflexivity |].
  split; [rewrite (proj1 Hres); reflexivity |].
  split.
  { exists wi2. unfold MockDevOpsAdapter.getWorkItem. cbn [fst].
    subst v3 v2. cbn [MockDevOpsAdapter.workItems].
    change (Some ticket) with (wi_id wi).
    rewrite (JsMapFacts.get_set_same JsMapFacts.number_eqb_spec).
    repeat split. }
  split.
  { unfold MockDevOpsAdapter.getComments.
    subst v3 v2 v1. cbn [MockDevOpsAdapter.comments].
    change (wi_id wi) with (Some ticket).
    rewrite !(JsMapFacts.get_set_same JsMapFacts.number_eqb_spec).
    reflexivity. }
  split.
  { subst g2 g1. cbn [MockGitHubAdapter.branches].
    rewrite (JsMapFacts.get_set_same JsMapFacts.str_eqb_spec).
    rewrite Hmain. reflexivity. }
  split.
  { subst g2 g1. unfold MockGitHubAdapter.getPullRequests.
    cbn [MockGitHubAdapter.pullRequests pr_title pr_head pr_base].
    rewrite Hmain. reflexivity. }
  split.
  { subst o1. change run with (AgentNotions.run_key (MockOzAdapter.runCounter o)).
    rewrite OzMockFacts.get_finished. rewrite Hoz.
    eexists. split; [reflexivity |]. split; reflexivity. }
  exists err2.
  unfold MockDynamoDBAdapter.getErrorById. cbn [fst].
  subst d2. cbn [MockDynamoDBAdapter.errors].
  rewrite (JsMapFacts.get_set_same JsMapFacts.str_eqb_spec).
  eexists. split; [reflexivity |].
  split; [reflexivity |]. split; [reflexivity |]. split; [reflexivity |].
  rewrite !DynamoFacts.map_get_spread.
  split; [reflexivity |]. split; [reflexivity |]. split; [reflexivity |].
  split; [| eexists; reflexivity].
  subst err1. cbn [metadata]. rewrite DynamoFacts.map_get_spread.
  change run with (AgentNotions.run_key (MockOzAdapter.runCounter o)).
  rewrite <- Hrun. reflexivity.
Qed.

(** X30: one run of [processError] on the in-memory adapters while the
    agent simulates a failure, for an error that names its source.  The
    run returns a failure whose message is "Oz agent failed to fix bug:
    Simulated failure for testing" and which names neither ticket nor
    pull request.  The ticket and the branch it created stay behind,
    the ticket without link or comment; no pull request is created; the
    run of the agent is stored as failed; the audit store is as it was,
    so the error is still unprocessed; the chat adapter is asked once to
    send an error notification for the stage "running_oz_agent". *)
Theorem in_memory_failure_leaves_the_error_open (error : AuditLogError)
        (x : Sys) (tr : list Event) :
  let w := {| ext := x; trace := tr |} in
  let st := StackTraceParserService.parse (stackTrace error)
                                          (Some (message error)) in
  let ticket := MockDevOpsAdapter.idCounter (MockMode.devops x) in
  let run := lit "mock-run-"
                 ++ JsString.of_N (MockOzAdapter.runCounter (MockMode.oz x)) in
  let branchName := lit "bug/auto-fix-" ++ id error in
  let text := lit "Oz agent failed to fix bug: Simulated failure for testing" in
  JsString.truthy (source error) = true ->
  MockOzAdapter.simulateFailure (MockMode.oz x) = true ->
  exists r w' info,
    MockMode.processError amb write_log teams config error w = (Ok r, w')
    /\ fst (repositoryFinder_findRepository gh error st
                                            (snd (before_resolution rt w)))
       = Ok (Some info)
    (* the result *)
    /\ success r = false
    /\ errorId r = id error
    /\ errorMessage r = Some text
    /\ workItemId r = None
    /\ pullRequestUrl r = None
    /\ ozRunId r = None
    (* the tracker *)
    /\ (exists wi,
           fst (MockDevOpsAdapter.getWorkItem (Some ticket)
                                              (MockMode.devops (ext w')))
           = Ok (Some wi)
           /\ wi_relatedErrorId wi = id error
           /\ wi_pullRequestUrl wi = None)
    /\ MockDevOpsAdapter.getComments (Some ticket) (MockMode.devops (ext w'))
       = []
    /\ MockDevOpsAdapter.idCounter (MockMode.devops (ext w'))
       = (ticket + 1)%N
    (* the host *)
    /\ JsMap.get JsString.eqb
                 (MockGitHubAdapter.branch_key (owner info) (name info)
                                               branchName)
                 (MockGitHubAdapter.branches (MockMode.github (ext w')))
       <> None
    /\ MockGitHubAdapter.getPullRequests (MockMode.github (ext w'))
       = MockGitHubAdapter.getPullRequests (MockMode.github x)
    (* the agent *)
    /\ (exists mr,
           JsMap.get JsString.eqb run
                     (MockOzAdapter.runs (MockMode.oz (ext w')))
           = Some mr
           /\ MockOzAdapter.mr_status mr = run_failed)
    (* the audit store *)
    /\ MockMode.dynamo (ext w') = MockMode.dynamo x
    (* the chat *)
    /\ error_notifications (skipn (length tr) (trace w'))
       = [{| en_teamId := teamsTeamId config;
             en_channelId := teamsChannelId config;
             en_errorMessage := text;
             en_errorId := id error;
             en_stage := lit "running_oz_agent" |}].
Proof.
  intros w st ticket run branchName text Hsrc Hoz.
  subst w. destruct x as [d v g o c e].
  cbn [MockMode.devops MockMode.oz MockMode.dynamo MockMode.github] in *.
  unfold MockMode.processError. rewrite processError_unfold.
  unfold before_resolution.
  cbv zeta. cbn [ext trace]. rewrite mock_now. cbn [fst snd].
  set (t0 := fst (date_now_ms amb e)). set (e0 := snd (date_now_ms amb e)).
  rewrite advance_snd. sys.
  unfold processError_try.
  step_advance.
  unfold bind at 1. unfold lift at 1. cbn [fst snd].
  fold st.
  match goal with
  | |- context [repositoryFinder_findRepository _ error st
                  {| ext := ?x; trace := ?t |}] =>
      destruct (mock_finder error st x t Hsrc) as (info & fevs & Hf & Hmain)
  end.
  unfold repositoryFinder_findRepository. rewrite Hf.
  destruct (@appends_findRepository _ gh None error st _ _ _ Hf)
    as (fevs' & Tf & Lf).
  cbn [trace] in Tf. apply app_inv_head in Tf. subst fevs'.
  destruct (lookups_make_no_step fevs Lf) as (_ & _ & Hno & _).
  cbn [fst snd].
  step_advance. step_call.
  unfold MockDevOpsAdapter.createBug at 1. sys.
  set (wi := Build_BugWorkItem (Some (MockDevOpsAdapter.idCounter v))
                               _ _ _ _ _ _ _ _ _ _ _ _ _).
  set (v1 := MockDevOpsAdapter.Build_State _ _ _).
  step_advance. step_call.
  unfold MockGitHubAdapter.createBranch at 1. sys.
  set (g1 := MockGitHubAdapter.Build_State _ _ _ _).
  step_advance. step_call.
  unfold MockMode.on_oz at 1. sys.
  match goal with
  | |- context [MockOzAdapter.fixBug amb ?p (o, ?ee)] =>
      destruct (OzMockFacts.fixBug_state amb p o ee)
        as (ozr & e1 & Efix & Hrun & Hok & Hres);
      set (params := p) in *
  end.
  rewrite Efix. sys.
  rewrite Hoz in Hok, Hres. cbn [negb] in Hok. rewrite Hok. cbn [negb].
  destruct Hres as (_ & _ & Herr & _). rewrite Herr.
  set (o1 := AgentNotions.finished _ _ _) in *.
  unfold throw.
  unfold processError_catch, handleWorkflowError.
  unfold bind, try_catch, logger, date_now, call, call_total, ret.
  sys.
  unfold MockMode.on_chat. sys.
  match goal with
  | |- context [sendErrorNotification teams ?p c] =>
      destruct (sendErrorNotification teams p c) as [[u | ne] c1]
  end; sys; rewrite mock_now; sys.
  all: do 2 eexists; exists info.
  all: split; [reflexivity |]. 
  all: split; [reflexivity |].
  all: cbn [success errorId errorMessage workItemId pullRequestUrl ozRunId
            ext trace MockMode.devops MockMode.github MockMode.oz
            MockMode.dynamo].
  all: repeat (split; [reflexivity |]).
  all: split;
    [exists wi; unfold MockDevOpsAdapter.getWorkItem; cbn [fst];
     subst v1; cbn [MockDevOpsAdapter.workItems];
     rewrite (JsMapFacts.get_set_same JsMapFacts.number_eqb_spec);
     repeat split |].
  all: split;
    [unfold MockDevOpsAdapter.getComments; subst v1;
     cbn [MockDevOpsAdapter.comments];
     rewrite (JsMapFacts.get_set_same JsMapFacts.number_eqb_spec);
     reflexivity |].
  all: split; [reflexivity |].
  all: split;
    [subst g1; cbn [MockGitHubAdapter.branches];
     rewrite (JsMapFacts.get_set_same JsMapFacts.str_eqb_spec);
     discriminate |].
  all: split; [reflexivity |].
  all: split;
    [subst o1;
     change run with (AgentNotions.run_key (MockOzAdapter.runCounter o));
     rewrite OzMockFacts.get_finished, Hoz;
     eexists; split; reflexivity |].
  all: split; [reflexivity |].
  all: rewrite <- !(@app_assoc Event), skipn_app, Nat.sub_diag.
  all: rewrite skipn_all, app_nil_l; cbn [skipn].
  all: rewrite !error_notifications_app, Hno.
  all: reflexivity.
Qed.

End Facts.

Lemma in_memory_host_always_resolves_witness :
  JsString.truthy (source seeded_error) = true
  /\ exists info w',
      repositoryFinder_findRepository
        (MockMode.githubAdapter unit N) seeded_error
        (StackTraceParserService.parse (stackTrace seeded_error)
                                       (Some (message seeded_error)))
        {| ext := fresh_systems; trace := [] |}
      = (Ok (Some info), w')
      /\ defaultBranch info = lit "main".
Proof.
  split; [reflexivity |].
  destruct (@in_memory_host_always_resolves
              unit N seeded_error
              (StackTraceParserService.parse (stackTrace seeded_error)
                                             (Some (message seeded_error)))
              {| ext := fresh_systems; trace := [] |} eq_refl)
    as (info & w' & Hf & _ & Hmain & _).
  exists info, w'. split; assumption.
Defined.

Lemma in_memory_run_fixes_the_error_witness :
  JsString.truthy (source seeded_error) = true
  /\ MockOzAdapter.simulateFailure (MockMode.oz fresh_systems) = false
  /\ fst (MockDynamoDBAdapter.getErrorById (id seeded_error)
                                           (MockMode.dynamo fresh_systems))
     = Ok (Some seeded_error)
  /\ exists r w',
      MockMode.processError simulated (fun _ _ _ t => t) delivering
                            Mock.config seeded_error
                            {| ext := fresh_systems; trace := [] |}
      = (Ok r, w')
      /\ success r = true
      /\ workItemId r = Some 1000%N
      /\ pullRequestNumber r = Some 1%N.
Proof.
  split; [reflexivity |]. split; [reflexivity |].
  split; [vm_compute; reflexivity |].
  destruct (@in_memory_run_fixes_the_error
              unit N simulated (fun _ _ _ t => t) delivering Mock.config
              seeded_error fresh_systems [] eq_refl)
    as (r & w' & info & Hrun & _ & Hres).
  - intros p t. exists t. reflexivity.
  - reflexivity.
  - vm_compute. reflexivity.
  - exists r, w'. split; [exact Hrun |].
    cbv zeta in Hres.
    destruct Hres as (H1 & _ & _ & _ & H5 & H6 & _).
    split; [exact H1 |]. split; [exact H5 | exact H6].
Defined.

Lemma in_memory_failure_leaves_the_error_open_witness :
  JsString.truthy (source seeded_error) = true
  /\ MockOzAdapter.simulateFailure (MockMode.oz failing_systems) = true
  /\ exists r w',
      MockMode.processError simulated (fun _ _ _ t => t) delivering
                            Mock.config seeded_error
                            {| ext := failing_systems; trace := [] |}
      = (Ok r, w')
      /\ success r = false
      /\ MockMode.dynamo (ext w') = MockMode.dynamo failing_systems.
Proof.
  split; [reflexivity |]. split; [reflexivity |].
  destruct (@in_memory_failure_leaves_the_error_open
              unit N simulated (fun _ _ _ t => t) delivering Mock.config
              seeded_error failing_systems [] eq_refl eq_refl)
    as (r & w' & info & Hrun & _ & H1 & _ & _ & _ & _ & _ & _ & _ & _ & _
        & _ & _ & Hd & _).
  exists r, w'. split; [exact Hrun |]. split; [exact H1 | exact Hd].
Defined.

End MockModeFacts.
